(* ===== verification/_CoqProject ===== *)
-Q . S2P
Prelude.v
Enums.v
Contracts.v
Permissions.v
Budgets.v
Telemetry.v
Breaker.v
Database.v
Scenario.v
Transitions.v
Missions.v
Api.v
Gateway.v
Config.v
Wiring.v
Auth.v
Ledger.v
Checkpoints.v
Adapter.v
Artifacts.v
Executor.v
Lease.v
Consumers.v
Recovery.v
RateLimit.v
Rooms.v
Routes.v
Projects.v
Tools.v
Providers.v
RoomsView.v
Closure.v
Worker.v
Agents.v
Reads.v
Responses.v
Personas.v
AgentRuntime.v
Scripts.v
Demo.v
Schema.v
Progress.v
Integrity.v
Isolation.v
App.v
System.v
Billing.v
Migrations.v
