(* ===== verification/Prelude.v ===== *)
(** * Daythree AI World: a verification library for the agent platform

    ** The program

    The platform runs missions for tenants. An operator creates a mission for an agent and
    starts it (services/api); a worker (services/worker) takes the mission's task from a Redis
    queue under a lease, runs it through the durable agent adapter (services/agent-runtime)
    and the model gateway (services/model-gateway), commits the output as an artifact
    (services/artifact-service) and moves task and mission to their final status
    (services/mission-engine). External agent runtimes (Claude Code sessions and their
    subagents) report to the API through hooks instead; a reaper closes what they leave open.
    Every component shares one PostgreSQL database, Redis and an object store.

    ** The files

    - [Prelude] (this file): outcomes, the state-and-exception monad [ST] with its
      weakest-precondition calculus [wp], transition facts [tracks] and the tactics and hint
      databases that compose them, lemmas on finite maps, Python floats.
    - [Enums], [Contracts]: packages/contracts; the enums with their wire values, the data
      shapes, the exceptions, and [Env], the interface to everything outside the repository.
    - [Permissions], [Budgets]: packages/policy-sdk.
    - [Tools]: packages/tool-sdk, the registry and its handlers.
    - [Telemetry], [Breaker], [Gateway], [Providers]: services/model-gateway. [Gateway] is
      verified against the interface [LawfulLedger]; [Providers] are the adapters around the
      vendors' clients, and the mock.
    - [Database]: packages/common/db/models.py as one record of tables, the shared [World],
      sessions (commit, rollback, savepoints) and event publishing. [Scenario] is the concrete
      installation on which hypotheses are evaluated.
    - [Transitions], [Missions], [Ledger], [Checkpoints], [Executor], [Lease], [Recovery]:
      services/mission-engine and services/worker. [Ledger] discharges [LawfulLedger].
    - [Adapter]: services/agent-runtime. [Artifacts]: services/artifact-service.
      [Consumers]: the stream tail of services/event-service.
    - [Config], [Wiring]: packages/common/config.py, the composition roots of the worker
      (services/worker/deps.py) and of the API (services/api/app/main.py), and the
      request-context middleware.
    - [Worker]: the poll loop of services/worker/main.py over [Recovery] and [Closure], proved
      against the interface [Harmless], which the write-ahead invariant and the order of the
      queue both satisfy.
    - [Api], [Auth], [Routes], [Agents], [Projects], [RateLimit], [Reads]: services/api, its
      authentication and login, the mission and task routes, the agent routes, projects, model
      policies and external agents, the rate limiters, and every read-only route.
      [Responses]: the response models, and the body of every reply.
    - [Rooms], [RoomsView]: packages/common/rooms.py, the room allocator of services/api and
      the apartment read that places every agent.
    - [Personas], [AgentRuntime], [Closure]: the agent-runtime API, its personas, and the
      closing of external sessions, with the reaper.
    - [Scripts], [Demo]: infrastructure/scripts; seeding, issuing and revoking hook keys, and
      the demonstration that runs the whole platform from an empty database.
    - [Migrations]: infrastructure/migrations; the seven revisions, up and down, on a
      catalogue of tables, references and indexes, and Alembic's two commands.

    These files are about the platform as a whole and use all of the above:

    - [Schema]: the constraints of models.py as data, one predicate [db_ok] on databases, the
      tenant of every row, and the changes that keep both. [Integrity]: the judgement [yields],
      a Hoare logic for computations that keep [db_ok] at every durable point and stay within
      a tenant, with its rules and the proof of every insert, update and service operation.
      [Isolation]: the same of every writing route, under the caller's tenant.
    - [Progress]: when an execution returns. The gateway is verified once more, against the
      interface [ReliableLedger], and every insert on the way is shown to go through.
    - [App]: one HTTP request from its bearer token to its reply, through the routers of
      services/api/routes/__init__.py with their default-deny dependency.
    - [System]: requests, worker runs, scripts and the demonstration as one transition system,
      in which a process can be killed after any durable effect.
    - [Billing]: the write-ahead invariant carried through that system.

    A definition has the name of the function it translates, without a leading underscore;
    a piece of a long function has a name of its own and says which piece it is.

    ** How the code is modelled

    A coroutine is a computation [M A] on the [World]: it returns or raises, and what it
    wrote before an exception stays. The session's view ([w_db]) and the committed database
    ([w_committed]) are separate; [commit] may fail ([commit_ok]), [rollback] discards the
    view, a savepoint that raises discards its own writes, and what a session does after a
    savepoint's [IntegrityError] without a rollback depends on [savepoint_recovers]. Inserts
    check the primary, foreign and unique keys of models.py. SQL row order is unspecified,
    so queries without ORDER BY return rows in the order of [select] and nothing relies on
    it. [w_durable_log] is a ghost history of the durable states, one entry per commit and
    per provider request: an invariant over it is an invariant over every crash point.

    Concurrency is explicit where the code is exposed to it: other sessions' commits are
    arbitrary functions on the database applied at the point of the race ([interfere], with
    [rivals] and [race] as parameters); a worker loses its lease at any durable point; the
    lease protocol is a step relation with any number of workers; the breaker is a step
    relation over all interleavings of providers.

    Money is an integer number of 10^-8 dollars, in which every price per token is whole;
    what the code computes in Python floats is computed in IEEE binary64 (primitive floats).
    Times of the database are microseconds, times of the lease and the limiter milliseconds.
    Ids are positive numbers drawn from a fresh supply; UUID syntax, hashing, JSON text,
    clocks, providers, the object store and Redis are fields of [Env] or parameters, and no
    theorem assumes anything of them that is not a hypothesis of the theorem.

    Recursion is structural throughout, so nothing runs out of fuel except by design: the
    gateway's loop counts [max_attempts], the allocator [MAX_ALLOCATION_ATTEMPTS], the slot
    claim [MAX_CLAIM_ATTEMPTS], as the code's [range] loops do. [lowest_free_slot], a [while]
    loop in the code, takes the number of occupied slots as its fuel and is proved to be where
    the loop, as a step relation, stops within as many steps. The worker's endless loop is a
    list of polls of any length, each with what the outside world does during it.

    ** What is proved

    - The platform ([System], [App], [Billing]): every state that can be reached from an empty
      database, through any sequence of requests, worker runs and scripts, killed anywhere,
      satisfies the schema, and has a committed charge for every request sent to a provider;
      every HTTP request is answered for exactly the caller its credential stands for, with a
      role the route admits, and changes rows of the caller's tenant only; a refused request
      changes nothing.
    - Money: at every durable point at least as many charges are committed as requests were
      sent, for the worker process as a whole ([Ledger], [Recovery], [Worker]); a call stays
      within attempts, calls and retries; a task's rows stay within its cap; a failed attempt
      is charged at the worst case or was refused by the provider; an answer already paid for
      is not bought again ([Executor]).
    - Missions: [start_mission] creates one task, once; [execute_task] that returns has ended
      the task and its mission together; a task that a worker takes is finished, committed,
      whatever the provider does, as long as the database and the object store work
      ([Progress]); recoveries are counted before a requeue, and capped;
      the start route enqueues only what is committed; no error ends the worker's loop, and
      it serves the queue in order.
    - Storage: checkpoints are resumable and the SQL store refines the in-memory one;
      artifacts are stored before they are claimed, once per slot.
    - Concurrency: the lease excludes, work under a lease ends before the lease can have
      expired unless it is refreshed, rooms and persona slots are never double-booked whatever
      other sessions commit, a hook's registration can be retried under any race, and every
      caller's rate limit holds whatever the other callers do.
    - Authority: tool access is the intersection of the scopes, personas have no tools, other
      tenants' missions and tasks do not exist, no read depends on another tenant's rows, a
      login yields the user's own identity, hook credentials are checked exactly, issued keys
      are accepted and revoked ones refused, agent versions are immutable, no tool runs
      without permission, the calculator evaluates arithmetic only, and no read shows a column
      that its response model leaves out.
    - Views and installation: the mission listing agrees with the single read, the apartment
      view shows the truth, active projects stay within their lots, seeding is repeatable, an
      upgrade brings every database to the current schema, a downgrade can be undone by an
      upgrade, and the stream tail logs events in order without a gap.
    - External runtimes: a subagent is closed exactly once, the end of a session closes
      everything under it, the reaper spares what is alive, a late hook repairs the loss rate.
    - Behaviour that departs from what the code means to do is stated as theorems as well:
      a cancelled mission the worker completes, a retry that is enqueued before its commit, a
      registration lost with its room, a task stranded by a failed first commit, a login that
      a shared email blocks, a finished task the demonstration runs again, a downgrade that a
      table created too early blocks, an event the stream tail misses.

    ** What is not modelled

    The inside of the vendors' SDKs, of JWT, bcrypt and Python's expression parser and
    arithmetic: each is a parameter. Log formatting, tracing, CORS, the latency histogram and
    the /metrics page that renders the counters, which are calls into libraries; Alembic's
    offline mode, which prints SQL; the engine and session factories, which only
    hand their settings to SQLAlchemy; the columns of models.py that no code reads and no
    response shows (limits of a model policy, timestamps of tenants and users); and the web
    front end, a client of the API in another language. A table is created in one step, so a
    migration that fails between two of its statements is a transaction that is rolled back. *)

From Stdlib Require Export ZArith Lia.
From Stdlib Require Import Ascii Floats Uint63.
From stdpp Require Export base tactics option list gmap strings numbers pretty.


(** ** Outcomes of Python code: a returned value or a raised exception *)

Inductive outcome (E A : Type) : Type :=
| Ret (a : A)
| Raise (e : E).
Arguments Ret {E A} a.
Arguments Raise {E A} e.

(** Computations that read and write a world [W], may raise an [E] and return an [A].
    Python keeps the writes made before an exception, so the world is returned on both
    paths. *)
Definition ST (W E A : Type) : Type := W → outcome E A * W.

Section monad.
Context {W E : Type}.

#[global] Instance ST_ret : MRet (ST W E) := λ A a w, (Ret a, w).
#[global] Instance ST_bind : MBind (ST W E) := λ A B f m w,
  match m w with
  | (Ret a, w') => f a w'
  | (Raise e, w') => (Raise e, w')
  end.

(** [raise e] *)
Definition raise {A} (e : E) : ST W E A := λ w, (Raise e, w).

(** [try: m  except e: h e], where [h e = None] re-raises. *)
Definition try_except {A} (m : ST W E A) (h : E → option (ST W E A)) : ST W E A := λ w,
  match m w with
  | (Ret a, w') => (Ret a, w')
  | (Raise e, w') => match h e with Some k => k w' | None => (Raise e, w') end
  end.

Definition get_world : ST W E W := λ w, (Ret w, w).
Definition asks {A} (f : W → A) : ST W E A := λ w, (Ret (f w), w).
Definition modify (f : W → W) : ST W E unit := λ w, (Ret tt, f w).

(** [if b: m] *)
Definition when (b : bool) (m : ST W E unit) : ST W E unit := if b then m else mret tt.

(** [for x in l: f x] *)
Fixpoint for_each {A} (l : list A) (f : A → ST W E unit) : ST W E unit :=
  match l with
  | [] => mret tt
  | x :: l' => _ ← f x; for_each l' f
  end.

(** The world after running [m]. *)
Definition exec {A} (m : ST W E A) (w : W) : W := (m w).2.
(** What [m] returns or raises. *)
Definition result {A} (m : ST W E A) (w : W) : outcome E A := (m w).1.
End monad.

(** ** Weakest preconditions

    [wp m w Q R]: running [m] in [w] ends in a world that satisfies [Q a] if it returns [a],
    and [R e] if it raises [e]. Every computation of the model is total, so this is total
    correctness. *)
Definition wp {W E A} (m : ST W E A) (w : W) (Q : A → W → Prop) (R : E → W → Prop) : Prop :=
  match m w with
  | (Ret a, w') => Q a w'
  | (Raise e, w') => R e w'
  end.

Section wp_rules.
Context {W E : Type}.
Implicit Types w : W.

Lemma wp_ret {A} (a : A) w (Q : A → W → Prop) (R : E → W → Prop) :
  Q a w → wp (mret a) w Q R.
Proof. done. Qed.

Lemma wp_raise {A} (e : E) w (Q : A → W → Prop) (R : E → W → Prop) :
  R e w → wp (raise e) w Q R.
Proof. done. Qed.

Lemma wp_bind {A B} (m : ST W E A) (f : A → ST W E B) w Q R :
  wp m w (λ a w', wp (f a) w' Q R) R → wp (m ≫= f) w Q R.
Proof. unfold wp, mbind, ST_bind. by destruct (m w) as [[a|e] w']. Qed.

Lemma wp_try {A} (m : ST W E A) h w Q R :
  wp m w Q (λ e w', match h e with Some k => wp k w' Q R | None => R e w' end) →
  wp (try_except m h) w Q R.
Proof. unfold wp, try_except. destruct (m w) as [[a|e] w']; [done|]. by destruct (h e). Qed.

Lemma wp_asks {A} (f : W → A) w Q (R : E → W → Prop) : Q (f w) w → wp (asks f) w Q R.
Proof. done. Qed.

Lemma wp_modify (f : W → W) w Q (R : E → W → Prop) : Q tt (f w) → wp (modify f) w Q R.
Proof. done. Qed.

Lemma wp_get w Q (R : E → W → Prop) : Q w w → wp get_world w Q R.
Proof. done. Qed.

Lemma wp_mono {A} (m : ST W E A) w (Q Q' : A → W → Prop) (R R' : E → W → Prop) :
  wp m w Q R →
  (∀ a w', Q a w' → Q' a w') → (∀ e w', R e w' → R' e w') →
  wp m w Q' R'.
Proof. unfold wp. destruct (m w) as [[a|e] w']; eauto. Qed.

Lemma wp_conj {A} (m : ST W E A) w (Q Q' : A → W → Prop) (R R' : E → W → Prop) :
  wp m w Q R → wp m w Q' R' → wp m w (λ a w', Q a w' ∧ Q' a w') (λ e w', R e w' ∧ R' e w').
Proof. unfold wp. destruct (m w) as [[a|e] w']; eauto. Qed.

(** [x = m; return Some x] returns a [Some]. *)
Lemma wp_bind_ret_Some {A} (m : ST W E A) w (R : E → W → Prop) :
  (∀ e w', R e w') → wp (a ← m; mret (Some a)) w (λ r _, is_Some r) R.
Proof.
  intros HR. unfold wp, mbind, ST_bind. destruct (m w) as [[a|e] w']; [by eexists|apply HR].
Qed.

Lemma wp_when (b : bool) (m : ST W E unit) w Q R :
  (if b then wp m w Q R else Q tt w) → wp (when b m) w Q R.
Proof. by destruct b. Qed.

(** A [wp] fact read off a concrete run. *)
Lemma wp_run {A} (m : ST W E A) w Q R :
  wp m w Q R →
  (∀ a, result m w = Ret a → Q a (exec m w)) ∧ (∀ e, result m w = Raise e → R e (exec m w)).
Proof. unfold wp, result, exec. destruct (m w) as [[a|e] w']; naive_solver. Qed.
End wp_rules.

(** ** Transition facts

    [tracks R m]: every run of [m], whether it returns or raises, moves the world along
    [R]. For a preorder [R] the facts compose along the syntax of the program; the hint
    database [tracks] does so automatically. *)
Definition tracks {W E A} (R : W → W → Prop) (m : ST W E A) : Prop := ∀ w, R w (exec m w).

Section tracks_rules.
Context {W E : Type} (R : W → W → Prop) `{!PreOrder R}.

Lemma tracks_ret {A} (a : A) : tracks R (mret a : ST W E A).
Proof. intros w. apply reflexivity. Qed.

Lemma tracks_raise {A} (e : E) : tracks R (raise e : ST W E A).
Proof. intros w. apply reflexivity. Qed.

Lemma tracks_asks {A} (f : W → A) : tracks R (asks f : ST W E A).
Proof. intros w. apply reflexivity. Qed.

Lemma tracks_get : tracks R (get_world : ST W E W).
Proof. intros w. apply reflexivity. Qed.

Lemma tracks_bind {A B} (m : ST W E A) (f : A → ST W E B) :
  tracks R m → (∀ a, tracks R (f a)) → tracks R (m ≫= f).
Proof.
  intros Hm Hf w. specialize (Hm w). unfold exec, mbind, ST_bind in *.
  destruct (m w) as [[a|e] w']; simpl in *; [|done].
  etrans; [exact Hm|]. apply Hf.
Qed.

(** The continuation may rely on what [m] returns. *)
Lemma tracks_bind_post {A B} (m : ST W E A) (f : A → ST W E B) (P : A → Prop) :
  tracks R m → (∀ w, wp m w (λ a _, P a) (λ _ _, True)) → (∀ a, P a → tracks R (f a)) →
  tracks R (m ≫= f).
Proof.
  intros Hm HP Hf w. specialize (Hm w). specialize (HP w). unfold exec, wp, mbind, ST_bind in *.
  destruct (m w) as [[a|e] w']; simpl in *; [|done].
  etrans; [exact Hm|]. by apply Hf.
Qed.

Lemma tracks_try {A} (m : ST W E A) h :
  tracks R m → (∀ e k, h e = Some k → tracks R k) → tracks R (try_except m h).
Proof.
  intros Hm Hh w. specialize (Hm w). unfold exec, try_except in *.
  destruct (m w) as [[a|e] w']; simpl in *; [done|].
  destruct (h e) as [k|] eqn:Hk; [|done]. etrans; [exact Hm|]. by eapply Hh.
Qed.

Lemma tracks_when b (m : ST W E unit) : tracks R m → tracks R (when b m).
Proof. destruct b; [done|]. intros _. apply tracks_ret. Qed.

Lemma tracks_for_each {A} (l : list A) (f : A → ST W E unit) :
  (∀ x, tracks R (f x)) → tracks R (for_each l f).
Proof.
  intros Hf. induction l as [|x l IH]; simpl; [apply tracks_ret|].
  apply tracks_bind; auto.
Qed.

Lemma tracks_if {A} (b : bool) (m1 m2 : ST W E A) :
  tracks R m1 → tracks R m2 → tracks R (if b then m1 else m2).
Proof. by destruct b. Qed.

Lemma tracks_wp {A} (m : ST W E A) w : tracks R m → wp m w (λ _, R w) (λ _, R w).
Proof. intros H. specialize (H w). unfold wp, exec in *. by destruct (m w) as [[]]. Qed.
End tracks_rules.

Create HintDb tracks.
#[export] Hint Resolve tracks_ret tracks_raise tracks_asks tracks_get : tracks.
#[export] Hint Extern 0 (PreOrder _) => apply _ : tracks.

(** [R w w'] for "some observation of the world is unchanged". *)
Definition same {W B} (f : W → B) : relation W := λ w w', f w = f w'.

#[global] Instance same_preorder {W B} (f : W → B) : PreOrder (same f).
Proof. split; [done | intros ??? H1 H2; unfold same in *; congruence]. Qed.

(** "If [I] held before, it holds after": an invariant kept by a computation. *)
Definition pres {W} (I : W → Prop) : relation W := λ w w', I w → I w'.

#[global] Instance pres_preorder {W} (I : W → Prop) : PreOrder (pres I).
Proof. split; [by intros w Hw | intros a b c H1 H2 Ha; apply H2, H1, Ha]. Qed.

Lemma pres_wp {W E A} (I : W → Prop) (m : ST W E A) :
  tracks (pres I) m ↔ ∀ w, I w → wp m w (λ _, I) (λ _, I).
Proof.
  unfold tracks, pres, wp, exec. split; intros Hm w Hw; specialize (Hm w Hw);
    by destruct (m w) as [[] ?].
Qed.

(** A first step that keeps [I], in front of a continuation that needs it. *)
Lemma wp_bind_pres {W E A B} (I : W → Prop) (m : ST W E A) (f : A → ST W E B) w Q R :
  tracks (pres I) m → I w →
  (∀ a w', I w' → wp (f a) w' Q R) → (∀ e w', I w' → R e w') →
  wp (m ≫= f) w Q R.
Proof.
  intros Hm Hw Hf He. apply wp_bind. eapply wp_mono; [by apply pres_wp|done|done].
Qed.

Lemma tracks_impl {W E A} (R R' : relation W) (m : ST W E A) :
  (∀ w w', R w w' → R' w w') → tracks R m → tracks R' m.
Proof. intros HR Hm w. apply HR, Hm. Qed.

Lemma tracks_modify {W E} (R : relation W) (f : W → W) :
  (∀ w, R w (f w)) → tracks R (modify f : ST W E unit).
Proof. intros Hf w. apply Hf. Qed.

(** Breaks a goal [tracks R m] along the structure of [m]; leaves the atomic steps. *)
Ltac tracks_step :=
  match goal with
  | |- PreOrder _ => apply _
  | |- tracks (same _) (modify _) => solve [intros ?; reflexivity]
  | |- ∀ _, _ => intros ?
  | |- tracks _ (_ ≫= _) => apply tracks_bind
  | |- tracks _ (mret _) => apply tracks_ret
  | |- tracks _ (raise _) => apply tracks_raise
  | |- tracks _ (asks _) => apply tracks_asks
  | |- tracks _ get_world => apply tracks_get
  | |- tracks _ (when _ _) => apply tracks_when
  | |- tracks _ (for_each _ _) => apply tracks_for_each
  | |- tracks _ (match ?x with _ => _ end) => destruct x eqn:?
  | |- tracks _ (let '(_, _) := ?x in _) => destruct x eqn:?
  end.

(** Walks through [m]; every atomic step is closed by the hint database [tracks], the
    hypotheses, or left to the caller. *)
Ltac tracks_auto := repeat (first [solve [eauto 2 with tracks] | tracks_step]).

Ltac wp_step :=
  match goal with
  | |- wp (_ ≫= _) _ _ _ => apply wp_bind
  | |- wp (mret _) _ _ _ => apply wp_ret
  | |- wp (raise _) _ _ _ => apply wp_raise
  | |- wp (asks _) _ _ _ => apply wp_asks
  | |- wp (modify _) _ _ _ => apply wp_modify
  | |- wp get_world _ _ _ => apply wp_get
  | |- wp (when _ _) _ _ _ => apply wp_when
  end.

(** ** Exceptions a computation may raise *)

(** [raises X m]: whatever the world, [m] returns or raises an exception in [X]. *)
Definition raises {W E A} (X : E → Prop) (m : ST W E A) : Prop :=
  ∀ w e, result m w = Raise e → X e.

Section raises_rules.
Context {W E : Type} (X : E → Prop).

Lemma raises_ret {A} (a : A) : raises X (mret a : ST W E A).
Proof. by intros w e. Qed.

Lemma raises_raise {A} (e : E) : X e → raises X (raise e : ST W E A).
Proof. intros He w e' [= <-]. done. Qed.

Lemma raises_asks {A} (f : W → A) : raises X (asks f : ST W E A).
Proof. by intros w e. Qed.

Lemma raises_modify (f : W → W) : raises X (modify f : ST W E unit).
Proof. by intros w e. Qed.

Lemma raises_bind {A B} (m : ST W E A) (f : A → ST W E B) :
  raises X m → (∀ a, raises X (f a)) → raises X (m ≫= f).
Proof.
  intros Hm Hf w e. specialize (Hm w). unfold result, mbind, ST_bind in *.
  destruct (m w) as [[a|e'] w']; [apply Hf|]. intros [= <-]. by apply Hm.
Qed.

(** The continuation may rely on what [m] returns. *)
Lemma raises_bind_post {A B} (m : ST W E A) (f : A → ST W E B) (P : A → Prop) :
  raises X m → (∀ w, wp m w (λ a _, P a) (λ _ _, True)) → (∀ a, P a → raises X (f a)) →
  raises X (m ≫= f).
Proof.
  intros Hm HP Hf w e. specialize (Hm w). specialize (HP w). unfold result, wp, mbind, ST_bind in *.
  destruct (m w) as [[a|e'] w']; [by apply Hf|]. intros [= <-]. by apply Hm.
Qed.

Lemma raises_when b (m : ST W E unit) : raises X m → raises X (when b m).
Proof. destruct b; [done|]. intros _. apply raises_ret. Qed.

Lemma raises_for_each {A} (l : list A) (f : A → ST W E unit) :
  (∀ x, raises X (f x)) → raises X (for_each l f).
Proof.
  intros Hf. induction l as [|x l IH]; simpl; [apply raises_ret|]. apply raises_bind; auto.
Qed.
End raises_rules.

(** A handler stops the exceptions it handles: what [m] may raise is either re-raised and in
    [X], or handled by a computation that raises only [X]. *)
Lemma raises_try {W E A} (X Y : E → Prop) (m : ST W E A) h :
  raises Y m → (∀ e, Y e → match h e with Some k => raises X k | None => X e end) →
  raises X (try_except m h).
Proof.
  intros Hm Hh w e. specialize (Hm w). unfold result, try_except in *.
  destruct (m w) as [[a|e'] w']; simpl in *; [done|].
  specialize (Hh e' (Hm e' eq_refl)). destruct (h e') as [k|]; [apply Hh|]. by intros [= <-].
Qed.

Lemma raises_mono {W E A} (X Y : E → Prop) (m : ST W E A) :
  raises Y m → (∀ e, Y e → X e) → raises X m.
Proof. intros Hm HXY w e He. eapply HXY, Hm, He. Qed.

(** A step that keeps [I] and never raises. *)
Lemma wp_bind_never {W E A B} (I : W → Prop) (m : ST W E A) (f : A → ST W E B) w Q R :
  tracks (pres I) m → raises (λ _, False) m → I w →
  (∀ a w', I w' → wp (f a) w' Q R) → wp (m ≫= f) w Q R.
Proof.
  intros Hm Hr Hw Hf. apply wp_bind. specialize (Hm w Hw). specialize (Hr w).
  unfold wp, exec, result in *. destruct (m w) as [[a|e] w']; [by apply Hf|].
  by destruct (Hr e eq_refl).
Qed.

Create HintDb raises.
#[export] Hint Resolve raises_ret raises_asks raises_modify : raises.

Ltac raises_step :=
  match goal with
  | |- ∀ _, _ => intros ?
  | |- raises _ (_ ≫= _) => apply raises_bind
  | |- raises _ (mret _) => apply raises_ret
  | |- raises _ (asks _) => apply raises_asks
  | |- raises _ (modify _) => apply raises_modify
  | |- raises _ (raise _) => apply raises_raise
  | |- raises _ (when _ _) => apply raises_when
  | |- raises _ (for_each _ _) => apply raises_for_each
  | |- raises _ (match ?x with _ => _ end) => destruct x eqn:?
  | |- raises _ (let '(_, _) := ?x in _) => destruct x eqn:?
  end.
Ltac raises_auto := repeat (first [solve [eauto 2 with raises] | raises_step]).

(** ** Texts with a separator *)

(** Texts that a colon can end: decimal numbers are. *)
Fixpoint no_colon (s : string) : Prop :=
  match s with EmptyString => True | String c s => c ≠ ":"%char ∧ no_colon s end.

Lemma no_colon_pretty (p : positive) : no_colon (pretty p).
Proof.
  assert (∀ x s, no_colon s → no_colon (pretty_N_go x s)) as Hgo.
  { intros x. induction (N.lt_wf_0 x) as [x _ IH]. intros s Hs. destruct (decide (0 < x)%N) as [Hx|].
    - rewrite pretty_N_go_step by done. apply IH; [by apply N.div_lt|]. split; [|done].
      unfold pretty_N_char. by repeat case_match.
    - assert (x = 0)%N as -> by lia. by rewrite pretty_N_go_0. }
  unfold pretty, pretty_positive, pretty, pretty_N. case_decide; [done|]. by apply Hgo.
Qed.

Lemma before_colon a b s t : no_colon a → no_colon b → a +:+ ":" +:+ s = b +:+ ":" +:+ t → a = b.
Proof.
  revert b. induction a as [|x a IH]; intros [|y b] Ha Hb E; simpl in *; [done|..].
  - injection E as E _. by destruct Hb as [[]].
  - injection E as E _. by destruct Ha as [[]].
  - injection E as -> E. f_equal. apply IH; tauto.
Qed.

(** ** Python numbers

    Python's [int] is [Z]; its [float] is IEEE binary64, which is Rocq's primitive
    [float]. A [Decimal] amount of money is an integer number of 10^-8 dollars, the
    coarsest unit in which every listed price per token is whole. *)
Module Py.
Definition of_int (z : Z) : float :=
  match z with
  | Z0 => PrimFloat.zero
  | Zpos _ => PrimFloat.of_uint63 (Uint63.of_Z z)
  | Zneg p => PrimFloat.opp (PrimFloat.of_uint63 (Uint63.of_Z (Zpos p)))
  end.

(** [a >= b], [a > b], [a < b] *)
Definition ge (a b : float) : bool := PrimFloat.leb b a.
Definition gt (a b : float) : bool := PrimFloat.ltb b a.
Definition lt (a b : float) : bool := PrimFloat.ltb a b.
Definition add (a b : float) : float := PrimFloat.add a b.
Definition sub (a b : float) : float := PrimFloat.sub a b.
Definition div (a b : float) : float := PrimFloat.div a b.
Definition mul (a b : float) : float := PrimFloat.mul a b.

(** [int(x)]: truncation towards zero (0 for the non-finite values, on which Python
    raises; no reading of the clocks is one). *)
Definition trunc (x : float) : Z :=
  match Prim2SF x with
  | SpecFloat.S754_finite s m e =>
      let a := if Z.leb 0 e then Z.shiftl (Zpos m) e else Z.shiftr (Zpos m) (- e) in
      if s then - a else a
  | _ => 0
  end%Z.

(** Money: [n] stands for [Decimal n * 10^-8] dollars. *)
Definition usd_unit : Z := 100000000.

(** [float(d)] of a [Decimal]; both operands of the division are exact below 2^53, so
    the quotient is the correctly rounded value, as in CPython. *)
Definition float_of_usd (n : Z) : float := div (of_int n) (of_int usd_unit).

(** [timedelta.total_seconds()] of a number of microseconds. *)
Definition total_seconds (us : Z) : float := div (of_int us) (of_int 1000000).
End Py.

(** ** Lists and maps *)

Section list_lemmas.
Context {A : Type}.
Implicit Types l : list A.

Lemma length_filter_le (P : A → Prop) `{!∀ x, Decision (P x)} l :
  length (filter P l) ≤ length l.
Proof. induction l as [|x l IH]; [done|]. rewrite filter_cons. case_decide; simpl; lia. Qed.
End list_lemmas.

(** The sum of a list of integers. *)
Definition sumZ (l : list Z) : Z := foldr Z.add 0%Z l.

Lemma sumZ_app l1 l2 : sumZ (l1 ++ l2) = (sumZ l1 + sumZ l2)%Z.
Proof. induction l1 as [|x l1 IH]; simpl; [lia|]. unfold sumZ in *. simpl. lia. Qed.

#[global] Instance sumZ_perm : Proper ((≡ₚ) ==> (=)) sumZ.
Proof. induction 1; unfold sumZ in *; simpl; lia. Qed.

Lemma sumZ_nonneg l : Forall (λ x, 0 ≤ x)%Z l → (0 ≤ sumZ l)%Z.
Proof. induction 1; simpl; unfold sumZ in *; simpl; lia. Qed.

(** ** Tables

    A table is a finite map from primary keys to rows. [select P m] is
    [SELECT * FROM m WHERE P]: the rows come in an order the query does not specify. *)
Section table.
Context {K V : Type} `{Countable K}.
Implicit Types (m : gmap K V) (P : V → bool).

Definition select (P : V → bool) (m : gmap K V) : list V :=
  filter (λ v, P v = true) (snd <$> map_to_list m).

(** [SELECT count( * ) ... WHERE P] *)
Definition count_rows (P : V → bool) (m : gmap K V) : nat := length (select P m).

(** [EXISTS (SELECT ... WHERE P)] *)
Definition exists_row (P : V → bool) (m : gmap K V) : bool :=
  match select P m with [] => false | _ => true end.

Lemma elem_of_select P m v : v ∈ select P m ↔ P v = true ∧ ∃ k, m !! k = Some v.
Proof.
  unfold select. rewrite list_elem_of_filter, list_elem_of_fmap.
  split.
  - intros [HP ([k v'] & -> & Hin)]. apply elem_of_map_to_list in Hin. eauto.
  - intros [HP [k Hk]]. split; [done|]. exists (k, v). split; [done|].
    by apply elem_of_map_to_list.
Qed.

Lemma exists_row_true P m : exists_row P m = true ↔ ∃ k v, m !! k = Some v ∧ P v = true.
Proof.
  unfold exists_row. destruct (select P m) as [|v l] eqn:Hs.
  - split; [done|]. intros (k & v & Hk & HP).
    assert (v ∈ select P m) as Hin by (apply elem_of_select; eauto).
    rewrite Hs in Hin. by apply elem_of_nil in Hin.
  - split; [|done]. intros _. assert (v ∈ select P m) as Hin by (rewrite Hs; left).
    apply elem_of_select in Hin as [? [k ?]]. eauto.
Qed.

Lemma exists_row_false P m : exists_row P m = false ↔ ∀ k v, m !! k = Some v → P v = false.
Proof.
  destruct (exists_row P m) eqn:He.
  - apply exists_row_true in He as (k & v & Hk & HP). split; [done|].
    intros Hall. specialize (Hall k v Hk). congruence.
  - split; [|done]. intros _ k v Hk. destruct (P v) eqn:HP; [|done].
    assert (exists_row P m = true) as Ht by (apply exists_row_true; eauto). congruence.
Qed.

Lemma select_insert_fresh P m k v :
  m !! k = None →
  select P (<[k := v]> m) ≡ₚ (if P v then [v] else []) ++ select P m.
Proof.
  intros Hk. unfold select. rewrite map_to_list_insert by done. simpl.
  rewrite filter_cons. destruct (P v) eqn:HP; case_decide; done.
Qed.

Lemma select_lookup P m k v :
  m !! k = Some v →
  select P m ≡ₚ (if P v then [v] else []) ++ select P (delete k m).
Proof.
  intros Hk. rewrite <- (insert_delete_id m k v Hk) at 1.
  rewrite select_insert_fresh by apply lookup_delete_eq. done.
Qed.

Lemma select_update P m k v0 v :
  m !! k = Some v0 → select P (<[k := v]> m) ≡ₚ (if P v then [v] else []) ++ select P (delete k m).
Proof.
  intros Hk. rewrite <- (insert_delete_eq m k v).
  apply select_insert_fresh, lookup_delete_eq.
Qed.

Lemma count_insert_fresh P m k v :
  m !! k = None →
  count_rows P (<[k := v]> m) = ((if P v then 1 else 0) + count_rows P m)%nat.
Proof.
  intros Hk. unfold count_rows. rewrite (select_insert_fresh P m k v Hk), length_app.
  by destruct (P v).
Qed.

Lemma count_update P m k v0 v :
  m !! k = Some v0 → P v = P v0 → count_rows P (<[k := v]> m) = count_rows P m.
Proof.
  intros Hk HP. unfold count_rows.
  rewrite (select_update P m k v0 v Hk), (select_lookup P m k v0 Hk), !length_app, HP.
  by destruct (P v0).
Qed.

(** [UPDATE ... WHERE pk = k] changes no row count. *)
Lemma map_size_alter (f : V → V) m k : size (alter f k m) = size m.
Proof. rewrite <- !size_dom, dom_alter. done. Qed.

Lemma alter_insert_eq (f : V → V) m k v : m !! k = Some v → alter f k m = <[k := f v]> m.
Proof.
  intros Hk. apply map_eq. intros j. rewrite lookup_alter, lookup_insert.
  case_decide; [subst; by rewrite Hk|done].
Qed.

Lemma alter_None (f : V → V) m k : m !! k = None → alter f k m = m.
Proof.
  intros Hk. apply map_eq. intros j. rewrite lookup_alter. case_decide; [subst; by rewrite Hk|done].
Qed.

Lemma count_alter P (f : V → V) m k :
  (∀ v, P (f v) = P v) → count_rows P (alter f k m) = count_rows P m.
Proof.
  intros HP. destruct (m !! k) as [v|] eqn:Hk.
  - rewrite (alter_insert_eq f m k v Hk). by eapply count_update.
  - by rewrite alter_None.
Qed.

Lemma count_alter_le P (f : V → V) m k :
  (∀ v, P (f v) = true → P v = true) → (count_rows P (alter f k m) ≤ count_rows P m)%nat.
Proof.
  intros HP. destruct (m !! k) as [v|] eqn:Hk; [|by rewrite alter_None].
  rewrite (alter_insert_eq f m k v Hk). unfold count_rows.
  rewrite (select_update P m k v (f v) Hk), (select_lookup P m k v Hk), !length_app.
  specialize (HP v). destruct (P (f v)); [by rewrite HP|]. destruct (P v); simpl; lia.
Qed.

Lemma count_insert_le P m k v : (count_rows P (<[k := v]> m) ≤ S (count_rows P m))%nat.
Proof.
  destruct (m !! k) as [v0|] eqn:Hk.
  - unfold count_rows.
    rewrite (select_update P m k v0 v Hk), (select_lookup P m k v0 Hk), !length_app.
    destruct (P v), (P v0); simpl; lia.
  - rewrite count_insert_fresh by done. destruct (P v); simpl; lia.
Qed.

Lemma count_mono P Q m : (∀ v, P v = true → Q v = true) → (count_rows P m ≤ count_rows Q m)%nat.
Proof.
  intros HPQ. unfold count_rows, select. induction (snd <$> map_to_list m) as [|v l IH]; [done|].
  rewrite !filter_cons. specialize (HPQ v). repeat case_decide; simpl; naive_solver lia.
Qed.

(** The rows a query over a table with at most one match returns. *)
Lemma select_at_most_one P m :
  (∀ k1 k2 v1 v2, m !! k1 = Some v1 → m !! k2 = Some v2 → P v1 = true → P v2 = true → k1 = k2) →
  match select P m with
  | [] => ∀ k v, m !! k = Some v → P v = false
  | [v] => P v = true ∧ ∃ k, m !! k = Some v
  | _ => False
  end.
Proof.
  intros Huniq. destruct (select P m) as [|v1 l] eqn:Hs.
  - apply exists_row_false. unfold exists_row. by rewrite Hs.
  - assert (v1 ∈ select P m) as Hv1 by (rewrite Hs; left).
    apply elem_of_select in Hv1 as [HP1 [k1 Hk1]].
    destruct l as [|v2 l]; [eauto|].
    pose proof (select_lookup P m k1 v1 Hk1) as Hperm. rewrite HP1, Hs in Hperm.
    apply (Permutation_cons_inv (a := v1)) in Hperm.
    assert (v2 ∈ select P (delete k1 m)) as Hv2 by (rewrite <- Hperm; left).
    apply elem_of_select in Hv2 as [HP2 [k2 Hk2]].
    apply lookup_delete_Some in Hk2 as [Hne Hk2]. by destruct (Hne (Huniq _ _ _ _ Hk1 Hk2 HP1 HP2)).
Qed.
End table.
