(* ===== verification/Enums.v ===== *)
(** * Enumerated domain values (packages/contracts/enums.py)

    One [Module] per Python [str] enum, with the source's member names, so that
    [MissionStatus.completed] reads as it does in the code. [PyEnum] is the interface the
    rest of the library uses: [value] is Python's [.value], [of_value] is the lookup
    [TheEnum(s)], [None] standing for its [ValueError]. *)

From S2P Require Import Prelude.

(** What a [str] enum promises: a complete list of members with distinct values. *)
Class PyEnum (T : Type) `{EqDecision T} := {
  members : list T;
  value : T → string;
  members_complete : ∀ x, x ∈ members;
  value_inj : Inj (=) (=) value;
}.

(** [TheEnum(s)] *)
Definition of_value {T} `{PyEnum T} (s : string) : option T :=
  head (filter (λ x, value x = s) members).

Section py_enum.
Context {T : Type} `{PyEnum T}.

Lemma of_value_value (x : T) : of_value (value x) = Some x.
Proof.
  unfold of_value.
  assert (x ∈ filter (λ y, value y = value x) members) as Hin.
  { apply list_elem_of_filter. split; [done | apply members_complete]. }
  destruct (filter _ members) as [|y l] eqn:Hf; [by apply elem_of_nil in Hin|].
  assert (y ∈ filter (λ y, value y = value x) members) as Hy by (rewrite Hf; left).
  apply list_elem_of_filter in Hy as [Hy _]. simpl. f_equal. by apply value_inj.
Qed.

Lemma of_value_Some (s : string) (x : T) : of_value s = Some x ↔ value x = s.
Proof.
  split; [|intros <-; apply of_value_value].
  unfold of_value. destruct (filter _ members) as [|y l] eqn:Hf; [done|].
  intros [= ->]. assert (x ∈ filter (λ y, value y = s) members) as Hx by (rewrite Hf; left).
  by apply list_elem_of_filter in Hx as [Hx _].
Qed.
End py_enum.

(** Closes the two laws of a concrete enum by case analysis. *)
Ltac solve_enum :=
  first [ by (intros []; vm_compute; repeat (first [left | right]))
        | by (intros [] []; vm_compute; congruence) ].

Module TenantStatus.
Inductive t := active | suspended.
#[export] Instance TenantStatus_eq_dec : EqDecision t.
Proof. solve_decision. Defined.
Definition t_value (x : t) : string :=
  match x with
  | active => "active"
  | suspended => "suspended"
  end.
#[export] Program Instance TenantStatus_enum : PyEnum t :=
  {| members := [active; suspended];
     value := t_value |}.
Next Obligation. solve_enum. Qed.
Next Obligation. solve_enum. Qed.
End TenantStatus.
Export (hints) TenantStatus.

Module UserRole.
Inductive t := platform_admin | tenant_admin | operator | auditor | viewer | agent_runtime.
#[export] Instance UserRole_eq_dec : EqDecision t.
Proof. solve_decision. Defined.
Definition t_value (x : t) : string :=
  match x with
  | platform_admin => "platform_admin"
  | tenant_admin => "tenant_admin"
  | operator => "operator"
  | auditor => "auditor"
  | viewer => "viewer"
  | agent_runtime => "agent_runtime"
  end.
#[export] Program Instance UserRole_enum : PyEnum t :=
  {| members := [platform_admin; tenant_admin; operator; auditor; viewer; agent_runtime];
     value := t_value |}.
Next Obligation. solve_enum. Qed.
Next Obligation. solve_enum. Qed.
End UserRole.
Export (hints) UserRole.

Module UserStatus.
Inductive t := active | disabled.
#[export] Instance UserStatus_eq_dec : EqDecision t.
Proof. solve_decision. Defined.
Definition t_value (x : t) : string :=
  match x with
  | active => "active"
  | disabled => "disabled"
  end.
#[export] Program Instance UserStatus_enum : PyEnum t :=
  {| members := [active; disabled];
     value := t_value |}.
Next Obligation. solve_enum. Qed.
Next Obligation. solve_enum. Qed.
End UserStatus.
Export (hints) UserStatus.

Module AgentLifecycleState.
Inductive t := draft | active | suspended.
#[export] Instance AgentLifecycleState_eq_dec : EqDecision t.
Proof. solve_decision. Defined.
Definition t_value (x : t) : string :=
  match x with
  | draft => "draft"
  | active => "active"
  | suspended => "suspended"
  end.
#[export] Program Instance AgentLifecycleState_enum : PyEnum t :=
  {| members := [draft; active; suspended];
     value := t_value |}.
Next Obligation. solve_enum. Qed.
Next Obligation. solve_enum. Qed.
End AgentLifecycleState.
Export (hints) AgentLifecycleState.

Module AutonomyLevel.
Inductive t := a1 | a2 | a3.
#[export] Instance AutonomyLevel_eq_dec : EqDecision t.
Proof. solve_decision. Defined.
Definition t_value (x : t) : string :=
  match x with
  | a1 => "A1"
  | a2 => "A2"
  | a3 => "A3"
  end.
#[export] Program Instance AutonomyLevel_enum : PyEnum t :=
  {| members := [a1; a2; a3];
     value := t_value |}.
Next Obligation. solve_enum. Qed.
Next Obligation. solve_enum. Qed.
End AutonomyLevel.
Export (hints) AutonomyLevel.

Module RuntimeAdapterName.
Inductive t := custom_durable | langgraph.
#[export] Instance RuntimeAdapterName_eq_dec : EqDecision t.
Proof. solve_decision. Defined.
Definition t_value (x : t) : string :=
  match x with
  | custom_durable => "custom_durable"
  | langgraph => "langgraph"
  end.
#[export] Program Instance RuntimeAdapterName_enum : PyEnum t :=
  {| members := [custom_durable; langgraph];
     value := t_value |}.
Next Obligation. solve_enum. Qed.
Next Obligation. solve_enum. Qed.
End RuntimeAdapterName.
Export (hints) RuntimeAdapterName.

Module MissionStatus.
Inductive t := draft | ready | running | paused | failed | completed | cancelled.
#[export] Instance MissionStatus_eq_dec : EqDecision t.
Proof. solve_decision. Defined.
Definition t_value (x : t) : string :=
  match x with
  | draft => "draft"
  | ready => "ready"
  | running => "running"
  | paused => "paused"
  | failed => "failed"
  | completed => "completed"
  | cancelled => "cancelled"
  end.
#[export] Program Instance MissionStatus_enum : PyEnum t :=
  {| members := [draft; ready; running; paused; failed; completed; cancelled];
     value := t_value |}.
Next Obligation. solve_enum. Qed.
Next Obligation. solve_enum. Qed.
End MissionStatus.
Export (hints) MissionStatus.

Module MissionPriority.
Inductive t := low | normal | high | urgent.
#[export] Instance MissionPriority_eq_dec : EqDecision t.
Proof. solve_decision. Defined.
Definition t_value (x : t) : string :=
  match x with
  | low => "low"
  | normal => "normal"
  | high => "high"
  | urgent => "urgent"
  end.
#[export] Program Instance MissionPriority_enum : PyEnum t :=
  {| members := [low; normal; high; urgent];
     value := t_value |}.
Next Obligation. solve_enum. Qed.
Next Obligation. solve_enum. Qed.
End MissionPriority.
Export (hints) MissionPriority.

Module RiskLevel.
Inductive t := low | medium | high.
#[export] Instance RiskLevel_eq_dec : EqDecision t.
Proof. solve_decision. Defined.
Definition t_value (x : t) : string :=
  match x with
  | low => "low"
  | medium => "medium"
  | high => "high"
  end.
#[export] Program Instance RiskLevel_enum : PyEnum t :=
  {| members := [low; medium; high];
     value := t_value |}.
Next Obligation. solve_enum. Qed.
Next Obligation. solve_enum. Qed.
End RiskLevel.
Export (hints) RiskLevel.

Module TaskStatus.
Inductive t := queued | running | waiting | failed | completed | cancelled.
#[export] Instance TaskStatus_eq_dec : EqDecision t.
Proof. solve_decision. Defined.
Definition t_value (x : t) : string :=
  match x with
  | queued => "queued"
  | running => "running"
  | waiting => "waiting"
  | failed => "failed"
  | completed => "completed"
  | cancelled => "cancelled"
  end.
#[export] Program Instance TaskStatus_enum : PyEnum t :=
  {| members := [queued; running; waiting; failed; completed; cancelled];
     value := t_value |}.
Next Obligation. solve_enum. Qed.
Next Obligation. solve_enum. Qed.
End TaskStatus.
Export (hints) TaskStatus.

Module RuntimeCheckpointStatus.
Inductive t := created | resumed | superseded.
#[export] Instance RuntimeCheckpointStatus_eq_dec : EqDecision t.
Proof. solve_decision. Defined.
Definition t_value (x : t) : string :=
  match x with
  | created => "created"
  | resumed => "resumed"
  | superseded => "superseded"
  end.
#[export] Program Instance RuntimeCheckpointStatus_enum : PyEnum t :=
  {| members := [created; resumed; superseded];
     value := t_value |}.
Next Obligation. solve_enum. Qed.
Next Obligation. solve_enum. Qed.
End RuntimeCheckpointStatus.
Export (hints) RuntimeCheckpointStatus.

Module ArtifactType.
Inductive t := mission_output | raw_model_response.
#[export] Instance ArtifactType_eq_dec : EqDecision t.
Proof. solve_decision. Defined.
Definition t_value (x : t) : string :=
  match x with
  | mission_output => "mission_output"
  | raw_model_response => "raw_model_response"
  end.
#[export] Program Instance ArtifactType_enum : PyEnum t :=
  {| members := [mission_output; raw_model_response];
     value := t_value |}.
Next Obligation. solve_enum. Qed.
Next Obligation. solve_enum. Qed.
End ArtifactType.
Export (hints) ArtifactType.

Module ModelInvocationStatus.
Inductive t := requested | completed | failed.
#[export] Instance ModelInvocationStatus_eq_dec : EqDecision t.
Proof. solve_decision. Defined.
Definition t_value (x : t) : string :=
  match x with
  | requested => "requested"
  | completed => "completed"
  | failed => "failed"
  end.
#[export] Program Instance ModelInvocationStatus_enum : PyEnum t :=
  {| members := [requested; completed; failed];
     value := t_value |}.
Next Obligation. solve_enum. Qed.
Next Obligation. solve_enum. Qed.
End ModelInvocationStatus.
Export (hints) ModelInvocationStatus.

Module ProjectStatus.
Inductive t := active | archived.
#[export] Instance ProjectStatus_eq_dec : EqDecision t.
Proof. solve_decision. Defined.
Definition t_value (x : t) : string :=
  match x with
  | active => "active"
  | archived => "archived"
  end.
#[export] Program Instance ProjectStatus_enum : PyEnum t :=
  {| members := [active; archived];
     value := t_value |}.
Next Obligation. solve_enum. Qed.
Next Obligation. solve_enum. Qed.
End ProjectStatus.
Export (hints) ProjectStatus.

Module AgentRuntimeKind.
Inductive t := session | subagent.
#[export] Instance AgentRuntimeKind_eq_dec : EqDecision t.
Proof. solve_decision. Defined.
Definition t_value (x : t) : string :=
  match x with
  | session => "session"
  | subagent => "subagent"
  end.
#[export] Program Instance AgentRuntimeKind_enum : PyEnum t :=
  {| members := [session; subagent];
     value := t_value |}.
Next Obligation. solve_enum. Qed.
Next Obligation. solve_enum. Qed.
End AgentRuntimeKind.
Export (hints) AgentRuntimeKind.

Module AgentRuntimeOutcome.
Inductive t := completed | failed | abandoned.
#[export] Instance AgentRuntimeOutcome_eq_dec : EqDecision t.
Proof. solve_decision. Defined.
Definition t_value (x : t) : string :=
  match x with
  | completed => "completed"
  | failed => "failed"
  | abandoned => "abandoned"
  end.
#[export] Program Instance AgentRuntimeOutcome_enum : PyEnum t :=
  {| members := [completed; failed; abandoned];
     value := t_value |}.
Next Obligation. solve_enum. Qed.
Next Obligation. solve_enum. Qed.
End AgentRuntimeOutcome.
Export (hints) AgentRuntimeOutcome.

Module AgentRuntimeCloseOutcome.
Inductive t := completed | failed.
#[export] Instance AgentRuntimeCloseOutcome_eq_dec : EqDecision t.
Proof. solve_decision. Defined.
Definition t_value (x : t) : string :=
  match x with
  | completed => "completed"
  | failed => "failed"
  end.
#[export] Program Instance AgentRuntimeCloseOutcome_enum : PyEnum t :=
  {| members := [completed; failed];
     value := t_value |}.
Next Obligation. solve_enum. Qed.
Next Obligation. solve_enum. Qed.
End AgentRuntimeCloseOutcome.
Export (hints) AgentRuntimeCloseOutcome.

Module AgentRuntimeClosedBy.
Inductive t := hook | session_end | reaper.
#[export] Instance AgentRuntimeClosedBy_eq_dec : EqDecision t.
Proof. solve_decision. Defined.
Definition t_value (x : t) : string :=
  match x with
  | hook => "hook"
  | session_end => "session_end"
  | reaper => "reaper"
  end.
#[export] Program Instance AgentRuntimeClosedBy_enum : PyEnum t :=
  {| members := [hook; session_end; reaper];
     value := t_value |}.
Next Obligation. solve_enum. Qed.
Next Obligation. solve_enum. Qed.
End AgentRuntimeClosedBy.
Export (hints) AgentRuntimeClosedBy.

Module AgentRuntimeReasonCode.
Inductive t := hook_reported | session_ended | reaped_stale.
#[export] Instance AgentRuntimeReasonCode_eq_dec : EqDecision t.
Proof. solve_decision. Defined.
Definition t_value (x : t) : string :=
  match x with
  | hook_reported => "hook_reported"
  | session_ended => "session_ended"
  | reaped_stale => "reaped_stale"
  end.
#[export] Program Instance AgentRuntimeReasonCode_enum : PyEnum t :=
  {| members := [hook_reported; session_ended; reaped_stale];
     value := t_value |}.
Next Obligation. solve_enum. Qed.
Next Obligation. solve_enum. Qed.
End AgentRuntimeReasonCode.
Export (hints) AgentRuntimeReasonCode.

Module ToolName.
Inductive t := artifact_write | artifact_read | knowledge_read | calculator_execute.
#[export] Instance ToolName_eq_dec : EqDecision t.
Proof. solve_decision. Defined.
Definition t_value (x : t) : string :=
  match x with
  | artifact_write => "artifact.write"
  | artifact_read => "artifact.read"
  | knowledge_read => "knowledge.read"
  | calculator_execute => "calculator.execute"
  end.
#[export] Program Instance ToolName_enum : PyEnum t :=
  {| members := [artifact_write; artifact_read; knowledge_read; calculator_execute];
     value := t_value |}.
Next Obligation. solve_enum. Qed.
Next Obligation. solve_enum. Qed.
End ToolName.
Export (hints) ToolName.

Module ActorType.
Inductive t := user | agent | system.
#[export] Instance ActorType_eq_dec : EqDecision t.
Proof. solve_decision. Defined.
Definition t_value (x : t) : string :=
  match x with
  | user => "user"
  | agent => "agent"
  | system => "system"
  end.
#[export] Program Instance ActorType_enum : PyEnum t :=
  {| members := [user; agent; system];
     value := t_value |}.
Next Obligation. solve_enum. Qed.
Next Obligation. solve_enum. Qed.
End ActorType.
Export (hints) ActorType.

Module EventType.
Inductive t := agent_created | agent_version_created | agent_activated | agent_suspended | mission_created | mission_started | mission_completed | mission_failed | mission_cancelled | task_created | task_assigned | task_started | task_retry_started | task_completed | task_failed | runtime_checkpoint_created | runtime_recovered | model_policy_created | project_created | project_archived | model_requested | model_completed | model_failed | tool_requested | tool_denied | tool_completed | tool_failed | artifact_created | artifact_version_created | authorization_denied | budget_exceeded.
#[export] Instance EventType_eq_dec : EqDecision t.
Proof. solve_decision. Defined.
Definition t_value (x : t) : string :=
  match x with
  | agent_created => "agent.created"
  | agent_version_created => "agent.version_created"
  | agent_activated => "agent.activated"
  | agent_suspended => "agent.suspended"
  | mission_created => "mission.created"
  | mission_started => "mission.started"
  | mission_completed => "mission.completed"
  | mission_failed => "mission.failed"
  | mission_cancelled => "mission.cancelled"
  | task_created => "task.created"
  | task_assigned => "task.assigned"
  | task_started => "task.started"
  | task_retry_started => "task.retry_started"
  | task_completed => "task.completed"
  | task_failed => "task.failed"
  | runtime_checkpoint_created => "runtime.checkpoint_created"
  | runtime_recovered => "runtime.recovered"
  | model_policy_created => "model_policy.created"
  | project_created => "project.created"
  | project_archived => "project.archived"
  | model_requested => "model.requested"
  | model_completed => "model.completed"
  | model_failed => "model.failed"
  | tool_requested => "tool.requested"
  | tool_denied => "tool.denied"
  | tool_completed => "tool.completed"
  | tool_failed => "tool.failed"
  | artifact_created => "artifact.created"
  | artifact_version_created => "artifact.version_created"
  | authorization_denied => "authorization.denied"
  | budget_exceeded => "budget.exceeded"
  end.
#[export] Program Instance EventType_enum : PyEnum t :=
  {| members := [agent_created; agent_version_created; agent_activated; agent_suspended; mission_created; mission_started; mission_completed; mission_failed; mission_cancelled; task_created; task_assigned; task_started; task_retry_started; task_completed; task_failed; runtime_checkpoint_created; runtime_recovered; model_policy_created; project_created; project_archived; model_requested; model_completed; model_failed; tool_requested; tool_denied; tool_completed; tool_failed; artifact_created; artifact_version_created; authorization_denied; budget_exceeded];
     value := t_value |}.
Next Obligation. solve_enum. Qed.
Next Obligation. solve_enum. Qed.
End EventType.
Export (hints) EventType.
