(* ===== verification/Contracts.v ===== *)
(** * Shared data shapes (packages/contracts) and the exceptions the services raise

    The plain records that cross a component boundary, the event envelope and its factory,
    the mission output schema with its validator, and the class [Env] of everything the
    code calls that is not in the repository: hashing, JSON text, clocks, the model
    providers, the object store, Redis and the database connection. *)

From Stdlib Require Import Floats.
From S2P Require Import Prelude Enums.

(** ** packages/contracts/ids.py

    [new_id()] draws a UUID4. Ids are positives and the session hands out a fresh one each
    time (see [Database.new_id]); only distinctness of ids is ever used. *)
Definition EntityId := positive.
Bind Scope positive_scope with EntityId.

(** A Python value as it appears in a JSON column, an event payload or a model answer. *)
Inductive json :=
| JNull
| JBool (b : bool)
| JInt (z : Z)
| JFloat (f : float)
| JStr (s : string)
| JList (l : list json)
| JObj (fields : list (string * json)).

(** [d.get(k)] on a parsed object: the last binding of a repeated key wins. *)
Definition obj_get (k : string) (fields : list (string * json)) : option json :=
  snd <$> head (rev (filter (λ kv, kv.1 = k) fields)).

(** ** packages/contracts/policy.py *)

Record ToolPolicy := mkToolPolicy { allow : list string; deny : list string }.

(** [ToolPolicy()] *)
Definition ToolPolicy_default : ToolPolicy := mkToolPolicy [] ["*"].

(** [ToolPolicy.allow_only(tools)] *)
Definition allow_only (tools : list ToolName.t) : ToolPolicy :=
  mkToolPolicy (value <$> tools) ["*"].

Record BudgetPolicy := mkBudgetPolicy {
  max_model_cost_usd : float;
  max_model_calls : Z;
  max_runtime_minutes : Z;
  max_retries : Z;
  max_output_tokens : Z;
}.

(** [BudgetPolicy()] *)
Definition BudgetPolicy_default : BudgetPolicy :=
  mkBudgetPolicy (Py.of_int 2) 6 10 2 8000.

(** ** packages/contracts/model.py *)

Record ModelRequest := mkModelRequest {
  req_provider : string;
  req_model : string;
  req_system_prompt : string;
  req_user_prompt : string;
  req_max_output_tokens : Z;
  req_temperature : float;
  req_timeout_seconds : Z;
  req_metadata : list (string * json);
}.

(** [ModelRequest(provider=.., model=.., system_prompt=.., user_prompt=..,
    max_output_tokens=..)]: the other fields take their defaults. *)
Definition ModelRequest_make (provider model system_prompt user_prompt : string)
    (max_output_tokens : Z) : ModelRequest :=
  mkModelRequest provider model system_prompt user_prompt max_output_tokens
    (Py.div (Py.of_int 2) (Py.of_int 10)) 60 [].

Record ModelResponse := mkModelResponse {
  resp_text : string;
  resp_input_tokens : Z;
  resp_output_tokens : Z;
  resp_latency_ms : Z;
  resp_provider : string;
  resp_model : string;
  resp_finish_reason : string;
  resp_usage_estimated : bool;
  resp_raw : option json;
}.

(** ** services/model-gateway/model_gateway/telemetry.py: [ModelInvocationTelemetry] *)
Record ModelInvocationTelemetry := mkTelemetry {
  tel_provider : string;
  tel_model : string;
  tel_input_tokens : Z;
  tel_output_tokens : Z;
  tel_estimated_cost : Z;        (** 10^-8 dollars *)
  tel_latency_ms : Z;
  tel_status : ModelInvocationStatus.t;
  tel_request_hash : string;
  tel_response_hash : option string;
  tel_usage_estimated : bool;
}.

(** ** packages/contracts/runtime.py *)

(** The [state] dict of a checkpoint, by the [stage] it is written with. *)
Inductive CheckpointState :=
| PromptAssembled (system_prompt user_prompt assembled_prompt_hash provider model : string)
    (max_output_tokens : Z) (budget_policy : BudgetPolicy)
| ModelResponded (raw_response_text provider model : string)
    (input_tokens output_tokens latency_ms : Z)
| Cancelled
| OtherStage (stage : option string).

(** [state.get("stage")] *)
Definition stage_of (s : CheckpointState) : option string :=
  match s with
  | PromptAssembled _ _ _ _ _ _ _ => Some "prompt_assembled"
  | ModelResponded _ _ _ _ _ _ => Some "model_responded"
  | Cancelled => Some "cancelled"
  | OtherStage stage => stage
  end.

Record Checkpoint := mkCheckpoint {
  checkpoint_id : option EntityId;
  cp_run_id : EntityId;
  cp_task_id : EntityId;
  cp_mission_id : EntityId;
  cp_agent_id : EntityId;
  cp_sequence : Z;
  cp_status : RuntimeCheckpointStatus.t;
  cp_state : CheckpointState;
}.

Record RunContext := mkRunContext {
  ctx_tenant_id : EntityId;
  ctx_mission_id : EntityId;
  ctx_task_id : EntityId;
  ctx_agent_id : EntityId;
  ctx_agent_version_id : EntityId;
  ctx_correlation_id : EntityId;
  ctx_system_prompt : string;
  ctx_mission_objective : string;
  ctx_task_instructions : string;
  ctx_tool_policy : ToolPolicy;
  ctx_budget_policy : BudgetPolicy;
  ctx_available_context : list (string * json);
  ctx_model_provider : string;
  ctx_model_name : string;
}.

Record RunHandle := mkRunHandle { run_id : EntityId; handle_context : RunContext }.

Record RunResult := mkRunResult {
  res_run_id : EntityId;
  res_succeeded : bool;
  res_output_text : option string;
  res_model_response : option ModelResponse;
  res_model_telemetry : option ModelInvocationTelemetry;
  res_failed_attempt_telemetry : list ModelInvocationTelemetry;
  res_error : option string;
  res_final_checkpoint : option Checkpoint;
}.

(** ** packages/contracts/events.py *)

Definition EVENT_VERSION : string := "1.0".

Record Actor := mkActor { actor_type : ActorType.t; actor_id : option EntityId }.

Record EventMetadata := mkEventMetadata { md_service : string; md_environment : string }.

Record EventEnvelope := mkEvent {
  event_id : EntityId;
  event_type : EventType.t;
  event_version : string;
  occurred_at : Z;
  ev_tenant_id : EntityId;
  correlation_id : EntityId;
  causation_id : option EntityId;
  ev_actor : Actor;
  ev_mission_id : option EntityId;
  ev_task_id : option EntityId;
  ev_agent_id : option EntityId;
  ev_data : list (string * json);
  ev_metadata : EventMetadata;
}.

(** [build_event(...)]; [event_id] and [occurred_at] are drawn by the envelope's default
    factories. *)
Definition build_event (event_id : EntityId) (occurred_at : Z) (event_type : EventType.t)
    (tenant_id correlation_id : EntityId) (actor : Actor) (service : string)
    (causation_id mission_id task_id agent_id : option EntityId)
    (data : list (string * json)) : EventEnvelope :=
  mkEvent event_id event_type EVENT_VERSION occurred_at tenant_id correlation_id causation_id
    actor mission_id task_id agent_id data (mkEventMetadata service "dev").

(** ** packages/contracts/output_contract.py *)

Record OutputSection := mkOutputSection { heading : string; content : string }.

Record MissionOutput := mkMissionOutput {
  out_title : string;
  executive_summary : string;
  sections : list OutputSection;
  assumptions : list string;
  risks : list string;
  open_questions : list string;
}.

Definition as_str (j : json) : option string := match j with JStr s => Some s | _ => None end.

Definition as_str_list (j : json) : option (list string) :=
  match j with JList l => mapM as_str l | _ => None end.

Definition as_section (j : json) : option OutputSection :=
  match j with
  | JObj fs =>
      h ← obj_get "heading" fs ≫= as_str;
      c ← obj_get "content" fs ≫= as_str;
      Some (mkOutputSection h c)
  | _ => None
  end.

(** A field with [default_factory=list]: absent gives [[]], present must be a list of str. *)
Definition str_list_field (k : string) (fs : list (string * json)) : option (list string) :=
  match obj_get k fs with None => Some [] | Some j => as_str_list j end.

(** [MissionOutput.model_validate(payload)]; [None] is a [ValidationError]. Keys the schema
    does not name are ignored, pydantic's default. *)
Definition MissionOutput_model_validate (payload : json) : option MissionOutput :=
  match payload with
  | JObj fs =>
      t ← obj_get "title" fs ≫= as_str;
      e ← obj_get "executive_summary" fs ≫= as_str;
      ss ← (obj_get "sections" fs ≫= λ j, match j with JList l => mapM as_section l | _ => None end);
      a ← str_list_field "assumptions" fs;
      r ← str_list_field "risks" fs;
      q ← str_list_field "open_questions" fs;
      Some (mkMissionOutput t e ss a r q)
  | _ => None
  end.

(** ** Exceptions *)

(** Why a budget check refused, one constructor per f-string of
    [policy_sdk.budgets.evaluate_budget]; the last is the gateway's fallback text for a
    decision without a reason. *)
Inductive BudgetReason :=
| MaxModelCallsReached (n : Z)
| MaxModelCostReached (usd : float)
| MaxRuntimeExceeded (minutes : Z)
| OutputTokensExceed (requested cap : Z)
| MaxRetriesReached (n : Z)
| BudgetExceededUnspecified.

Inductive exn :=
| BudgetExceededError (reason : BudgetReason) (attempts : list ModelInvocationTelemetry)
| ModelGatewayError (msg : string) (attempts : list ModelInvocationTelemetry)
| UnpricedModelError (provider model : string)
| CircuitOpenError (provider : string) (retry_after_seconds : float)
    (attempts : list ModelInvocationTelemetry)
| ProviderError (status_code : option Z) (msg : string)
| PermissionDenied (tool : string) (denied_by_scope : option string) (reason : option string)
| InvalidTransition (entity current target : string)
| TaskExecutionError (msg : string)
| ValueError (msg : string)
| RuntimeError (msg : string)
| KeyError (key : string)
| AttributeError (attr : string)
| TypeError (msg : string)
| MultipleResultsFound
| NoResultFound
| IntegrityError (constraint : string)
| PendingRollbackError
| OperationalError (what : string)
| LeaseLostError (key : string)
| SystemExit (msg : string)
| HTTPException (status_code : Z) (detail : string).

(** [isinstance(e, ModelGatewayError)]: the class and its two subclasses. *)
Definition is_gateway_error (e : exn) : bool :=
  match e with
  | ModelGatewayError _ _ | UnpricedModelError _ _ | CircuitOpenError _ _ _ => true
  | _ => false
  end.

(** ** The environment

    Readings of the clocks and answers of the services are numbered: the [n]-th reading may
    be any value, so a theorem that quantifies over [Env] covers every schedule of answers,
    failures and clock values. *)
Class Env := {
  sha256_hex : string → string;
  (** [json.loads]: [inl (msg, lineno, colno)] is a [JSONDecodeError]. *)
  json_loads : string → (string * Z * Z) + json;
  json_dumps : json → string;
  (** [str(exc.errors())] of pydantic's [ValidationError]. *)
  validation_errors : json → string;
  (** [f"{x:.2f}"] and [f"{x:.0f}"] *)
  fmt_2f : float → string;
  fmt_0f : float → string;
  (** [model_dump_json()] of the models that are hashed or quoted in a prompt. *)
  dump_request : ModelRequest → string;
  dump_tool_policy : ToolPolicy → string;
  dump_budget_policy : BudgetPolicy → string;
  (** [json.dumps(OUTPUT_JSON_SCHEMA)] *)
  output_json_schema : string;
  (** [datetime.now(timezone.utc)] in microseconds, and [time.monotonic()] in seconds. *)
  utc_now : nat → Z;
  mono_now : nat → float;
  (** The answer of provider [p] to the [n]-th request sent: a response, or the
      exception's HTTP status, if it has one, and its text. A timeout is an exception
      without a status. *)
  provider_generate : string → nat → ModelRequest → (option Z * string) + ModelResponse;
  (** Does the [n]-th upload, stream publish or commit succeed? *)
  object_put_ok : nat → bool;
  redis_ok : nat → bool;
  commit_ok : nat → bool;
  (** After an [IntegrityError] was caught around a [begin_nested()] block: may the session
      run its next statement, or does it demand a [rollback()] first? (SQLAlchemy on asyncpg
      does the latter, see the comment in services/api/services/room_assignment.py.) *)
  savepoint_recovers : bool;
  (** The object store's bucket. *)
  bucket : string;
}.

(** [str(exc)] of the errors whose text reaches an event: a refused budget and the gateway's
    errors. No other exception is ever formatted. *)
Section error_text.
Context `{Env}.

Definition str_reason (r : BudgetReason) : string :=
  match r with
  | MaxModelCallsReached n => "max_model_calls (" +:+ pretty n +:+ ") reached."
  | MaxModelCostReached usd => "max_model_cost_usd ($" +:+ fmt_2f usd +:+ ") reached."
  | MaxRuntimeExceeded n => "max_runtime_minutes (" +:+ pretty n +:+ ") exceeded."
  | OutputTokensExceed t n =>
      "requested_output_tokens (" +:+ pretty t +:+ ") exceeds max_output_tokens ("
      +:+ pretty n +:+ ")."
  | MaxRetriesReached n => "max_retries (" +:+ pretty n +:+ ") reached."
  | BudgetExceededUnspecified => "Budget exceeded."
  end.

Definition str_exn (e : exn) : string :=
  match e with
  | BudgetExceededError r _ => str_reason r
  | ModelGatewayError msg _ => msg
  | UnpricedModelError provider model =>
      "No price is configured for model '" +:+ provider +:+ "/" +:+ model +:+ "'. Add it to "
      +:+ "model_gateway.telemetry._PRICING_PER_1K_TOKENS before using it."
  | CircuitOpenError provider retry_after _ =>
      "Circuit open for provider '" +:+ provider +:+ "'; retry after " +:+ fmt_0f retry_after +:+ "s."
  | _ => ""
  end.
End error_text.

Section output_contract.
Context `{Env}.

(** [validate_mission_output(raw_text)]: (parsed, None) or (None, error_message). *)
Definition validate_mission_output (raw_text : string) : option MissionOutput * option string :=
  match json_loads raw_text with
  | inl (msg, lineno, colno) =>
      (None, Some ("Output was not valid JSON: " +:+ msg +:+ " at line " +:+ pretty lineno
                   +:+ " col " +:+ pretty colno +:+ "."))
  | inr payload =>
      match MissionOutput_model_validate payload with
      | Some out => (Some out, None)
      | None =>
          (None, Some ("Output did not match the required schema: " +:+ validation_errors payload))
      end
  end.

(** Exactly one of the two components is present. *)
Lemma validate_mission_output_xor raw :
  (is_Some (validate_mission_output raw).1 ∧ (validate_mission_output raw).2 = None) ∨
  ((validate_mission_output raw).1 = None ∧ is_Some (validate_mission_output raw).2).
Proof.
  unfold validate_mission_output.
  destruct (json_loads raw) as [[[]]|p]; [right; eauto|].
  destruct (MissionOutput_model_validate p); [left | right]; eauto.
Qed.
End output_contract.
