(* ===== verification/Permissions.v ===== *)
(** * Tool permission evaluator (packages/policy-sdk/policy_sdk/permissions.py)

    Effective access is the intersection of the platform, tenant, agent and mission scopes.
    [evaluate_tool_access] is the code's loop over the scopes with its early return;
    [permitted] is the specification it refines. *)

From S2P Require Import Prelude Enums Contracts.

(** [ALL_TOOLS] *)
Definition ALL_TOOLS : gset string := list_to_set (value <$> (members : list ToolName.t)).

Record PermissionDecision := mkDecision {
  dec_allowed : bool;
  dec_tool : string;
  denied_by_scope : option string;
  dec_reason : option string;
}.

(** [effective_tool_set(policy, universe)] *)
Definition effective_tool_set (policy : ToolPolicy) (universe : gset string) : gset string :=
  let allowed :=
    if decide ("*" ∈ allow policy) then universe
    else list_to_set (allow policy) ∩ universe in
  let explicit_denies := (list_to_set (deny policy) ∖ {["*"]}) ∩ universe in
  allowed ∖ explicit_denies.

(** The [scopes] list [evaluate_tool_access] builds. *)
Definition scopes_of (platform tenant agent : ToolPolicy) (mission : option ToolPolicy) :
    list (string * ToolPolicy) :=
  [("platform", platform); ("tenant", tenant); ("agent", agent)] ++
  match mission with Some p => [("mission", p)] | None => [] end.

(** The [for scope_name, policy in scopes] loop. *)
Fixpoint check_scopes (tool : string) (universe : gset string)
    (scopes : list (string * ToolPolicy)) : PermissionDecision :=
  match scopes with
  | [] => mkDecision true tool None None
  | (scope_name, policy) :: rest =>
      if decide (tool ∉ effective_tool_set policy universe) then
        mkDecision false tool (Some scope_name)
          (Some ("Denied by " +:+ scope_name +:+ " tool policy."))
      else check_scopes tool universe rest
  end.

(** [evaluate_tool_access(tool, ...)] *)
Definition evaluate_tool_access (tool : string) (platform tenant agent : ToolPolicy)
    (mission : option ToolPolicy) (universe : gset string) : PermissionDecision :=
  if decide (tool ∉ universe) then
    mkDecision false tool None (Some ("'" +:+ tool +:+ "' is not a recognized Phase 0 tool."))
  else check_scopes tool universe (scopes_of platform tenant agent mission).

(** [require_tool_access(tool, ...)]: raises [PermissionDenied] on denial. *)
Definition require_tool_access (tool : string) (platform tenant agent : ToolPolicy)
    (mission : option ToolPolicy) (universe : gset string) : outcome exn unit :=
  let decision := evaluate_tool_access tool platform tenant agent mission universe in
  if dec_allowed decision then Ret tt
  else Raise (PermissionDenied tool (denied_by_scope decision) (dec_reason decision)).

(** services/mission-engine/mission_engine/engine/policies.py *)
Definition PLATFORM_DEFAULT_TOOL_POLICY : ToolPolicy := mkToolPolicy ["*"] [].
Definition TENANT_DEFAULT_TOOL_POLICY : ToolPolicy := mkToolPolicy ["*"] [].

(** ** Specification *)

(** What one scope's policy document means for one tool: it is named in [allow] (or [allow]
    is open), and it is not named in [deny]. The marker ["*"] in [deny] denies nothing by
    itself. *)
Definition scope_permits (policy : ToolPolicy) (tool : string) : Prop :=
  ("*" ∈ allow policy ∨ tool ∈ allow policy) ∧ ¬ (tool ∈ deny policy ∧ tool ≠ "*").

Definition permitted (tool : string) (platform tenant agent : ToolPolicy)
    (mission : option ToolPolicy) (universe : gset string) : Prop :=
  tool ∈ universe ∧ scope_permits platform tool ∧ scope_permits tenant tool ∧
  scope_permits agent tool ∧ (∀ p, mission = Some p → scope_permits p tool).

(** ** Lemmas *)

Lemma elem_of_effective tool p universe :
  tool ∈ effective_tool_set p universe ↔ tool ∈ universe ∧ scope_permits p tool.
Proof.
  unfold effective_tool_set, scope_permits.
  rewrite elem_of_difference, elem_of_intersection, elem_of_difference, elem_of_list_to_set,
    elem_of_singleton.
  case_decide; [|rewrite elem_of_intersection, elem_of_list_to_set];
    destruct (decide (tool = "*")), (decide (tool ∈ universe)); tauto.
Qed.

Lemma check_scopes_allowed tool universe scopes :
  dec_allowed (check_scopes tool universe scopes) = true ↔
  Forall (λ sp, tool ∈ effective_tool_set sp.2 universe) scopes.
Proof.
  induction scopes as [|[n p] rest IH]; simpl; [by rewrite Forall_nil|].
  rewrite Forall_cons, <- IH. simpl. case_decide; simpl; [|tauto].
  split; [done|]. tauto.
Qed.

(** A denial by the loop names the first scope that does not permit the tool. *)
Lemma check_scopes_denied tool universe scopes s :
  denied_by_scope (check_scopes tool universe scopes) = Some s ↔
  ∃ l1 p l2, scopes = (l1 ++ (s, p) :: l2) ∧ (tool ∉ effective_tool_set p universe) ∧
             Forall (λ sp, tool ∈ effective_tool_set sp.2 universe) l1.
Proof.
  induction scopes as [|[n p] rest IH]; simpl.
  { split; [done|]. intros ([|? ?] & ? & ? & ? & _); discriminate. }
  case_decide as Hin; simpl.
  - split.
    + intros [= ->]. exists [], p, rest. eauto.
    + intros ([|[n' p'] l1] & q & l2 & [= -> -> ->] & Hq & Hl); [done|].
      by apply Forall_cons in Hl as [? _].
  - rewrite IH. split.
    + intros (l1 & q & l2 & -> & Hq & Hl). exists ((n, p) :: l1), q, l2.
      split_and!; [done|done|]. constructor; [|done]. done.
    + intros ([|[n' p'] l1] & q & l2 & [= -> -> ->] & Hq & Hl); [done|].
      apply Forall_cons in Hl as [_ Hl]. eauto 10.
Qed.

Lemma evaluate_allowed_iff tool pl te ag mi universe :
  dec_allowed (evaluate_tool_access tool pl te ag mi universe) = true ↔
  permitted tool pl te ag mi universe.
Proof.
  unfold evaluate_tool_access, permitted. case_decide as Hu.
  { split; [done|]. by intros [? _]. }
  rewrite check_scopes_allowed. unfold scopes_of.
  rewrite Forall_app, !Forall_cons, Forall_nil; simpl. rewrite !elem_of_effective.
  destruct mi as [p|]; simpl; [rewrite Forall_singleton, elem_of_effective|];
    naive_solver.
Qed.

(** ** Properties *)


(** A denial is attributed to the first scope, in the order platform, tenant, agent,
    mission, whose policy does not permit the tool; a tool outside the universe is denied
    with no scope. *)
Theorem denied_scope_is_first tool pl te ag mi universe s :
  denied_by_scope (evaluate_tool_access tool pl te ag mi universe) = Some s ↔
  tool ∈ universe ∧
  ∃ l1 p l2, scopes_of pl te ag mi = (l1 ++ (s, p) :: l2) ∧ ¬ scope_permits p tool ∧
             Forall (λ sp, scope_permits sp.2 tool) l1.
Proof.
  unfold evaluate_tool_access. case_decide as Hu.
  { split; [done|]. by intros [? _]. }
  rewrite check_scopes_denied.
  setoid_rewrite elem_of_effective.
  split; [intros (l1 & p & l2 & ? & ? & Hl) | intros (_ & l1 & p & l2 & ? & ? & Hl)].
  - split; [done|]. exists l1, p, l2. split_and!; [done|tauto|].
    eapply Forall_impl; [exact Hl|]. simpl. tauto.
  - exists l1, p, l2. split_and!; [done|tauto|].
    eapply Forall_impl; [exact Hl|]. simpl. tauto.
Qed.

Lemma require_tool_access_iff tool pl te ag mi universe :
  require_tool_access tool pl te ag mi universe = Ret tt ↔ permitted tool pl te ag mi universe.
Proof.
  rewrite <- evaluate_allowed_iff. unfold require_tool_access.
  destruct (dec_allowed _); naive_solver.
Qed.
