(* ===== verification/Budgets.v ===== *)
(** * Budget evaluator (packages/policy-sdk/policy_sdk/budgets.py)

    Checked before every provider attempt. The cost and the elapsed time are Python floats,
    so the comparisons are IEEE comparisons. *)

From Stdlib Require Import Floats.
From S2P Require Import Prelude Enums Contracts.
Local Open Scope Z_scope.

Record BudgetUsage := mkBudgetUsage {
  calls_made : Z;
  cost_spent_usd : float;
  elapsed_minutes : float;
  retries_made : Z;
}.

Record BudgetDecision := mkBudgetDecision { allowed : bool; reason : option BudgetReason }.

(** [evaluate_budget(policy, usage, requested_output_tokens=.., is_retry=..,
    worst_case_cost_usd=..)] *)
Definition evaluate_budget (policy : BudgetPolicy) (usage : BudgetUsage)
    (requested_output_tokens : Z) (is_retry : bool) (worst_case_cost_usd : float) :
    BudgetDecision :=
  if max_model_calls policy <=? calls_made usage then
    mkBudgetDecision false (Some (MaxModelCallsReached (max_model_calls policy)))
  else if Py.ge (cost_spent_usd usage) (max_model_cost_usd policy)
          || Py.gt (Py.add (cost_spent_usd usage) worst_case_cost_usd) (max_model_cost_usd policy)
  then mkBudgetDecision false (Some (MaxModelCostReached (max_model_cost_usd policy)))
  else if Py.ge (elapsed_minutes usage) (Py.of_int (max_runtime_minutes policy)) then
    mkBudgetDecision false (Some (MaxRuntimeExceeded (max_runtime_minutes policy)))
  else if max_output_tokens policy <? requested_output_tokens then
    mkBudgetDecision false
      (Some (OutputTokensExceed requested_output_tokens (max_output_tokens policy)))
  else if is_retry && (max_retries policy <=? retries_made usage) then
    mkBudgetDecision false (Some (MaxRetriesReached (max_retries policy)))
  else mkBudgetDecision true None.

(** The budget has room: what an allowed call is guaranteed. *)
Record within_budget (policy : BudgetPolicy) (usage : BudgetUsage) (tokens : Z)
    (is_retry : bool) (worst : float) : Prop := {
  wb_calls : calls_made usage < max_model_calls policy;
  wb_spent : Py.ge (cost_spent_usd usage) (max_model_cost_usd policy) = false;
  wb_cost : Py.gt (Py.add (cost_spent_usd usage) worst) (max_model_cost_usd policy) = false;
  wb_time : Py.ge (elapsed_minutes usage) (Py.of_int (max_runtime_minutes policy)) = false;
  wb_tokens : tokens ≤ max_output_tokens policy;
  wb_retries : is_retry = true → retries_made usage < max_retries policy;
}.

Lemma evaluate_budget_allowed policy usage tokens is_retry worst :
  allowed (evaluate_budget policy usage tokens is_retry worst) = true ↔
  within_budget policy usage tokens is_retry worst.
Proof.
  unfold evaluate_budget.
  destruct (Z.leb_spec (max_model_calls policy) (calls_made usage)); simpl.
  { split; [done|]. intros []. lia. }
  destruct (Py.ge (cost_spent_usd usage) (max_model_cost_usd policy)) eqn:E1; simpl.
  { split; [done|]. intros []. congruence. }
  destruct (Py.gt (Py.add _ _) _) eqn:E2; simpl.
  { split; [done|]. intros []. congruence. }
  destruct (Py.ge (elapsed_minutes usage) _) eqn:E3; simpl.
  { split; [done|]. intros []. congruence. }
  destruct (Z.ltb_spec (max_output_tokens policy) tokens); simpl.
  { split; [done|]. intros []. lia. }
  destruct is_retry; simpl.
  - destruct (Z.leb_spec (max_retries policy) (retries_made usage)); simpl.
    + split; [done|]. intros [????? Hr]. specialize (Hr eq_refl). lia.
    + split; [|done]. by constructor.
  - split; [|done]. by constructor.
Qed.

(** A decision carries a reason exactly when it refuses. *)
Lemma evaluate_budget_reason policy usage tokens is_retry worst :
  reason (evaluate_budget policy usage tokens is_retry worst) = None ↔
  allowed (evaluate_budget policy usage tokens is_retry worst) = true.
Proof. unfold evaluate_budget. repeat case_match; done. Qed.

(** Which ceiling a refusal reports. The checks run in the order calls, cost, runtime,
    output tokens, retries, and the reported reason is the first ceiling that is hit: a
    refusal for any later reason implies that the call count was still below its ceiling,
    and a refusal for retries implies that every other ceiling had room. *)
Theorem evaluate_budget_reason_order policy usage tokens is_retry worst r :
  reason (evaluate_budget policy usage tokens is_retry worst) = Some r →
  match r with
  | MaxModelCallsReached n => n = max_model_calls policy ∧ n ≤ calls_made usage
  | MaxModelCostReached usd =>
      usd = max_model_cost_usd policy ∧ calls_made usage < max_model_calls policy ∧
      (Py.ge (cost_spent_usd usage) usd = true ∨
       Py.gt (Py.add (cost_spent_usd usage) worst) usd = true)
  | MaxRuntimeExceeded n =>
      n = max_runtime_minutes policy ∧ calls_made usage < max_model_calls policy ∧
      Py.ge (elapsed_minutes usage) (Py.of_int n) = true
  | OutputTokensExceed t n =>
      t = tokens ∧ n = max_output_tokens policy ∧ n < t ∧
      calls_made usage < max_model_calls policy
  | MaxRetriesReached n =>
      n = max_retries policy ∧ n ≤ retries_made usage ∧ is_retry = true ∧
      within_budget policy usage tokens false worst
  | BudgetExceededUnspecified => False
  end.
Proof.
  unfold evaluate_budget.
  destruct (Z.leb_spec (max_model_calls policy) (calls_made usage)); simpl.
  { by intros [= <-]. }
  destruct (Py.ge (cost_spent_usd usage) (max_model_cost_usd policy)) eqn:E1; simpl.
  { intros [= <-]. auto. }
  destruct (Py.gt (Py.add _ _) _) eqn:E2; simpl.
  { intros [= <-]. auto. }
  destruct (Py.ge (elapsed_minutes usage) _) eqn:E3; simpl.
  { by intros [= <-]. }
  destruct (Z.ltb_spec (max_output_tokens policy) tokens); simpl.
  { by intros [= <-]. }
  destruct is_retry; simpl; [|done].
  destruct (Z.leb_spec (max_retries policy) (retries_made usage)); simpl; [|done].
  intros [= <-]. by split_and!.
Qed.

Lemma evaluate_budget_reason_order_witness :
  within_budget BudgetPolicy_default (mkBudgetUsage 1 (Py.of_int 0) (Py.of_int 0) 2) 100 false
    (Py.of_int 1).
Proof.
  set (u := mkBudgetUsage 1 (Py.of_int 0) (Py.of_int 0) 2).
  assert (reason (evaluate_budget BudgetPolicy_default u 100 true (Py.of_int 1)) =
          Some (MaxRetriesReached 2)) as Hr by reflexivity.
  apply (evaluate_budget_reason_order BudgetPolicy_default u 100 true (Py.of_int 1) _ Hr).
Defined.
