(* ===== verification/Telemetry.v ===== *)
(** * Prices and the cost of an attempt (services/model-gateway/model_gateway/telemetry.py)

    Amounts are exact: a [Decimal] dollar amount is an integer number of 10^-8 dollars, in
    which every price per token of the table is whole. Strings are their UTF-8 bytes. *)

From S2P Require Import Prelude Enums Contracts.
Local Open Scope Z_scope.

(** [_PRICING_PER_1K_TOKENS]: (input, output) price per TOKEN in 10^-8 dollars; a per-1K
    price of [p] dollars is [p * 10^5] of these units per token. *)
Definition PRICING : gmap (string * string) (Z * Z) :=
  list_to_map
    [ (("mock", "*"), (0, 0));
      (("anthropic", "claude-sonnet-5"), (300, 1500));
      (("anthropic", "claude-haiku-4-5-20251001"), (100, 500));
      (("anthropic", "claude-opus-5"), (1500, 7500));
      (("openai", "gpt-4o-mini"), (15, 60));
      (("openai", "gpt-4o"), (250, 1000)) ].

(** [_price_for(provider, model)] *)
Definition price_for (provider model : string) : outcome exn (Z * Z) :=
  match PRICING !! (provider, model) with
  | Some p => Ret p
  | None =>
      match PRICING !! (provider, "*") with
      | Some p => Ret p
      | None => Raise (UnpricedModelError provider model)
      end
  end.

(** [require_priced(provider, model)] *)
Definition require_priced (provider model : string) : outcome exn unit :=
  match price_for provider model with Ret _ => Ret tt | Raise e => Raise e end.

(** [estimate_cost_usd(provider, model, input_tokens, output_tokens)] *)
Definition estimate_cost_usd (provider model : string) (input_tokens output_tokens : Z) :
    outcome exn Z :=
  match price_for provider model with
  | Ret (input_price, output_price) =>
      Ret (input_tokens * input_price + output_tokens * output_price)
  | Raise e => Raise e
  end.

Definition BYTES_PER_INPUT_TOKEN_ESTIMATE : Z := 3.

(** [estimate_input_tokens(system_prompt, user_prompt)]: [ceil(bytes / 3)]. *)
Definition estimate_input_tokens (system_prompt user_prompt : string) : Z :=
  let size := Z.of_nat (String.length (system_prompt +:+ user_prompt)) in
  (size + (BYTES_PER_INPUT_TOKEN_ESTIMATE - 1)) / BYTES_PER_INPUT_TOKEN_ESTIMATE.

(** [is_provably_unbilled(error)], on the error's [status_code] if it has one. *)
Definition is_provably_unbilled (status : option Z) : bool :=
  match status with
  | Some s => (400 <=? s) && (s <? 500) && negb (s =? 408)
  | None => false
  end.

(** [is_permanent_rejection(error)] *)
Definition is_permanent_rejection (status : option Z) : bool :=
  is_provably_unbilled status && negb (bool_decide (status = Some 429)).

(** [estimate_worst_case_attempt(...)]: (input_tokens, output_tokens, cost). *)
Definition estimate_worst_case_attempt (provider model system_prompt user_prompt : string)
    (max_output_tokens : Z) : outcome exn (Z * Z * Z) :=
  let tokens_in := estimate_input_tokens system_prompt user_prompt in
  match estimate_cost_usd provider model tokens_in max_output_tokens with
  | Ret cost => Ret (tokens_in, max_output_tokens, cost)
  | Raise e => Raise e
  end.

(** [estimate_failed_attempt(..., error=error)] *)
Definition estimate_failed_attempt (provider model system_prompt user_prompt : string)
    (max_output_tokens : Z) (error_status : option Z) : outcome exn (Z * Z * Z) :=
  if is_provably_unbilled error_status then Ret (0, 0, 0)
  else estimate_worst_case_attempt provider model system_prompt user_prompt max_output_tokens.

(** services/model-gateway/model_gateway/provider_registry.py: the two API keys are the
    settings it reads. *)
Definition available_provider_names (anthropic_api_key openai_api_key : string) : gset string :=
  let names := {["mock"]} in
  let names := if decide (anthropic_api_key = "") then names else {["anthropic"]} ∪ names in
  if decide (openai_api_key = "") then names else {["openai"]} ∪ names.

(** ** Lemmas *)

Lemma PRICING_nonneg k p : PRICING !! k = Some p → 0 ≤ p.1 ∧ 0 ≤ p.2.
Proof.
  intros Hk.
  assert (map_Forall (λ _ p, 0 ≤ p.1 ∧ 0 ≤ p.2) PRICING) as Hall
    by (apply (bool_decide_unpack _); vm_compute; exact I).
  exact (Hall k p Hk).
Qed.

Lemma price_for_nonneg provider model p : price_for provider model = Ret p → 0 ≤ p.1 ∧ 0 ≤ p.2.
Proof.
  unfold price_for. repeat case_match; intros; simplify_eq; eauto using PRICING_nonneg.
Qed.

Lemma estimate_cost_mono provider model i o i' o' c c' :
  i ≤ i' → o ≤ o' →
  estimate_cost_usd provider model i o = Ret c →
  estimate_cost_usd provider model i' o' = Ret c' → c ≤ c'.
Proof.
  unfold estimate_cost_usd. intros Hi Ho.
  destruct (price_for provider model) as [[pi po]|] eqn:Hp; [|done].
  apply price_for_nonneg in Hp as [??]; simpl in *. intros [= <-] [= <-]. nia.
Qed.

Lemma estimate_input_tokens_bound sp up :
  3 * (estimate_input_tokens sp up - 1) < Z.of_nat (String.length (sp +:+ up))
    ≤ 3 * estimate_input_tokens sp up.
Proof.
  unfold estimate_input_tokens, BYTES_PER_INPUT_TOKEN_ESTIMATE.
  set (n := Z.of_nat _). pose proof (Z.div_mod (n + (3 - 1)) 3 ltac:(lia)).
  pose proof (Z.mod_pos_bound (n + (3 - 1)) 3 ltac:(lia)). lia.
Qed.

Lemma worst_case_nonneg provider model sp up cap ti to c :
  0 ≤ cap → estimate_worst_case_attempt provider model sp up cap = Ret (ti, to, c) → 0 ≤ c.
Proof.
  unfold estimate_worst_case_attempt, estimate_cost_usd. intros Hcap.
  destruct (price_for provider model) as [[pi po]|] eqn:Hp; [|done].
  apply price_for_nonneg in Hp as [??]; simpl in *. intros [= <- <- <-].
  pose proof (estimate_input_tokens_bound sp up). nia.
Qed.

(** ** Properties *)

(** The only exception pricing raises. *)
Lemma price_for_raises provider model e :
  price_for provider model = Raise e → e = UnpricedModelError provider model.
Proof.
  unfold price_for. destruct (PRICING !! (provider, model)); [done|].
  destruct (PRICING !! (provider, "*")); [done|]. by intros [= <-].
Qed.

Lemma estimate_cost_usd_raises provider model i o e :
  estimate_cost_usd provider model i o = Raise e → e = UnpricedModelError provider model.
Proof.
  unfold estimate_cost_usd. destruct (price_for provider model) as [[]|e'] eqn:Hp; [done|].
  intros [= <-]. by apply price_for_raises.
Qed.

Lemma estimate_worst_case_raises provider model sp up cap e :
  estimate_worst_case_attempt provider model sp up cap = Raise e → e = UnpricedModelError provider model.
Proof.
  unfold estimate_worst_case_attempt.
  destruct (estimate_cost_usd _ _ _ _) eqn:Hc; [done|]. intros [= <-].
  by eapply estimate_cost_usd_raises.
Qed.

(** Never undercount. A failed attempt is recorded either at zero cost, and then the
    provider answered with an HTTP 4xx other than 408, or at the worst-case cost, which is
    at least the cost of any usage within the estimated input and the output cap. *)
Theorem failed_attempt_never_undercounts provider model sp up cap status ti to c i o c' :
  estimate_failed_attempt provider model sp up cap status = Ret (ti, to, c) →
  i ≤ estimate_input_tokens sp up → o ≤ cap →
  estimate_cost_usd provider model i o = Ret c' →
  c' ≤ c ∨ (c = 0 ∧ ∃ s, status = Some s ∧ 400 ≤ s < 500 ∧ s ≠ 408).
Proof.
  unfold estimate_failed_attempt. intros Hf Hi Ho Hc.
  destruct (is_provably_unbilled status) eqn:Hs.
  - right. simplify_eq. split; [done|]. destruct status as [s|]; simpl in Hs; [|done].
    exists s. split; [done|]. lia.
  - left. unfold estimate_worst_case_attempt in Hf.
    destruct (estimate_cost_usd _ _ _ cap) as [c''|] eqn:Hw; simplify_eq.
    eauto using estimate_cost_mono.
Qed.

Lemma failed_attempt_never_undercounts_witness :
  ∃ c, estimate_failed_attempt "openai" "gpt-4o" "ab" "cd" 10 None = Ret (2, 10, c) ∧
       (1250 ≤ c ∨ (c = 0 ∧ ∃ s, (None : option Z) = Some s ∧ 400 ≤ s < 500 ∧ s ≠ 408)).
Proof.
  exists 10500. split; [vm_compute; reflexivity|].
  apply (failed_attempt_never_undercounts "openai" "gpt-4o" "ab" "cd" 10 None 2 10 10500 1 1 1250);
    vm_compute; congruence.
Defined.

Lemma price_for_unpriced provider model :
  PRICING !! (provider, model) = None → PRICING !! (provider, "*") = None →
  price_for provider model = Raise (UnpricedModelError provider model).
Proof. unfold price_for. by intros -> ->. Qed.
