(* ===== verification/Breaker.v ===== *)
(** * Per-provider circuit breaker
    (services/model-gateway/model_gateway/routing/circuit_breaker.py)

    The methods take the value [time.monotonic()] would return. *)

From Stdlib Require Import Floats.
From S2P Require Import Prelude Enums Contracts.
Local Open Scope Z_scope.

(** [_ProviderState] *)
Record ProviderState := mkProviderState {
  consecutive_failures : Z;
  opened_at : option float;
}.

Record CircuitBreaker := mkCircuitBreaker {
  failure_threshold : Z;
  cooldown_seconds : float;
  cb_state : gmap string ProviderState;
}.

(** [CircuitBreaker()] *)
Definition CircuitBreaker_default : CircuitBreaker :=
  mkCircuitBreaker 3 (Py.of_int 30) ∅.

Definition with_state (s : gmap string ProviderState) (cb : CircuitBreaker) : CircuitBreaker :=
  mkCircuitBreaker (failure_threshold cb) (cooldown_seconds cb) s.

(** [_get(provider)]: [setdefault] with a fresh state. *)
Definition get_state (cb : CircuitBreaker) (provider : string) : ProviderState :=
  default (mkProviderState 0 None) (cb_state cb !! provider).

Definition put_state (provider : string) (st : ProviderState) (cb : CircuitBreaker) :
    CircuitBreaker :=
  with_state (<[provider := st]> (cb_state cb)) cb.

(** [before_call(provider)] *)
Definition before_call (provider : string) (now : float) (cb : CircuitBreaker) :
    outcome exn unit * CircuitBreaker :=
  let state := get_state cb provider in
  match opened_at state with
  | None => (Ret tt, put_state provider state cb)
  | Some t =>
      let elapsed := Py.sub now t in
      if Py.lt elapsed (cooldown_seconds cb) then
        (Raise (CircuitOpenError provider (Py.sub (cooldown_seconds cb) elapsed) []),
         put_state provider state cb)
      else (Ret tt, put_state provider (mkProviderState 0 None) cb)
  end.

(** [record_success(provider)] *)
Definition record_success (provider : string) (cb : CircuitBreaker) : CircuitBreaker :=
  put_state provider (mkProviderState 0 None) cb.

(** [record_failure(provider)] *)
Definition record_failure (provider : string) (now : float) (cb : CircuitBreaker) :
    CircuitBreaker :=
  let state := get_state cb provider in
  let failures := consecutive_failures state + 1 in
  let opened :=
    if (failure_threshold cb <=? failures) && bool_decide (opened_at state = None)
    then Some now else opened_at state in
  put_state provider (mkProviderState failures opened) cb.

(** ** Reachable breakers *)

Inductive breaker_op :=
| OpBefore (provider : string) (now : float)
| OpSuccess (provider : string)
| OpFailure (provider : string) (now : float).

Definition apply_op (op : breaker_op) (cb : CircuitBreaker) : CircuitBreaker :=
  match op with
  | OpBefore p now => (before_call p now cb).2
  | OpSuccess p => record_success p cb
  | OpFailure p now => record_failure p now cb
  end.

(** Breakers reachable from an empty one with the given parameters. *)
Inductive reachable (threshold : Z) (cooldown : float) : CircuitBreaker → Prop :=
| reach_init : reachable threshold cooldown (mkCircuitBreaker threshold cooldown ∅)
| reach_step cb op : reachable threshold cooldown cb → reachable threshold cooldown (apply_op op cb).

(** ** Lemmas *)

(** [before_call] raises only [CircuitOpenError]. *)
Lemma before_call_raises provider now cb e cb' :
  before_call provider now cb = (Raise e, cb') → is_gateway_error e = true.
Proof.
  unfold before_call. destruct (opened_at _); [|done]. destruct (Py.lt _ _); [|done].
  by intros [= <- _].
Qed.

Lemma get_put p st cb : get_state (put_state p st cb) p = st.
Proof. unfold get_state, put_state, with_state. simpl. by rewrite lookup_insert_eq. Qed.

Lemma get_put_ne p q st cb : p ≠ q → get_state (put_state p st cb) q = get_state cb q.
Proof. intros. unfold get_state, put_state, with_state. simpl. by rewrite lookup_insert_ne. Qed.

(** The failure counter and the [opened_at] mark agree. *)
Definition consistent (threshold : Z) (st : ProviderState) : Prop :=
  0 ≤ consecutive_failures st ∧
  (is_Some (opened_at st) ↔ threshold ≤ consecutive_failures st).

Lemma consistent_reset threshold : 0 < threshold → consistent threshold (mkProviderState 0 None).
Proof. intros. split; simpl; [lia|]. split; [by intros []|lia]. Qed.

Lemma record_failure_consistent p now cb :
  0 < failure_threshold cb →
  consistent (failure_threshold cb) (get_state cb p) →
  consistent (failure_threshold cb) (get_state (record_failure p now cb) p).
Proof.
  intros Ht [Hn Hi]. unfold record_failure. rewrite get_put. split; simpl; [lia|].
  destruct (Z.leb_spec (failure_threshold cb) (consecutive_failures (get_state cb p) + 1)); simpl.
  - case_bool_decide as Ho; [split; eauto|].
    destruct (opened_at (get_state cb p)); [|done]. split; eauto.
  - split; [|lia]. intros [t Hs]. assert (is_Some (opened_at (get_state cb p))) as Hx by eauto.
    apply Hi in Hx. lia.
Qed.

Lemma apply_op_params op cb :
  failure_threshold (apply_op op cb) = failure_threshold cb ∧
  cooldown_seconds (apply_op op cb) = cooldown_seconds cb.
Proof. destruct op; simpl; unfold before_call; repeat case_match; done. Qed.

Lemma apply_op_consistent op cb q :
  0 < failure_threshold cb →
  (∀ p, consistent (failure_threshold cb) (get_state cb p)) →
  consistent (failure_threshold cb) (get_state (apply_op op cb) q).
Proof.
  intros Ht Hall.
  assert (∀ p st, consistent (failure_threshold cb) st →
                  consistent (failure_threshold cb) (get_state (put_state p st cb) q)) as Hput.
  { intros p st Hst. destruct (decide (p = q)) as [->|]; [by rewrite get_put|].
    rewrite get_put_ne by done. apply Hall. }
  destruct op as [p now|p|p now]; simpl.
  - unfold before_call. repeat case_match; simpl; apply Hput; auto using consistent_reset.
  - apply Hput. auto using consistent_reset.
  - destruct (decide (p = q)) as [->|]; [by apply record_failure_consistent|].
    unfold record_failure. rewrite get_put_ne by done. apply Hall.
Qed.

Lemma reachable_consistent threshold cooldown cb :
  0 < threshold → reachable threshold cooldown cb →
  failure_threshold cb = threshold ∧ cooldown_seconds cb = cooldown ∧
  ∀ p, consistent threshold (get_state cb p).
Proof.
  intros Ht. induction 1 as [|cb op _ (Hth & Hco & IH)].
  - split_and!; [done..|]. intros p. apply consistent_reset; lia.
  - destruct (apply_op_params op cb) as [-> ->]. split_and!; [done..|].
    intros p. rewrite <- Hth in *. by apply apply_op_consistent.
Qed.

(** [n] failures in a row at the times [ts]. *)
Definition record_failures (p : string) (ts : list float) (cb : CircuitBreaker) : CircuitBreaker :=
  foldl (λ cb t, record_failure p t cb) cb ts.

Lemma record_failures_count p ts cb :
  consecutive_failures (get_state (record_failures p ts cb) p) =
  consecutive_failures (get_state cb p) + Z.of_nat (length ts).
Proof.
  revert cb. induction ts as [|t ts IH]; intros cb; simpl; [lia|].
  unfold record_failures in *. simpl. rewrite IH.
  unfold record_failure. rewrite get_put. simpl. lia.
Qed.

Lemma record_failures_reachable threshold cooldown p ts cb :
  reachable threshold cooldown cb → reachable threshold cooldown (record_failures p ts cb).
Proof.
  revert cb. induction ts as [|t ts IH]; intros cb Hr; simpl; [done|].
  apply IH. exact (reach_step _ _ cb (OpFailure p t) Hr).
Qed.

(** ** Properties *)

(** In every reachable breaker, whatever the interleaving of calls, successes and
    failures of all providers, a provider's circuit is open if and only if its consecutive
    failures have reached the threshold. *)
Theorem open_iff_threshold threshold cooldown cb p :
  0 < threshold → reachable threshold cooldown cb →
  is_Some (opened_at (get_state cb p)) ↔ threshold ≤ consecutive_failures (get_state cb p).
Proof. intros Ht Hr. by apply (reachable_consistent _ _ _ Ht Hr). Qed.

Lemma open_iff_threshold_witness :
  is_Some (opened_at (get_state CircuitBreaker_default "openai")) ↔
  3 ≤ consecutive_failures (get_state CircuitBreaker_default "openai").
Proof. apply (open_iff_threshold 3 (Py.of_int 30)); [lia|]. apply reach_init. Defined.

(** After at least [threshold] consecutive failures of a provider, and before the
    cooldown has elapsed, every call to that provider is refused with [CircuitOpenError]
    and leaves the circuit open, while calls to a provider whose own circuit is closed are
    admitted. *)
Theorem opens_after_threshold_failures threshold cooldown cb p ts now :
  0 < threshold → reachable threshold cooldown cb →
  threshold ≤ Z.of_nat (length ts) →
  ∃ t, opened_at (get_state (record_failures p ts cb) p) = Some t ∧
  (Py.lt (Py.sub now t) cooldown = true →
   (before_call p now (record_failures p ts cb)).1 =
     Raise (CircuitOpenError p (Py.sub cooldown (Py.sub now t)) []) ∧
   opened_at (get_state (before_call p now (record_failures p ts cb)).2 p) = Some t) ∧
  (∀ q, opened_at (get_state (record_failures p ts cb) q) = None →
        (before_call q now (record_failures p ts cb)).1 = Ret tt).
Proof.
  intros Ht Hr Hlen. set (cb' := record_failures p ts cb).
  assert (reachable threshold cooldown cb') as Hr' by by apply record_failures_reachable.
  destruct (reachable_consistent _ _ _ Ht Hr) as (_ & _ & Hc0).
  destruct (reachable_consistent _ _ _ Ht Hr') as (Hth & Hco & Hc).
  destruct (Hc p) as [_ Hi]. destruct (Hc0 p) as [Hn0 _].
  assert (is_Some (opened_at (get_state cb' p))) as [t Hop].
  { apply Hi. unfold cb'. rewrite record_failures_count. lia. }
  exists t. split_and!; [done| |].
  - intros Hlt. unfold before_call. rewrite Hop, Hco, Hlt. simpl. by rewrite get_put.
  - intros q Hq. unfold before_call. by rewrite Hq.
Qed.

Lemma opens_after_threshold_failures_witness :
  ∃ t, opened_at (get_state (record_failures "openai" [Py.of_int 1; Py.of_int 2; Py.of_int 3]
                               CircuitBreaker_default) "openai") = Some t ∧
  (Py.lt (Py.sub (Py.of_int 10) t) (Py.of_int 30) = true →
   (before_call "openai" (Py.of_int 10)
      (record_failures "openai" [Py.of_int 1; Py.of_int 2; Py.of_int 3] CircuitBreaker_default)).1 =
     Raise (CircuitOpenError "openai" (Py.sub (Py.of_int 30) (Py.sub (Py.of_int 10) t)) []) ∧
   opened_at (get_state (before_call "openai" (Py.of_int 10)
      (record_failures "openai" [Py.of_int 1; Py.of_int 2; Py.of_int 3] CircuitBreaker_default)).2
      "openai") = Some t) ∧
  (∀ q, opened_at (get_state (record_failures "openai" [Py.of_int 1; Py.of_int 2; Py.of_int 3]
                               CircuitBreaker_default) q) = None →
        (before_call q (Py.of_int 10) (record_failures "openai"
           [Py.of_int 1; Py.of_int 2; Py.of_int 3] CircuitBreaker_default)).1 = Ret tt).
Proof.
  apply (opens_after_threshold_failures 3 (Py.of_int 30));
    [lia | apply reach_init | vm_compute; congruence].
Defined.
