(* ===== verification/Database.v ===== *)
(** * The database and the world the services run in

    [packages/common/db/models.py] row by row: one [Module] per table with its columns, a
    setter per column the code assigns, and the table's unique and foreign-key constraints in
    the insert operation. Columns that nothing of the modelled code reads (free-text
    descriptions, [updated_at] and the unenforced limits of [model_policies]) are left out.

    [World] is the state the services share: the committed database, the view of the running
    session ([w_db]), the Redis queue and stream, the object store, the gateway's circuit
    breaker and the log of requests sent to model providers. [w_durable_log] is a ghost
    history: after every commit and every provider request it records what a crash at that
    point would leave behind (the committed database and the number of requests sent). *)

From Stdlib Require Import Floats.
From S2P Require Import Prelude Enums Contracts Breaker.
Local Open Scope Z_scope.

(** ** Tables *)

Module Tenant.
Record t := mk {
  id : EntityId;
  code : string;
  name : string;
  status : TenantStatus.t
}.
End Tenant.

Module User.
Record t := mk {
  id : EntityId;
  tenant_id : EntityId;
  email : string;
  display_name : string;
  role : UserRole.t;
  status : UserStatus.t;
  password_hash : string
}.
End User.

Module ModelPolicy.
Record t := mk {
  id : EntityId;
  tenant_id : EntityId;
  name : string;
  primary_provider : string;
  primary_model : string;
  created_at : Z
}.
End ModelPolicy.

Module Agent.
Record t := mk {
  id : EntityId;
  tenant_id : EntityId;
  agent_code : string;
  display_name : string;
  description : option string;
  department : option string;
  role_name : option string;
  lifecycle_state : AgentLifecycleState.t;
  active_version_id : option EntityId;
  created_by : option EntityId;
  created_at : Z;
  updated_at : Z
}.
Definition set_lifecycle_state (v : AgentLifecycleState.t) (r : t) : t :=
mk (id r) (tenant_id r) (agent_code r) (display_name r) (description r) (department r)
    (role_name r) v (active_version_id r) (created_by r) (created_at r) (updated_at r).
Definition set_active_version_id (v : option EntityId) (r : t) : t :=
mk (id r) (tenant_id r) (agent_code r) (display_name r) (description r) (department r)
    (role_name r) (lifecycle_state r) v (created_by r) (created_at r) (updated_at r).
Definition set_updated_at (v : Z) (r : t) : t :=
mk (id r) (tenant_id r) (agent_code r) (display_name r) (description r) (department r)
    (role_name r) (lifecycle_state r) (active_version_id r) (created_by r) (created_at r) v.
End Agent.

Module AgentVersion.
Record t := mk {
  id : EntityId;
  agent_id : EntityId;
  version : Z;
  system_prompt : string;
  runtime_adapter : string;
  model_policy_id : EntityId;
  autonomy_level : AutonomyLevel.t;
  tool_policy : ToolPolicy;
  memory_policy : list (string * json);
  settings : list (string * json);
  checksum : string;
  created_by : option EntityId;
  created_at : Z
}.
End AgentVersion.

Module Mission.
Record t := mk {
  id : EntityId;
  tenant_id : EntityId;
  mission_code : string;
  title : string;
  objective : string;
  requested_by : option EntityId;
  status : MissionStatus.t;
  priority : MissionPriority.t;
  risk_level : RiskLevel.t;
  budget_policy : BudgetPolicy;
  assigned_agent_id : option EntityId;
  created_at : Z;
  started_at : option Z;
  completed_at : option Z
}.
Definition set_status (v : MissionStatus.t) (r : t) : t :=
mk (id r) (tenant_id r) (mission_code r) (title r) (objective r) (requested_by r) v (priority r)
    (risk_level r) (budget_policy r) (assigned_agent_id r) (created_at r) (started_at r)
    (completed_at r).
Definition set_started_at (v : option Z) (r : t) : t :=
mk (id r) (tenant_id r) (mission_code r) (title r) (objective r) (requested_by r) (status r)
    (priority r) (risk_level r) (budget_policy r) (assigned_agent_id r) (created_at r) v
    (completed_at r).
Definition set_completed_at (v : option Z) (r : t) : t :=
mk (id r) (tenant_id r) (mission_code r) (title r) (objective r) (requested_by r) (status r)
    (priority r) (risk_level r) (budget_policy r) (assigned_agent_id r) (created_at r)
    (started_at r) v.
End Mission.

Module Project.
Record t := mk {
  id : EntityId;
  tenant_id : EntityId;
  code : string;
  name : string;
  status : ProjectStatus.t;
  created_at : Z;
  created_by : option EntityId
}.
Definition set_status (v : ProjectStatus.t) (r : t) : t :=
mk (id r) (tenant_id r) (code r) (name r) v (created_at r) (created_by r).
End Project.

Module MissionProject.
Record t := mk {
  mission_id : EntityId;
  tenant_id : EntityId;
  project_id : EntityId
}.
Definition set_project_id (v : EntityId) (r : t) : t :=
mk (mission_id r) (tenant_id r) v.
End MissionProject.

Module Task.
Record t := mk {
  id : EntityId;
  mission_id : EntityId;
  assigned_agent_id : EntityId;
  title : string;
  instructions : string;
  status : TaskStatus.t;
  retry_count : Z;
  idempotency_key : string;
  budget_policy : BudgetPolicy;
  input_context : list (string * json);
  output_artifact_id : option EntityId;
  started_at : option Z;
  completed_at : option Z;
  created_at : Z
}.
Definition set_status (v : TaskStatus.t) (r : t) : t :=
mk (id r) (mission_id r) (assigned_agent_id r) (title r) (instructions r) v (retry_count r)
    (idempotency_key r) (budget_policy r) (input_context r) (output_artifact_id r) (started_at
    r) (completed_at r) (created_at r).
Definition set_retry_count (v : Z) (r : t) : t :=
mk (id r) (mission_id r) (assigned_agent_id r) (title r) (instructions r) (status r) v
    (idempotency_key r) (budget_policy r) (input_context r) (output_artifact_id r) (started_at
    r) (completed_at r) (created_at r).
Definition set_output_artifact_id (v : option EntityId) (r : t) : t :=
mk (id r) (mission_id r) (assigned_agent_id r) (title r) (instructions r) (status r)
    (retry_count r) (idempotency_key r) (budget_policy r) (input_context r) v (started_at r)
    (completed_at r) (created_at r).
Definition set_started_at (v : option Z) (r : t) : t :=
mk (id r) (mission_id r) (assigned_agent_id r) (title r) (instructions r) (status r)
    (retry_count r) (idempotency_key r) (budget_policy r) (input_context r) (output_artifact_id
    r) v (completed_at r) (created_at r).
Definition set_completed_at (v : option Z) (r : t) : t :=
mk (id r) (mission_id r) (assigned_agent_id r) (title r) (instructions r) (status r)
    (retry_count r) (idempotency_key r) (budget_policy r) (input_context r) (output_artifact_id
    r) (started_at r) v (created_at r).
End Task.

Module RuntimeCheckpoint.
Record t := mk {
  id : EntityId;
  mission_id : EntityId;
  task_id : EntityId;
  agent_id : EntityId;
  checkpoint_sequence : Z;
  state : CheckpointState;
  status : RuntimeCheckpointStatus.t
}.
End RuntimeCheckpoint.

Module Artifact.
Record t := mk {
  id : EntityId;
  tenant_id : EntityId;
  mission_id : EntityId;
  task_id : EntityId;
  agent_id : EntityId;
  agent_version_id : EntityId;
  artifact_type : ArtifactType.t;
  logical_output_slot : string;
  title : string;
  storage_uri : string;
  content_hash : string;
  mime_type : string;
  version : Z;
  artifact_metadata : list (string * json);
  created_at : Z
}.
End Artifact.

Module AuditEvent.
Record t := mk {
  id : EntityId;
  tenant_id : EntityId;
  event_type : EventType.t;
  actor_type : ActorType.t;
  actor_id : option EntityId;
  mission_id : option EntityId;
  task_id : option EntityId;
  agent_id : option EntityId;
  correlation_id : EntityId;
  causation_id : option EntityId;
  payload : EventEnvelope;
  occurred_at : Z
}.
End AuditEvent.

Module ModelInvocation.
Record t := mk {
  id : EntityId;
  tenant_id : EntityId;
  mission_id : EntityId;
  task_id : EntityId;
  agent_id : EntityId;
  provider : string;
  model : string;
  input_tokens : Z;
  output_tokens : Z;
  estimated_cost : Z;
  latency_ms : Z;
  status : ModelInvocationStatus.t;
  request_hash : string;
  response_hash : option string;
  created_at : Z
}.
End ModelInvocation.

Module ExternalAgentStatus.
Record t := mk {
  id : EntityId;
  tenant_id : EntityId;
  name : string;
  status : string;
  job_description : option string;
  updated_at : Z
}.
End ExternalAgentStatus.

Module AgentRoomAssignment.
Record t := mk {
  id : EntityId;
  tenant_id : EntityId;
  agent_id : EntityId;
  floor : Z;
  room_index : Z;
  assigned_at : Z;
  released_at : option Z
}.
Definition set_released_at (v : option Z) (r : t) : t :=
mk (id r) (tenant_id r) (agent_id r) (floor r) (room_index r) (assigned_at r) v.
End AgentRoomAssignment.

Module AgentRuntimeSession.
Record t := mk {
  id : EntityId;
  tenant_id : EntityId;
  kind : AgentRuntimeKind.t;
  agent_id : option EntityId;
  mission_id : option EntityId;
  task_id : option EntityId;
  external_session_ref : string;
  external_instance_ref : option string;
  parent_session_id : option EntityId;
  started_at : Z;
  last_heartbeat_at : option Z;
  ended_at : option Z;
  outcome : option AgentRuntimeOutcome.t
}.
Definition set_last_heartbeat_at (v : option Z) (r : t) : t :=
mk (id r) (tenant_id r) (kind r) (agent_id r) (mission_id r) (task_id r) (external_session_ref
    r) (external_instance_ref r) (parent_session_id r) (started_at r) v (ended_at r) (outcome
    r).
Definition set_ended_at (v : option Z) (r : t) : t :=
mk (id r) (tenant_id r) (kind r) (agent_id r) (mission_id r) (task_id r) (external_session_ref
    r) (external_instance_ref r) (parent_session_id r) (started_at r) (last_heartbeat_at r) v
    (outcome r).
Definition set_outcome (v : option AgentRuntimeOutcome.t) (r : t) : t :=
mk (id r) (tenant_id r) (kind r) (agent_id r) (mission_id r) (task_id r) (external_session_ref
    r) (external_instance_ref r) (parent_session_id r) (started_at r) (last_heartbeat_at r)
    (ended_at r) v.
End AgentRuntimeSession.

Module AgentRuntimePersonaSlot.
Record t := mk {
  id : EntityId;
  tenant_id : EntityId;
  slot : Z;
  agent_code : string
}.
End AgentRuntimePersonaSlot.

Module AgentRuntimeApiKey.
Record t := mk {
  id : EntityId;
  user_id : EntityId;
  key_hash : string;
  label : string;
  expires_at : option Z;
  revoked_at : option Z
}.
Definition set_revoked_at (v : option Z) (r : t) : t :=
mk (id r) (user_id r) (key_hash r) (label r) (expires_at r) v.
End AgentRuntimeApiKey.

Module AgentRuntimeClosure.
Record t := mk {
  id : EntityId;
  tenant_id : EntityId;
  runtime_session_id : EntityId;
  task_id : option EntityId;
  closed_by : AgentRuntimeClosedBy.t;
  outcome : AgentRuntimeCloseOutcome.t;
  reason_code : AgentRuntimeReasonCode.t;
  tool_call_count : option Z;
  artifact_id : option EntityId;
  closed_at : Z;
  late_close_at : option Z
}.
Definition set_late_close_at (v : option Z) (r : t) : t :=
mk (id r) (tenant_id r) (runtime_session_id r) (task_id r) (closed_by r) (outcome r)
    (reason_code r) (tool_call_count r) (artifact_id r) (closed_at r) v.
End AgentRuntimeClosure.

(** ** The database: one finite map per table; the audit trail is append-only. *)
Module DB.
Record t := mk {
  tenants : gmap EntityId Tenant.t;
  users : gmap EntityId User.t;
  model_policies : gmap EntityId ModelPolicy.t;
  agents : gmap EntityId Agent.t;
  agent_versions : gmap EntityId AgentVersion.t;
  missions : gmap EntityId Mission.t;
  projects : gmap EntityId Project.t;
  mission_projects : gmap EntityId MissionProject.t;
  tasks : gmap EntityId Task.t;
  checkpoints : gmap EntityId RuntimeCheckpoint.t;
  artifacts : gmap EntityId Artifact.t;
  model_invocations : gmap EntityId ModelInvocation.t;
  external_agent_statuses : gmap EntityId ExternalAgentStatus.t;
  room_assignments : gmap EntityId AgentRoomAssignment.t;
  runtime_sessions : gmap EntityId AgentRuntimeSession.t;
  persona_slots : gmap EntityId AgentRuntimePersonaSlot.t;
  api_keys : gmap EntityId AgentRuntimeApiKey.t;
  closures : gmap EntityId AgentRuntimeClosure.t;
  audit_events : list AuditEvent.t
}.
Definition upd_tenants (f : gmap EntityId Tenant.t → gmap EntityId Tenant.t) (d : t) : t :=
mk (f (tenants d)) (users d) (model_policies d) (agents d) (agent_versions d) (missions d)
    (projects d) (mission_projects d) (tasks d) (checkpoints d) (artifacts d) (model_invocations
    d) (external_agent_statuses d) (room_assignments d) (runtime_sessions d) (persona_slots d)
    (api_keys d) (closures d) (audit_events d).
Definition upd_users (f : gmap EntityId User.t → gmap EntityId User.t) (d : t) : t :=
mk (tenants d) (f (users d)) (model_policies d) (agents d) (agent_versions d) (missions d)
    (projects d) (mission_projects d) (tasks d) (checkpoints d) (artifacts d) (model_invocations
    d) (external_agent_statuses d) (room_assignments d) (runtime_sessions d) (persona_slots d)
    (api_keys d) (closures d) (audit_events d).
Definition upd_model_policies (f : gmap EntityId ModelPolicy.t → gmap EntityId ModelPolicy.t) (d : t) : t :=
mk (tenants d) (users d) (f (model_policies d)) (agents d) (agent_versions d) (missions d)
    (projects d) (mission_projects d) (tasks d) (checkpoints d) (artifacts d) (model_invocations
    d) (external_agent_statuses d) (room_assignments d) (runtime_sessions d) (persona_slots d)
    (api_keys d) (closures d) (audit_events d).
Definition upd_agents (f : gmap EntityId Agent.t → gmap EntityId Agent.t) (d : t) : t :=
mk (tenants d) (users d) (model_policies d) (f (agents d)) (agent_versions d) (missions d)
    (projects d) (mission_projects d) (tasks d) (checkpoints d) (artifacts d) (model_invocations
    d) (external_agent_statuses d) (room_assignments d) (runtime_sessions d) (persona_slots d)
    (api_keys d) (closures d) (audit_events d).
Definition upd_agent_versions (f : gmap EntityId AgentVersion.t → gmap EntityId AgentVersion.t) (d : t) : t :=
mk (tenants d) (users d) (model_policies d) (agents d) (f (agent_versions d)) (missions d)
    (projects d) (mission_projects d) (tasks d) (checkpoints d) (artifacts d) (model_invocations
    d) (external_agent_statuses d) (room_assignments d) (runtime_sessions d) (persona_slots d)
    (api_keys d) (closures d) (audit_events d).
Definition upd_missions (f : gmap EntityId Mission.t → gmap EntityId Mission.t) (d : t) : t :=
mk (tenants d) (users d) (model_policies d) (agents d) (agent_versions d) (f (missions d))
    (projects d) (mission_projects d) (tasks d) (checkpoints d) (artifacts d) (model_invocations
    d) (external_agent_statuses d) (room_assignments d) (runtime_sessions d) (persona_slots d)
    (api_keys d) (closures d) (audit_events d).
Definition upd_projects (f : gmap EntityId Project.t → gmap EntityId Project.t) (d : t) : t :=
mk (tenants d) (users d) (model_policies d) (agents d) (agent_versions d) (missions d) (f
    (projects d)) (mission_projects d) (tasks d) (checkpoints d) (artifacts d)
    (model_invocations d) (external_agent_statuses d) (room_assignments d) (runtime_sessions d)
    (persona_slots d) (api_keys d) (closures d) (audit_events d).
Definition upd_mission_projects (f : gmap EntityId MissionProject.t → gmap EntityId MissionProject.t) (d : t) : t :=
mk (tenants d) (users d) (model_policies d) (agents d) (agent_versions d) (missions d) (projects
    d) (f (mission_projects d)) (tasks d) (checkpoints d) (artifacts d) (model_invocations d)
    (external_agent_statuses d) (room_assignments d) (runtime_sessions d) (persona_slots d)
    (api_keys d) (closures d) (audit_events d).
Definition upd_tasks (f : gmap EntityId Task.t → gmap EntityId Task.t) (d : t) : t :=
mk (tenants d) (users d) (model_policies d) (agents d) (agent_versions d) (missions d) (projects
    d) (mission_projects d) (f (tasks d)) (checkpoints d) (artifacts d) (model_invocations d)
    (external_agent_statuses d) (room_assignments d) (runtime_sessions d) (persona_slots d)
    (api_keys d) (closures d) (audit_events d).
Definition upd_checkpoints (f : gmap EntityId RuntimeCheckpoint.t → gmap EntityId RuntimeCheckpoint.t) (d : t) : t :=
mk (tenants d) (users d) (model_policies d) (agents d) (agent_versions d) (missions d) (projects
    d) (mission_projects d) (tasks d) (f (checkpoints d)) (artifacts d) (model_invocations d)
    (external_agent_statuses d) (room_assignments d) (runtime_sessions d) (persona_slots d)
    (api_keys d) (closures d) (audit_events d).
Definition upd_artifacts (f : gmap EntityId Artifact.t → gmap EntityId Artifact.t) (d : t) : t :=
mk (tenants d) (users d) (model_policies d) (agents d) (agent_versions d) (missions d) (projects
    d) (mission_projects d) (tasks d) (checkpoints d) (f (artifacts d)) (model_invocations d)
    (external_agent_statuses d) (room_assignments d) (runtime_sessions d) (persona_slots d)
    (api_keys d) (closures d) (audit_events d).
Definition upd_model_invocations (f : gmap EntityId ModelInvocation.t → gmap EntityId ModelInvocation.t) (d : t) : t :=
mk (tenants d) (users d) (model_policies d) (agents d) (agent_versions d) (missions d) (projects
    d) (mission_projects d) (tasks d) (checkpoints d) (artifacts d) (f (model_invocations d))
    (external_agent_statuses d) (room_assignments d) (runtime_sessions d) (persona_slots d)
    (api_keys d) (closures d) (audit_events d).
Definition upd_external_agent_statuses (f : gmap EntityId ExternalAgentStatus.t → gmap EntityId ExternalAgentStatus.t) (d : t) : t :=
mk (tenants d) (users d) (model_policies d) (agents d) (agent_versions d) (missions d) (projects
    d) (mission_projects d) (tasks d) (checkpoints d) (artifacts d) (model_invocations d) (f
    (external_agent_statuses d)) (room_assignments d) (runtime_sessions d) (persona_slots d)
    (api_keys d) (closures d) (audit_events d).
Definition upd_room_assignments (f : gmap EntityId AgentRoomAssignment.t → gmap EntityId AgentRoomAssignment.t) (d : t) : t :=
mk (tenants d) (users d) (model_policies d) (agents d) (agent_versions d) (missions d) (projects
    d) (mission_projects d) (tasks d) (checkpoints d) (artifacts d) (model_invocations d)
    (external_agent_statuses d) (f (room_assignments d)) (runtime_sessions d) (persona_slots d)
    (api_keys d) (closures d) (audit_events d).
Definition upd_runtime_sessions (f : gmap EntityId AgentRuntimeSession.t → gmap EntityId AgentRuntimeSession.t) (d : t) : t :=
mk (tenants d) (users d) (model_policies d) (agents d) (agent_versions d) (missions d) (projects
    d) (mission_projects d) (tasks d) (checkpoints d) (artifacts d) (model_invocations d)
    (external_agent_statuses d) (room_assignments d) (f (runtime_sessions d)) (persona_slots d)
    (api_keys d) (closures d) (audit_events d).
Definition upd_persona_slots (f : gmap EntityId AgentRuntimePersonaSlot.t → gmap EntityId AgentRuntimePersonaSlot.t) (d : t) : t :=
mk (tenants d) (users d) (model_policies d) (agents d) (agent_versions d) (missions d) (projects
    d) (mission_projects d) (tasks d) (checkpoints d) (artifacts d) (model_invocations d)
    (external_agent_statuses d) (room_assignments d) (runtime_sessions d) (f (persona_slots d))
    (api_keys d) (closures d) (audit_events d).
Definition upd_api_keys (f : gmap EntityId AgentRuntimeApiKey.t → gmap EntityId AgentRuntimeApiKey.t) (d : t) : t :=
mk (tenants d) (users d) (model_policies d) (agents d) (agent_versions d) (missions d) (projects
    d) (mission_projects d) (tasks d) (checkpoints d) (artifacts d) (model_invocations d)
    (external_agent_statuses d) (room_assignments d) (runtime_sessions d) (persona_slots d) (f
    (api_keys d)) (closures d) (audit_events d).
Definition upd_closures (f : gmap EntityId AgentRuntimeClosure.t → gmap EntityId AgentRuntimeClosure.t) (d : t) : t :=
mk (tenants d) (users d) (model_policies d) (agents d) (agent_versions d) (missions d) (projects
    d) (mission_projects d) (tasks d) (checkpoints d) (artifacts d) (model_invocations d)
    (external_agent_statuses d) (room_assignments d) (runtime_sessions d) (persona_slots d)
    (api_keys d) (f (closures d)) (audit_events d).
Definition upd_audit_events (f : list AuditEvent.t → list AuditEvent.t) (d : t) : t :=
mk (tenants d) (users d) (model_policies d) (agents d) (agent_versions d) (missions d) (projects
    d) (mission_projects d) (tasks d) (checkpoints d) (artifacts d) (model_invocations d)
    (external_agent_statuses d) (room_assignments d) (runtime_sessions d) (persona_slots d)
    (api_keys d) (closures d) (f (audit_events d)).
Definition empty : t :=
mk ∅ ∅ ∅ ∅ ∅ ∅ ∅ ∅ ∅ ∅ ∅ ∅ ∅ ∅ ∅ ∅ ∅ ∅ [].
End DB.
(** ** The world *)

Record World := mkWorld {
  w_committed : DB.t;
  w_db : DB.t;
  w_next_id : EntityId;
  w_utc_ticks : nat;
  w_mono_ticks : nat;
  w_commits : nat;
  w_puts : nat;
  w_xadds : nat;
  w_queue : list EntityId;
  w_stream : list EventEnvelope;
  w_objects : gmap string string;
  w_breaker : CircuitBreaker;
  w_sends : list ModelRequest;
  w_durable_log : list (DB.t * nat)
}.
Definition set_committed (v : DB.t) (w : World) : World :=
mkWorld v (w_db w) (w_next_id w) (w_utc_ticks w) (w_mono_ticks w) (w_commits w) (w_puts w)
    (w_xadds w) (w_queue w) (w_stream w) (w_objects w) (w_breaker w) (w_sends w) (w_durable_log
    w).
Definition set_db (v : DB.t) (w : World) : World :=
mkWorld (w_committed w) v (w_next_id w) (w_utc_ticks w) (w_mono_ticks w) (w_commits w) (w_puts
    w) (w_xadds w) (w_queue w) (w_stream w) (w_objects w) (w_breaker w) (w_sends w)
    (w_durable_log w).
Definition set_next_id (v : EntityId) (w : World) : World :=
mkWorld (w_committed w) (w_db w) v (w_utc_ticks w) (w_mono_ticks w) (w_commits w) (w_puts w)
    (w_xadds w) (w_queue w) (w_stream w) (w_objects w) (w_breaker w) (w_sends w) (w_durable_log
    w).
Definition set_utc_ticks (v : nat) (w : World) : World :=
mkWorld (w_committed w) (w_db w) (w_next_id w) v (w_mono_ticks w) (w_commits w) (w_puts w)
    (w_xadds w) (w_queue w) (w_stream w) (w_objects w) (w_breaker w) (w_sends w) (w_durable_log
    w).
Definition set_mono_ticks (v : nat) (w : World) : World :=
mkWorld (w_committed w) (w_db w) (w_next_id w) (w_utc_ticks w) v (w_commits w) (w_puts w)
    (w_xadds w) (w_queue w) (w_stream w) (w_objects w) (w_breaker w) (w_sends w) (w_durable_log
    w).
Definition set_commits (v : nat) (w : World) : World :=
mkWorld (w_committed w) (w_db w) (w_next_id w) (w_utc_ticks w) (w_mono_ticks w) v (w_puts w)
    (w_xadds w) (w_queue w) (w_stream w) (w_objects w) (w_breaker w) (w_sends w) (w_durable_log
    w).
Definition set_puts (v : nat) (w : World) : World :=
mkWorld (w_committed w) (w_db w) (w_next_id w) (w_utc_ticks w) (w_mono_ticks w) (w_commits w) v
    (w_xadds w) (w_queue w) (w_stream w) (w_objects w) (w_breaker w) (w_sends w) (w_durable_log
    w).
Definition set_xadds (v : nat) (w : World) : World :=
mkWorld (w_committed w) (w_db w) (w_next_id w) (w_utc_ticks w) (w_mono_ticks w) (w_commits w)
    (w_puts w) v (w_queue w) (w_stream w) (w_objects w) (w_breaker w) (w_sends w) (w_durable_log
    w).
Definition set_queue (v : list EntityId) (w : World) : World :=
mkWorld (w_committed w) (w_db w) (w_next_id w) (w_utc_ticks w) (w_mono_ticks w) (w_commits w)
    (w_puts w) (w_xadds w) v (w_stream w) (w_objects w) (w_breaker w) (w_sends w) (w_durable_log
    w).
Definition set_stream (v : list EventEnvelope) (w : World) : World :=
mkWorld (w_committed w) (w_db w) (w_next_id w) (w_utc_ticks w) (w_mono_ticks w) (w_commits w)
    (w_puts w) (w_xadds w) (w_queue w) v (w_objects w) (w_breaker w) (w_sends w) (w_durable_log
    w).
Definition set_objects (v : gmap string string) (w : World) : World :=
mkWorld (w_committed w) (w_db w) (w_next_id w) (w_utc_ticks w) (w_mono_ticks w) (w_commits w)
    (w_puts w) (w_xadds w) (w_queue w) (w_stream w) v (w_breaker w) (w_sends w) (w_durable_log
    w).
Definition set_breaker (v : CircuitBreaker) (w : World) : World :=
mkWorld (w_committed w) (w_db w) (w_next_id w) (w_utc_ticks w) (w_mono_ticks w) (w_commits w)
    (w_puts w) (w_xadds w) (w_queue w) (w_stream w) (w_objects w) v (w_sends w) (w_durable_log
    w).
Definition set_sends (v : list ModelRequest) (w : World) : World :=
mkWorld (w_committed w) (w_db w) (w_next_id w) (w_utc_ticks w) (w_mono_ticks w) (w_commits w)
    (w_puts w) (w_xadds w) (w_queue w) (w_stream w) (w_objects w) (w_breaker w) v (w_durable_log
    w).
Definition set_durable_log (v : list (DB.t * nat)) (w : World) : World :=
mkWorld (w_committed w) (w_db w) (w_next_id w) (w_utc_ticks w) (w_mono_ticks w) (w_commits w)
    (w_puts w) (w_xadds w) (w_queue w) (w_stream w) (w_objects w) (w_breaker w) (w_sends w) v.

(** ** The session monad *)

Abbreviation M := (ST World exn).

Definition asks_db {A} (f : DB.t → A) : M A := asks (λ w, f (w_db w)).
Definition modify_db (f : DB.t → DB.t) : M unit := modify (λ w, set_db (f (w_db w)) w).

(** [new_id()]: an id no row has yet. *)
Definition new_id : M EntityId := λ w,
  (Ret (w_next_id w), set_next_id (Pos.succ (w_next_id w)) w).

(** Lift a pure outcome. *)
Definition lift {A} (o : outcome exn A) : M A := λ w, (o, w).

(** A primary-key lookup, [session.get(Model, id)]. *)
Definition get_row {V} (table : DB.t → gmap EntityId V) (k : EntityId) : M (option V) :=
  asks_db (λ d, table d !! k).

(** [.scalar_one_or_none()] *)
Definition scalar_one_or_none {V} (rows : list V) : M (option V) :=
  match rows with
  | [] => mret None
  | [r] => mret (Some r)
  | _ => raise MultipleResultsFound
  end.

(** The ghost entry for the current durable state. *)
Definition log_durable (w : World) : World :=
  set_durable_log (w_durable_log w ++ [(w_committed w, length (w_sends w))]) w.

Section session.
Context `{Env}.

(** [datetime.now(timezone.utc)], and SQL's [now()] *)
Definition utc : M Z := λ w, (Ret (utc_now (w_utc_ticks w)), set_utc_ticks (S (w_utc_ticks w)) w).

(** [time.monotonic()] *)
Definition monotonic : M float := λ w,
  (Ret (mono_now (w_mono_ticks w)), set_mono_ticks (S (w_mono_ticks w)) w).

(** [await session.commit()] *)
Definition commit : M unit := λ w,
  let w := set_commits (S (w_commits w)) w in
  if commit_ok (pred (w_commits w)) then (Ret tt, log_durable (set_committed (w_db w) w))
  else (Raise (OperationalError "commit"), w).

(** [await session.rollback()] *)
Definition rollback : M unit := modify (λ w, set_db (w_committed w) w).

(** [async with session.begin_nested(): m]: a savepoint, rolled back if [m] raises. *)
Definition begin_nested {A} (m : M A) : M A := λ w,
  match m w with
  | (Ret a, w') => (Ret a, w')
  | (Raise e, w') => (Raise e, set_db (w_db w) w')
  end.

(** The first statement after a caught [IntegrityError], when nothing rolled the session
    back in between. *)
Definition after_integrity_error {A} (query : M A) : M A :=
  if savepoint_recovers then query else raise PendingRollbackError.

(** services/event-service/event_service/publisher.py: [EventPublisher.publish]. The audit
    row joins the caller's transaction; the stream entry is best-effort. *)
Definition publish (event : EventEnvelope) : M unit :=
  _ ← modify_db (DB.upd_audit_events (λ l, l ++
        [AuditEvent.mk (event_id event) (ev_tenant_id event) (event_type event)
           (actor_type (ev_actor event)) (actor_id (ev_actor event)) (ev_mission_id event)
           (ev_task_id event) (ev_agent_id event) (correlation_id event) (causation_id event)
           event (occurred_at event)]));
  (* [_publish_to_redis_best_effort]: a failing [xadd] is logged and swallowed *)
  modify (λ w,
    let w := set_xadds (S (w_xadds w)) w in
    if redis_ok (pred (w_xadds w)) then set_stream (w_stream w ++ [event]) w else w).
End session.

(** ** Inserts: [session.add(row); await session.flush()] with the table's constraints *)

Definition integrity (ok : bool) (constraint : string) : M unit :=
  if ok then mret tt else raise (IntegrityError constraint).

Definition is_present {V} (k : EntityId) (m : gmap EntityId V) : bool :=
  bool_decide (is_Some (m !! k)).

Definition opt_present {V} (k : option EntityId) (m : gmap EntityId V) : bool :=
  match k with Some k => is_present k m | None => true end.

Definition insert_mission (r : Mission.t) : M unit :=
  d ← asks_db id;
  _ ← integrity (negb (is_present (Mission.id r) (DB.missions d))) "missions_pkey";
  _ ← integrity (is_present (Mission.tenant_id r) (DB.tenants d)) "missions_tenant_id_fkey";
  _ ← integrity (opt_present (Mission.assigned_agent_id r) (DB.agents d))
        "missions_assigned_agent_id_fkey";
  _ ← integrity (negb (exists_row (λ m, bool_decide (Mission.mission_code m = Mission.mission_code r))
                         (DB.missions d))) "missions_mission_code_key";
  modify_db (DB.upd_missions (<[Mission.id r := r]>)).

Definition insert_task (r : Task.t) : M unit :=
  d ← asks_db id;
  _ ← integrity (negb (is_present (Task.id r) (DB.tasks d))) "tasks_pkey";
  _ ← integrity (is_present (Task.mission_id r) (DB.missions d)) "tasks_mission_id_fkey";
  _ ← integrity (is_present (Task.assigned_agent_id r) (DB.agents d)) "tasks_assigned_agent_id_fkey";
  _ ← integrity (negb (exists_row (λ t, bool_decide (Task.idempotency_key t = Task.idempotency_key r))
                         (DB.tasks d))) "tasks_idempotency_key_key";
  modify_db (DB.upd_tasks (<[Task.id r := r]>)).

Definition insert_checkpoint (r : RuntimeCheckpoint.t) : M unit :=
  d ← asks_db id;
  _ ← integrity (negb (is_present (RuntimeCheckpoint.id r) (DB.checkpoints d))) "checkpoints_pkey";
  _ ← integrity (is_present (RuntimeCheckpoint.task_id r) (DB.tasks d)) "checkpoints_task_id_fkey";
  _ ← integrity (is_present (RuntimeCheckpoint.mission_id r) (DB.missions d))
        "checkpoints_mission_id_fkey";
  _ ← integrity (is_present (RuntimeCheckpoint.agent_id r) (DB.agents d)) "checkpoints_agent_id_fkey";
  _ ← integrity (negb (exists_row
        (λ c, bool_decide (RuntimeCheckpoint.task_id c = RuntimeCheckpoint.task_id r) &&
              bool_decide (RuntimeCheckpoint.checkpoint_sequence c =
                           RuntimeCheckpoint.checkpoint_sequence r))
        (DB.checkpoints d))) "uq_checkpoints_task_sequence";
  modify_db (DB.upd_checkpoints (<[RuntimeCheckpoint.id r := r]>)).

Definition is_integrity_error (e : exn) : bool :=
  match e with IntegrityError _ => true | _ => false end.

(** The key of [uq_artifacts_idempotent_commit]. *)
Definition same_artifact_key (a b : Artifact.t) : bool :=
  bool_decide (Artifact.task_id a = Artifact.task_id b) &&
  bool_decide (Artifact.artifact_type a = Artifact.artifact_type b) &&
  bool_decide (Artifact.logical_output_slot a = Artifact.logical_output_slot b) &&
  bool_decide (Artifact.version a = Artifact.version b).

Definition insert_artifact (r : Artifact.t) : M unit :=
  d ← asks_db id;
  _ ← integrity (negb (is_present (Artifact.id r) (DB.artifacts d))) "artifacts_pkey";
  _ ← integrity (is_present (Artifact.tenant_id r) (DB.tenants d)) "artifacts_tenant_id_fkey";
  _ ← integrity (is_present (Artifact.mission_id r) (DB.missions d)) "artifacts_mission_id_fkey";
  _ ← integrity (is_present (Artifact.task_id r) (DB.tasks d)) "artifacts_task_id_fkey";
  _ ← integrity (is_present (Artifact.agent_id r) (DB.agents d)) "artifacts_agent_id_fkey";
  _ ← integrity (is_present (Artifact.agent_version_id r) (DB.agent_versions d))
        "artifacts_agent_version_id_fkey";
  _ ← integrity (negb (exists_row (λ a, same_artifact_key a r) (DB.artifacts d)))
        "uq_artifacts_idempotent_commit";
  modify_db (DB.upd_artifacts (<[Artifact.id r := r]>)).

(** [Numeric(10, 6)]: an amount is rounded to six decimals (half away from zero) when it is
    stored; the ledger's amounts are multiples of 10^-8 dollars. *)
Definition numeric_10_6 (c : Z) : Z :=
  if 0 <=? c then (c + 50) / 100 * 100 else - ((- c + 50) / 100 * 100).

(** Ten digits of which six are decimals: the largest amount is below 10^4 dollars. *)
Definition numeric_10_6_fits (c : Z) : bool := Z.abs (numeric_10_6 c) <? 10000 * Py.usd_unit.

Definition insert_invocation (r : ModelInvocation.t) : M unit :=
  d ← asks_db id;
  _ ← integrity (numeric_10_6_fits (ModelInvocation.estimated_cost r)) "numeric field overflow";
  _ ← integrity (negb (is_present (ModelInvocation.id r) (DB.model_invocations d)))
        "model_invocations_pkey";
  _ ← integrity (is_present (ModelInvocation.tenant_id r) (DB.tenants d))
        "model_invocations_tenant_id_fkey";
  _ ← integrity (is_present (ModelInvocation.mission_id r) (DB.missions d))
        "model_invocations_mission_id_fkey";
  _ ← integrity (is_present (ModelInvocation.task_id r) (DB.tasks d))
        "model_invocations_task_id_fkey";
  _ ← integrity (is_present (ModelInvocation.agent_id r) (DB.agents d))
        "model_invocations_agent_id_fkey";
  modify_db (DB.upd_model_invocations (<[ModelInvocation.id r := r]>)).

(** Attribute assignments on a loaded row. *)
Definition update_task (k : EntityId) (f : Task.t → Task.t) : M unit :=
  modify_db (DB.upd_tasks (alter f k)).
Definition update_mission (k : EntityId) (f : Mission.t → Mission.t) : M unit :=
  modify_db (DB.upd_missions (alter f k)).

(** [async with sessionmaker() as session: m]: a new session sees what is committed; what it
    leaves uncommitted is rolled back. *)
Definition with_session {A} (m : M A) : M A := λ w,
  let '(r, w') := m (set_db (w_committed w) w) in
  (r, set_db (w_committed w') w').

(** The joins through an agent to its active version's [runtime_adapter]. *)
Definition runtime_adapter_of (d : DB.t) (agent_id : EntityId) : option string :=
  a ← DB.agents d !! agent_id;
  v ← Agent.active_version_id a;
  av ← DB.agent_versions d !! v;
  Some (AgentVersion.runtime_adapter av).

(** Primary keys are what rows are stored under. *)
Definition keyed (d : DB.t) : Prop :=
  (∀ k t, DB.tasks d !! k = Some t → Task.id t = k) ∧
  (∀ k m, DB.missions d !! k = Some m → Mission.id m = k).

(** ** Wellformedness of a world: the id supply is ahead of every row *)

Definition fresh_above {V} (k : EntityId) (m : gmap EntityId V) : Prop :=
  ∀ i, is_Some (m !! i) → (i < k)%positive.

Lemma fresh_above_None {V} k (m : gmap EntityId V) : fresh_above k m → m !! k = None.
Proof.
  intros Hf. destruct (m !! k) eqn:Hk; [|done].
  assert (k < k)%positive as Hlt by (apply Hf; eauto). lia.
Qed.

Lemma fresh_above_succ {V} k (m : gmap EntityId V) : fresh_above k m → fresh_above (Pos.succ k) m.
Proof. intros Hf i Hi. specialize (Hf i Hi). lia. Qed.

Lemma fresh_above_le {V} k k' (m : gmap EntityId V) : (k ≤ k')%positive → fresh_above k m → fresh_above k' m.
Proof. intros Hk Hm i Hi. specialize (Hm i Hi). lia. Qed.

Lemma fresh_above_insert {V} k (m : gmap EntityId V) v :
  fresh_above k m → fresh_above (Pos.succ k) (<[k := v]> m).
Proof.
  intros Hf i [v' Hi]. destruct (decide (i = k)) as [->|Hne]; [lia|].
  rewrite lookup_insert_ne in Hi by done. assert (i < k)%positive by (apply Hf; eauto). lia.
Qed.

Lemma wp_with_session {A} (m : M A) w (Q : A → World → Prop) (R : exn → World → Prop) :
  wp m (set_db (w_committed w) w) (λ a w', Q a (set_db (w_committed w') w')) (λ e w', R e (set_db (w_committed w') w')) →
  wp (with_session m) w Q R.
Proof. unfold wp, with_session. by destruct (m _) as [[]]. Qed.

(** ** What the session's primitives leave alone *)

Section session_tracks.
Context (R : relation World) `{!PreOrder R}.

Lemma lift_tracks {A} (o : outcome exn A) : tracks R (lift o).
Proof. intros w. apply reflexivity. Qed.

Lemma asks_db_tracks {A} (f : DB.t → A) : tracks R (asks_db f).
Proof. intros w. apply reflexivity. Qed.

Lemma get_row_tracks {V} (table : DB.t → gmap EntityId V) k : tracks R (get_row table k).
Proof. intros w. apply reflexivity. Qed.

Lemma scalar_one_or_none_tracks {V} (rows : list V) : tracks R (scalar_one_or_none rows).
Proof. intros w. destruct rows as [|? []]; apply reflexivity. Qed.

Lemma integrity_tracks ok c : tracks R (integrity ok c).
Proof. intros w. destruct ok; apply reflexivity. Qed.
End session_tracks.
#[export] Hint Resolve lift_tracks asks_db_tracks get_row_tracks scalar_one_or_none_tracks
  integrity_tracks : tracks.

(** An update that no part of the observation sees. *)
#[export] Hint Extern 1 (tracks (same _) (modify_db _)) => (intros ?; reflexivity) : tracks.
#[export] Hint Extern 1 (tracks (same _) new_id) => (intros ?; reflexivity) : tracks.
#[export] Hint Extern 1 (tracks (same _) utc) => (intros ?; reflexivity) : tracks.
#[export] Hint Extern 1 (tracks (same _) monotonic) => (intros ?; reflexivity) : tracks.
#[export] Hint Extern 1 (tracks (same _) rollback) => (intros ?; reflexivity) : tracks.

(** ** What the session's primitives raise *)

Section session_raises.
Context (X : exn → Prop).

Lemma asks_db_raises {A} (f : DB.t → A) : raises X (asks_db f).
Proof. by intros w e. Qed.
Lemma modify_db_raises f : raises X (modify_db f).
Proof. by intros w e. Qed.
Lemma get_row_raises {V} (table : DB.t → gmap EntityId V) k : raises X (get_row table k).
Proof. by intros w e. Qed.
Lemma new_id_raises : raises X new_id.
Proof. by intros w e. Qed.
Lemma utc_raises `{Env} : raises X utc.
Proof. by intros w e. Qed.
Lemma monotonic_raises `{Env} : raises X monotonic.
Proof. by intros w e. Qed.
Lemma commit_raises `{Env} : X (OperationalError "commit") → raises X commit.
Proof. intros HX w e. unfold result, commit. destruct (commit_ok _); [done|]. by intros [= <-]. Qed.
Lemma integrity_raises ok c : X (IntegrityError c) → raises X (integrity ok c).
Proof. intros HX w e. destruct ok; [done|]. by intros [= <-]. Qed.
Lemma lift_raises {A} (o : outcome exn A) : (∀ e, o = Raise e → X e) → raises X (lift o).
Proof. intros HX w e. unfold result, lift. apply HX. Qed.
Lemma publish_raises `{Env} ev : raises X (publish ev).
Proof. by intros w e. Qed.
Lemma begin_nested_raises {A} (m : M A) : raises X m → raises X (begin_nested m).
Proof.
  intros Hm w e. specialize (Hm w e). unfold result, begin_nested in *.
  destruct (m w) as [[] ?]; [done|]. intros [= ->]. by apply Hm.
Qed.
End session_raises.
#[export] Hint Resolve asks_db_raises modify_db_raises get_row_raises new_id_raises utc_raises
  monotonic_raises commit_raises publish_raises begin_nested_raises : raises.
#[export] Hint Extern 1 (raises _ (integrity _ _)) => (apply integrity_raises) : raises.

(** Steps that send nothing to a provider. *)
Section silent.
Context `{Env}.

Lemma commit_silent : tracks (same w_sends) commit.
Proof. intros w. unfold same, exec, commit. by destruct (commit_ok _). Qed.

Lemma publish_silent ev : tracks (same w_sends) (publish ev).
Proof. intros w. unfold same, exec, publish. simpl. by destruct (redis_ok _). Qed.

(** A savepoint leaves alone what its body leaves alone and no database view holds. *)
Lemma begin_nested_same {A B} (f : World → B) (m : M A) :
  (∀ d w, f (set_db d w) = f w) → tracks (same f) m → tracks (same f) (begin_nested m).
Proof.
  intros Hf Hm w. specialize (Hm w). unfold same, exec, begin_nested in *.
  destruct (m w) as [[] ?]; [done|]. simpl in *. by rewrite Hf.
Qed.
End silent.
#[export] Hint Resolve commit_silent publish_silent : tracks.
#[export] Hint Extern 2 (tracks (same _) (begin_nested _)) =>
  (apply begin_nested_same; [reflexivity|]) : tracks.

(** A savepoint leaves a table alone, uncommitted and committed, if its body does. *)
Lemma begin_nested_table {A B} (g : DB.t → B) (m : M A) :
  tracks (same (λ w, (g (w_db w), g (w_committed w)))) m →
  tracks (same (λ w, (g (w_db w), g (w_committed w)))) (begin_nested m).
Proof.
  intros Hm w. specialize (Hm w). unfold same, exec, begin_nested in *.
  destruct (m w) as [[] w']; simpl in *; [done|]. by injection Hm as _ ->.
Qed.
#[export] Hint Extern 3 (tracks (same (λ w, (_ (w_db w), _ (w_committed w)))) (begin_nested _)) =>
  (apply begin_nested_table) : tracks.

(** ** Steps that only leave a trace *)

(** The database but for its audit trail. *)
Definition sans_audit (d : DB.t) : DB.t := DB.upd_audit_events (λ _, []) d.

(** Nothing happened but audit events, clock readings and stream entries; ids only grow. *)
Definition calm (w w' : World) : Prop :=
  sans_audit (w_db w') = sans_audit (w_db w) ∧ (w_next_id w ≤ w_next_id w')%positive.

#[global] Instance calm_preorder : PreOrder calm.
Proof. split; [done|]. intros a b c [A1 A2] [B1 B2]. split; [congruence|lia]. Qed.
