(* ===== verification/Scenario.v ===== *)
(** * A concrete installation, on which the theorems' hypotheses are evaluated

    One tenant with an operator, one active agent ("openai/gpt-4o-mini", its cheapest
    priced model), one running mission with its queued task, and an environment in which
    every service answers, except that the provider fails the first request it gets with
    HTTP 503. *)

From Stdlib Require Import Floats.
From S2P Require Import Prelude Enums Contracts Breaker Database.
Local Open Scope Z_scope.

Definition sample_output : json :=
  JObj [("title", JStr "Report"); ("executive_summary", JStr "Fine."); ("sections", JList [])].

Definition sample_response : ModelResponse :=
  mkModelResponse "ok" 120 40 250 "openai" "gpt-4o-mini" "stop" false None.

(** Clocks advance by one second per reading. *)
#[global] Instance sample_env : Env := {|
  sha256_hex := λ s, "h" +:+ s;
  json_loads := λ s, if String.eqb s "ok" then inr sample_output else inl ("Expecting value", 1, 1);
  json_dumps := λ _, "{}";
  validation_errors := λ _, "[]";
  fmt_2f := λ _, "0.00";
  fmt_0f := λ _, "0";
  dump_request := λ r, req_provider r +:+ req_user_prompt r;
  dump_tool_policy := λ _, "{}";
  dump_budget_policy := λ _, "{}";
  output_json_schema := "{}";
  utc_now := λ n, 1000000 * Z.of_nat n;
  mono_now := λ n, Py.of_int (Z.of_nat n);
  provider_generate := λ _ n _,
    match n with O => inl (Some 503, "overloaded") | _ => inr sample_response end;
  object_put_ok := λ _, true;
  redis_ok := λ _, true;
  commit_ok := λ _, true;
  savepoint_recovers := false;
  bucket := "artifacts";
|}.

Definition sample_mission : Mission.t :=
  Mission.mk 6 1 "M-1" "Brief" "Summarise the market." (Some 2%positive) MissionStatus.running
    MissionPriority.normal RiskLevel.low BudgetPolicy_default (Some 4%positive) 0 (Some 0) None.

Definition sample_task : Task.t :=
  Task.mk 7 6 4 "Brief" "Summarise the market." TaskStatus.queued 0 "6:task:1"
    BudgetPolicy_default [] None None None 0.

Definition sample_db : DB.t :=
  DB.upd_tenants (λ _, {[ 1%positive := Tenant.mk 1 "acme" "Acme" TenantStatus.active ]})
  (DB.upd_users (λ _, {[ 2%positive := User.mk 2 1 "op@acme.test" "Op" UserRole.operator
                           UserStatus.active "hash" ]})
  (DB.upd_model_policies (λ _, {[ 3%positive := ModelPolicy.mk 3 1 "std" "openai" "gpt-4o-mini" 0 ]})
  (DB.upd_agents (λ _, {[ 4%positive := Agent.mk 4 1 "analyst" "Analyst" None None None AgentLifecycleState.active
                            (Some 5%positive) None 0 0 ]})
  (DB.upd_agent_versions (λ _, {[ 5%positive := AgentVersion.mk 5 4 1 "Be brief." "custom_durable" 3
                                    AutonomyLevel.a1 ToolPolicy_default [] [] "sum" None 0 ]})
  (DB.upd_missions (λ _, {[ 6%positive := sample_mission ]})
  (DB.upd_tasks (λ _, {[ 7%positive := sample_task ]}) DB.empty)))))).

(** A world at rest: the session's view is the committed database. *)
Definition world_of (d : DB.t) : World :=
  mkWorld d d 100 0 0 0 0 0 [] [] ∅ CircuitBreaker_default [] [].

Definition sample_world : World := world_of sample_db.

Definition sample_request : ModelRequest :=
  ModelRequest_make "openai" "gpt-4o-mini" "Be brief." "Summarise the market." 500.
