(* ===== verification/Transitions.v ===== *)
(** * Mission and task state machines
    (services/mission-engine/mission_engine/states/transitions.py) *)

From stdpp Require Import relations.
From S2P Require Import Prelude Enums Contracts.

(** [MISSION_TRANSITIONS] *)
Definition MISSION_TRANSITIONS (s : MissionStatus.t) : list MissionStatus.t :=
  match s with
  | MissionStatus.draft => [MissionStatus.ready; MissionStatus.cancelled]
  | MissionStatus.ready => [MissionStatus.running; MissionStatus.cancelled]
  | MissionStatus.running =>
      [MissionStatus.paused; MissionStatus.completed; MissionStatus.failed; MissionStatus.cancelled]
  | MissionStatus.paused => [MissionStatus.running; MissionStatus.cancelled]
  | MissionStatus.failed => []
  | MissionStatus.completed => []
  | MissionStatus.cancelled => []
  end.

(** [TASK_TRANSITIONS] *)
Definition TASK_TRANSITIONS (s : TaskStatus.t) : list TaskStatus.t :=
  match s with
  | TaskStatus.queued => [TaskStatus.running; TaskStatus.cancelled]
  | TaskStatus.running =>
      [TaskStatus.waiting; TaskStatus.completed; TaskStatus.failed; TaskStatus.cancelled]
  | TaskStatus.waiting => [TaskStatus.running; TaskStatus.failed; TaskStatus.cancelled]
  | TaskStatus.failed => [TaskStatus.queued]
  | TaskStatus.completed => []
  | TaskStatus.cancelled => []
  end.

(** [validate_mission_transition(current, target)] *)
Definition validate_mission_transition (current target : MissionStatus.t) : outcome exn unit :=
  if decide (target ∉ MISSION_TRANSITIONS current) then
    Raise (InvalidTransition "mission" (value current) (value target))
  else Ret tt.

(** [validate_task_transition(current, target)] *)
Definition validate_task_transition (current target : TaskStatus.t) : outcome exn unit :=
  if decide (target ∉ TASK_TRANSITIONS current) then
    Raise (InvalidTransition "task" (value current) (value target))
  else Ret tt.

(** The step relations the validators accept. *)
Definition mission_step (a b : MissionStatus.t) : Prop := validate_mission_transition a b = Ret tt.
Definition task_step (a b : TaskStatus.t) : Prop := validate_task_transition a b = Ret tt.

Definition mission_terminal (s : MissionStatus.t) : bool :=
  match s with
  | MissionStatus.failed | MissionStatus.completed | MissionStatus.cancelled => true
  | _ => false
  end.

Lemma mission_step_iff a b : mission_step a b ↔ b ∈ MISSION_TRANSITIONS a.
Proof. unfold mission_step, validate_mission_transition. case_decide; naive_solver. Qed.

Lemma task_step_iff a b : task_step a b ↔ b ∈ TASK_TRANSITIONS a.
Proof. unfold task_step, validate_task_transition. case_decide; naive_solver. Qed.

#[export] Instance mission_step_dec a b : Decision (mission_step a b).
Proof. destruct (decide (b ∈ MISSION_TRANSITIONS a)); [left|right]; by rewrite mission_step_iff. Defined.

#[export] Instance task_step_dec a b : Decision (task_step a b).
Proof. destruct (decide (b ∈ TASK_TRANSITIONS a)); [left|right]; by rewrite task_step_iff. Defined.

Lemma mission_terminal_stuck a b : mission_terminal a = true → ¬ mission_step a b.
Proof. rewrite mission_step_iff. destruct a; simpl; (done || (intros _ Hin; by apply elem_of_nil in Hin)). Qed.

(** Completed, failed and cancelled missions are final: along any sequence of
    transitions the validator accepts, a mission that has reached one of them is never in
    another status again; and every other status can still reach one of them. *)
Theorem mission_terminal_final a b :
  (mission_terminal a = true → rtc mission_step a b → b = a) ∧
  (mission_terminal a = false → ∃ c, mission_terminal c = true ∧ rtc mission_step a c).
Proof.
  split.
  - intros Ht Hr. destruct Hr as [|? c ? Hs]; [done|]. by apply mission_terminal_stuck in Hs.
  - intros Hf. exists MissionStatus.cancelled. split; [done|].
    apply rtc_once, mission_step_iff. destruct a; simpl in *; (done || set_solver).
Qed.
