(* ===== verification/Missions.v ===== *)
(** * Mission creation, start and status changes
    (services/mission-engine/mission_engine/engine/mission_service.py), and the task queue
    (services/mission-engine/mission_engine/engine/queue.py) *)

From S2P Require Import Prelude Enums Contracts Breaker Database Scenario Transitions.
Local Open Scope Z_scope.

(** ** The queue: a Redis list, pushed at the head and popped at the tail *)

Section queue.
Context `{Env}.

(** [enqueue_task(redis_client, task_id)]: [LPUSH] *)
Definition enqueue_task (task_id : EntityId) : M unit := λ w,
  let w := set_xadds (S (w_xadds w)) w in
  if redis_ok (pred (w_xadds w)) then (Ret tt, set_queue (task_id :: w_queue w) w)
  else (Raise (OperationalError "redis"), w).

(** [dequeue_task(redis_client)]: [BRPOP]; [None] when the timeout passes on an empty
    list. *)
Definition dequeue_task : M (option EntityId) := λ w,
  let w := set_xadds (S (w_xadds w)) w in
  if redis_ok (pred (w_xadds w)) then
    match last (w_queue w) with
    | None => (Ret None, w)
    | Some t => (Ret (Some t), set_queue (take (length (w_queue w) - 1) (w_queue w)) w)
    end
  else (Raise (OperationalError "redis"), w).
End queue.

(** ** The mission service *)

Record StartMissionResult := mkStartMissionResult {
  sm_mission : Mission.t;
  sm_task : Task.t;
  newly_started : bool;
}.

(** [Mission.status.in_([draft, ready])] *)
Definition startable (m : Mission.t) : bool :=
  match Mission.status m with MissionStatus.draft | MissionStatus.ready => true | _ => false end.

Definition task_of_mission (mission_id : EntityId) (t : Task.t) : bool :=
  bool_decide (Task.mission_id t = mission_id).

Definition task_with_key (key : string) (t : Task.t) : bool :=
  bool_decide (Task.idempotency_key t = key).

(** [f"{mission_id}:task:1"] *)
Definition first_task_key (mission_id : EntityId) : string := pretty mission_id +:+ ":task:1".

Section mission_service.
Context `{Env}.

(** [create_mission(session, ...)] *)
Definition create_mission (tenant_id : EntityId) (mission_code title objective : string)
    (requested_by : option EntityId) (assigned_agent_id : EntityId) (priority : MissionPriority.t)
    (risk_level : RiskLevel.t) (budget_policy : option BudgetPolicy) : M Mission.t :=
  i ← new_id;
  created_at ← utc;
  let mission := Mission.mk i tenant_id mission_code title objective requested_by
    MissionStatus.draft priority risk_level (default BudgetPolicy_default budget_policy)
    (Some assigned_agent_id) created_at None None in
  _ ← insert_mission mission;
  mret mission.

(** The insert of the mission's task inside its savepoint; an agent-less mission violates the
    column's NOT NULL. *)
Definition insert_first_task (task_id : EntityId) (created_at : Z) (mission : Mission.t) : M Task.t :=
  match Mission.assigned_agent_id mission with
  | None => raise (IntegrityError "tasks.assigned_agent_id")
  | Some agent_id =>
      let task := Task.mk task_id (Mission.id mission) agent_id (Mission.title mission)
        (Mission.objective mission) TaskStatus.queued 0 (first_task_key (Mission.id mission))
        (Mission.budget_policy mission) [] None None None created_at in
      _ ← insert_task task;
      mret task
  end.

(** The [except IntegrityError] branch of [start_mission]. *)
Definition existing_first_task (mission_id : EntityId) (mission : Mission.t) (e : exn) :
    M StartMissionResult :=
  existing ← after_integrity_error (
    rows ← asks_db (λ d, select (task_with_key (first_task_key mission_id)) (DB.tasks d));
    scalar_one_or_none rows);
  match existing with
  | None => raise e
  | Some task => mret (mkStartMissionResult mission task false)
  end.

(** [start_mission(session, mission_id=..)] *)
Definition start_mission (mission_id : EntityId) : M StartMissionResult :=
  now ← utc;
  before ← get_row DB.missions mission_id;
  let won_the_race := match before with Some m => startable m | None => false end in
  _ ← when won_the_race
        (update_mission mission_id
           (λ m, Mission.set_started_at (Some now) (Mission.set_status MissionStatus.running m)));
  mission ← get_row DB.missions mission_id;
  match mission with
  | None => raise (ValueError ("Mission " +:+ pretty mission_id +:+ " does not exist."))
  | Some mission =>
      if negb won_the_race then
        existing ← asks_db (λ d, head (select (task_of_mission mission_id) (DB.tasks d)));
        match existing with
        | None => raise (ValueError ("Mission " +:+ pretty mission_id +:+ " is '" +:+
                    value (Mission.status mission) +:+ "' and has no task to resume."))
        | Some task => mret (mkStartMissionResult mission task false)
        end
      else
        task_id ← new_id;
        created_at ← utc;
        try_except
          (task ← begin_nested (insert_first_task task_id created_at mission);
           mret (mkStartMissionResult mission task true))
          (λ e,
            if is_integrity_error e then Some (existing_first_task mission_id mission e) else None)
  end.

(** [mark_mission_status(session, mission, target)] *)
Definition mark_mission_status (mission : Mission.t) (target : MissionStatus.t) : M unit :=
  _ ← lift (validate_mission_transition (Mission.status mission) target);
  _ ← update_mission (Mission.id mission) (Mission.set_status target);
  when (mission_terminal target)
    (now ← utc;
     update_mission (Mission.id mission) (Mission.set_completed_at (Some now))).
End mission_service.

(** ** Lemmas *)

(** What a successful task insert needs and does; a refused one changes nothing. *)
Lemma insert_task_spec r w :
  wp (insert_task r) w
    (λ _ w', DB.tasks (w_db w) !! Task.id r = None ∧
       (∀ k t, DB.tasks (w_db w) !! k = Some t → Task.idempotency_key t ≠ Task.idempotency_key r) ∧
       w' = set_db (DB.upd_tasks (<[Task.id r := r]>) (w_db w)) w)
    (λ e w', w' = w ∧ is_integrity_error e = true).
Proof.
  unfold insert_task, wp, integrity, is_present, asks_db, asks, modify_db, modify,
    mbind, ST_bind, mret, ST_ret, raise, id; simpl.
  repeat (case_bool_decide; simpl; try done).
  destruct (exists_row _ _) eqn:He; simpl; [done|]. rewrite exists_row_false in He.
  split_and!; [by apply eq_None_not_Some| |done].
  intros k t Ht. by apply He, bool_decide_eq_false in Ht.
Qed.

(** An insert whose keys are free, with its references in place, goes through. *)
Lemma insert_task_ok r w :
  DB.tasks (w_db w) !! Task.id r = None →
  is_Some (DB.missions (w_db w) !! Task.mission_id r) →
  is_Some (DB.agents (w_db w) !! Task.assigned_agent_id r) →
  (∀ k t, DB.tasks (w_db w) !! k = Some t → Task.idempotency_key t ≠ Task.idempotency_key r) →
  insert_task r w = (Ret tt, set_db (DB.upd_tasks (<[Task.id r := r]>) (w_db w)) w).
Proof.
  intros Hk Hm Ha Hid. unfold insert_task, is_present, asks_db, asks, modify_db, modify,
    mbind, ST_bind, mret, ST_ret, integrity, id. simpl.
  rewrite bool_decide_false by (rewrite Hk; by intros []). simpl.
  rewrite !bool_decide_true by done. simpl.
  match goal with |- context [exists_row ?P ?m] => assert (exists_row P m = false) as -> end; [|done].
  apply exists_row_false. intros k t Ht. apply bool_decide_eq_false. by eapply Hid.
Qed.

Section start_lemmas.
Context `{Env}.

Lemma existing_first_task_spec mid mission e w :
  wp (existing_first_task mid mission e) w
    (λ r w', w' = w ∧ newly_started r = false ∧ ∃ k, DB.tasks (w_db w) !! k = Some (sm_task r))
    (λ _ w', w' = w).
Proof.
  unfold existing_first_task, after_integrity_error. apply wp_bind.
  destruct savepoint_recovers; [|by apply wp_raise]. apply wp_bind, wp_asks.
  destruct (select _ _) as [|t [|]] eqn:Hs; simpl; try done.
  apply wp_ret, wp_ret. split_and!; [done..|]. assert (t ∈ [t]) as Hin by left.
  rewrite <- Hs in Hin. by apply elem_of_select in Hin as [_ ?].
Qed.

(** The insert inside its savepoint: the new row, or nothing. *)
Lemma insert_first_task_spec i now mission w :
  wp (begin_nested (insert_first_task i now mission)) w
    (λ t w', DB.tasks (w_db w) !! i = None ∧ Task.id t = i ∧ Task.status t = TaskStatus.queued ∧
             w_db w' = DB.upd_tasks (<[i := t]>) (w_db w))
    (λ e w', w_db w' = w_db w ∧ is_integrity_error e = true).
Proof.
  unfold wp, begin_nested, insert_first_task.
  destruct (Mission.assigned_agent_id mission) as [ag|]; [|done]. unfold mbind, ST_bind.
  match goal with |- context [insert_task ?t w] => pose proof (insert_task_spec t w) as Hi end.
  unfold wp in Hi. destruct (insert_task _ w) as [[[]|e] w2]; simpl in *.
  - destruct Hi as (Hn & _ & ->). done.
  - by destruct Hi as [-> ->].
Qed.

(** The rows a start adds, by outcome. *)
Lemma start_mission_rows mid w :
  let tasks := DB.tasks (w_db w) in
  wp (start_mission mid) w
    (λ r w', if newly_started r
             then (∃ m, DB.missions (w_db w) !! mid = Some m ∧ startable m = true) ∧
                  tasks !! Task.id (sm_task r) = None ∧
                  DB.tasks (w_db w') = <[Task.id (sm_task r) := sm_task r]> tasks ∧
                  Task.status (sm_task r) = TaskStatus.queued ∧
                  Mission.status (sm_mission r) = MissionStatus.running
             else DB.tasks (w_db w') = tasks ∧ ∃ k, tasks !! k = Some (sm_task r))
    (λ _ w', DB.tasks (w_db w') = tasks).
Proof.
  intros tasks. unfold start_mission. apply wp_bind. unfold wp at 1, utc. apply wp_bind, wp_asks.
  apply wp_bind, wp_when. simpl.
  destruct (DB.missions (w_db w) !! mid) as [m|] eqn:Hm; simpl.
  2:{ apply wp_bind, wp_asks. simpl. by rewrite Hm. }
  destruct (startable m) eqn:Hst.
  - apply wp_modify, wp_bind, wp_asks. simpl. rewrite lookup_alter_eq, Hm. simpl.
    apply wp_bind. unfold wp at 1, new_id. apply wp_bind. unfold wp at 1, utc. apply wp_try, wp_bind.
    eapply wp_mono; [apply insert_first_task_spec| |].
    + intros t w2 (Hn & Hid & Hq & Hd). apply wp_ret. simpl. rewrite Hid, Hd. split_and!; eauto.
    + intros e w2 [Hd ->]. eapply wp_mono; [apply existing_first_task_spec| |].
      * intros r w3 (-> & -> & k & Hk). rewrite Hd in *. eauto.
      * intros e' w3 ->. by rewrite Hd.
  - apply wp_bind, wp_asks. simpl. rewrite Hm. simpl.
    apply wp_bind, wp_asks. simpl. destruct (select _ _) as [|t l] eqn:Hs; simpl; [done|].
    apply wp_ret. simpl. split; [done|]. assert (t ∈ t :: l) as Hin by left.
    rewrite <- Hs in Hin. apply elem_of_select in Hin as [_ [k Hk]]. by exists k.
Qed.

(** Starting touches neither the queue nor the stream. *)
Lemma start_mission_quiet mid : tracks (same w_queue) (start_mission mid).
Proof.
  unfold start_mission, update_mission, insert_first_task, insert_task. tracks_auto.
  apply tracks_try; [apply _| |].
  - tracks_auto. apply begin_nested_same; [done|]. tracks_auto.
  - intros e k Hk. case_match; simplify_eq. unfold existing_first_task, after_integrity_error. tracks_auto.
Qed.
End start_lemmas.

(** ** Theorems *)

Section mission_theorems.
Context `{Env}.

(** No double start. [start_mission] adds at most one task, and only to a mission that
    was draft or ready (which it moves to running): a mission in any other status, or one
    whose insert is refused, gets no task, whatever the call returns or raises. *)
Theorem start_mission_adds_at_most_one_task mid w :
  let tasks := DB.tasks (w_db w) in
  wp (start_mission mid) w
    (λ r w', if newly_started r
             then (∃ m, DB.missions (w_db w) !! mid = Some m ∧ startable m = true) ∧
                  tasks !! Task.id (sm_task r) = None ∧
                  DB.tasks (w_db w') = <[Task.id (sm_task r) := sm_task r]> tasks ∧
                  Task.status (sm_task r) = TaskStatus.queued ∧
                  Mission.status (sm_mission r) = MissionStatus.running
             else DB.tasks (w_db w') = tasks ∧ ∃ k, tasks !! k = Some (sm_task r))
    (λ _ w', DB.tasks (w_db w') = tasks).
Proof. apply start_mission_rows. Qed.


(** [mark_mission_status] changes a status only along the state machine: it returns
    exactly when the transition is legal, leaving the target in the row (with a completion
    time iff the target is terminal), and otherwise raises [InvalidTransition] and changes
    nothing. *)
Theorem mark_mission_status_follows_transitions m target w :
  DB.missions (w_db w) !! Mission.id m = Some m →
  wp (mark_mission_status m target) w
    (λ _ w', mission_step (Mission.status m) target ∧
       ∃ m', DB.missions (w_db w') !! Mission.id m = Some m' ∧ Mission.status m' = target ∧
         (mission_terminal target = true → is_Some (Mission.completed_at m')) ∧
         (mission_terminal target = false → Mission.completed_at m' = Mission.completed_at m))
    (λ e w', ¬ mission_step (Mission.status m) target ∧ w' = w ∧
       e = InvalidTransition "mission" (value (Mission.status m)) (value target)).
Proof.
  intros Hm. unfold mark_mission_status. apply wp_bind. unfold wp at 1, lift.
  destruct (validate_mission_transition _ _) as [[]|e] eqn:Hv.
  - apply wp_bind, wp_modify, wp_when. destruct (mission_terminal target) eqn:Ht.
    + apply wp_bind. unfold wp at 1, utc. apply wp_modify. split; [done|]. simpl.
      rewrite lookup_alter_eq, lookup_alter_eq, Hm. simpl. eexists. split_and!; eauto. done.
    + split; [done|]. simpl. rewrite lookup_alter_eq, Hm. simpl. eexists. split_and!; eauto. done.
  - split_and!; [unfold mission_step; by rewrite Hv|done|].
    unfold validate_mission_transition in Hv. case_decide; [|done]. by injection Hv as <-.
Qed.
End mission_theorems.

(** ** Witnesses: the sample mission as a draft *)

Definition sample_draft_world : World :=
  world_of (DB.upd_tasks (λ _, ∅)
    (DB.upd_missions (λ _, {[ 6%positive := Mission.set_status MissionStatus.draft sample_mission ]})
       sample_db)).


Lemma mark_mission_status_follows_transitions_witness :
  wp (mark_mission_status sample_mission MissionStatus.cancelled) sample_world
    (λ _ w', mission_step MissionStatus.running MissionStatus.cancelled ∧
       ∃ m', DB.missions (w_db w') !! 6%positive = Some m' ∧
         Mission.status m' = MissionStatus.cancelled ∧
         (true = true → is_Some (Mission.completed_at m')) ∧
         (true = false → Mission.completed_at m' = None))
    (λ e w', ¬ mission_step MissionStatus.running MissionStatus.cancelled ∧ w' = sample_world ∧
       e = InvalidTransition "mission" "running" "cancelled").
Proof.
  exact (mark_mission_status_follows_transitions sample_mission MissionStatus.cancelled sample_world
           eq_refl).
Defined.
