(* ===== verification/Api.v ===== *)
(** * What every API route shares
    (services/api/dependencies/auth.py and dependencies/db.py, and the [_publish] helper of
    the route modules)

    The decoding of a bearer token is outside the repository (PyJWT): a request comes with
    the user id its token verified to, if it verified. *)

From S2P Require Import Prelude Enums Contracts Breaker Database.
Local Open Scope Z_scope.

Definition HTTP_401 : exn := HTTPException 401 "Could not validate credentials.".
Definition not_found (what : string) : exn := HTTPException 404 (what +:+ " not found.").

(** [get_current_user]; [sub] is the verified subject of the token. *)
Definition get_current_user (sub : option EntityId) : M User.t :=
  match sub with
  | None => raise HTTP_401
  | Some user_id =>
      user ← get_row DB.users user_id;
      match user with
      | None => raise HTTP_401
      | Some u => if decide (User.status u ≠ UserStatus.active) then raise HTTP_401 else mret u
      end
  end.

(** [require_role( *allowed_roles)] *)
Definition require_role (allowed_roles : list UserRole.t) (sub : option EntityId) : M User.t :=
  user ← get_current_user sub;
  if decide (User.role user ∉ allowed_roles) then
    raise (HTTPException 403 ("Role '" +:+ value (User.role user) +:+
             "' is not permitted to perform this action."))
  else mret user.

(** The [MUTATORS] of the mission, task and agent routes. *)
Definition MUTATORS : list UserRole.t :=
  [UserRole.platform_admin; UserRole.tenant_admin; UserRole.operator].

(** [get_tenant_scoped_or_404(session, model, object_id, tenant_id)] *)
Definition get_tenant_scoped {V} (table : DB.t → gmap EntityId V) (tenant_of : V → EntityId)
    (object_id tenant_id : EntityId) : M (option V) :=
  row ← get_row table object_id;
  mret (match row with
        | Some r => if decide (tenant_of r = tenant_id) then Some r else None
        | None => None
        end).

(** The lookup followed by the route's [raise HTTPException(404)]. *)
Definition tenant_scoped_or_404 {V} (table : DB.t → gmap EntityId V) (tenant_of : V → EntityId)
    (what : string) (object_id tenant_id : EntityId) : M V :=
  r ← get_tenant_scoped table tenant_of object_id tenant_id;
  match r with None => raise (not_found what) | Some r => mret r end.

Section api.
Context `{Env}.

(** [get_db_session]: the route runs in a session of its own that commits when it returns and
    rolls back when it (or the commit) raises. *)
Definition request {A} (route : M A) : M A := λ w,
  match (r ← route; _ ← commit; mret r) (set_db (w_committed w) w) with
  | (Ret r, w') => (Ret r, w')
  | (Raise e, w') => (Raise e, set_db (w_committed w') w')
  end.

(** [_publish(publisher, session, event_type, tenant_id, actor, mission_id, ...)] *)
Definition publish_api (event_type : EventType.t) (tenant_id : EntityId) (actor : Actor)
    (correlation_id : EntityId) (mission_id task_id agent_id : option EntityId)
    (data : list (string * json)) : M unit :=
  i ← new_id;
  now ← utc;
  publish (build_event i now event_type tenant_id correlation_id actor "api" None mission_id task_id
             agent_id data).

Definition user_actor (u : User.t) : Actor := mkActor ActorType.user (Some (User.id u)).

(** The agent's active version, if the agent and the version exist. *)
Definition active_version (agent_id : EntityId) : M (option AgentVersion.t) :=
  agent ← get_row DB.agents agent_id;
  match agent with
  | Some a =>
      match Agent.active_version_id a with
      | Some v => get_row DB.agent_versions v
      | None => mret None
      end
  | None => mret None
  end.
End api.

(** ** Lemmas *)

(** A row of another tenant is invisible. *)
Lemma tenant_scoped_404 {V} (table : DB.t → gmap EntityId V) tenant_of what i tn w :
  (∀ r, table (w_db w) !! i = Some r → tenant_of r ≠ tn) →
  tenant_scoped_or_404 table tenant_of what i tn w = (Raise (not_found what), w).
Proof.
  intros Hn. unfold tenant_scoped_or_404, get_tenant_scoped, mbind, ST_bind, get_row, asks_db, asks.
  simpl. destruct (table (w_db w) !! i) as [r|]; [|done].
  rewrite decide_False by (by apply Hn). done.
Qed.

Lemma tenant_scoped_spec {V} (table : DB.t → gmap EntityId V) tenant_of what i tn w :
  wp (tenant_scoped_or_404 table tenant_of what i tn) w
    (λ r w', w' = w ∧ table (w_db w) !! i = Some r ∧ tenant_of r = tn)
    (λ e w', w' = w ∧ e = not_found what).
Proof.
  unfold tenant_scoped_or_404, get_tenant_scoped, wp, mbind, ST_bind, get_row, asks_db, asks. simpl.
  destruct (table (w_db w) !! i) as [r|]; simpl; [|done]. by case_decide.
Qed.

Lemma publish_api_calm `{Env} ty tn actor corr m t ag data w :
  wp (publish_api ty tn actor corr m t ag data) w (λ _, calm w) (λ _ _, False).
Proof.
  unfold publish_api, wp, publish. simpl. unfold calm, sans_audit.
  destruct (redis_ok _); simpl; (split; [done|lia]).
Qed.

(** Only an active user with an allowed role passes [require_role]; everyone else gets a
    401 or a 403, and the check itself changes nothing. *)
Theorem require_role_admits roles sub w :
  wp (require_role roles sub) w
    (λ u w', w' = w ∧ (∃ i, sub = Some i ∧ DB.users (w_db w) !! i = Some u) ∧
             User.status u = UserStatus.active ∧ User.role u ∈ roles)
    (λ e w', w' = w ∧
       ((e = HTTP_401 ∧ ∀ i u, sub = Some i → DB.users (w_db w) !! i = Some u →
            User.status u ≠ UserStatus.active) ∨
        (∃ i u, sub = Some i ∧ DB.users (w_db w) !! i = Some u ∧ User.role u ∉ roles ∧
            ∃ msg, e = HTTPException 403 msg))).
Proof.
  unfold require_role, get_current_user, wp, mbind, ST_bind, get_row, asks_db, asks.
  destruct sub as [i|]; simpl; [|by split; [|left]].
  destruct (DB.users (w_db w) !! i) as [u|] eqn:Hu; simpl.
  - case_decide as Hs; simpl.
    + split; [done|]. left. split; [done|]. naive_solver.
    + case_decide as Hr; simpl.
      * split; [done|]. right. exists i, u. eauto.
      * split_and!; [done|eauto|done|]. exact Hr.
  - split; [done|]. left. split; [done|]. naive_solver.
Qed.
