(* ===== verification/Gateway.v ===== *)
(** * The model gateway (services/model-gateway/model_gateway/gateway.py)

    The only door to an LLM provider. [generate] admits a call against the budget, then
    makes up to [max_attempts] provider attempts; every attempt is written ahead on an
    [AttemptLedger] before the request is sent and finished afterwards.

    The gateway does not know the database: it is verified against the laws of
    [LawfulLedger], which [Ledger.SqlUsageProvider] discharges. *)

From Stdlib Require Import Floats.
From S2P Require Import Prelude Enums Contracts Budgets Telemetry Breaker Database.
Local Open Scope Z_scope.

(** ** Data *)

(** [protocol.AttemptLedger] *)
Record AttemptLedger := mkLedger {
  begin_attempt : ModelInvocationTelemetry → M EntityId;
  finish_attempt : EntityId → ModelInvocationTelemetry → M unit;
}.

(** [GenerateOutcome] *)
Record GenerateOutcome := mkGenerateOutcome {
  go_response : ModelResponse;
  go_telemetry : ModelInvocationTelemetry;
  go_attempts : Z;
  go_failed_attempts : list ModelInvocationTelemetry;
}.

(** [_Call] *)
Record Call := mkCall {
  call_request : ModelRequest;
  call_request_hash : string;
  call_worst_case_cost_usd : float;
  call_ledger : option AttemptLedger;
  call_started : float;
  call_failed : list ModelInvocationTelemetry;
}.

Definition add_failed (f : ModelInvocationTelemetry) (c : Call) : Call :=
  mkCall (call_request c) (call_request_hash c) (call_worst_case_cost_usd c) (call_ledger c)
    (call_started c) (call_failed c ++ [f]).

(** [_Attempt]; an error is the exception's HTTP status, if any, and its text. *)
Record Attempt := mkAttempt {
  att_id : option EntityId;
  att_response : option ModelResponse;
  att_error : option (option Z * string);
}.

(** [ModelGateway]: the registered provider names and [max_attempts]; its circuit breaker is
    [w_breaker]. *)
Record ModelGateway := mkGateway { gw_providers : gset string; gw_max_attempts : nat }.

(** [ModelGateway(providers=...)] *)
Definition ModelGateway_default (providers : gset string) : ModelGateway := mkGateway providers 3.

Section gateway.
Context `{Env}.

(** [asyncio.wait_for(provider.generate(request), timeout=...)]: the request leaves the
    process here, whatever the answer. *)
Definition send (request : ModelRequest) : M ((option Z * string) + ModelResponse) := λ w,
  let answer := provider_generate (req_provider request) (length (w_sends w)) request in
  (Ret answer, log_durable (set_sends (w_sends w ++ [request]) w)).

(** [_admit(request, policy, usage, is_retry, ledger)] *)
Definition admit_call (gw : ModelGateway) (request : ModelRequest) (policy : BudgetPolicy)
    (usage : BudgetUsage) (is_retry : bool) (ledger : option AttemptLedger) : M Call :=
  if decide (req_provider request ∉ gw_providers gw) then
    raise (ModelGatewayError ("No provider registered for '" +:+ req_provider request +:+ "'.") [])
  else
    wc ← lift (estimate_worst_case_attempt (req_provider request) (req_model request)
                 (req_system_prompt request) (req_user_prompt request)
                 (req_max_output_tokens request));
    let worst := Py.float_of_usd wc.2 in
    let decision := evaluate_budget policy usage (req_max_output_tokens request) is_retry worst in
    if negb (allowed decision) then
      raise (BudgetExceededError (default BudgetExceededUnspecified (reason decision)) [])
    else
      started ← monotonic;
      mret (mkCall request (sha256_hex (dump_request request)) worst ledger started []).

(** [_check_circuit(call)]: [before_call], with this call's failed attempts attached to a
    [CircuitOpenError]. *)
Definition check_circuit (call : Call) : M unit :=
  now ← monotonic;
  b ← asks w_breaker;
  let '(r, b') := before_call (req_provider (call_request call)) now b in
  _ ← modify (set_breaker b');
  match r with
  | Ret _ => mret tt
  | Raise (CircuitOpenError p retry_after _) => raise (CircuitOpenError p retry_after (call_failed call))
  | Raise e => raise e
  end.

(** [_write_ahead(call)] *)
Definition write_ahead (call : Call) : M (option EntityId) :=
  match call_ledger call with
  | None => mret None
  | Some ledger =>
      let request := call_request call in
      wc ← lift (estimate_worst_case_attempt (req_provider request) (req_model request)
                   (req_system_prompt request) (req_user_prompt request)
                   (req_max_output_tokens request));
      i ← begin_attempt ledger
        (mkTelemetry (req_provider request) (req_model request) wc.1.1 wc.1.2 wc.2 0
           ModelInvocationStatus.requested (call_request_hash call) None false);
      mret (Some i)
  end.

(** [_finish(call, attempt_id, outcome)] *)
Definition finish (call : Call) (attempt_id : option EntityId) (outcome : ModelInvocationTelemetry) :
    M unit :=
  match call_ledger call, attempt_id with
  | Some ledger, Some i => finish_attempt ledger i outcome
  | _, _ => mret tt
  end.

(** [_failed_attempt_telemetry(call, error, elapsed_seconds)] *)
Definition failed_attempt_telemetry (call : Call) (status : option Z) (elapsed_seconds : float) :
    M ModelInvocationTelemetry :=
  let request := call_request call in
  f ← lift (estimate_failed_attempt (req_provider request) (req_model request)
              (req_system_prompt request) (req_user_prompt request)
              (req_max_output_tokens request) status);
  mret (mkTelemetry (req_provider request) (req_model request) f.1.1 f.1.2 f.2
          (Py.trunc (Py.mul elapsed_seconds (Py.of_int 1000))) ModelInvocationStatus.failed
          (call_request_hash call) None false).

(** What [_attempt] does with the provider's answer. *)
Definition after_send (call : Call) (attempt_id : option EntityId) (attempt_started : float)
    (answer : (option Z * string) + ModelResponse) : M (Attempt * Call) :=
  let request := call_request call in
  match answer with
  | inl (status, msg) =>
      _ ← when (negb (is_permanent_rejection status)) (
            now ← monotonic;
            modify (λ w, set_breaker (record_failure (req_provider request) now (w_breaker w)) w));
      now ← monotonic;
      failure ← failed_attempt_telemetry call status (Py.sub now attempt_started);
      let call := add_failed failure call in
      _ ← finish call attempt_id failure;
      mret (mkAttempt attempt_id None (Some (status, msg)), call)
  | inr response =>
      _ ← modify (λ w, set_breaker (record_success (req_provider request) (w_breaker w)) w);
      mret (mkAttempt attempt_id (Some response) None, call)
  end.

(** [_attempt(provider, call)]: one provider request, written ahead and finished on the
    ledger. The call is returned with its failure appended, as the code's [call.failed]. *)
Definition attempt_once (call : Call) : M (Attempt * Call) :=
  attempt_id ← write_ahead call;
  attempt_started ← monotonic;
  answer ← send (call_request call);
  after_send call attempt_id attempt_started answer.

(** [_succeed(call, attempt, attempt_number)] *)
Definition succeed (call : Call) (attempt_id : option EntityId) (response : ModelResponse)
    (attempt_number : Z) : M GenerateOutcome :=
  let request := call_request call in
  cost ← lift (estimate_cost_usd (req_provider request) (req_model request)
                 (resp_input_tokens response) (resp_output_tokens response));
  let telemetry :=
    mkTelemetry (req_provider request) (req_model request) (resp_input_tokens response)
      (resp_output_tokens response) cost (resp_latency_ms response)
      ModelInvocationStatus.completed (call_request_hash call)
      (Some (sha256_hex (resp_text response))) (resp_usage_estimated response) in
  _ ← finish call attempt_id telemetry;
  mret (mkGenerateOutcome response telemetry attempt_number (call_failed call)).

(** [_require_retry_budget(call, policy, incoming, attempt_number)] *)
Definition require_retry_budget (call : Call) (policy : BudgetPolicy) (incoming : BudgetUsage)
    (attempt_number : Z) : M unit :=
  now ← monotonic;
  let so_far := mkBudgetUsage
    (calls_made incoming + Z.of_nat (length (call_failed call)))
    (Py.add (cost_spent_usd incoming)
       (Py.float_of_usd (sumZ (tel_estimated_cost <$> call_failed call))))
    (Py.add (elapsed_minutes incoming) (Py.div (Py.sub now (call_started call)) (Py.of_int 60)))
    (retries_made incoming + (attempt_number - 1)) in
  let decision := evaluate_budget policy so_far (req_max_output_tokens (call_request call)) true
                    (call_worst_case_cost_usd call) in
  if negb (allowed decision) then
    raise (BudgetExceededError (default BudgetExceededUnspecified (reason decision)) (call_failed call))
  else mret tt.

(** The [for attempt_number in range(1, max_attempts + 1)] loop, with [remaining] iterations
    to go. Sleeping between attempts changes nothing. *)
Fixpoint attempt_loop (gw : ModelGateway) (policy : BudgetPolicy) (usage : BudgetUsage)
    (remaining : nat) (attempt_number : Z) (last_error : string) (call : Call) :
    M GenerateOutcome :=
  let request := call_request call in
  let target := "'" +:+ req_provider request +:+ "/" +:+ req_model request +:+ "'" in
  match remaining with
  | O =>
      raise (ModelGatewayError ("Model call to " +:+ target +:+ " failed after "
               +:+ pretty (gw_max_attempts gw) +:+ " attempts: " +:+ last_error) (call_failed call))
  | S remaining =>
      _ ← check_circuit call;
      ac ← attempt_once call;
      let '(attempt, call) := ac in
      match att_error attempt, att_response attempt with
      | None, Some response => succeed call (att_id attempt) response attempt_number
      | None, None => raise (AttributeError "response")
      | Some (status, msg), _ =>
          if is_permanent_rejection status then
            raise (ModelGatewayError ("Model call to " +:+ target +:+
                     " was rejected by the provider and will not be retried: " +:+ msg)
                     (call_failed call))
          else
            _ ← when (attempt_number <? Z.of_nat (gw_max_attempts gw))
                  (require_retry_budget call policy usage attempt_number);
            attempt_loop gw policy usage remaining (attempt_number + 1) msg call
      end
  end.

(** [generate(request, budget_policy=.., usage=.., is_retry=.., ledger=..)] *)
Definition generate (gw : ModelGateway) (request : ModelRequest) (policy : BudgetPolicy)
    (usage : BudgetUsage) (is_retry : bool) (ledger : option AttemptLedger) : M GenerateOutcome :=
  call ← admit_call gw request policy usage is_retry ledger;
  attempt_loop gw policy usage (gw_max_attempts gw) 1 "None" call.
End gateway.

(** ** The write-ahead invariant *)

(** The number of committed charges. *)
Definition charges (w : World) : nat := size (DB.model_invocations (w_committed w)).

(** At every durable point of the past, and now, there is a committed charge for every
    provider request that has been sent. The last clauses are about the running session: a
    commit never loses a charge, and the id supply is ahead of the ledger, now and then. *)
Record wal (w : World) : Prop := {
  wal_now : (length (w_sends w) ≤ charges w)%nat;
  wal_log : Forall (λ e, (e.2 ≤ size (DB.model_invocations e.1))%nat) (w_durable_log w);
  wal_view : (charges w ≤ size (DB.model_invocations (w_db w)))%nat;
  wal_fresh : fresh_above (w_next_id w) (DB.model_invocations (w_db w));
  wal_fresh_committed : fresh_above (w_next_id w) (DB.model_invocations (w_committed w));
  wal_fresh_log : Forall (λ e, fresh_above (w_next_id w) (DB.model_invocations e.1)) (w_durable_log w);
}.

(** A charge is in place for the next request. *)
Definition one_ahead (w : World) : Prop := wal w ∧ (length (w_sends w) < charges w)%nat.

(** What the gateway asks of its ledger: a successful [begin_attempt] leaves one more
    committed charge than requests sent, neither method breaks the invariant, even when it
    raises, and neither sends anything itself. *)
Class LawfulLedger (L : AttemptLedger) : Prop := {
  begin_law : ∀ tel w, wal w → wp (begin_attempt L tel) w (λ _ w', one_ahead w') (λ _ w', wal w');
  finish_law : ∀ i tel, tracks (pres wal) (finish_attempt L i tel);
  begin_silent : ∀ tel, tracks (same w_sends) (begin_attempt L tel);
  finish_silent : ∀ i tel, tracks (same w_sends) (finish_attempt L i tel);
}.

(** What the invariant is about. *)
Definition wal_obs (w : World) :=
  (w_sends w, w_committed w, w_durable_log w, DB.model_invocations (w_db w), w_next_id w).

Lemma wal_obs_eq w w' : wal_obs w = wal_obs w' → wal w → wal w'.
Proof.
  unfold wal_obs. intros [= E1 E2 E3 E4 E5] [H1 H2 H3 H4 H5 H6].
  constructor; unfold charges in *; rewrite <- ?E1, <- ?E2, <- ?E3, <- ?E4, <- ?E5; done.
Qed.

Lemma one_ahead_obs_eq w w' : wal_obs w = wal_obs w' → one_ahead w → one_ahead w'.
Proof.
  intros Ho [Hw Hl]. split; [by eapply wal_obs_eq|].
  unfold wal_obs in Ho. simplify_eq. unfold charges in *. congruence.
Qed.

Lemma tracks_obs_wal {A} (m : M A) : tracks (same wal_obs) m → tracks (pres wal) m.
Proof. apply tracks_impl. intros w w' Hs. exact (wal_obs_eq w w' Hs). Qed.

Lemma tracks_obs_ahead {A} (m : M A) : tracks (same wal_obs) m → tracks (pres one_ahead) m.
Proof. apply tracks_impl. intros w w' Hs. exact (one_ahead_obs_eq w w' Hs). Qed.

(** The exceptions the task executor handles: a refused budget or a failed gateway call. *)
Definition is_expected_error (e : exn) : bool :=
  match e with BudgetExceededError _ _ => true | _ => is_gateway_error e end.

Section gateway_lemmas.
Context `{Env}.

Lemma monotonic_obs : tracks (same wal_obs) monotonic.
Proof. done. Qed.

Lemma check_circuit_obs call : tracks (same wal_obs) (check_circuit call).
Proof.
  unfold check_circuit. tracks_auto.
Qed.

Lemma failed_attempt_telemetry_tracks R `{!PreOrder R} call status t :
  tracks R (failed_attempt_telemetry call status t).
Proof. unfold failed_attempt_telemetry. tracks_auto. Qed.
#[local] Hint Resolve failed_attempt_telemetry_tracks : tracks.

Lemma send_wal request w : one_ahead w → wal (exec (send request) w).
Proof.
  intros [[H1 H2 H3 H4 H5 H6] Hlt]. unfold exec, send. simpl.
  constructor; unfold charges in *; simpl in *; try done.
  - rewrite length_app. simpl. lia.
  - apply Forall_app. split; [done|]. apply Forall_singleton. simpl. rewrite length_app. simpl. lia.
  - apply Forall_app. split; [done|]. by apply Forall_singleton.
Qed.

Section with_ledger.
Context (L : AttemptLedger) `{!LawfulLedger L}.

Lemma write_ahead_law call w :
  call_ledger call = Some L → wal w →
  wp (write_ahead call) w (λ i w', one_ahead w' ∧ is_Some i) (λ _ w', wal w').
Proof.
  intros HL Hw. unfold write_ahead. rewrite HL. wp_step.
  unfold wp, lift. destruct (estimate_worst_case_attempt _ _ _ _ _); [|done].
  apply wp_bind. eapply wp_mono; [by apply begin_law| |done].
  intros i w' Ho. apply wp_ret. eauto.
Qed.

Lemma finish_wal call i tel : call_ledger call = Some L → tracks (pres wal) (finish call i tel).
Proof.
  intros HL. unfold finish. rewrite HL. destruct i; [apply finish_law | apply tracks_ret, _].
Qed.

Lemma after_send_wal call i t0 answer :
  call_ledger call = Some L → tracks (pres wal) (after_send call i t0 answer).
Proof.
  intros HL. destruct answer as [[status msg]|response]; simpl; tracks_auto;
    try by (apply tracks_obs_wal; done).
  by apply finish_wal.
Qed.

Lemma attempt_once_wal call :
  call_ledger call = Some L → tracks (pres wal) (attempt_once call).
Proof.
  intros HL. apply pres_wp. intros w Hw. unfold attempt_once. apply wp_bind.
  eapply wp_mono; [by apply write_ahead_law| |done]. intros i w1 [Ho _].
  eapply (wp_bind_pres one_ahead); [apply tracks_obs_ahead, monotonic_obs|done| |by intros ?? []].
  intros t0 w2 Ho2. apply wp_bind. apply (send_wal (call_request call)) in Ho2.
  by apply pres_wp, Ho2; apply after_send_wal.
Qed.

Lemma succeed_wal call i r n : call_ledger call = Some L → tracks (pres wal) (succeed call i r n).
Proof. intros HL. unfold succeed. tracks_auto. by apply finish_wal. Qed.

(** *** What one attempt sends, and what it leaves in the call *)

Lemma write_ahead_silent call : call_ledger call = Some L → tracks (same w_sends) (write_ahead call).
Proof. intros HL. unfold write_ahead. rewrite HL. tracks_auto. apply begin_silent. Qed.

Lemma finish_silent' call i tel : call_ledger call = Some L → tracks (same w_sends) (finish call i tel).
Proof.
  intros HL. unfold finish. rewrite HL. destruct i; [apply finish_silent | apply tracks_ret, _].
Qed.

Lemma after_send_silent call i t0 answer :
  call_ledger call = Some L → tracks (same w_sends) (after_send call i t0 answer).
Proof.
  intros HL. destruct answer as [[status msg]|response]; simpl; tracks_auto.
  by apply finish_silent'.
Qed.

Lemma succeed_silent call i r n :
  call_ledger call = Some L → tracks (same w_sends) (succeed call i r n).
Proof. intros HL. unfold succeed. tracks_auto. by apply finish_silent'. Qed.

(** How the call and the attempt returned relate to the provider's answer. *)
Definition attempt_matches (call : Call) (answer : (option Z * string) + ModelResponse)
    (r : Attempt * Call) : Prop :=
  call_request r.2 = call_request call ∧ call_ledger r.2 = call_ledger call ∧
  match answer with
  | inl err => att_error r.1 = Some err ∧ length (call_failed r.2) = S (length (call_failed call))
  | inr resp => att_error r.1 = None ∧ att_response r.1 = Some resp ∧ r.2 = call
  end.

Lemma after_send_result call i t0 answer w :
  wp (after_send call i t0 answer) w (λ r _, attempt_matches call answer r) (λ _ _, True).
Proof.
  assert (∀ {A B} (m : M A) (f : A → M B) w Q,
    (∀ a w', wp (f a) w' Q (λ _ _, True)) → wp (m ≫= f) w Q (λ _ _, True)) as Hskip.
  { intros A B m f w' Q Hf. apply wp_bind. unfold wp. destruct (m w') as [[] ?]; [apply Hf|done]. }
  destruct answer as [[status msg]|response]; simpl; repeat (apply Hskip; intros);
    apply wp_ret; repeat split; simpl; try done.
  rewrite length_app. simpl. lia.
Qed.

Lemma attempt_once_spec call w :
  call_ledger call = Some L →
  wp (attempt_once call) w
    (λ r w', w_sends w' = w_sends w ++ [call_request call] ∧
       attempt_matches call (provider_generate (req_provider (call_request call))
                               (length (w_sends w)) (call_request call)) r)
    (λ _ w', w_sends w' = w_sends w ∨ w_sends w' = w_sends w ++ [call_request call]).
Proof.
  intros HL. unfold attempt_once. apply wp_bind.
  eapply wp_mono; [apply (tracks_wp (same w_sends)), write_ahead_silent, HL| |by left].
  intros i w1 Hs1. unfold same in Hs1. apply wp_bind, wp_bind. unfold wp at 1, send.
  set (answer := provider_generate _ _ _).
  replace (provider_generate _ _ _) with answer by (unfold answer; rewrite Hs1; done).
  set (w2 := log_durable _).
  assert (w_sends w2 = w_sends w ++ [call_request call]) as Hs2 by (simpl; by rewrite <- Hs1).
  eapply wp_mono.
  - apply wp_conj; [apply (tracks_wp (same w_sends)), after_send_silent, HL
                   | apply (after_send_result call)].
  - intros r w3 [Hs3 Hr]. unfold same in Hs3. split; [congruence|done].
  - intros e w3 [Hs3 _]. right. unfold same in Hs3. congruence.
Qed.

(** *** The attempt loop *)

Lemma require_retry_budget_silent call policy usage n :
  tracks (same wal_obs) (require_retry_budget call policy usage n).
Proof. unfold require_retry_budget. tracks_auto. Qed.

Lemma attempt_loop_wal gw policy usage k n err call :
  call_ledger call = Some L → tracks (pres wal) (attempt_loop gw policy usage k n err call).
Proof.
  revert n err call. induction k as [|k IH]; intros n err call HL; simpl; [tracks_auto|].
  apply tracks_bind; [apply _|apply tracks_obs_wal, check_circuit_obs|intros _].
  apply pres_wp. intros w Hw. apply wp_bind.
  eapply wp_mono; [apply wp_conj; [by apply pres_wp, Hw; apply attempt_once_wal
                                  | by apply attempt_once_spec]| |by intros e w' [? _]].
  intros [att call'] w' [Hw' (_ & _ & HL' & _)]. simpl in HL'. rewrite HL in HL'.
  revert w' Hw'. apply pres_wp. tracks_auto.
  - apply tracks_obs_wal, require_retry_budget_silent.
  - by apply succeed_wal.
Qed.

(** The budget's room for one more attempt of a call that has already made [n]. *)
Definition has_room (policy : BudgetPolicy) (usage : BudgetUsage) (n : Z) : Prop :=
  calls_made usage + n < max_model_calls policy ∧
  (0 < n → retries_made usage + n ≤ max_retries policy).

(** What [t] requests of one call may use up. *)
Definition within_limits (gw : ModelGateway) (policy : BudgetPolicy) (usage : BudgetUsage) (t : Z) :
    Prop :=
  t ≤ Z.of_nat (gw_max_attempts gw) ∧ calls_made usage + t ≤ max_model_calls policy ∧
  (2 ≤ t → retries_made usage + (t - 1) ≤ max_retries policy).

Lemma require_retry_budget_room call policy usage n w :
  n = Z.of_nat (length (call_failed call)) → 0 < n →
  wp (require_retry_budget call policy usage n) w
    (λ _ w', w_sends w' = w_sends w ∧ has_room policy usage n) (λ _ w', w_sends w' = w_sends w).
Proof.
  intros Hn Hpos. unfold require_retry_budget. wp_step. unfold wp at 1. simpl.
  destruct (allowed _) eqn:Ha; simpl; [|done].
  apply wp_ret. apply evaluate_budget_allowed in Ha as [Hc _ _ _ _ Hr]. simpl in *.
  specialize (Hr eq_refl). split; [done|]. split; lia.
Qed.

Lemma attempt_loop_sends gw policy usage k n err call w :
  call_ledger call = Some L →
  n = Z.of_nat (length (call_failed call)) + 1 →
  Z.of_nat (gw_max_attempts gw) = (n - 1) + Z.of_nat k →
  (k ≠ 0%nat → has_room policy usage (n - 1)) →
  let post w' := ∃ l, w_sends w' = w_sends w ++ l ∧
    (l = [] ∨ within_limits gw policy usage (n - 1 + Z.of_nat (length l))) in
  wp (attempt_loop gw policy usage k n err call) w (λ _, post) (λ _, post).
Proof.
  revert n err call w. induction k as [|k IH]; intros n err call w HL Hn Hk Hroom post.
  { simpl. apply wp_raise. exists []. rewrite app_nil_r. auto. }
  assert (∀ w', w_sends w' = w_sends w → post w') as Hnone.
  { intros w' Hs. exists []. rewrite app_nil_r. auto. }
  assert (∀ w', w_sends w' = w_sends w ++ [call_request call] → post w') as Hone.
  { intros w' Hs. exists [call_request call]. split; [done|]. right. simpl.
    destruct (Hroom ltac:(done)) as [??]. unfold within_limits. lia. }
  simpl. apply wp_bind. eapply wp_mono;
    [apply (tracks_wp (same wal_obs)), check_circuit_obs| |].
  2:{ intros e w' Hs. apply Hnone. unfold same, wal_obs in Hs. congruence. }
  intros ? w1 Hs1. assert (w_sends w1 = w_sends w) as Hs1' by (unfold same, wal_obs in Hs1; congruence).
  apply wp_bind. eapply wp_mono; [by apply attempt_once_spec| |].
  2:{ intros e w' [Hs|Hs]; [apply Hnone | apply Hone]; congruence. }
  intros [att call'] w2 (Hs2 & Hreq & HL' & Hm). rewrite Hs1' in Hs2. simpl in *. rewrite HL in HL'.
  destruct (provider_generate _ _ _) as [[status msg]|resp].
  - destruct Hm as [-> Hlen]. simpl. destruct (is_permanent_rejection status).
    { apply wp_raise. by apply Hone. }
    assert (n = Z.of_nat (length (call_failed call'))) as Hn' by lia.
    assert (∀ w', w_sends w' = w_sends w2 → (k ≠ 0%nat → has_room policy usage n) →
      wp (attempt_loop gw policy usage k (n + 1) msg call') w' (λ _, post) (λ _, post)) as Hrec.
    { intros w' Hs' Hr. eapply wp_mono; [apply IH; [done|lia|lia|by replace (n + 1 - 1) with n by lia]| |];
        simpl; intros ? w'' (l & Hl & Hlim); exists (call_request call :: l);
        rewrite Hl, Hs', Hs2, <- app_assoc; (split; [done|]); right;
        (destruct Hlim as [->|Hlim]; [destruct (Hroom ltac:(done)); unfold within_limits; simpl; lia|]);
        replace (n - 1 + Z.of_nat (length (call_request call :: l)))
          with (n + 1 - 1 + Z.of_nat (length l)) by (simpl length; lia); done. }
    apply wp_bind, wp_when. destruct (Z.ltb_spec n (Z.of_nat (gw_max_attempts gw))).
    + eapply wp_mono; [apply require_retry_budget_room; [done|lia]| |].
      * intros ? w3 [Hs3 Hr]. by apply Hrec.
      * intros e w3 Hs3. apply Hone. congruence.
    + apply Hrec; [done|]. lia.
  - destruct Hm as (-> & -> & ->).
    eapply wp_mono; [apply (tracks_wp (same w_sends)), succeed_silent, HL| |];
      intros ? w3 Hs3; apply Hone; unfold same in Hs3; congruence.
Qed.

(** *** Rows the attempts add

    [f] counts rows of the session's view; the ledger's [begin_attempt] adds at most one and
    [finish_attempt] none. *)
Section counting.
Context (f : DB.t → Z).

(** The count grows by at most [d]. *)
Definition grows (d : Z) (w w' : World) : Prop := f (w_db w') ≤ f (w_db w) + d.

Context (begin_grows : ∀ tel, tracks (grows 1) (begin_attempt L tel)).
Context (finish_grows : ∀ i tel, tracks (same (λ w, f (w_db w))) (finish_attempt L i tel)).

Lemma finish_grows' call i tel :
  call_ledger call = Some L → tracks (same (λ w, f (w_db w))) (finish call i tel).
Proof.
  intros HL. unfold finish. rewrite HL. destruct i; [apply finish_grows | apply tracks_ret, _].
Qed.

Lemma after_send_grows call i t0 answer :
  call_ledger call = Some L → tracks (same (λ w, f (w_db w))) (after_send call i t0 answer).
Proof.
  intros HL. destruct answer as [[status msg]|response]; simpl; tracks_auto.
  by apply finish_grows'.
Qed.

Lemma attempt_once_grows call :
  call_ledger call = Some L → tracks (grows 1) (attempt_once call).
Proof.
  intros HL w. unfold attempt_once, write_ahead. rewrite HL.
  set (rest := λ i : option EntityId,
    t0 ← monotonic; answer ← send (call_request call); after_send call i t0 answer).
  assert (∀ i, tracks (same (λ w, f (w_db w))) (rest i)) as Hrest.
  { intros i. unfold rest. tracks_auto; [by intros w'|]. by apply after_send_grows. }
  unfold exec, mbind, ST_bind, lift. destruct (estimate_worst_case_attempt _ _ _ _ _) as [wc|];
    [|unfold grows; simpl; lia].
  match goal with |- context [begin_attempt L ?t w] => pose proof (begin_grows t w) as Hb end.
  unfold exec in Hb. destruct (begin_attempt L _ w) as [[i|] w']; [|done].
  specialize (Hrest (Some i) w'). unfold same, exec in Hrest. unfold grows in *.
  simpl in *. rewrite <- Hrest. done.
Qed.

Lemma attempt_loop_grows gw policy usage k n err call w :
  call_ledger call = Some L →
  n = Z.of_nat (length (call_failed call)) + 1 →
  Z.of_nat (gw_max_attempts gw) = (n - 1) + Z.of_nat k →
  (k ≠ 0%nat → has_room policy usage (n - 1)) →
  let post w' := f (w_db w') ≤ f (w_db w) ∨
    calls_made usage + (n - 1) + (f (w_db w') - f (w_db w)) ≤ max_model_calls policy in
  wp (attempt_loop gw policy usage k n err call) w (λ _, post) (λ _, post).
Proof.
  revert n err call w. induction k as [|k IH]; intros n err call w HL Hn Hk Hroom post.
  { simpl. apply wp_raise. left. lia. }
  assert (∀ w', f (w_db w') ≤ f (w_db w) + 1 → post w') as Hone.
  { intros w' Hs. right. destruct (Hroom ltac:(done)) as [??]. lia. }
  simpl. apply wp_bind. eapply wp_mono;
    [apply (tracks_wp (same w_db)); unfold check_circuit; tracks_auto| |].
  2:{ intros e w' Hs. left. unfold same in Hs. rewrite Hs. lia. }
  intros ? w1 Hs1. unfold same in Hs1. apply wp_bind. rewrite Hs1 in Hone.
  eapply wp_mono; [apply wp_conj; [by apply attempt_once_spec
                                  | by apply (tracks_wp (grows 1)), attempt_once_grows]| |].
  2:{ intros e w' [_ Hg]. by apply Hone. }
  intros [att call'] w2 [(_ & Hreq & HL' & Hm) Hg]. simpl in *. rewrite HL in HL'.
  destruct (provider_generate _ _ _) as [[status msg]|resp].
  - destruct Hm as [-> Hlen]. simpl. destruct (is_permanent_rejection status).
    { apply wp_raise. by apply Hone. }
    assert (∀ w', w_db w' = w_db w2 → (k ≠ 0%nat → has_room policy usage n) →
      wp (attempt_loop gw policy usage k (n + 1) msg call') w' (λ _, post) (λ _, post)) as Hrec.
    { intros w' Hs' Hr. assert (post w2) as Hp by (by apply Hone).
      destruct (Hroom ltac:(done)) as [Hr1 _].
      eapply wp_mono; [apply IH; [done|lia|lia|by replace (n + 1 - 1) with n by lia]| |];
        simpl; intros ? w''; rewrite Hs'; unfold post, grows in *; rewrite Hs1; lia. }
    apply wp_bind, wp_when. destruct (Z.ltb_spec n (Z.of_nat (gw_max_attempts gw))).
    + assert (tracks (same w_db) (require_retry_budget call' policy usage n)) as Hsil
        by (unfold require_retry_budget; tracks_auto).
      eapply wp_mono; [apply wp_conj; [apply (tracks_wp _ _ _ Hsil)
                                      | apply require_retry_budget_room; lia]| |].
      * intros ? w3 [Hs3 [_ Hr]]. by apply Hrec.
      * intros e w3 [Hs3 _]. apply Hone. unfold same in Hs3. by rewrite <- Hs3.
    + apply Hrec; [done|]. lia.
  - destruct Hm as (-> & -> & ->).
    eapply wp_mono; [apply (tracks_wp (same (λ w, f (w_db w)))); unfold succeed; tracks_auto;
                     by apply finish_grows'| |];
      intros ? w3 Hs3; apply Hone; unfold same in Hs3; by rewrite <- Hs3.
Qed.
End counting.

(** *** What a returned outcome says *)

(** [out] reports the provider's answer to the last request of [w], priced, after
    [go_attempts] attempts of which all but the last failed. *)
Definition outcome_of (req : ModelRequest) (w : World) (out : GenerateOutcome) : Prop :=
  (∃ l, w_sends w = l ++ [req] ∧
        provider_generate (req_provider req) (length l) req = inr (go_response out)) ∧
  estimate_cost_usd (req_provider req) (req_model req) (resp_input_tokens (go_response out))
    (resp_output_tokens (go_response out)) = Ret (tel_estimated_cost (go_telemetry out)) ∧
  tel_status (go_telemetry out) = ModelInvocationStatus.completed ∧
  go_attempts out = Z.of_nat (length (go_failed_attempts out)) + 1.

Lemma succeed_outcome call i r n w l :
  call_ledger call = Some L →
  n = Z.of_nat (length (call_failed call)) + 1 →
  w_sends w = l ++ [call_request call] →
  provider_generate (req_provider (call_request call)) (length l) (call_request call) = inr r →
  wp (succeed call i r n) w (λ out w', outcome_of (call_request call) w' out) (λ _ _, True).
Proof.
  intros HL Hn Hs Hp. unfold succeed. apply wp_bind. unfold wp at 1, lift.
  destruct (estimate_cost_usd _ _ _ _) as [cost|] eqn:Hc; [|done].
  apply wp_bind. eapply wp_mono; [apply (tracks_wp (same w_sends)), (finish_silent' call), HL| |done].
  intros ? w' Hs'. apply wp_ret. unfold same in Hs'. unfold outcome_of; simpl.
  rewrite <- Hs'. eauto 10.
Qed.

Lemma attempt_loop_outcome gw policy usage k n err call w :
  call_ledger call = Some L →
  n = Z.of_nat (length (call_failed call)) + 1 →
  wp (attempt_loop gw policy usage k n err call) w
    (λ out w', outcome_of (call_request call) w' out) (λ _ _, True).
Proof.
  revert n err call w. induction k as [|k IH]; intros n err call w HL Hn; simpl; [done|].
  apply wp_bind. eapply wp_mono; [apply (tracks_wp (same wal_obs)), check_circuit_obs| |done].
  intros ? w1 Hs1. apply wp_bind. eapply wp_mono; [by apply attempt_once_spec| |done].
  intros [att call'] w2 (Hs2 & Hreq & HL' & Hm). simpl in *. rewrite HL in HL'.
  destruct (provider_generate _ _ _) as [[status msg]|resp] eqn:Hp.
  - destruct Hm as [-> Hlen]. destruct (is_permanent_rejection status); [done|].
    apply wp_bind, wp_when.
    assert (∀ w', wp (attempt_loop gw policy usage k (n + 1) msg call') w'
              (λ out w'', outcome_of (call_request call) w'' out) (λ _ _, True)) as Hrec.
    { intros w'. rewrite <- Hreq. apply IH; [done|lia]. }
    destruct (n <? _); [|apply Hrec].
    eapply wp_mono; [apply (tracks_wp (same wal_obs)), require_retry_budget_silent| |done]. auto.
  - destruct Hm as (-> & -> & ->). by eapply succeed_outcome.
Qed.

(** *** [generate] *)

Lemma admit_spec gw request policy usage is_retry ledger w :
  wp (admit_call gw request policy usage is_retry ledger) w
    (λ call w', same wal_obs w w' ∧ call_request call = request ∧ call_ledger call = ledger ∧
       call_failed call = [] ∧ has_room policy usage 0)
    (λ _ w', same wal_obs w w').
Proof.
  unfold admit_call. case_decide; [done|]. apply wp_bind. unfold wp at 1, lift.
  destruct (estimate_worst_case_attempt _ _ _ _ _) as [wc|]; [|done].
  destruct (allowed _) eqn:Ha; [|done]. simpl.
  apply evaluate_budget_allowed in Ha as [Hc _ _ _ _ _].
  apply wp_bind. unfold wp at 1. simpl. apply wp_ret.
  split_and!; try done. split; [simpl in *; lia|lia].
Qed.

Lemma generate_wal gw request policy usage is_retry :
  tracks (pres wal) (generate gw request policy usage is_retry (Some L)).
Proof.
  apply pres_wp. intros w Hw. unfold generate. apply wp_bind.
  eapply wp_mono; [apply admit_spec| |].
  - intros call w' (Hs & _ & HL & _). apply (wal_obs_eq _ _ Hs) in Hw.
    by apply pres_wp, Hw; apply attempt_loop_wal.
  - intros e w' Hs. by apply (wal_obs_eq _ _ Hs).
Qed.

Lemma generate_sends gw request policy usage is_retry w :
  let post w' := ∃ l, w_sends w' = w_sends w ++ l ∧
    (l = [] ∨ within_limits gw policy usage (Z.of_nat (length l))) in
  wp (generate gw request policy usage is_retry (Some L)) w (λ _, post) (λ _, post).
Proof.
  intros post. unfold generate. apply wp_bind.
  eapply wp_mono; [apply admit_spec| |].
  - intros call w' (Hs & _ & HL & Hf & Hroom).
    assert (w_sends w' = w_sends w) as Hs' by (unfold same, wal_obs in Hs; congruence).
    eapply wp_mono; [apply (attempt_loop_sends gw policy usage); rewrite ?Hf; simpl; [done|lia|lia|done]| |];
      simpl; intros ? w'' (l & Hl & Hlim); exists l; rewrite <- Hs'; done.
  - intros e w' Hs. exists []. rewrite app_nil_r. unfold same, wal_obs in Hs.
    split; [congruence|by left].
Qed.

Lemma generate_grows (f : DB.t → Z) gw request policy usage is_retry w :
  (∀ tel, tracks (grows f 1) (begin_attempt L tel)) →
  (∀ i tel, tracks (same (λ w, f (w_db w))) (finish_attempt L i tel)) →
  let post w' := f (w_db w') ≤ f (w_db w) ∨
    calls_made usage + (f (w_db w') - f (w_db w)) ≤ max_model_calls policy in
  wp (generate gw request policy usage is_retry (Some L)) w (λ _, post) (λ _, post).
Proof.
  intros Hb Hf post. unfold generate. apply wp_bind.
  eapply wp_mono; [apply wp_conj; [apply admit_spec
    | apply (tracks_wp (same w_db)); unfold admit_call; tracks_auto]| |].
  - intros call w' [(_ & _ & HL & Hfl & Hroom) Hs]. unfold same in Hs.
    eapply wp_mono; [apply (attempt_loop_grows f Hb Hf); rewrite ?Hfl; simpl; [done|lia|lia|done]| |];
      simpl; intros ? w''; rewrite <- Hs; unfold post; lia.
  - intros e w' [_ Hs]. left. unfold same in Hs. rewrite Hs. lia.
Qed.

Lemma generate_outcome gw request policy usage is_retry w :
  wp (generate gw request policy usage is_retry (Some L)) w
    (λ out w', outcome_of request w' out) (λ _ _, True).
Proof.
  unfold generate. apply wp_bind. eapply wp_mono; [apply admit_spec| |done].
  intros call w' (_ & <- & HL & Hf & _). apply attempt_loop_outcome; [done|]. by rewrite Hf.
Qed.
(** Any relation that the ledger and the gateway's own effects respect is respected by
    [generate]. *)
Lemma generate_tracks (R : relation World) `{!PreOrder R} gw request policy usage is_retry :
  tracks R monotonic → (∀ r, tracks R (send r)) → (∀ f, tracks R (modify (λ w, set_breaker (f w) w) : M unit)) →
  (∀ tel, tracks R (begin_attempt L tel)) → (∀ i tel, tracks R (finish_attempt L i tel)) →
  tracks R (generate gw request policy usage is_retry (Some L)).
Proof.
  intros Hmono Hsend Hbr Hb Hf.
  assert (∀ call i tel, call_ledger call = Some L → tracks R (finish call i tel)) as Hfin.
  { intros call i tel HL. unfold finish. rewrite HL. destruct i; [apply Hf | apply tracks_ret, _]. }
  assert (∀ call, call_ledger call = Some L → tracks R (attempt_once call)) as Honce.
  { intros call HL. unfold attempt_once, write_ahead. rewrite HL. tracks_auto.
    unfold after_send. tracks_auto; by (try apply Hbr; try apply Hfin). }
  assert (∀ k n err call, call_ledger call = Some L →
    tracks R (attempt_loop gw policy usage k n err call)) as Hloop.
  { induction k as [|k IH]; intros n err call HL; simpl; [tracks_auto|].
    apply tracks_bind; [apply _| |intros _].
    { unfold check_circuit. tracks_auto; by apply (Hbr (λ _, _)). }
    apply (tracks_bind_post R _ _ (λ r, call_ledger r.2 = Some L)); [by apply Honce| |].
    { intros w. eapply wp_mono; [by apply attempt_once_spec| |done].
      intros r w' (_ & _ & HL' & _). congruence. }
    intros [att call'] HL'. simpl in HL'.
    destruct (att_error att) as [[]|], (att_response att); tracks_auto;
      try (unfold require_retry_budget; by tracks_auto); try by apply IH.
    unfold succeed. tracks_auto. }
  unfold generate. apply (tracks_bind_post R _ _ (λ c, call_ledger c = Some L)).
  - unfold admit_call. tracks_auto.
  - intros w. eapply wp_mono; [apply admit_spec| |done]. by intros c w' (_ & _ & ? & _).
  - intros call HL. by apply Hloop.
Qed.

(** [generate] raises a budget or a gateway error, or what its ledger raises. *)
Lemma generate_raises (X : exn → Prop) gw request policy usage is_retry :
  (∀ e, is_expected_error e = true → X e) →
  (∀ tel, raises X (begin_attempt L tel)) → (∀ i tel, raises X (finish_attempt L i tel)) →
  raises X (generate gw request policy usage is_retry (Some L)).
Proof.
  intros HX Hb Hf.
  assert (∀ call i tel, call_ledger call = Some L → raises X (finish call i tel)) as Hfin.
  { intros call i tel HL. unfold finish. rewrite HL. destruct i; [apply Hf | apply raises_ret]. }
  assert (∀ p m e, e = UnpricedModelError p m → X e) as Hup by (intros ? ? ? ->; by apply HX).
  assert (∀ call, call_ledger call = Some L → raises X (attempt_once call)) as Honce.
  { intros call HL. unfold attempt_once, write_ahead. rewrite HL. raises_auto.
    - apply lift_raises. eauto using estimate_worst_case_raises.
    - by intros w e.
    - unfold after_send, failed_attempt_telemetry. raises_auto; try by apply Hfin.
      apply lift_raises. unfold estimate_failed_attempt. intros e.
      destruct (is_provably_unbilled _); [done|]. eauto using estimate_worst_case_raises. }
  assert (∀ k n err call, call_ledger call = Some L →
    raises X (attempt_loop gw policy usage k n err call)) as Hloop.
  { induction k as [|k IH]; intros n err call HL; simpl; [raises_auto; by apply HX|].
    apply raises_bind; [|intros _].
    { unfold check_circuit. raises_auto; apply HX; try done;
        match goal with H : before_call _ _ _ = _ |- _ => by apply before_call_raises in H end. }
    apply (raises_bind_post X _ _ (λ r, call_ledger r.2 = Some L ∧
             (att_error r.1 = None → is_Some (att_response r.1)))); [by apply Honce| |].
    { intros w. eapply wp_mono; [by apply attempt_once_spec| |done].
      intros r w' (_ & _ & HL' & Hm). split; [congruence|].
      destruct (provider_generate _ _ _); destruct Hm as [He Hr]; [congruence|].
      destruct Hr as [-> _]. eauto. }
    intros [att call'] [HL' Hatt]. simpl in HL', Hatt.
    destruct (att_error att) as [[]|], (att_response att); raises_auto;
      try (by apply HX); try (unfold require_retry_budget; raises_auto; by apply HX);
      try (by apply IH).
    - unfold succeed. raises_auto; try by apply Hfin.
      apply lift_raises. eauto using estimate_cost_usd_raises.
    - by destruct (Hatt eq_refl). }
  unfold generate. apply (raises_bind_post X _ _ (λ c, call_ledger c = Some L)).
  - unfold admit_call. raises_auto; try by apply HX.
    apply lift_raises. eauto using estimate_worst_case_raises.
  - intros w. eapply wp_mono; [apply admit_spec| |done]. by intros c w' (_ & _ & ? & _).
  - intros call HL. by apply Hloop.
Qed.
End with_ledger.
End gateway_lemmas.
