(* ===== verification/Wiring.v ===== *)
(** * Composition roots and the request middleware
    (services/worker/deps.py, the lifespan of services/api/app/main.py,
    services/api/middleware/request_context.py)

    The two processes build their clients from the same settings; the middleware wraps every
    request of the API. *)

From S2P Require Import Prelude Enums Contracts Breaker Telemetry Database Gateway Config.
Local Open Scope Z_scope.

(** ** Clients *)

Record ObjectStoreConfig := mkObjectStoreConfig {
  os_endpoint_url : string;
  os_access_key : string;
  os_secret_key : string;
  os_bucket : string;
  os_region : string;
  os_signed_url_ttl_seconds : Z;
}.

(** A Redis client: its URL, and whether a read waits as long as the server blocks
    ([socket_timeout=None] passed explicitly). *)
Record RedisClient := mkRedisClient { rc_url : string; rc_waits_for_server : bool }.

(** [EventPublisher(redis_client, stream_name=..)] *)
Record EventPublisher := mkEventPublisher { ep_redis : RedisClient; ep_stream_name : string }.

(** [EngineDeps] *)
Record EngineDeps := mkEngineDeps {
  ed_model_gateway : ModelGateway;
  ed_object_store : ObjectStoreConfig;
  ed_event_publisher : EventPublisher;
}.

(** [build_object_store(settings)] *)
Definition build_object_store (s : Settings) : ObjectStoreConfig :=
  mkObjectStoreConfig (object_store_endpoint_url s) (object_store_access_key s) (object_store_secret_key s)
    (object_store_bucket s) (object_store_region s) (object_store_signed_url_ttl_seconds s).

(** [build_redis_client(settings)] *)
Definition build_redis_client (s : Settings) : RedisClient := mkRedisClient (redis_url s) true.

(** [build_engine_deps(settings)] *)
Definition build_engine_deps (s : Settings) : EngineDeps :=
  mkEngineDeps (build_model_gateway s) (build_object_store s)
    (mkEventPublisher (build_redis_client s) (redis_stream_name s)).

(** [app.state] *)
Record AppState := mkAppState {
  as_redis_client : RedisClient;
  as_event_publisher : EventPublisher;
  as_object_store : ObjectStoreConfig;
}.

(** [lifespan(app)] up to its [yield]. *)
Definition lifespan (s : Settings) : outcome exn AppState :=
  match require_safe_for_production s with
  | Raise e => Raise e
  | Ret _ =>
      let redis_client := mkRedisClient (redis_url s) false in
      Ret (mkAppState redis_client (mkEventPublisher redis_client (redis_stream_name s))
             (mkObjectStoreConfig (object_store_endpoint_url s) (object_store_access_key s)
                (object_store_secret_key s) (object_store_bucket s) (object_store_region s)
                (object_store_signed_url_ttl_seconds s)))
  end.

(** An API that has started and a worker with the same settings publish to one stream of one
    server and keep artifacts in one bucket; in production neither uses a default secret. *)
Lemma api_and_worker_agree s st :
  lifespan s = Ret st →
  let deps := build_engine_deps s in
  ep_stream_name (as_event_publisher st) = ep_stream_name (ed_event_publisher deps) ∧
  rc_url (ep_redis (as_event_publisher st)) = rc_url (ep_redis (ed_event_publisher deps)) ∧
  as_object_store st = ed_object_store deps ∧
  (is_production s = true → secret_key s ≠ DEFAULT_SECRET_KEY ∧ os_secret_key (as_object_store st) ≠ DEFAULT_OBJECT_STORE_SECRET_KEY).
Proof.
  unfold lifespan. destruct (require_safe_for_production s) as [[]|] eqn:Hs; [|done]. intros [= <-]. split_and!; [done..|].
  intros Hp. destruct (safe_for_production s Hs Hp) as (_ & H1 & _ & H2). done.
Qed.

(** ** RequestContextMiddleware *)

Abbreviation headers := (gmap string string).

(** A request with its method, the path of the route it matched (the path of its URL if it
    matched none) and its headers. *)
Record Request := mkRequest { rq_method : string; rq_path : string; rq_headers : headers }.
Record Response := mkResponse { rs_status : Z; rs_headers : headers }.

(** [http_requests_total] by its labels, and the context variables of the log. *)
Record Observed := mkObserved {
  requests_total : gmap (string * string * string) nat;
  log_context : gmap string string;
}.

(** [dispatch(request, call_next)]: [request_id] is the UUID it draws, [answer] what
    [call_next] returns or raises. Starlette turns an [HTTPException] into a response before
    this point; what reaches it as an exception is an unhandled one. *)
Definition dispatch (request_id : string) (r : Request) (answer : outcome exn Response) (t : Observed) :
    outcome exn Response * Observed :=
  let correlation_id := default request_id (rq_headers r !! "x-correlation-id") in
  let context := <["request_id" := request_id]> (<["correlation_id" := correlation_id]> ∅) in
  match answer with
  | Raise e => (Raise e, mkObserved (requests_total t) context)
  | Ret response =>
      let labels := (rq_method r, rq_path r, pretty (rs_status response)) in
      (Ret (mkResponse (rs_status response)
              (<["X-Correlation-Id" := correlation_id]> (<["X-Request-Id" := request_id]> (rs_headers response)))),
       mkObserved (<[labels := S (default 0%nat (requests_total t !! labels))]> (requests_total t)) context)
  end.

(** Every response carries the ids that its log lines carried, the caller's own correlation id
    if they sent one, and is counted once under its own labels. *)
Lemma dispatch_labels_response request_id r response t :
  ∃ response' t', dispatch request_id r (Ret response) t = (Ret response', t') ∧
    rs_status response' = rs_status response ∧
    rs_headers response' !! "X-Request-Id" = Some request_id ∧
    rs_headers response' !! "X-Correlation-Id" = Some (default request_id (rq_headers r !! "x-correlation-id")) ∧
    log_context t' !! "correlation_id" = rs_headers response' !! "X-Correlation-Id" ∧
    let labels := (rq_method r, rq_path r, pretty (rs_status response)) in
    (default 0 (requests_total t' !! labels) = S (default 0 (requests_total t !! labels)))%nat ∧
    ∀ l, l ≠ labels → requests_total t' !! l = requests_total t !! l.
Proof.
  do 2 eexists. split; [done|]. simpl. split_and!; [done|by rewrite lookup_insert_ne, lookup_insert_eq|by rewrite lookup_insert_eq| | |].
  - by rewrite lookup_insert_eq, lookup_insert_ne, lookup_insert_eq.
  - by rewrite lookup_insert_eq.
  - intros l Hl. by rewrite lookup_insert_ne.
Qed.

(** A request that ends in an unhandled exception is neither counted nor given its ids. *)
Lemma dispatch_drops_errors request_id r e t :
  (dispatch request_id r (Raise e) t).1 = Raise e ∧
  requests_total (dispatch request_id r (Raise e) t).2 = requests_total t.
Proof. done. Qed.
