(* ===== verification/Auth.v ===== *)
(** * Passwords, access tokens and the login route
    (services/api/dependencies/auth.py and services/api/routes/auth.py)

    bcrypt and PyJWT are outside the repository: [checkpw], [hashpw], [jwt_encode] and
    [jwt_decode] are parameters, and what the theorems need of them is a hypothesis there. *)

From Stdlib Require Import Ascii.
From S2P Require Import Prelude Enums Contracts Telemetry Breaker Database Scenario Api Gateway Config.
Local Open Scope Z_scope.

(** The claims of a token; times are microseconds, as everywhere. A token of another issuer
    may lack [sub]. *)
Record Payload := mkPayload {
  pl_sub : option string;
  pl_tenant_id : string;
  pl_role : string;
  pl_iat : Z;
  pl_exp : Z;
}.

Record TokenResponse := mkTokenResponse { access_token : string; token_type : string }.

Record CurrentUserResponse := mkCurrentUser {
  cu_id : EntityId;
  cu_tenant_id : EntityId;
  cu_email : string;
  cu_display_name : string;
  cu_role : string;
}.

Definition invalid_credentials : exn := HTTPException 401 "Invalid email or password.".

Definition with_email (email : string) (u : User.t) : bool := bool_decide (User.email u = email).

Section auth.
Context `{Env}.
(** [bcrypt.hashpw(password, salt)] and [bcrypt.checkpw(password, hash)], which raises on a
    malformed hash or an overlong password. *)
Context (hashpw : string → string → string) (checkpw : string → string → outcome exn bool).
(** [jwt.encode(payload, key, algorithm)]; [jwt.decode(token, key, algorithms=[..])] at a
    time, [None] when it raises a [PyJWTError]. *)
Context (jwt_encode : Payload → string → string → string)
  (jwt_decode : Z → string → string → string → option Payload).
(** [str(id)], and [parse_id], [None] when it raises [ValueError]. *)
Context (str_id : EntityId → string) (parse_id : string → option EntityId).

(** [hash_password(plain_password)] with the salt it draws. *)
Definition hash_password (salt plain_password : string) : string := hashpw plain_password salt.

(** [verify_password(plain_password, password_hash)] *)
Definition verify_password (plain_password password_hash : string) : outcome exn bool :=
  checkpw plain_password password_hash.

(** [DUMMY_PASSWORD_HASH], with the salt drawn when the module is imported. *)
Definition DUMMY_PASSWORD_HASH (import_salt : string) : string :=
  hash_password import_salt "no-such-user-timing-safety-placeholder".

(** [create_access_token(user_id=.., tenant_id=.., role=.., settings=..)] *)
Definition create_access_token (user_id tenant_id : EntityId) (role : UserRole.t) (settings : Settings) :
    M string :=
  now ← utc;
  let payload := mkPayload (Some (str_id user_id)) (str_id tenant_id) (value role) now
                   (now + jwt_expire_minutes settings * 60000000) in
  mret (jwt_encode payload (secret_key settings) (jwt_algorithm settings)).

(** The decoding part of [get_current_user]: the subject the token verifies to. *)
Definition token_subject (settings : Settings) (token : string) : M (option EntityId) :=
  now ← utc;
  mret (payload ← jwt_decode now token (secret_key settings) (jwt_algorithm settings);
        sub ← pl_sub payload;
        parse_id sub).

(** [get_current_user(token, session, settings)] *)
Definition authenticate (settings : Settings) (token : string) : M User.t :=
  sub ← token_subject settings token;
  get_current_user sub.

(** [login(form_data, session, settings)] *)
Definition login (import_salt : string) (settings : Settings) (username password : string) : M TokenResponse :=
  rows ← asks_db (λ d, select (with_email username) (DB.users d));
  user ← scalar_one_or_none rows;
  let password_hash :=
    match user with Some u => User.password_hash u | None => DUMMY_PASSWORD_HASH import_salt end in
  password_ok ← lift (verify_password password password_hash);
  match user with
  | None => raise invalid_credentials
  | Some u =>
      if bool_decide (User.status u ≠ UserStatus.active) || negb password_ok then raise invalid_credentials
      else
        token ← create_access_token (User.id u) (User.tenant_id u) (User.role u) settings;
        mret (mkTokenResponse token "bearer")
  end.

(** [me(user)] *)
Definition me (settings : Settings) (token : string) : M CurrentUserResponse :=
  u ← authenticate settings token;
  mret (mkCurrentUser (User.id u) (User.tenant_id u) (User.email u) (User.display_name u) (value (User.role u))).

(** ** Lemmas *)

Lemma authenticate_spec settings token u w :
  (∃ payload, jwt_decode (utc_now (w_utc_ticks w)) token (secret_key settings) (jwt_algorithm settings) = Some payload ∧
     (pl_sub payload ≫= parse_id) = Some (User.id u)) →
  wp (authenticate settings token) w
    (λ u' _, DB.users (w_db w) !! User.id u = Some u' ∧ User.status u' = UserStatus.active)
    (λ e _, e = HTTP_401 ∧ ∀ u', DB.users (w_db w) !! User.id u = Some u' → User.status u' ≠ UserStatus.active).
Proof.
  intros (payload & Hd & Hs). destruct (pl_sub payload) as [sub|] eqn:Hps; [|done]. unfold authenticate, token_subject. apply wp_bind, wp_bind. unfold wp at 1; cbn [utc].
  apply wp_ret. rewrite Hd. simpl. rewrite Hps. simpl in Hs |- *. rewrite Hs. unfold get_current_user. apply wp_bind, wp_asks. cbn [w_db set_utc_ticks].
  destruct (DB.users (w_db w) !! User.id u) as [u'|] eqn:Hu; [|by apply wp_raise; split].
  case_decide as Ha; [apply wp_raise; split; [done|]; by intros ? [= <-]|].
  apply wp_ret. split; [done|]. done.
Qed.

Lemma select_two {V} P (m : gmap EntityId V) k1 k2 v1 v2 :
  m !! k1 = Some v1 → m !! k2 = Some v2 → k1 ≠ k2 → P v1 = true → P v2 = true →
  ∃ a b l, select P m = a :: b :: l.
Proof.
  intros H1 H2 Hne P1 P2. pose proof (select_lookup P m k1 v1 H1) as Hp. rewrite P1 in Hp.
  rewrite (select_lookup P (delete k1 m) k2 v2), P2 in Hp by (by rewrite lookup_delete_ne).
  apply Permutation_length in Hp. simpl in Hp. destruct (select P m) as [|a [|b l]]; [done..|]. by eexists _, _, _.
Qed.

(** PyJWT: a token it signed verifies with the same key from the second of its issue until
    the whole second of its expiry, to the claims it was given. *)
Definition jwt_verifies (settings : Settings) : Prop := ∀ c now,
  pl_iat c ≤ now → now < pl_exp c / 1000000 * 1000000 →
  ∃ c', jwt_decode now (jwt_encode c (secret_key settings) (jwt_algorithm settings))
          (secret_key settings) (jwt_algorithm settings) = Some c' ∧ pl_sub c' = pl_sub c.


(** An email address that two tenants share cannot be used to log in. Emails are unique
    per tenant only, and [login] looks the user up by email alone: with two rows it raises
    [MultipleResultsFound] (an internal server error, not a 401) for both users and every
    password. *)
Theorem shared_email_cannot_log_in import_salt settings k1 k2 u1 u2 password w :
  DB.users (w_db w) !! k1 = Some u1 → DB.users (w_db w) !! k2 = Some u2 → k1 ≠ k2 →
  User.email u1 = User.email u2 →
  login import_salt settings (User.email u1) password w = (Raise MultipleResultsFound, w).
Proof.
  intros H1 H2 Hne He. unfold login, mbind, ST_bind, asks_db, asks.
  destruct (select_two (with_email (User.email u1)) _ _ _ _ _ H1 H2 Hne) as (a & b & l & Hs);
    [by apply bool_decide_eq_true..|]. by rewrite Hs.
Qed.
End auth.

(** ** Witnesses: a signature scheme that signs nothing, and ids written in unary *)

Definition toy_encode (c : Payload) (_ _ : string) : string :=
  match pl_sub c with Some s => "." +:+ s | None => "" end.
Definition toy_decode (_ : Z) (token _ _ : string) : option Payload :=
  Some (mkPayload (match token with String _ s => Some s | EmptyString => None end) "" "" 0 0).
Definition toy_checkpw (password hash : string) : outcome exn bool :=
  Ret (bool_decide (password = "pw") && bool_decide (hash = "hash")).
Definition toy_str_id (i : EntityId) : string := Nat.iter (Pos.to_nat i) (String "1"%char) "".
Definition toy_parse_id (s : string) : option EntityId := Some (Pos.of_nat (String.length s)).

Lemma toy_ids i : toy_parse_id (toy_str_id i) = Some i.
Proof.
  unfold toy_parse_id, toy_str_id. rewrite <- (Pos2Nat.id i) at 2. do 2 f_equal.
  generalize (Pos.to_nat i). intros n. induction n as [|n IH]; [done|]. simpl. by rewrite IH.
Qed.


Example sample_login :
  result (login (λ p _, p) toy_checkpw toy_encode toy_str_id "salt" Settings_default "op@acme.test" "pw") sample_world =
    Ret (mkTokenResponse ".11" "bearer") ∧
  result (me toy_decode toy_parse_id Settings_default ".11") sample_world =
    Ret (mkCurrentUser 2 1 "op@acme.test" "Op" "operator").
Proof. vm_compute. done. Qed.

(** The operator of the sample installation, and a namesake in another tenant. *)
Definition namesakes : World :=
  world_of (DB.upd_users (<[60%positive := User.mk 60 9 "op@acme.test" "Op" UserRole.viewer UserStatus.active "hash"]>)
              (DB.upd_tenants (<[9%positive := Tenant.mk 9 "globex" "Globex" TenantStatus.active]>) sample_db)).

Lemma shared_email_cannot_log_in_witness :
  login (λ p _, p) toy_checkpw toy_encode toy_str_id "salt" Settings_default "op@acme.test" "pw" namesakes =
  (Raise MultipleResultsFound, namesakes).
Proof.
  apply (shared_email_cannot_log_in (λ p _, p) toy_checkpw toy_encode toy_str_id "salt" Settings_default 2 60
    (User.mk 2 1 "op@acme.test" "Op" UserRole.operator UserStatus.active "hash")
    (User.mk 60 9 "op@acme.test" "Op" UserRole.viewer UserStatus.active "hash") "pw" namesakes); done.
Defined.
