(* ===== verification/Ledger.v ===== *)
(** * The usage reader and write-ahead ledger of a task
    (services/mission-engine/mission_engine/engine/usage.py)

    [SqlUsageProvider] reads what a task has consumed from [model_invocations] and is the
    [AttemptLedger] the gateway charges attempts on. It is a [LawfulLedger], so the gateway's
    theorems hold of it. *)

From Stdlib Require Import Floats.
From S2P Require Import Prelude Enums Contracts Budgets Telemetry Breaker Database Scenario Gateway.
Local Open Scope Z_scope.

(** ** Operations *)

(** [SqlUsageProvider]: the attributes its constructor sets. *)
Record SqlUsageProvider := mkUsageProvider {
  up_tenant_id : EntityId;
  up_mission_id : EntityId;
  up_task_id : EntityId;
  up_agent_id : EntityId;
  up_attempt_started_at : Z;
}.

(** [_row_values(telemetry)] on a row whose keys are given; the cost passes through the
    column's [Numeric(10, 6)]. *)
Definition row_values (id tenant_id mission_id task_id agent_id : EntityId)
    (created_at : Z) (telemetry : ModelInvocationTelemetry) : ModelInvocation.t :=
  ModelInvocation.mk id tenant_id mission_id task_id agent_id
    (tel_provider telemetry) (tel_model telemetry) (tel_input_tokens telemetry)
    (tel_output_tokens telemetry) (numeric_10_6 (tel_estimated_cost telemetry))
    (tel_latency_ms telemetry) (tel_status telemetry) (tel_request_hash telemetry)
    (tel_response_hash telemetry) created_at.

(** [ModelInvocation.task_id == task_id] *)
Definition of_task (task_id : EntityId) (r : ModelInvocation.t) : bool :=
  bool_decide (ModelInvocation.task_id r = task_id).

(** [ModelInvocation.status != completed], of the same task *)
Definition unfinished_or_failed (task_id : EntityId) (r : ModelInvocation.t) : bool :=
  of_task task_id r &&
  bool_decide (ModelInvocation.status r ≠ ModelInvocationStatus.completed).

(** What the task's rows add up to: the count, the sum of [estimated_cost] and the count of
    the rows that are not completed. *)
Definition task_rows (task_id : EntityId) (w : World) : nat :=
  count_rows (of_task task_id) (DB.model_invocations (w_db w)).
Definition task_cost (task_id : EntityId) (w : World) : Z :=
  sumZ (ModelInvocation.estimated_cost <$> select (of_task task_id) (DB.model_invocations (w_db w))).
Definition task_retries (task_id : EntityId) (w : World) : nat :=
  count_rows (unfinished_or_failed task_id) (DB.model_invocations (w_db w)).

Section ledger.
Context `{Env}.

(** [usage_for_task(task_id)] *)
Definition usage_for_task (p : SqlUsageProvider) (task_id : EntityId) : M BudgetUsage :=
  calls ← asks (task_rows task_id);
  cost ← asks (task_cost task_id);
  retries ← asks (task_retries task_id);
  now ← utc;
  mret (mkBudgetUsage (Z.of_nat calls) (Py.float_of_usd cost)
          (Py.div (Py.total_seconds (now - up_attempt_started_at p)) (Py.of_int 60))
          (Z.of_nat retries)).

(** [begin_attempt(worst_case)]: insert and commit. *)
Definition sql_begin_attempt (p : SqlUsageProvider) (worst_case : ModelInvocationTelemetry) :
    M EntityId :=
  attempt_id ← new_id;
  created_at ← utc;
  _ ← insert_invocation (row_values attempt_id (up_tenant_id p) (up_mission_id p) (up_task_id p)
                           (up_agent_id p) created_at worst_case);
  _ ← commit;
  mret attempt_id.

(** [finish_attempt(attempt_id, outcome)]: [UPDATE ... WHERE id = attempt_id] and commit; a
    cost the column cannot hold is refused by the database. *)
Definition sql_finish_attempt (p : SqlUsageProvider) (attempt_id : EntityId)
    (outcome : ModelInvocationTelemetry) : M unit :=
  _ ← integrity (numeric_10_6_fits (tel_estimated_cost outcome)) "numeric field overflow";
  _ ← modify_db (DB.upd_model_invocations (alter (λ r,
        row_values (ModelInvocation.id r) (ModelInvocation.tenant_id r)
          (ModelInvocation.mission_id r) (ModelInvocation.task_id r) (ModelInvocation.agent_id r)
          (ModelInvocation.created_at r) outcome) attempt_id));
  commit.

(** The provider as the gateway's ledger. *)
Definition sql_ledger (p : SqlUsageProvider) : AttemptLedger :=
  mkLedger (sql_begin_attempt p) (sql_finish_attempt p).

(** The call pattern of [DurableAgentRuntime._call_model_and_checkpoint]: read the task's
    usage, then generate on the same provider. *)
Definition generate_for_task (gw : ModelGateway) (p : SqlUsageProvider) (request : ModelRequest)
    (policy : BudgetPolicy) : M GenerateOutcome :=
  usage ← usage_for_task p (up_task_id p);
  generate gw request policy usage false (Some (sql_ledger p)).
End ledger.

(** ** The ledger is lawful *)

(** A computation whose only effect on what the write-ahead invariant sees is to insert
    charges in the session's view. *)
Lemma wal_set_next_id w : wal w → wal (set_next_id (Pos.succ (w_next_id w)) w).
Proof.
  intros [H1 H2 H3 H4 H5 H6]. constructor; simpl; try done; try by apply fresh_above_succ.
  eapply Forall_impl; [done|]. simpl. intros e. apply fresh_above_succ.
Qed.

Section ledger_lemmas.
Context `{Env}.
Implicit Types p : SqlUsageProvider.

(** A successful insert adds exactly the row; a refused one changes nothing. *)
Lemma insert_invocation_spec r w :
  wp (insert_invocation r) w
    (λ _ w', DB.model_invocations (w_db w) !! ModelInvocation.id r = None ∧
             w' = set_db (DB.upd_model_invocations (<[ModelInvocation.id r := r]>) (w_db w)) w)
    (λ _ w', w' = w).
Proof.
  unfold insert_invocation, wp, integrity, is_present, asks_db, asks, modify_db, modify,
    mbind, ST_bind, mret, ST_ret, raise, id; simpl.
  destruct (numeric_10_6_fits _); simpl; [|done].
  repeat (case_bool_decide; simpl; try done).
  split; [|done]. by apply eq_None_not_Some.
Qed.

Lemma commit_spec w :
  wp commit w
    (λ _ w', wal_obs w' = (w_sends w, w_db w, w_durable_log w ++ [(w_db w, length (w_sends w))],
                           DB.model_invocations (w_db w), w_next_id w) ∧ w_db w' = w_db w)
    (λ _ w', wal_obs w' = wal_obs w ∧ w_db w' = w_db w).
Proof. unfold wp, commit. by destruct (commit_ok _). Qed.

(** Committing a view that has at least the charges of the committed state. *)
Lemma commit_wal w : wal w → wal (exec commit w).
Proof.
  intros Hw. pose proof (commit_spec w) as Hc. unfold wp, exec in *.
  destruct (commit w) as [[] w']; destruct Hc as [Ho Hd]; [|by apply (wal_obs_eq w)].
  destruct Hw as [H1 H2 H3 H4 H5 H6]. unfold wal_obs in Ho. injection Ho as E1 E2 E3 E4 E5.
  constructor; unfold charges in *; simpl; rewrite ?E1, ?E2, ?E3, ?E4, ?E5; try done; try lia.
  - apply Forall_app. split; [done|]. apply Forall_singleton. simpl. lia.
  - apply Forall_app. split; [done|]. by apply Forall_singleton.
Qed.

(** Committing a view with one charge more than the committed state. *)
Lemma commit_one_ahead w :
  wal w → (charges w < size (DB.model_invocations (w_db w)))%nat →
  wp commit w (λ _ w', one_ahead w') (λ _ w', wal w').
Proof.
  intros Hw Hlt. pose proof (commit_wal w Hw) as Hw'. pose proof (commit_spec w) as Hc.
  unfold wp, exec in *. destruct (commit w) as [[] w']; [|done]. simpl in *.
  split; [done|]. destruct Hc as [Ho _]. unfold wal_obs in Ho. injection Ho as E1 E2 _ _ _.
  unfold charges in *. rewrite E1, E2. destruct Hw. unfold charges in *. lia.
Qed.

Lemma sql_begin_law p tel w :
  wal w → wp (sql_begin_attempt p tel) w (λ _ w', one_ahead w') (λ _ w', wal w').
Proof.
  intros Hw. unfold sql_begin_attempt. apply wp_bind. unfold wp at 1, new_id.
  apply wp_bind. unfold wp at 1, utc. set (w1 := set_utc_ticks _ _).
  assert (wal w1) as Hw1 by (by eapply wal_obs_eq, wal_set_next_id).
  apply wp_bind. eapply wp_mono; [apply insert_invocation_spec| |by intros ? ? ->].
  simpl. intros _ w2 [Hnone ->]. apply wp_bind.
  set (row := row_values _ _ _ _ _ _ _) in *. set (w2 := set_db _ w1).
  assert (size (DB.model_invocations (w_db w2)) = S (size (DB.model_invocations (w_db w)))) as Hsz.
  { simpl. by rewrite map_size_insert_None. }
  assert (wal w2) as Hw2.
  { destruct Hw as [H1 H2 H3 H4 H5 H6], Hw1. constructor; try done.
    - rewrite Hsz. unfold charges in *. simpl in *. lia.
    - simpl. by apply fresh_above_insert. }
  eapply wp_mono; [apply commit_one_ahead; [done|]| |done].
  - rewrite Hsz. destruct Hw. unfold charges in *. simpl. lia.
  - intros ? w3 Ho. by apply wp_ret.
Qed.

Lemma sql_finish_law p i tel : tracks (pres wal) (sql_finish_attempt p i tel).
Proof.
  unfold sql_finish_attempt.
  apply tracks_bind; [apply _|apply integrity_tracks, _|intros _].
  apply tracks_bind; [apply _| |intros _ w; exact (commit_wal w)].
  intros w [H1 H2 H3 H4 H5 H6]. constructor; try done; simpl.
  - by rewrite map_size_alter.
  - intros j [v Hj]. apply H4. rewrite lookup_alter_Some in Hj.
    destruct Hj as [(<- & v0 & -> & _)|[_ ->]]; eauto.
Qed.

Lemma insert_invocation_silent r : tracks (same w_sends) (insert_invocation r).
Proof. unfold insert_invocation. tracks_auto. Qed.
#[local] Hint Resolve insert_invocation_silent : tracks.

#[global] Instance sql_ledger_lawful p : LawfulLedger (sql_ledger p).
Proof.
  constructor; simpl.
  - apply sql_begin_law.
  - intros. apply sql_finish_law.
  - intros tel. unfold sql_begin_attempt. tracks_auto.
  - intros i tel. unfold sql_finish_attempt. tracks_auto.
Qed.
End ledger_lemmas.

(** ** Rows, cost and retries of the task *)

Section usage_lemmas.
Context `{Env}.
Implicit Types p : SqlUsageProvider.

Lemma numeric_10_6_close c : Z.abs (numeric_10_6 c - c) ≤ 50.
Proof.
  unfold numeric_10_6. destruct (Z.leb_spec 0 c).
  - pose proof (Z.div_mod (c + 50) 100 ltac:(done)).
    pose proof (Z.mod_pos_bound (c + 50) 100 ltac:(done)). lia.
  - pose proof (Z.div_mod (- c + 50) 100 ltac:(done)).
    pose proof (Z.mod_pos_bound (- c + 50) 100 ltac:(done)). lia.
Qed.

(** What a task's rows say after one row of the task is added. *)
Lemma task_usage_insert t r k w :
  DB.model_invocations (w_db w) !! k = None → ModelInvocation.task_id r = t →
  let w' := set_db (DB.upd_model_invocations (<[k := r]>) (w_db w)) w in
  task_rows t w' = S (task_rows t w) ∧
  task_cost t w' = task_cost t w + ModelInvocation.estimated_cost r ∧
  (ModelInvocation.status r ≠ ModelInvocationStatus.completed →
   task_retries t w' = S (task_retries t w)).
Proof.
  intros Hk Ht w'. unfold task_rows, task_cost, task_retries. simpl.
  assert (of_task t r = true) as Hof by (by apply bool_decide_eq_true).
  rewrite !count_insert_fresh by done. rewrite Hof. split_and!; [done| |].
  - rewrite (select_insert_fresh (of_task t) _ k r Hk), Hof, fmap_app, sumZ_app. simpl. lia.
  - intros Hs. unfold unfinished_or_failed at 1. rewrite Hof. by rewrite bool_decide_true.
Qed.

Lemma commit_view R : (∀ w w', w_db w = w_db w' → R w w') → tracks R commit.
Proof. intros HR w. apply HR. unfold exec, commit. by destruct (commit_ok _). Qed.

(** [begin_attempt] adds at most one row to any count of rows. *)
Lemma sql_begin_grows p P tel :
  tracks (grows (λ d, Z.of_nat (count_rows P (DB.model_invocations d))) 1) (sql_begin_attempt p tel).
Proof.
  intros w. unfold sql_begin_attempt.
  cut (wp (sql_begin_attempt p tel) w
    (λ _ w', grows (λ d, Z.of_nat (count_rows P (DB.model_invocations d))) 1 w w')
    (λ _ w', grows (λ d, Z.of_nat (count_rows P (DB.model_invocations d))) 1 w w')).
  { unfold wp, exec, sql_begin_attempt. by destruct ((_ ← new_id; _) w) as [[] ?]. }
  unfold sql_begin_attempt, grows. apply wp_bind. unfold wp at 1, new_id. apply wp_bind.
  unfold wp at 1, utc. apply wp_bind. eapply wp_mono; [apply insert_invocation_spec| |intros ? ? ->; simpl; lia].
  intros ? w2 [_ ->]. apply wp_bind.
  eapply wp_mono; [apply (tracks_wp (same w_db)), commit_view; by intros| |];
    intros ? w3 Hd; [apply wp_ret|]; unfold same in Hd; rewrite <- Hd; simpl;
    match goal with |- context [<[?k := ?v]> ?m] => pose proof (count_insert_le P m k v) end; lia.
Qed.

Lemma sql_finish_grows p P i tel :
  (∀ r, P (row_values (ModelInvocation.id r) (ModelInvocation.tenant_id r)
             (ModelInvocation.mission_id r) (ModelInvocation.task_id r)
             (ModelInvocation.agent_id r) (ModelInvocation.created_at r) tel) = P r) →
  tracks (same (λ w, Z.of_nat (count_rows P (DB.model_invocations (w_db w)))))
    (sql_finish_attempt p i tel).
Proof.
  intros HP. unfold sql_finish_attempt. tracks_auto.
  - intros w. unfold same. simpl. by rewrite count_alter.
  - apply commit_view. intros ? ? Hd. unfold same. by rewrite Hd.
Qed.
End usage_lemmas.

(** ** What a gateway call leaves alone

    Everything but the ledger's own table: the rest of the session's view stays, and the rest
    of the committed database is what it was or what the view was (the ledger's commits also
    commit whatever the session has staged). *)
Definition others (d : DB.t) : DB.t := DB.upd_model_invocations (λ _, ∅) d.

Record frame (w w' : World) : Prop := {
  frame_next_id : (w_next_id w ≤ w_next_id w')%positive;
  frame_view : others (w_db w') = others (w_db w);
  frame_committed : others (w_committed w') = others (w_committed w) ∨
                    others (w_committed w') = others (w_db w);
  frame_queue : w_queue w' = w_queue w;
  frame_objects : w_objects w' = w_objects w;
}.

#[global] Instance frame_preorder : PreOrder frame.
Proof.
  split.
  - intros w. constructor; auto with lia.
  - intros w1 w2 w3 [N1 V1 C1 Q1 O1] [N2 V2 C2 Q2 O2]. constructor; try congruence; [lia|].
    destruct C2 as [->| ->]; [done|]. right. congruence.
Qed.

(** A step that does not touch the view's other tables or the committed database. *)
Lemma frame_same {A} (m : M A) :
  tracks (same (λ w, (w_next_id w, w_db w, w_committed w, w_queue w, w_objects w))) m →
  tracks frame m.
Proof.
  apply tracks_impl. intros w w' Hs. unfold same in Hs.
  injection Hs as E1 E2 E3 E4 E5. constructor; rewrite <- ?E1, <- ?E2, <- ?E3; auto with lia.
Qed.

Section frame_lemmas.
Context `{Env}.

Lemma new_id_frame : tracks frame new_id.
Proof. intros w. constructor; simpl; auto with lia. Qed.

Lemma commit_frame : tracks frame commit.
Proof.
  intros w. unfold exec, commit. destruct (commit_ok _); constructor; simpl; auto with lia.
Qed.

Lemma modify_invocations_frame f : tracks frame (modify_db (DB.upd_model_invocations f)).
Proof. intros w. constructor; simpl; auto with lia. Qed.

Lemma sql_begin_frame p tel : tracks frame (sql_begin_attempt p tel).
Proof.
  unfold sql_begin_attempt, insert_invocation.
  tracks_auto; eauto using new_id_frame, commit_frame, modify_invocations_frame.
  apply frame_same. tracks_auto.
Qed.

Lemma sql_finish_frame p i tel : tracks frame (sql_finish_attempt p i tel).
Proof.
  unfold sql_finish_attempt. tracks_auto; eauto using commit_frame, modify_invocations_frame.
Qed.

Lemma usage_for_task_frame p t : tracks frame (usage_for_task p t).
Proof. apply frame_same. unfold usage_for_task. tracks_auto. Qed.

Lemma generate_frame p gw request policy usage is_retry :
  tracks frame (generate gw request policy usage is_retry (Some (sql_ledger p))).
Proof.
  apply (generate_tracks (sql_ledger p)); simpl.
  - apply _.
  - by apply frame_same.
  - intros r. by apply frame_same.
  - intros f. by apply frame_same.
  - apply sql_begin_frame.
  - apply sql_finish_frame.
Qed.
End frame_lemmas.

(** ** Theorems *)

Section ledger_theorems.
Context `{Env}.
Implicit Types p : SqlUsageProvider.

(** The write-ahead invariant. Run on the task's SQL ledger, a gateway call keeps, at
    every durable point of its run and however it ends (an answer, a refusal, a provider
    failure, a failed commit), at least as many committed charges as requests sent. *)
Theorem generate_write_ahead p gw request policy usage is_retry w :
  wal w → wal (exec (generate gw request policy usage is_retry (Some (sql_ledger p))) w).
Proof. exact (generate_wal (sql_ledger p) gw request policy usage is_retry w). Qed.

(** C9: one gateway call sends its own request at most [max_attempts] times, never past
    [max_model_calls] and, from the second request on, never past [max_retries]. *)
Theorem generate_sends_within_limits p gw request policy usage is_retry w :
  ∃ l, w_sends (exec (generate gw request policy usage is_retry (Some (sql_ledger p))) w)
         = w_sends w ++ l ∧
       (l = [] ∨
        Z.of_nat (length l) ≤ Z.of_nat (gw_max_attempts gw) ∧
        calls_made usage + Z.of_nat (length l) ≤ max_model_calls policy ∧
        (2 ≤ Z.of_nat (length l) →
         retries_made usage + (Z.of_nat (length l) - 1) ≤ max_retries policy)).
Proof.
  pose proof (generate_sends (sql_ledger p) gw request policy usage is_retry w) as Hw.
  unfold wp, exec in *. by destruct (generate _ _ _ _ _ _ w) as [[] w'].
Qed.

(** An outcome that [generate] returns is the provider's answer to the last request it
    sent, priced by the table from the tokens of that answer, after one failure per earlier
    attempt. *)
Theorem generate_returns_priced_answer p gw request policy usage is_retry w out :
  result (generate gw request policy usage is_retry (Some (sql_ledger p))) w = Ret out →
  outcome_of request (exec (generate gw request policy usage is_retry (Some (sql_ledger p))) w) out.
Proof. apply (wp_run _ _ _ _ (generate_outcome (sql_ledger p) gw request policy usage is_retry w)). Qed.

(** C8: the cap on a task's calls is never passed: after a call made on the task's own usage
    reading, the task has at most [max_model_calls] rows, or no more than it had before. *)
Theorem task_rows_never_exceed_cap gw p request policy w :
  Z.of_nat (task_rows (up_task_id p) (exec (generate_for_task gw p request policy) w)) ≤
  Z.max (Z.of_nat (task_rows (up_task_id p) w)) (max_model_calls policy).
Proof.
  set (f := λ d, Z.of_nat (count_rows (of_task (up_task_id p)) (DB.model_invocations d))).
  cut (wp (generate_for_task gw p request policy) w
    (λ _ w', f (w_db w') ≤ Z.max (f (w_db w)) (max_model_calls policy))
    (λ _ w', f (w_db w') ≤ Z.max (f (w_db w)) (max_model_calls policy))).
  { unfold wp, exec. by destruct (generate_for_task _ _ _ _ w) as [[] ?]. }
  unfold generate_for_task. apply wp_bind. unfold wp at 1. simpl.
  eapply wp_mono; [apply (generate_grows (sql_ledger p) f)| |].
  - intros tel. apply sql_begin_grows.
  - intros i tel. by apply sql_finish_grows.
  - unfold f, task_rows. simpl. intros _ w'. lia.
  - unfold f, task_rows. simpl. intros _ w'. lia.
Qed.

(** [begin_attempt] that returns has charged the task: the next usage reading counts one
    more call, one more unfinished attempt, and the worst-case cost to within half a
    millionth of a dollar (the column's rounding). *)
Theorem begin_attempt_charges_task p worst_case w i :
  tel_status worst_case ≠ ModelInvocationStatus.completed →
  result (sql_begin_attempt p worst_case) w = Ret i →
  let w' := exec (sql_begin_attempt p worst_case) w in
  task_rows (up_task_id p) w' = S (task_rows (up_task_id p) w) ∧
  task_retries (up_task_id p) w' = S (task_retries (up_task_id p) w) ∧
  Z.abs (task_cost (up_task_id p) w' - task_cost (up_task_id p) w - tel_estimated_cost worst_case) ≤ 50.
Proof.
  intros Hst Hr w'. subst w'. set (t := up_task_id p). revert i Hr.
  apply (wp_run (sql_begin_attempt p worst_case) w (λ _ w',
    task_rows t w' = S (task_rows t w) ∧ task_retries t w' = S (task_retries t w) ∧
    Z.abs (task_cost t w' - task_cost t w - tel_estimated_cost worst_case) ≤ 50) (λ _ _, True)).
  unfold sql_begin_attempt. apply wp_bind. unfold wp at 1, new_id. apply wp_bind.
  unfold wp at 1, utc. apply wp_bind. eapply wp_mono; [apply insert_invocation_spec| |done].
  intros ? w2 [Hk ->]. apply wp_bind.
  eapply wp_mono; [apply (tracks_wp (same w_db)), commit_view; by intros| |done].
  intros ? w3 Hd. apply wp_ret. unfold same in Hd.
  set (r := row_values _ _ _ _ _ _ _) in *.
  destruct (task_usage_insert t r _ _ Hk eq_refl) as (H1 & H2 & H3).
  unfold task_rows, task_cost, task_retries in *. rewrite <- Hd. simpl in *.
  rewrite H1, H2, H3 by done. split_and!; try done.
  pose proof (numeric_10_6_close (tel_estimated_cost worst_case)). simpl. lia.
Qed.
End ledger_theorems.

(** ** Witnesses *)

Definition sample_provider : SqlUsageProvider := mkUsageProvider 1 6 7 4 0.
Definition sample_gateway : ModelGateway := ModelGateway_default {[ "openai" ]}.

Lemma wal_sample : wal sample_world.
Proof.
  constructor; simpl; try done; try (vm_compute; lia); intros i [v Hi]; by vm_compute in Hi.
Qed.

Lemma generate_write_ahead_witness :
  wal sample_world ∧
  wal (exec (generate sample_gateway sample_request BudgetPolicy_default
               (mkBudgetUsage 0 (Py.of_int 0) (Py.of_int 0) 0) false
               (Some (sql_ledger sample_provider))) sample_world).
Proof. split; [apply wal_sample|]. apply generate_write_ahead, wal_sample. Defined.

(** The sample call fails once and answers at the second attempt. *)
Lemma generate_returns_priced_answer_witness :
  ∃ out,
    go_attempts out = 2 ∧
    outcome_of sample_request
      (exec (generate sample_gateway sample_request BudgetPolicy_default
               (mkBudgetUsage 0 (Py.of_int 0) (Py.of_int 0) 0) false
               (Some (sql_ledger sample_provider))) sample_world) out.
Proof.
  eexists. split; [|apply generate_returns_priced_answer; vm_compute; reflexivity].
  reflexivity.
Defined.

Lemma begin_attempt_charges_task_witness :
  let w' := exec (sql_begin_attempt sample_provider
                    (mkTelemetry "openai" "gpt-4o-mini" 10 500 30151 0
                       ModelInvocationStatus.requested "h" None false)) sample_world in
  task_rows 7 w' = 1%nat ∧ task_cost 7 w' = 30200.
Proof.
  set (tel := mkTelemetry _ _ _ _ _ _ _ _ _ _). intros w'.
  assert (tel_status tel ≠ ModelInvocationStatus.completed) as Hst by done.
  assert (result (sql_begin_attempt sample_provider tel) sample_world = Ret 100%positive) as Hr
    by (vm_compute; reflexivity).
  destruct (begin_attempt_charges_task sample_provider tel sample_world 100 Hst Hr) as (H1 & _ & _).
  split; [exact H1 | vm_compute; reflexivity].
Defined.
