(* ===== verification/Checkpoints.v ===== *)
(** * Checkpoint stores

    [CheckpointStore] is the port of the durable adapter
    (services/agent-runtime/agent_runtime/checkpoint_store.py). Its production
    implementation is [SqlCheckpointStore]
    (services/mission-engine/mission_engine/checkpoints/sql_checkpoint_store.py), whose
    [save] commits; [InMemoryCheckpointStore] is the one of unit tests. The adapter uses the
    port through [save] and [latest_for_task] only. *)

From S2P Require Import Prelude Enums Contracts Breaker Database Scenario.
Local Open Scope Z_scope.

(** ** SqlCheckpointStore *)

Definition cp_of_task (task_id : EntityId) (r : RuntimeCheckpoint.t) : bool :=
  bool_decide (RuntimeCheckpoint.task_id r = task_id).

(** [ORDER BY checkpoint_sequence DESC LIMIT 1] *)
Fixpoint highest (l : list RuntimeCheckpoint.t) : option RuntimeCheckpoint.t :=
  match l with
  | [] => None
  | r :: l =>
      match highest l with
      | None => Some r
      | Some r' =>
          if RuntimeCheckpoint.checkpoint_sequence r' <? RuntimeCheckpoint.checkpoint_sequence r
          then Some r else Some r'
      end
  end.

(** The [Checkpoint] built from a row: the row's id stands in for the run's. *)
Definition checkpoint_of_row (r : RuntimeCheckpoint.t) : Checkpoint :=
  mkCheckpoint (Some (RuntimeCheckpoint.id r)) (RuntimeCheckpoint.id r)
    (RuntimeCheckpoint.task_id r) (RuntimeCheckpoint.mission_id r) (RuntimeCheckpoint.agent_id r)
    (RuntimeCheckpoint.checkpoint_sequence r) (RuntimeCheckpoint.status r)
    (RuntimeCheckpoint.state r).

(** The latest checkpoint of a task in a database. *)
Definition latest_row (task_id : EntityId) (d : DB.t) : option RuntimeCheckpoint.t :=
  highest (select (cp_of_task task_id) (DB.checkpoints d)).

(** [latest_for_task(task_id)] *)
Definition latest_for_task (task_id : EntityId) : M (option Checkpoint) :=
  asks_db (λ d, checkpoint_of_row <$> latest_row task_id d).

Definition with_checkpoint_id (i : EntityId) (c : Checkpoint) : Checkpoint :=
  mkCheckpoint (Some i) (cp_run_id c) (cp_task_id c) (cp_mission_id c) (cp_agent_id c)
    (cp_sequence c) (cp_status c) (cp_state c).

Definition row_of_checkpoint (i : EntityId) (c : Checkpoint) : RuntimeCheckpoint.t :=
  RuntimeCheckpoint.mk i (cp_mission_id c) (cp_task_id c) (cp_agent_id c) (cp_sequence c)
    (cp_state c) (cp_status c).

Section sql_store.
Context `{Env}.

(** [save(checkpoint)]: insert, commit, and return the checkpoint with its id. *)
Definition save (c : Checkpoint) : M Checkpoint :=
  i ← new_id;
  _ ← insert_checkpoint (row_of_checkpoint i c);
  _ ← commit;
  mret (with_checkpoint_id i c).
End sql_store.

(** ** InMemoryCheckpointStore: a history per task *)

Abbreviation InMemoryCheckpointStore := (gmap EntityId (list Checkpoint)).

Definition mem_save (c : Checkpoint) (s : InMemoryCheckpointStore) :
    Checkpoint * InMemoryCheckpointStore :=
  (c, <[cp_task_id c := default [] (s !! cp_task_id c) ++ [c]]> s).

Definition mem_latest_for_task (task_id : EntityId) (s : InMemoryCheckpointStore) :
    option Checkpoint :=
  s !! task_id ≫= last.

(** ** The latest row *)

Lemma highest_spec l r :
  highest l = Some r →
  r ∈ l ∧ Forall (λ r', RuntimeCheckpoint.checkpoint_sequence r' ≤
                        RuntimeCheckpoint.checkpoint_sequence r) l.
Proof.
  revert r. induction l as [|x l IH]; intros r; simpl; [done|].
  destruct (highest l) as [r'|] eqn:Hl.
  - destruct (IH r' eq_refl) as [Hin Hall].
    destruct (Z.ltb_spec (RuntimeCheckpoint.checkpoint_sequence r')
                (RuntimeCheckpoint.checkpoint_sequence x)); intros [= <-].
    + split; [by left|]. constructor; [lia|]. eapply Forall_impl; [done|]. simpl. lia.
    + split; [by right|]. constructor; [lia|done].
  - intros [= <-]. destruct l as [|y l]; [split; [by left|by constructor]|].
    simpl in Hl. destruct (highest l) as [z|]; [|done]. by destruct (_ <? _).
Qed.

Lemma highest_None l : highest l = None → l = [].
Proof.
  destruct l as [|x l]; [done|]. simpl. destruct (highest l); [|done]. by destruct (_ <? _).
Qed.

(** A latest row is a row of the task, and no row of the task has a higher sequence. *)
Lemma latest_row_spec t d r :
  latest_row t d = Some r →
  RuntimeCheckpoint.task_id r = t ∧ (∃ k, DB.checkpoints d !! k = Some r) ∧
  ∀ k r', DB.checkpoints d !! k = Some r' → RuntimeCheckpoint.task_id r' = t →
    RuntimeCheckpoint.checkpoint_sequence r' ≤ RuntimeCheckpoint.checkpoint_sequence r.
Proof.
  unfold latest_row. intros Hl. apply highest_spec in Hl as [Hin Hall].
  apply elem_of_select in Hin as [Ht%bool_decide_eq_true Hk]. split_and!; [done..|].
  intros k r' Hk' Ht'. rewrite Forall_forall in Hall. apply Hall.
  apply elem_of_select. split; [by apply bool_decide_eq_true|eauto].
Qed.

Lemma latest_row_None t d :
  latest_row t d = None → ∀ k r, DB.checkpoints d !! k = Some r → RuntimeCheckpoint.task_id r ≠ t.
Proof.
  unfold latest_row. intros Hl%highest_None k r Hk Ht.
  assert (r ∈ select (cp_of_task t) (DB.checkpoints d)) as Hin.
  { apply elem_of_select. split; [by apply bool_decide_eq_true|eauto]. }
  rewrite Hl in Hin. by apply elem_of_nil in Hin.
Qed.

(** The two ways a row can be the latest decide it. *)
Lemma latest_row_max t d k r :
  DB.checkpoints d !! k = Some r → RuntimeCheckpoint.task_id r = t →
  (∀ k' r', DB.checkpoints d !! k' = Some r' → RuntimeCheckpoint.task_id r' = t → k' ≠ k →
     RuntimeCheckpoint.checkpoint_sequence r' < RuntimeCheckpoint.checkpoint_sequence r) →
  latest_row t d = Some r.
Proof.
  intros Hk Ht Hmax. destruct (latest_row t d) as [r0|] eqn:Hl.
  - destruct (latest_row_spec _ _ _ Hl) as (Ht0 & [k0 Hk0] & Hall).
    destruct (decide (k0 = k)) as [->|Hne]; [congruence|].
    specialize (Hall k r Hk Ht). specialize (Hmax k0 r0 Hk0 Ht0 Hne). lia.
  - by destruct (latest_row_None _ _ Hl k r Hk).
Qed.

(** ** Saving *)

(** The sequence a new checkpoint of the task takes: one above the latest, or 1. *)
Definition next_sequence (latest : option Checkpoint) : Z :=
  match latest with Some c => cp_sequence c + 1 | None => 1 end.

(** No row of the task has sequence [s] or higher. *)
Definition sequence_free (t : EntityId) (s : Z) (d : DB.t) : Prop :=
  ∀ k r, DB.checkpoints d !! k = Some r → RuntimeCheckpoint.task_id r = t →
    RuntimeCheckpoint.checkpoint_sequence r < s.

Lemma next_sequence_free t d :
  sequence_free t (next_sequence (checkpoint_of_row <$> latest_row t d)) d.
Proof.
  intros k r Hk Ht. destruct (latest_row t d) as [r0|] eqn:Hl; simpl.
  - destruct (latest_row_spec _ _ _ Hl) as (_ & _ & Hall). specialize (Hall k r Hk Ht). lia.
  - by destruct (latest_row_None _ _ Hl k r Hk).
Qed.

(** The rows a checkpoint refers to. *)
Definition cp_refs (c : Checkpoint) (d : DB.t) : Prop :=
  is_Some (DB.tasks d !! cp_task_id c) ∧ is_Some (DB.missions d !! cp_mission_id c) ∧
  is_Some (DB.agents d !! cp_agent_id c).

(** The checkpoint rows of the view have ids below the supply. *)
Definition checkpoints_fresh (w : World) : Prop :=
  fresh_above (w_next_id w) (DB.checkpoints (w_db w)).

(** An insert whose keys are free, with its references in place, goes through. *)
Lemma insert_checkpoint_ok r w :
  DB.checkpoints (w_db w) !! RuntimeCheckpoint.id r = None →
  is_Some (DB.tasks (w_db w) !! RuntimeCheckpoint.task_id r) →
  is_Some (DB.missions (w_db w) !! RuntimeCheckpoint.mission_id r) →
  is_Some (DB.agents (w_db w) !! RuntimeCheckpoint.agent_id r) →
  sequence_free (RuntimeCheckpoint.task_id r) (RuntimeCheckpoint.checkpoint_sequence r) (w_db w) →
  insert_checkpoint r w =
    (Ret tt, set_db (DB.upd_checkpoints (<[RuntimeCheckpoint.id r := r]>) (w_db w)) w).
Proof.
  intros Hk Ht Hm Ha Hs. unfold insert_checkpoint, is_present, asks_db, asks, modify_db, modify,
    mbind, ST_bind, mret, ST_ret, integrity, id. simpl.
  rewrite bool_decide_false by (rewrite Hk; by intros []). simpl.
  rewrite !bool_decide_true by done. simpl.
  match goal with |- context [exists_row ?P ?m] => assert (exists_row P m = false) as -> end; [|done].
  apply exists_row_false. intros k c Hc.
  destruct (decide (RuntimeCheckpoint.task_id c = RuntimeCheckpoint.task_id r)) as [He|He].
  - rewrite bool_decide_true by done. simpl. apply bool_decide_eq_false.
    specialize (Hs k c Hc He). lia.
  - by rewrite bool_decide_false.
Qed.

Section save_lemmas.
Context `{Env}.

(** [save] of a checkpoint whose sequence is free either makes it the task's latest one,
    durably, or its commit failed. *)
Lemma save_spec c w :
  checkpoints_fresh w → cp_refs c (w_db w) → sequence_free (cp_task_id c) (cp_sequence c) (w_db w) →
  wp (save c) w
    (λ c' w', c' = with_checkpoint_id (w_next_id w) c ∧
       w_committed w' = w_db w' ∧
       w_db w' = DB.upd_checkpoints (<[w_next_id w := row_of_checkpoint (w_next_id w) c]>) (w_db w) ∧
       latest_row (cp_task_id c) (w_db w') = Some (row_of_checkpoint (w_next_id w) c) ∧
       checkpoints_fresh w' ∧ w_sends w' = w_sends w)
    (λ e w', e = OperationalError "commit" ∧ w_committed w' = w_committed w ∧ w_sends w' = w_sends w).
Proof.
  intros Hf (Ht & Hm & Ha) Hs. unfold save. apply wp_bind. unfold wp at 1, new_id.
  set (r := row_of_checkpoint (w_next_id w) c).
  apply wp_bind. unfold wp at 1. rewrite insert_checkpoint_ok; try done.
  2:{ simpl. by apply fresh_above_None. }
  apply wp_bind. unfold wp at 1, commit. simpl. destruct (commit_ok _); [|done].
  apply wp_ret. simpl. split_and!; try done.
  - apply (latest_row_max _ _ (w_next_id w) r); simpl.
    + by rewrite lookup_insert_eq.
    + done.
    + intros k' r' Hk' Ht' Hne. rewrite lookup_insert_ne in Hk' by done. by eapply Hs.
  - unfold checkpoints_fresh. simpl. by apply fresh_above_insert.
Qed.
End save_lemmas.

(** ** The SQL store refines the in-memory one

    Both keep a history per task of which only the last element is read back. *)

(** [uq_checkpoints_task_sequence] *)
Definition checkpoints_unique (d : DB.t) : Prop :=
  ∀ k1 k2 r1 r2, DB.checkpoints d !! k1 = Some r1 → DB.checkpoints d !! k2 = Some r2 →
    RuntimeCheckpoint.task_id r1 = RuntimeCheckpoint.task_id r2 →
    RuntimeCheckpoint.checkpoint_sequence r1 = RuntimeCheckpoint.checkpoint_sequence r2 → r1 = r2.

(** What survives a round trip through the table: all but the run's id. *)
Definition cp_core (c : Checkpoint) :=
  (cp_task_id c, cp_mission_id c, cp_agent_id c, cp_sequence c, cp_status c, cp_state c).

(** The memory store and the table give the same latest checkpoint for every task. *)
Definition stores_agree (s : InMemoryCheckpointStore) (d : DB.t) : Prop :=
  ∀ t, cp_core <$> mem_latest_for_task t s = (cp_core ∘ checkpoint_of_row) <$> latest_row t d.

Lemma latest_row_other t d k r :
  checkpoints_unique d → DB.checkpoints d !! k = None → RuntimeCheckpoint.task_id r ≠ t →
  latest_row t (DB.upd_checkpoints (<[k := r]>) d) = latest_row t d.
Proof.
  intros Hu Hk Hr. set (d' := DB.upd_checkpoints _ d).
  assert (∀ k' r', RuntimeCheckpoint.task_id r' = t →
    DB.checkpoints d' !! k' = Some r' ↔ DB.checkpoints d !! k' = Some r') as Hsame.
  { intros k' r' Ht'. simpl. rewrite lookup_insert_Some. split; [|].
    - intros [[-> ->]|[_ ?]]; [done|done].
    - intros Hk'. right. split; [congruence|done]. }
  destruct (latest_row t d') as [r1|] eqn:H1.
  - destruct (latest_row_spec _ _ _ H1) as (Ht1 & [k1 Hk1] & Hmax1).
    apply Hsame in Hk1; [|done]. destruct (latest_row t d) as [r2|] eqn:H2.
    + destruct (latest_row_spec _ _ _ H2) as (Ht2 & [k2 Hk2] & Hmax2).
      f_equal. eapply Hu; [done|done|congruence|].
      specialize (Hmax2 k1 r1 Hk1 Ht1). apply Hsame in Hk2; [|done].
      specialize (Hmax1 k2 r2 Hk2 Ht2). lia.
    + by destruct (latest_row_None _ _ H2 k1 r1 Hk1).
  - destruct (latest_row t d) as [r2|] eqn:H2; [|done].
    destruct (latest_row_spec _ _ _ H2) as (Ht2 & [k2 Hk2] & _).
    apply Hsame in Hk2; [|done]. by destruct (latest_row_None _ _ H1 k2 r2 Hk2).
Qed.

Section refinement.
Context `{Env}.

(** C27: the SQL checkpoint store refines the in-memory one: saving a checkpoint whose
    sequence is above the task's earlier ones keeps the two stores in agreement on the latest
    checkpoint of every task; a save that raises has not changed what is committed. *)
Theorem sql_store_refines_memory c s w :
  checkpoints_fresh w → checkpoints_unique (w_db w) → cp_refs c (w_db w) →
  sequence_free (cp_task_id c) (cp_sequence c) (w_db w) →
  stores_agree s (w_db w) →
  wp (save c) w
    (λ c' w', cp_core c' = cp_core (mem_save c s).1 ∧ stores_agree (mem_save c s).2 (w_db w') ∧
              w_committed w' = w_db w')
    (λ _ w', w_committed w' = w_committed w).
Proof.
  intros Hf Hu Hr Hs Hag. eapply wp_mono; [by apply save_spec| |by intros ? ? (_ & ? & _)].
  intros c' w' (-> & Hc & Hd & Hl & _). split_and!; [done| |done].
  intros t. unfold mem_latest_for_task. simpl.
  destruct (decide (t = cp_task_id c)) as [->|Hne].
  - rewrite lookup_insert_eq, Hl. simpl. by rewrite last_snoc.
  - rewrite lookup_insert_ne by done. rewrite Hd, latest_row_other; try done.
    + apply Hag.
    + by apply fresh_above_None.
Qed.
End refinement.

(** A first and a second checkpoint of the sample task. *)
Definition sample_checkpoint : Checkpoint :=
  mkCheckpoint None 50 7 6 4 1 RuntimeCheckpointStatus.created
    (PromptAssembled "s" "u" "h" "openai" "gpt-4o-mini" 500 BudgetPolicy_default).

Lemma sql_store_refines_memory_witness :
  wp (save sample_checkpoint) sample_world
    (λ c' w', cp_core c' = cp_core sample_checkpoint ∧
              stores_agree (mem_save sample_checkpoint ∅).2 (w_db w') ∧ w_committed w' = w_db w')
    (λ _ w', w_committed w' = w_committed sample_world).
Proof.
  apply (sql_store_refines_memory sample_checkpoint ∅ sample_world).
  - intros i [v Hi]. by vm_compute in Hi.
  - intros k1 k2 r1 r2 Hk. by vm_compute in Hk.
  - repeat split; vm_compute; eauto.
  - intros k r Hk. by vm_compute in Hk.
  - intros t. by vm_compute.
Defined.
