(* ===== verification/Adapter.v ===== *)
(** * The durable agent runtime
    (services/agent-runtime/agent_runtime/adapters/durable_adapter.py and
    prompts/assembler.py)

    [execute] saves a checkpoint before the model call (stage "prompt_assembled") and one
    after it ("model_responded"); [resume] picks a run up from either. The adapter knows its
    checkpoint store, its usage provider and the gateway only through their ports. *)

From Stdlib Require Import Floats.
From S2P Require Import Prelude Enums Contracts Budgets Telemetry Breaker Database Scenario Gateway Ledger.
From S2P Require Import Checkpoints.
Local Open Scope Z_scope.

(** ** Ports *)

(** [checkpoint_store.CheckpointStore] *)
Record CheckpointStore := mkCheckpointStore {
  cs_save : Checkpoint → M Checkpoint;
  cs_latest_for_task : EntityId → M (option Checkpoint);
}.

(** [usage.UsageProvider]: the usage reader, which is also the gateway's ledger. *)
Record UsageProvider := mkUsageProviderPort {
  upr_usage_for_task : EntityId → M BudgetUsage;
  upr_ledger : AttemptLedger;
}.

Record DurableAgentRuntimeAdapter := mkAdapter {
  model_gateway : ModelGateway;
  checkpoint_store : CheckpointStore;
  usage_provider : UsageProvider;
}.

(** ** Prompt assembly *)

Definition SYSTEM_BASE_POLICY : string :=
  "You are operating inside Daythree AI World, a governed AI agent runtime. You must only use the tools explicitly listed under TOOL POLICY. Never invent evidence or claim access to information you were not given. If required information is unavailable, say so explicitly rather than guessing. Your final answer MUST be a single JSON object that validates against the OUTPUT CONTRACT schema below, and nothing else — no prose before or after the JSON.".

Definition newline : string := String (Ascii.ascii_of_nat 10) EmptyString.

(** ["\n\n".join(parts)] *)
Definition join_parts (parts : list string) : string :=
  String.concat (newline +:+ newline) parts.

Record PromptAssembly := mkPromptAssembly {
  template_id : string;
  template_version : string;
  pa_system_prompt : string;
  pa_user_prompt : string;
  system_prompt_hash : string;
  user_prompt_hash : string;
  assembled_prompt_hash : string;
}.

Section adapter.
Context `{Env}.

(** [assemble_prompt(context)] *)
Definition assemble_prompt (context : RunContext) : PromptAssembly :=
  let system_prompt := join_parts [
    "SYSTEM BASE POLICY:" +:+ newline +:+ SYSTEM_BASE_POLICY;
    "AGENT VERSION PROMPT:" +:+ newline +:+ ctx_system_prompt context;
    "TOOL POLICY:" +:+ newline +:+ dump_tool_policy (ctx_tool_policy context);
    "BUDGET POLICY:" +:+ newline +:+ dump_budget_policy (ctx_budget_policy context);
    "OUTPUT CONTRACT (JSON Schema — your final answer must validate against this):" +:+ newline
      +:+ output_json_schema] in
  let user_prompt := join_parts [
    "MISSION OBJECTIVE:" +:+ newline +:+ ctx_mission_objective context;
    "TASK INSTRUCTIONS:" +:+ newline +:+ ctx_task_instructions context;
    "AVAILABLE CONTEXT:" +:+ newline +:+ json_dumps (JObj (ctx_available_context context))] in
  let system_hash := sha256_hex system_prompt in
  let user_hash := sha256_hex user_prompt in
  mkPromptAssembly "phase0-single-task-research" "1.0" system_prompt user_prompt
    system_hash user_hash (sha256_hex (system_hash +:+ user_hash)).

(** ** Operations *)

(** [initialize_run(context)] *)
Definition initialize_run (context : RunContext) : M RunHandle :=
  i ← new_id;
  mret (mkRunHandle i context).

(** The reads [state["provider"]], ... of [_call_model_and_checkpoint]; a state without
    the key raises [KeyError]. *)
Definition request_of_state (state : CheckpointState) : outcome exn (ModelRequest * BudgetPolicy) :=
  match state with
  | PromptAssembled system_prompt user_prompt _ provider model max_output_tokens budget_policy =>
      Ret (ModelRequest_make provider model system_prompt user_prompt max_output_tokens,
           budget_policy)
  | ModelResponded _ _ _ _ _ _ => Raise (KeyError "system_prompt")
  | Cancelled | OtherStage _ => Raise (KeyError "provider")
  end.

(** The [state] of the second checkpoint. *)
Definition responded_state (r : ModelResponse) : CheckpointState :=
  ModelResponded (resp_text r) (resp_provider r) (resp_model r) (resp_input_tokens r)
    (resp_output_tokens r) (resp_latency_ms r).

(** [_call_model_and_checkpoint(run_id, prompt_checkpoint)] *)
Definition call_model_and_checkpoint (ad : DurableAgentRuntimeAdapter) (run_id : EntityId)
    (prompt_checkpoint : Checkpoint) : M RunResult :=
  rp ← lift (request_of_state (cp_state prompt_checkpoint));
  let '(request, budget_policy) := rp in
  usage ← upr_usage_for_task (usage_provider ad) (cp_task_id prompt_checkpoint);
  outcome ← generate (model_gateway ad) request budget_policy usage false
              (Some (upr_ledger (usage_provider ad)));
  response_checkpoint ← cs_save (checkpoint_store ad)
    (mkCheckpoint None run_id (cp_task_id prompt_checkpoint) (cp_mission_id prompt_checkpoint)
       (cp_agent_id prompt_checkpoint) (cp_sequence prompt_checkpoint + 1)
       RuntimeCheckpointStatus.created (responded_state (go_response outcome)));
  mret (mkRunResult run_id true (Some (resp_text (go_response outcome)))
          (Some (go_response outcome)) (Some (go_telemetry outcome)) (go_failed_attempts outcome)
          None (Some response_checkpoint)).

(** The [state] of the first checkpoint. *)
Definition prompt_state (context : RunContext) : CheckpointState :=
  let assembly := assemble_prompt context in
  PromptAssembled (pa_system_prompt assembly) (pa_user_prompt assembly)
    (assembled_prompt_hash assembly) (ctx_model_provider context) (ctx_model_name context)
    (max_output_tokens (ctx_budget_policy context)) (ctx_budget_policy context).

(** [execute(handle)] *)
Definition execute (ad : DurableAgentRuntimeAdapter) (handle : RunHandle) : M RunResult :=
  let context := handle_context handle in
  latest ← cs_latest_for_task (checkpoint_store ad) (ctx_task_id context);
  prompt_checkpoint ← cs_save (checkpoint_store ad)
    (mkCheckpoint None (run_id handle) (ctx_task_id context) (ctx_mission_id context)
       (ctx_agent_id context) (next_sequence latest) RuntimeCheckpointStatus.created
       (prompt_state context));
  call_model_and_checkpoint ad (run_id handle) prompt_checkpoint.

(** [checkpoint(handle)] *)
Definition checkpoint (ad : DurableAgentRuntimeAdapter) (handle : RunHandle) : M Checkpoint :=
  latest ← cs_latest_for_task (checkpoint_store ad) (ctx_task_id (handle_context handle));
  match latest with
  | None => raise (RuntimeError "No checkpoint exists yet for this run — call execute() first.")
  | Some c => mret c
  end.

(** [resume(checkpoint)] *)
Definition resume (ad : DurableAgentRuntimeAdapter) (c : Checkpoint) : M RunResult :=
  match cp_state c with
  | ModelResponded raw_response_text _ _ _ _ _ =>
      mret (mkRunResult (cp_run_id c) true (Some raw_response_text) None None [] None (Some c))
  | PromptAssembled _ _ _ _ _ _ _ => call_model_and_checkpoint ad (cp_run_id c) c
  | Cancelled | OtherStage _ =>
      raise (RuntimeError ("Unknown checkpoint stage '" +:+
               default "None" (stage_of (cp_state c)) +:+ "'; cannot resume."))
  end.

(** [cancel(handle)] *)
Definition cancel (ad : DurableAgentRuntimeAdapter) (handle : RunHandle) : M unit :=
  let context := handle_context handle in
  _ ← cs_save (checkpoint_store ad)
    (mkCheckpoint None (run_id handle) (ctx_task_id context) (ctx_mission_id context)
       (ctx_agent_id context) 999 RuntimeCheckpointStatus.superseded Cancelled);
  mret tt.

(** The adapter [task_executor.execute_task] builds for a task. *)
Definition sql_checkpoint_store : CheckpointStore := mkCheckpointStore save latest_for_task.

Definition sql_usage_port (p : SqlUsageProvider) : UsageProvider :=
  mkUsageProviderPort (usage_for_task p) (sql_ledger p).

Definition sql_adapter (gw : ModelGateway) (p : SqlUsageProvider) : DurableAgentRuntimeAdapter :=
  mkAdapter gw sql_checkpoint_store (sql_usage_port p).
End adapter.

(** ** Lemmas *)

(** What a frame says of checkpoints. *)
Lemma frame_checkpoints w w' : frame w w' → DB.checkpoints (w_db w') = DB.checkpoints (w_db w).
Proof. intros [_ Hv _ _ _]. by apply (f_equal DB.checkpoints) in Hv. Qed.

Lemma latest_row_others t d d' : others d = others d' → latest_row t d = latest_row t d'.
Proof. intros Hd%(f_equal DB.checkpoints). unfold latest_row. simpl in Hd. by rewrite Hd. Qed.

Lemma sequence_free_others t s d d' : others d = others d' → sequence_free t s d → sequence_free t s d'.
Proof. intros Hd%(f_equal DB.checkpoints). unfold sequence_free. simpl in Hd. by rewrite Hd. Qed.

Lemma cp_refs_others c d d' : others d = others d' → cp_refs c d → cp_refs c d'.
Proof.
  intros Hd. unfold cp_refs. pose proof (f_equal DB.tasks Hd) as H1.
  pose proof (f_equal DB.missions Hd) as H2. pose proof (f_equal DB.agents Hd) as H3.
  simpl in *. by rewrite H1, H2, H3.
Qed.

Lemma frame_fresh w w' : frame w w' → checkpoints_fresh w → checkpoints_fresh w'.
Proof.
  intros Hf Hc. unfold checkpoints_fresh. rewrite (frame_checkpoints _ _ Hf).
  intros i Hi. specialize (Hc i Hi). destruct Hf. lia.
Qed.

Section adapter_lemmas.
Context `{Env}.
Implicit Types (p : SqlUsageProvider) (c : Checkpoint).

(** A request is the provider's last answered one. *)
Definition answered (w : World) (r : ModelResponse) : Prop :=
  ∃ l req, w_sends w = l ++ [req] ∧
    provider_generate (req_provider req) (length l) req = inr r.

(** The model call from a prompt checkpoint that is the task's latest: it returns the
    provider's answer with a durable "model_responded" checkpoint as the new latest, or the
    prompt checkpoint is still the latest one in what is committed. *)
Lemma call_model_spec gw p run c w :
  checkpoints_fresh w → cp_refs c (w_db w) → w_committed w = w_db w →
  sequence_free (cp_task_id c) (cp_sequence c + 1) (w_db w) →
  wp (call_model_and_checkpoint (sql_adapter gw p) run c) w
    (λ r w', w_committed w' = w_db w' ∧ checkpoints_fresh w' ∧ cp_refs c (w_db w') ∧
       ∃ resp i, answered w' resp ∧ res_output_text r = Some (resp_text resp) ∧
         latest_row (cp_task_id c) (w_committed w') =
           Some (RuntimeCheckpoint.mk i (cp_mission_id c) (cp_task_id c) (cp_agent_id c)
                   (cp_sequence c + 1) (responded_state resp) RuntimeCheckpointStatus.created))
    (λ e w', latest_row (cp_task_id c) (w_committed w') = latest_row (cp_task_id c) (w_committed w)).
Proof.
  intros Hf Hr Hcm Hs. unfold call_model_and_checkpoint. apply wp_bind. unfold wp at 1, lift.
  destruct (request_of_state (cp_state c)) as [[request policy]|]; [|done].
  assert (∀ w', frame w w' →
    latest_row (cp_task_id c) (w_committed w') = latest_row (cp_task_id c) (w_committed w)) as Hlat.
  { intros w' [_ _ Hc _ _]. apply latest_row_others. rewrite Hcm in *. by destruct Hc. }
  apply wp_bind. eapply wp_mono; [apply (tracks_wp frame), usage_for_task_frame| |done].
  intros usage w1 Hf1. apply wp_bind.
  eapply wp_mono; [apply wp_conj; [apply (tracks_wp frame), generate_frame
                                  | apply (generate_outcome (sql_ledger p))]| |].
  2:{ intros e w2 [Hf2 _]. apply Hlat. etrans; [exact Hf1|exact Hf2]. }
  intros out w2 [Hf2 (Hans & _)]. assert (frame w w2) as Hfr by (etrans; [exact Hf1|exact Hf2]).
  apply wp_bind. assert (others (w_db w) = others (w_db w2)) as Hov by (symmetry; apply Hfr).
  eapply wp_mono; [apply save_spec| |].
  - by eapply frame_fresh.
  - by eapply (cp_refs_others c).
  - by eapply sequence_free_others.
  - intros c' w3 (-> & Hc3 & Hd3 & Hl3 & Hf3 & Hs3). apply wp_ret. rewrite Hc3. split_and!; try done.
    + rewrite Hd3. eapply (cp_refs_others c) in Hr; [|done]. exact Hr.
    + exists (go_response out), (w_next_id w2). split_and!; try done.
      destruct Hans as (l & Hl & Hp). exists l, request. by rewrite Hs3.
  - intros e w3 (_ & Hc3 & _). rewrite Hc3. by apply Hlat.
Qed.
End adapter_lemmas.

(** ** Theorems *)

Section adapter_theorems.
Context `{Env}.

(** C7: [execute] on the SQL store, from any history of the task. Whatever happens, a run
    that got past its first checkpoint leaves a committed checkpoint to resume from, with a
    sequence above all earlier ones: "model_responded" with the provider's answer if it
    returns, the prompt of this run if it raises; if the first checkpoint's commit failed,
    nothing changed. No sequence is ever used twice. *)
Theorem execute_leaves_resumable_checkpoint gw p handle w :
  let ctx := handle_context handle in
  let t := ctx_task_id ctx in
  let seq := next_sequence (checkpoint_of_row <$> latest_row t (w_db w)) in
  let row i s state := RuntimeCheckpoint.mk i (ctx_mission_id ctx) t (ctx_agent_id ctx) s state
                         RuntimeCheckpointStatus.created in
  checkpoints_fresh w →
  is_Some (DB.tasks (w_db w) !! t) → is_Some (DB.missions (w_db w) !! ctx_mission_id ctx) →
  is_Some (DB.agents (w_db w) !! ctx_agent_id ctx) →
  wp (execute (sql_adapter gw p) handle) w
    (λ r w', ∃ resp i, answered w' resp ∧ res_output_text r = Some (resp_text resp) ∧
       latest_row t (w_committed w') = Some (row i (seq + 1) (responded_state resp)))
    (λ e w', (e = OperationalError "commit" ∧ w_committed w' = w_committed w) ∨
       ∃ i, latest_row t (w_committed w') = Some (row i seq (prompt_state ctx))).
Proof.
  intros ctx t seq row Hf Ht Hm Ha. unfold execute. apply wp_bind. unfold wp at 1. simpl.
  fold ctx t seq. apply wp_bind. eapply wp_mono; [apply save_spec; try done| |].
  - apply next_sequence_free.
  - intros c w1 (-> & Hc1 & Hd1 & Hl1 & Hf1 & _). simpl in Hl1.
    eapply wp_mono; [apply call_model_spec; try done| |].
    + rewrite Hd1. split_and!; done.
    + simpl. intros k r Hk Htr. destruct (latest_row_spec _ _ _ Hl1) as (_ & _ & Hall).
      specialize (Hall k r Hk Htr). simpl in Hall. lia.
    + intros r w2 (_ & _ & _ & resp & i & Hr). exists resp, i. exact Hr.
    + intros e w2 Hl2. simpl in Hl2. right. exists (w_next_id w). rewrite Hl2, Hc1. exact Hl1.
  - intros e w1 (-> & Hc1 & _). by left.
Qed.
End adapter_theorems.

Definition sample_context : RunContext :=
  mkRunContext 1 6 7 4 5 6 "Be brief." "Summarise the market." "Summarise the market."
    ToolPolicy_default BudgetPolicy_default [] "openai" "gpt-4o-mini".

Lemma execute_leaves_resumable_checkpoint_witness :
  wp (execute (sql_adapter sample_gateway sample_provider) (mkRunHandle 50 sample_context))
    sample_world
    (λ r w', ∃ resp i, answered w' resp ∧ res_output_text r = Some (resp_text resp) ∧
       latest_row 7 (w_committed w') =
         Some (RuntimeCheckpoint.mk i 6 7 4 2 (responded_state resp) RuntimeCheckpointStatus.created))
    (λ e w', (e = OperationalError "commit" ∧ w_committed w' = w_committed sample_world) ∨
       ∃ i, latest_row 7 (w_committed w') =
         Some (RuntimeCheckpoint.mk i 6 7 4 1 (prompt_state sample_context)
                 RuntimeCheckpointStatus.created)).
Proof.
  apply (execute_leaves_resumable_checkpoint sample_gateway sample_provider
           (mkRunHandle 50 sample_context) sample_world).
  - intros i [v Hi]. by vm_compute in Hi.
  - vm_compute. eauto.
  - vm_compute. eauto.
  - vm_compute. eauto.
Defined.
