(* ===== verification/Artifacts.v ===== *)
(** * Artifact commits
    (services/artifact-service/artifact_service: service.py, metadata/repository.py and
    storage/object_store.py)

    [commit_artifact] uploads the bytes, then inserts the metadata row; a row that already
    exists for the (task, type, slot) is returned instead. *)

From S2P Require Import Prelude Enums Contracts Breaker Database Scenario.
Local Open Scope Z_scope.

Record CommitResult := mkCommitResult { cr_artifact : Artifact.t; newly_created : bool }.

(** The [WHERE] of [find_committed]. *)
Definition at_slot (task_id : EntityId) (artifact_type : ArtifactType.t) (slot : string)
    (a : Artifact.t) : bool :=
  bool_decide (Artifact.task_id a = task_id) &&
  bool_decide (Artifact.artifact_type a = artifact_type) &&
  bool_decide (Artifact.logical_output_slot a = slot).

(** [find_committed(session, task_id=.., artifact_type=.., logical_output_slot=..)] *)
Definition find_committed (task_id : EntityId) (artifact_type : ArtifactType.t) (slot : string) :
    M (option Artifact.t) :=
  rows ← asks_db (λ d, select (at_slot task_id artifact_type slot) (DB.artifacts d));
  scalar_one_or_none rows.

Section artifacts.
Context `{Env}.

(** [ObjectStore.put_object(key, body, content_type)]: the object is stored under the URI it
    returns. *)
Definition put_object (key content : string) : M string := λ w,
  let w := set_puts (S (w_puts w)) w in
  let uri := "s3://" +:+ bucket +:+ "/" +:+ key in
  if object_put_ok (pred (w_puts w)) then (Ret uri, set_objects (<[uri := content]> (w_objects w)) w)
  else (Raise (OperationalError "put_object"), w).

(** The insert with its fallback: the part of [commit_artifact] that runs after the upload. *)
Definition insert_or_existing (artifact : Artifact.t) : M CommitResult :=
  try_except
    (_ ← begin_nested (insert_artifact artifact);
     mret (mkCommitResult artifact true))
    (λ e,
      if is_integrity_error e then Some (
        existing ← after_integrity_error (find_committed (Artifact.task_id artifact)
                     (Artifact.artifact_type artifact) (Artifact.logical_output_slot artifact));
        match existing with
        | None => raise e
        | Some a => mret (mkCommitResult a false)
        end)
      else None).

(** [commit_artifact(...)]; the row's id comes from the column default. *)
Definition commit_artifact (tenant_id mission_id task_id agent_id agent_version_id : EntityId)
    (artifact_type : ArtifactType.t) (title content mime_type slot : string)
    (metadata : list (string * json)) : M CommitResult :=
  existing ← find_committed task_id artifact_type slot;
  match existing with
  | Some a => mret (mkCommitResult a false)
  | None =>
      let content_hash := sha256_hex content in
      let storage_key :=
        pretty tenant_id +:+ "/" +:+ pretty mission_id +:+ "/" +:+ pretty task_id +:+ "/" +:+
        value artifact_type +:+ "/" +:+ slot +:+ "/v1-" +:+ String.substring 0 16 content_hash in
      storage_uri ← put_object storage_key content;
      i ← new_id;
      created_at ← utc;
      insert_or_existing
        (Artifact.mk i tenant_id mission_id task_id agent_id agent_version_id artifact_type slot
           title storage_uri content_hash mime_type 1 metadata created_at)
  end.
End artifacts.

(** ** The table's invariant *)

(** [uq_artifacts_idempotent_commit], and every row is version 1. *)
Record artifacts_ok (d : DB.t) : Prop := {
  artifacts_unique : ∀ k1 k2 a1 a2, DB.artifacts d !! k1 = Some a1 → DB.artifacts d !! k2 = Some a2 →
    same_artifact_key a1 a2 = true → k1 = k2;
  artifacts_v1 : ∀ k a, DB.artifacts d !! k = Some a → Artifact.version a = 1;
}.

Lemma at_slot_spec t ty s a :
  at_slot t ty s a = true ↔
  Artifact.task_id a = t ∧ Artifact.artifact_type a = ty ∧ Artifact.logical_output_slot a = s.
Proof. unfold at_slot. rewrite !andb_true_iff, !bool_decide_eq_true. tauto. Qed.

Lemma same_artifact_key_spec a b :
  same_artifact_key a b = true ↔
  Artifact.task_id a = Artifact.task_id b ∧ Artifact.artifact_type a = Artifact.artifact_type b ∧
  Artifact.logical_output_slot a = Artifact.logical_output_slot b ∧
  Artifact.version a = Artifact.version b.
Proof. unfold same_artifact_key. rewrite !andb_true_iff, !bool_decide_eq_true. tauto. Qed.

(** At most one row per slot. *)
Lemma slot_unique d t ty s k1 k2 a1 a2 :
  artifacts_ok d → DB.artifacts d !! k1 = Some a1 → DB.artifacts d !! k2 = Some a2 →
  at_slot t ty s a1 = true → at_slot t ty s a2 = true → k1 = k2.
Proof.
  intros [Hu Hv] H1 H2 P1%at_slot_spec P2%at_slot_spec. eapply Hu; [done..|].
  apply same_artifact_key_spec. rewrite (Hv _ _ H1), (Hv _ _ H2). naive_solver.
Qed.

(** [find_committed] never finds two rows, and finds the one there is. *)
Lemma find_committed_spec t ty s w :
  artifacts_ok (w_db w) →
  wp (find_committed t ty s) w
    (λ r w', w' = w ∧
       match r with
       | None => ∀ k a, DB.artifacts (w_db w) !! k = Some a → at_slot t ty s a = false
       | Some a => at_slot t ty s a = true ∧ ∃ k, DB.artifacts (w_db w) !! k = Some a
       end)
    (λ _ _, False).
Proof.
  intros Hok. unfold find_committed. apply wp_bind, wp_asks.
  pose proof (select_at_most_one (at_slot t ty s) (DB.artifacts (w_db w))
    (λ k1 k2 a1 a2 H1 H2 P1 P2, slot_unique _ _ _ _ k1 k2 a1 a2 Hok H1 H2 P1 P2)) as Hsel.
  unfold scalar_one_or_none. by destruct (select _ _) as [|a [|]].
Qed.

(** A row found under its slot is what [find_committed] returns. *)
Lemma find_committed_found t ty s k a w :
  artifacts_ok (w_db w) → DB.artifacts (w_db w) !! k = Some a → at_slot t ty s a = true →
  find_committed t ty s w = (Ret (Some a), w).
Proof.
  intros Hok Hk Ha. pose proof (find_committed_spec t ty s w Hok) as Hf. unfold wp in Hf.
  destruct (find_committed t ty s w) as [[[a'|]|e] w']; [| |done].
  - destruct Hf as [-> [Ha' [k' Hk']]].
    assert (k' = k) as -> by (by eapply slot_unique). congruence.
  - destruct Hf as [-> Hn]. specialize (Hn k a Hk). congruence.
Qed.

(** An insert that is not refused adds its row and keeps the invariant. *)
Lemma insert_artifact_spec r w :
  artifacts_ok (w_db w) → Artifact.version r = 1 →
  wp (insert_artifact r) w
    (λ _ w', w' = set_db (DB.upd_artifacts (<[Artifact.id r := r]>) (w_db w)) w ∧
             artifacts_ok (w_db w'))
    (λ e w', w' = w ∧ is_integrity_error e = true).
Proof.
  intros [Hu Hv] Hr.
  unfold insert_artifact, wp, integrity, is_present, asks_db, asks, modify_db, modify,
    mbind, ST_bind, mret, ST_ret, raise, id; simpl.
  repeat (case_bool_decide; simpl; try done).
  destruct (exists_row _ _) eqn:He; simpl; [done|]. rewrite exists_row_false in He.
  assert (DB.artifacts (w_db w) !! Artifact.id r = None) as Hnone by (by apply eq_None_not_Some).
  split; [done|]. constructor; simpl.
  - intros k1 k2 a1 a2 [[<- <-]|[Hn1 Hk1]]%lookup_insert_Some
      [[<- <-]|[Hn2 Hk2]]%lookup_insert_Some; [done|..]; intros Hs.
    + apply He in Hk2. apply same_artifact_key_spec in Hs.
      assert (same_artifact_key a2 r = true) by (apply same_artifact_key_spec; naive_solver). congruence.
    + apply He in Hk1. congruence.
    + by eapply Hu.
  - intros k a [[<- <-]|[_ Ha]]%lookup_insert_Some; [done|by eapply Hv].
Qed.

Section commit_lemmas.
Context `{Env}.

(** The insert step: a new row, the row that was already there, or an exception that leaves
    the table as it was. *)
Lemma insert_or_existing_spec r w :
  artifacts_ok (w_db w) → Artifact.version r = 1 →
  wp (insert_or_existing r) w
    (λ c w', artifacts_ok (w_db w') ∧ w_objects w' = w_objects w ∧
       at_slot (Artifact.task_id r) (Artifact.artifact_type r) (Artifact.logical_output_slot r)
         (cr_artifact c) = true ∧
       if newly_created c
       then cr_artifact c = r ∧ DB.artifacts (w_db w') = <[Artifact.id r := r]> (DB.artifacts (w_db w))
       else w' = w ∧ ∃ k, DB.artifacts (w_db w) !! k = Some (cr_artifact c))
    (λ e w', w_db w' = w_db w).
Proof.
  intros Hok Hr. unfold insert_or_existing. apply wp_try, wp_bind.
  pose proof (insert_artifact_spec r w Hok Hr) as Hi. unfold wp at 1, begin_nested. unfold wp in Hi.
  destruct (insert_artifact r w) as [[[]|e] w1].
  - destruct Hi as [-> Hok1]. apply wp_ret. simpl. split_and!; try done. by apply at_slot_spec.
  - destruct Hi as [-> ->]. replace (set_db (w_db w) w) with w by (by destruct w).
    apply wp_bind. unfold after_integrity_error. destruct savepoint_recovers; [|by apply wp_raise].
    eapply wp_mono; [by apply find_committed_spec| |done].
    intros [a|] w' [-> Ha]; [|by apply wp_raise]. apply wp_ret. simpl. naive_solver.
Qed.
(** What a commit returns and leaves behind. *)
Lemma commit_artifact_spec tn m t ag av ty title content mime slot md w :
  artifacts_ok (w_db w) →
  wp (commit_artifact tn m t ag av ty title content mime slot md) w
    (λ c w', artifacts_ok (w_db w') ∧ at_slot t ty slot (cr_artifact c) = true ∧
       (∃ k, DB.artifacts (w_db w') !! k = Some (cr_artifact c)) ∧
       (newly_created c = true →
          w_objects w' !! Artifact.storage_uri (cr_artifact c) = Some content ∧
          Artifact.content_hash (cr_artifact c) = sha256_hex content))
    (λ e w', w_db w' = w_db w).
Proof.
  intros Hok. unfold commit_artifact. apply wp_bind.
  eapply wp_mono; [by apply find_committed_spec| |done].
  intros [a|] w1 [-> Ha]; [apply wp_ret; simpl; naive_solver|].
  apply wp_bind. unfold wp at 1, put_object. simpl. destruct (object_put_ok _); [|done].
  apply wp_bind. unfold wp at 1, new_id. simpl. apply wp_bind. unfold wp at 1, utc. simpl.
  match goal with |- wp (insert_or_existing ?r) ?w2 _ _ =>
    pose proof (insert_or_existing_spec r w2 Hok eq_refl) as Hi end.
  eapply wp_mono; [exact Hi| |done].
  intros c w' (Hok' & Ho & Hs & Hc). simpl in *. split_and!; try done.
  - destruct (newly_created c); [|naive_solver]. destruct Hc as [-> ->]. eexists.
    by rewrite lookup_insert_eq.
  - intros Hn. rewrite Hn in Hc. destruct Hc as [-> _]. simpl. rewrite Ho.
    by rewrite lookup_insert_eq.
Qed.
End commit_lemmas.

(** ** Theorems *)

Section artifact_theorems.
Context `{Env}.

(** C12: an artifact row is written only after its bytes are stored: if [commit_artifact]
    reports a new artifact, the object store holds the content under the row's URI and the
    row carries the content's hash; if it raises (an upload or an insert that failed), the
    artifacts are what they were; at most one row per slot, always. *)
Theorem commit_artifact_stores_before_claiming tn m t ag av ty title content mime slot md w :
  artifacts_ok (w_db w) →
  wp (commit_artifact tn m t ag av ty title content mime slot md) w
    (λ c w', artifacts_ok (w_db w') ∧ at_slot t ty slot (cr_artifact c) = true ∧
       (∃ k, DB.artifacts (w_db w') !! k = Some (cr_artifact c)) ∧
       (newly_created c = true →
          w_objects w' !! Artifact.storage_uri (cr_artifact c) = Some content ∧
          Artifact.content_hash (cr_artifact c) = sha256_hex content))
    (λ e w', w_db w' = w_db w).
Proof. apply commit_artifact_spec. Qed.

(** C11: commits are idempotent. Once a slot's artifact is committed, every later
    [commit_artifact] for that slot, from any world that still has the row and whatever the
    new content, returns that same row, reports nothing new and changes nothing, the object
    store included. *)
Theorem commit_artifact_idempotent tn m t ag av ty title content mime slot md k a w :
  artifacts_ok (w_db w) → DB.artifacts (w_db w) !! k = Some a → at_slot t ty slot a = true →
  commit_artifact tn m t ag av ty title content mime slot md w = (Ret (mkCommitResult a false), w).
Proof.
  intros Hok Hk Ha. unfold commit_artifact, mbind, ST_bind.
  by rewrite (find_committed_found t ty slot k a w Hok Hk Ha).
Qed.

(** The race the unique constraint resolves. If another session commits the slot's row
    between the check and the insert, the insert adds nothing: the loser returns the winner's
    row when the session can go on after the savepoint, and raises when it first needs a
    rollback, which [commit_artifact] does not issue. *)
Theorem commit_artifact_race r k a w :
  artifacts_ok (w_db w) → Artifact.version r = 1 → DB.artifacts (w_db w) !! k = Some a →
  at_slot (Artifact.task_id r) (Artifact.artifact_type r) (Artifact.logical_output_slot r) a = true →
  insert_or_existing r w =
    (if savepoint_recovers then Ret (mkCommitResult a false) else Raise PendingRollbackError, w).
Proof.
  intros Hok Hr Hk Ha. unfold insert_or_existing, try_except, mbind at 1, ST_bind at 1, begin_nested.
  assert (∃ c, insert_artifact r w = (Raise (IntegrityError c), w)) as [c ->].
  { pose proof (insert_artifact_spec r w Hok Hr) as Hi. unfold wp in Hi.
    destruct (insert_artifact r w) as [[[]|e] w'] eqn:Hins.
    - destruct Hi as [-> [Hu Hv]]. exfalso. revert Hins.
      unfold insert_artifact, integrity, is_present, asks_db, asks, modify_db, modify,
        mbind, ST_bind, mret, ST_ret, raise, id; simpl.
      assert (exists_row (λ a, same_artifact_key a r) (DB.artifacts (w_db w)) = true) as ->.
      { apply exists_row_true. exists k, a. split; [done|]. apply at_slot_spec in Ha.
        apply same_artifact_key_spec. rewrite Hr, (artifacts_v1 _ Hok _ _ Hk). naive_solver. }
      by repeat (case_bool_decide; simpl; try done).
    - destruct Hi as [-> He]. destruct e; try done. eauto. }
  simpl. replace (set_db (w_db w) w) with w by (by destruct w).
  unfold mbind, ST_bind, after_integrity_error. destruct savepoint_recovers; [|done].
  by rewrite (find_committed_found _ _ _ k a w Hok Hk Ha).
Qed.
End artifact_theorems.

(** ** Witnesses: the sample task's output, not yet committed and committed as row 90 *)

Definition sample_artifact : Artifact.t :=
  Artifact.mk 90 1 6 7 4 5 ArtifactType.mission_output "primary" "Report" "s3://artifacts/x" "hok"
    "application/json" 1 [] 0.

Definition sample_world_committed : World :=
  world_of (DB.upd_artifacts (<[90%positive := sample_artifact]>) sample_db).

Lemma artifacts_ok_empty d : DB.artifacts d = ∅ → artifacts_ok d.
Proof. intros Hd. constructor; intros *; rewrite Hd, lookup_empty; done. Qed.

Lemma artifacts_ok_sample : artifacts_ok sample_db.
Proof. by apply artifacts_ok_empty. Qed.

Lemma artifacts_ok_sample_committed : artifacts_ok (w_db sample_world_committed).
Proof.
  constructor; simpl.
  - intros k1 k2 a1 a2 [[<- _]|[_ Hk]]%lookup_insert_Some; [|by rewrite lookup_empty in Hk].
    intros [[<- _]|[_ Hk]]%lookup_insert_Some; [done|by rewrite lookup_empty in Hk].
  - intros k a [[_ <-]|[_ Hk]]%lookup_insert_Some; [done|by rewrite lookup_empty in Hk].
Qed.

Lemma commit_artifact_stores_before_claiming_witness :
  wp (commit_artifact 1 6 7 4 5 ArtifactType.mission_output "Report" "ok" "application/json"
        "primary" []) sample_world
    (λ c w', artifacts_ok (w_db w') ∧
       at_slot 7 ArtifactType.mission_output "primary" (cr_artifact c) = true ∧
       (∃ k, DB.artifacts (w_db w') !! k = Some (cr_artifact c)) ∧
       (newly_created c = true →
          w_objects w' !! Artifact.storage_uri (cr_artifact c) = Some "ok" ∧
          Artifact.content_hash (cr_artifact c) = "hok"))
    (λ e w', w_db w' = w_db sample_world).
Proof.
  exact (commit_artifact_stores_before_claiming 1 6 7 4 5 ArtifactType.mission_output "Report" "ok"
           "application/json" "primary" [] sample_world artifacts_ok_sample).
Defined.

Lemma commit_artifact_idempotent_witness :
  commit_artifact 1 6 7 4 5 ArtifactType.mission_output "Other" "different" "text/plain" "primary" []
    sample_world_committed = (Ret (mkCommitResult sample_artifact false), sample_world_committed).
Proof.
  apply (commit_artifact_idempotent 1 6 7 4 5 ArtifactType.mission_output "Other" "different"
           "text/plain" "primary" [] 90 sample_artifact sample_world_committed);
    [apply artifacts_ok_sample_committed | reflexivity | reflexivity].
Defined.

Lemma commit_artifact_race_witness :
  insert_or_existing
    (Artifact.mk 91 1 6 7 4 5 ArtifactType.mission_output "primary" "Late" "u" "h" "text/plain" 1 [] 0)
    sample_world_committed = (Raise PendingRollbackError, sample_world_committed).
Proof.
  refine (commit_artifact_race
    (Artifact.mk 91 1 6 7 4 5 ArtifactType.mission_output "primary" "Late" "u" "h" "text/plain" 1 [] 0)
    90 sample_artifact sample_world_committed artifacts_ok_sample_committed _ _ _); reflexivity.
Defined.
