(* ===== verification/Executor.v ===== *)
(** * Task execution
    (services/mission-engine/mission_engine/engine/task_executor.py)

    [execute_task] runs one task to an end: fresh, retried or resumed from a checkpoint,
    with one repair attempt when the output fails validation. Expected failures end with the
    task and its mission marked failed; only infrastructure failures raise. *)

From Stdlib Require Import Floats.
From S2P Require Import Prelude Enums Contracts Budgets Telemetry Breaker Database Scenario Gateway Ledger.
From S2P Require Import Checkpoints Adapter Artifacts.
Local Open Scope Z_scope.

(** The rows [execute_task] loads. *)
Record Loaded := mkLoaded {
  ld_task : Task.t;
  ld_mission : Mission.t;
  ld_agent : Agent.t;
  ld_version : AgentVersion.t;
  ld_policy : option ModelPolicy.t;
}.

Definition ld_task_id (l : Loaded) : EntityId := Task.id (ld_task l).
Definition ld_mission_id (l : Loaded) : EntityId := Mission.id (ld_mission l).

Section executor.
Context `{Env}.
Variable gw : ModelGateway.

(** The lookups at the top of [execute_task]. *)
Definition load_task (task_id : EntityId) : M Loaded :=
  task ← get_row DB.tasks task_id;
  match task with
  | None => raise (TaskExecutionError ("Task " +:+ pretty task_id +:+ " does not exist."))
  | Some task =>
      mission ← get_row DB.missions (Task.mission_id task);
      agent ← get_row DB.agents (Task.assigned_agent_id task);
      let unresolved := TaskExecutionError
        ("Task " +:+ pretty task_id +:+ " has no resolvable mission/agent/active version.") in
      match mission, agent with
      | Some mission, Some agent =>
          match Agent.active_version_id agent with
          | None => raise unresolved
          | Some version_id =>
              agent_version ← get_row DB.agent_versions version_id;
              match agent_version with
              | None => raise (AttributeError "model_policy_id")
              | Some agent_version =>
                  model_policy ← get_row DB.model_policies (AgentVersion.model_policy_id agent_version);
                  mret (mkLoaded task mission agent agent_version model_policy)
              end
          end
      | _, _ => raise unresolved
      end
  end.

(** [_publish(deps, session, event_type, mission, task, agent, correlation_id, actor, data)] *)
Definition publish_event (l : Loaded) (event_type : EventType.t) (data : list (string * json)) :
    M unit :=
  i ← new_id;
  now ← utc;
  publish (build_event i now event_type (Mission.tenant_id (ld_mission l)) (ld_mission_id l)
             (mkActor ActorType.agent (Some (Agent.id (ld_agent l)))) "mission-engine" None
             (Some (ld_mission_id l)) (Some (ld_task_id l)) (Some (Agent.id (ld_agent l))) data).

(** [_fail(..., reason)] *)
Definition fail (l : Loaded) (reason : string) : M unit :=
  now ← utc;
  _ ← update_task (ld_task_id l) (λ t, Task.set_completed_at (Some now) (Task.set_status TaskStatus.failed t));
  _ ← publish_event l EventType.task_failed [("reason", JStr reason)];
  now ← utc;
  _ ← update_mission (ld_mission_id l)
        (λ m, Mission.set_completed_at (Some now) (Mission.set_status MissionStatus.failed m));
  publish_event l EventType.mission_failed [("reason", JStr reason)].

(** [_model_completed_data(telemetry)] *)
Definition model_completed_data (t : ModelInvocationTelemetry) : list (string * json) :=
  [("provider", JStr (tel_provider t)); ("model", JStr (tel_model t))] ++
  (if tel_usage_estimated t then [("usage_estimated", JBool true)] else []).

(** The status and retry bookkeeping up to [await session.flush()]. *)
Definition mark_running (l : Loaded) (existing_checkpoint : option Checkpoint) : M unit :=
  let task := ld_task l in
  let found_running := bool_decide (Task.status task = TaskStatus.running) in
  let is_first_attempt :=
    (Task.retry_count task =? 0) && bool_decide (existing_checkpoint = None) && negb found_running in
  _ ← update_task (ld_task_id l) (Task.set_status TaskStatus.running);
  if is_first_attempt then
    now ← utc;
    _ ← update_task (ld_task_id l) (Task.set_started_at (Some now));
    publish_event l EventType.task_started []
  else
    let retry_count := if found_running then Task.retry_count task else Task.retry_count task + 1 in
    _ ← update_task (ld_task_id l) (Task.set_retry_count retry_count);
    publish_event l EventType.task_retry_started [("retry_count", JInt retry_count)].

(** The [RunContext] of the run. *)
Definition run_context (l : Loaded) : outcome exn RunContext :=
  match ld_policy l with
  | None => Raise (AttributeError "primary_provider")
  | Some mp =>
      Ret (mkRunContext (Mission.tenant_id (ld_mission l)) (ld_mission_id l) (ld_task_id l)
             (Agent.id (ld_agent l)) (AgentVersion.id (ld_version l)) (ld_mission_id l)
             (AgentVersion.system_prompt (ld_version l)) (Mission.objective (ld_mission l))
             (Task.instructions (ld_task l)) (AgentVersion.tool_policy (ld_version l))
             (Task.budget_policy (ld_task l)) (Task.input_context (ld_task l))
             (ModelPolicy.primary_provider mp) (ModelPolicy.primary_model mp))
  end.

Definition task_adapter (l : Loaded) (attempt_started_at : Z) : DurableAgentRuntimeAdapter :=
  sql_adapter gw
    (mkUsageProvider (Mission.tenant_id (ld_mission l)) (ld_mission_id l) (ld_task_id l)
       (Agent.id (ld_agent l)) attempt_started_at).

(** The first [try] block: [None] when a handler failed the task and [execute_task]
    returns. *)
Definition first_run (l : Loaded) (ad : DurableAgentRuntimeAdapter) (context : RunContext)
    (existing_checkpoint : option Checkpoint) : M (option RunResult) :=
  try_except
    (result ←
       match existing_checkpoint with
       | Some c =>
           _ ← publish_event l EventType.runtime_recovered [];
           _ ← when (bool_decide (stage_of (cp_state c) = Some "prompt_assembled"))
                 (publish_event l EventType.model_requested []);
           resume ad c
       | None =>
           handle ← initialize_run context;
           _ ← publish_event l EventType.model_requested [];
           execute ad handle
       end;
     mret (Some result))
    (λ e,
      match e with
      | BudgetExceededError _ _ => Some (
          _ ← publish_event l EventType.budget_exceeded [("reason", JStr (str_exn e))];
          _ ← fail l (str_exn e);
          mret None)
      | _ =>
          if is_gateway_error e then Some (
            _ ← publish_event l EventType.model_failed [("error", JStr (str_exn e))];
            _ ← fail l (str_exn e);
            mret None)
          else None
      end).

(** The events of a finished run, and the commit behind them. *)
Definition report_run (l : Loaded) (result : RunResult) : M unit :=
  _ ← match res_model_telemetry result with
      | Some t => publish_event l EventType.model_completed (model_completed_data t)
      | None => mret tt
      end;
  _ ← match res_final_checkpoint result with
      | Some c => publish_event l EventType.runtime_checkpoint_created
                    [("sequence", JInt (cp_sequence c))]
      | None => mret tt
      end;
  commit.

(** [validate_mission_output(text)]; [json.loads(None)] is a [TypeError]. *)
Definition validate_output (text : option string) : M (option MissionOutput * option string) :=
  match text with
  | None => raise (TypeError "the JSON object must be str, bytes or bytearray, not NoneType")
  | Some s => mret (validate_mission_output s)
  end.

Definition repair_instruction (error : string) : string :=
  newline +:+ newline +:+ "Your previous answer was rejected by the output validator: " +:+ error
  +:+ newline +:+ "Re-answer now with a single corrected JSON object that matches the OUTPUT "
  +:+ "CONTRACT exactly. Do not include any text outside the JSON object.".

(** [context.model_copy(update={"task_instructions": ...})] *)
Definition with_instructions (s : string) (c : RunContext) : RunContext :=
  mkRunContext (ctx_tenant_id c) (ctx_mission_id c) (ctx_task_id c) (ctx_agent_id c)
    (ctx_agent_version_id c) (ctx_correlation_id c) (ctx_system_prompt c) (ctx_mission_objective c)
    s (ctx_tool_policy c) (ctx_budget_policy c) (ctx_available_context c) (ctx_model_provider c)
    (ctx_model_name c).

(** The artifact of this task, in its primary slot. *)
Definition commit_task_artifact (l : Loaded) (ty : ArtifactType.t) (title content mime : string) :
    M CommitResult :=
  commit_artifact (Mission.tenant_id (ld_mission l)) (ld_mission_id l) (ld_task_id l)
    (Agent.id (ld_agent l)) (AgentVersion.id (ld_version l)) ty title content mime "primary" [].

(** The [if parsed is None] block: the repaired text with its parse, or [None] when the task
    was failed. *)
Definition repair (l : Loaded) (ad : DurableAgentRuntimeAdapter) (context : RunContext)
    (error : string) : M (option (string * MissionOutput)) :=
  handle ← initialize_run
    (with_instructions (ctx_task_instructions context +:+ repair_instruction error) context);
  _ ← publish_event l EventType.model_requested [("repair_attempt", JBool true)];
  repair_result ← try_except
    (r ← execute ad handle; mret (Some r))
    (λ e, if is_expected_error e then Some (
            _ ← fail l ("repair attempt failed: " +:+ str_exn e);
            mret None)
          else None);
  match repair_result with
  | None => mret None
  | Some r =>
      _ ← match res_model_telemetry r with
          | Some t =>
              _ ← publish_event l EventType.model_completed
                    (model_completed_data t ++ [("repair_attempt", JBool true)]);
              commit
          | None => mret tt
          end;
      v ← validate_output (res_output_text r);
      match v.1 with
      | Some parsed => mret (Some (default "" (res_output_text r), parsed))
      | None =>
          _ ← commit_task_artifact l ArtifactType.raw_model_response
                (Task.title (ld_task l) +:+ " (invalid output)") (default "" (res_output_text r))
                "text/plain";
          _ ← fail l ("Output failed validation even after repair: " +:+ default "None" v.2);
          mret None
      end
  end.

(** From a valid output to the completed task and mission. *)
Definition complete (l : Loaded) (final_text : string) (parsed : MissionOutput) : M unit :=
  commit_result ← commit_task_artifact l ArtifactType.mission_output (out_title parsed) final_text
                    "application/json";
  _ ← when (newly_created commit_result)
        (publish_event l EventType.artifact_created
           [("artifact_id", JStr (pretty (Artifact.id (cr_artifact commit_result))))]);
  _ ← update_task (ld_task_id l)
        (Task.set_output_artifact_id (Some (Artifact.id (cr_artifact commit_result))));
  _ ← commit;
  now ← utc;
  _ ← update_task (ld_task_id l)
        (λ t, Task.set_completed_at (Some now) (Task.set_status TaskStatus.completed t));
  _ ← publish_event l EventType.task_completed [];
  now ← utc;
  _ ← update_mission (ld_mission_id l)
        (λ m, Mission.set_completed_at (Some now) (Mission.set_status MissionStatus.completed m));
  publish_event l EventType.mission_completed [].

(** Everything after the first run. *)
Definition finish_task (l : Loaded) (ad : DurableAgentRuntimeAdapter) (context : RunContext)
    (result : RunResult) : M unit :=
  _ ← report_run l result;
  v ← validate_output (res_output_text result);
  match v.1 with
  | Some parsed => complete l (default "" (res_output_text result)) parsed
  | None =>
      r ← repair l ad context (default "None" v.2);
      match r with
      | None => mret tt
      | Some (text, parsed) => complete l text parsed
      end
  end.

(** [execute_task(session, deps, task_id)] *)
Definition execute_task (task_id : EntityId) : M unit :=
  attempt_started_at ← utc;
  l ← load_task task_id;
  existing_checkpoint ← latest_for_task task_id;
  _ ← mark_running l existing_checkpoint;
  context ← lift (run_context l);
  let ad := task_adapter l attempt_started_at in
  r ← first_run l ad context existing_checkpoint;
  match r with
  | None => mret tt
  | Some result => finish_task l ad context result
  end.
End executor.

(** ** What every step of an execution preserves *)

(** A session step of the engine: it keeps the write-ahead invariant and the artifact
    table's, and deletes or re-parents no task and no mission. *)
Record safe_step (w w' : World) : Prop := {
  ss_wal : wal w → wal w';
  ss_artifacts : artifacts_ok (w_db w) → artifacts_ok (w_db w');
  ss_tasks : ∀ k t, DB.tasks (w_db w) !! k = Some t →
    ∃ t', DB.tasks (w_db w') !! k = Some t' ∧ Task.id t' = Task.id t ∧
          Task.mission_id t' = Task.mission_id t;
  ss_missions : ∀ k, is_Some (DB.missions (w_db w) !! k) → is_Some (DB.missions (w_db w') !! k);
}.

#[global] Instance safe_step_preorder : PreOrder safe_step.
Proof.
  split.
  - intros w. constructor; eauto.
  - intros w1 w2 w3 [A1 B1 C1 D1] [A2 B2 C2 D2]. constructor; eauto.
    intros k t Hk. destruct (C1 k t Hk) as (t' & Hk' & E1 & E2).
    destruct (C2 k t' Hk') as (t'' & Hk'' & F1 & F2). exists t''. split_and!; congruence.
Qed.

(** What [safe_step] looks at. *)
Definition engine_obs (w : World) :=
  (wal_obs w, DB.tasks (w_db w), DB.missions (w_db w), DB.artifacts (w_db w)).

Lemma safe_step_obs w w' :
  wal_obs w = wal_obs w' → DB.tasks (w_db w) = DB.tasks (w_db w') →
  DB.missions (w_db w) = DB.missions (w_db w') → DB.artifacts (w_db w) = DB.artifacts (w_db w') →
  safe_step w w'.
Proof.
  intros E1 E2 E3 E4. constructor.
  - by apply wal_obs_eq.
  - intros [Hu Hv]. constructor; rewrite <- E4; done.
  - rewrite <- E2. eauto.
  - by rewrite <- E3.
Qed.

Lemma safe_same {A} (m : M A) : tracks (same engine_obs) m → tracks safe_step m.
Proof.
  apply tracks_impl. intros w w' Hs. unfold same, engine_obs in Hs.
  injection Hs as E1 E2 E3 E4 E5 E6 E7 E8. apply safe_step_obs; unfold wal_obs; congruence.
Qed.

Section safe_steps.
Context `{Env}.

Lemma new_id_safe : tracks safe_step new_id.
Proof. intros w. constructor; simpl; [apply wal_set_next_id|done|eauto|done]. Qed.

Lemma utc_safe : tracks safe_step utc.
Proof. by apply safe_same. Qed.

Lemma commit_safe : tracks safe_step commit.
Proof.
  intros w. assert (w_db (exec commit w) = w_db w) as Hd.
  { unfold exec, commit. by destruct (commit_ok _). }
  constructor; rewrite ?Hd; eauto using commit_wal.
Qed.

Lemma publish_safe ev : tracks safe_step (publish ev).
Proof. apply safe_same. intros w. unfold same, exec, publish. simpl. by destruct (redis_ok _). Qed.

Lemma update_task_safe k f :
  (∀ t, Task.id (f t) = Task.id t ∧ Task.mission_id (f t) = Task.mission_id t) →
  tracks safe_step (update_task k f).
Proof.
  intros Hf w. constructor; try done; [by apply wal_obs_eq| |].
  - intros [Hu Hv]. by constructor.
  - intros k' t Hk'. simpl. rewrite lookup_alter. case_decide; subst; rewrite Hk'; simpl.
    + exists (f t). split; [done|]. apply Hf.
    + by exists t.
Qed.

Lemma update_mission_safe k f : tracks safe_step (update_mission k f).
Proof.
  intros w. constructor; simpl; eauto.
  - by apply wal_obs_eq.
  - intros [Hu Hv]. by constructor.
  - intros k' Hk'. rewrite lookup_alter. case_decide; [|done]. subst. by apply fmap_is_Some.
Qed.

Lemma generate_safe p gw request policy usage is_retry :
  tracks safe_step (generate gw request policy usage is_retry (Some (sql_ledger p))).
Proof.
  intros w. pose proof (generate_frame p gw request policy usage is_retry w) as [_ Hv _ _ _].
  pose proof (generate_wal (sql_ledger p) gw request policy usage is_retry w) as Hw.
  set (w' := exec _ w) in *.
  pose proof (f_equal DB.tasks Hv) as Ht. pose proof (f_equal DB.missions Hv) as Hm.
  pose proof (f_equal DB.artifacts Hv) as Ha. simpl in *.
  constructor; [exact Hw|..].
  - intros [Hu Hv1]. constructor; rewrite Ha; done.
  - rewrite Ht. eauto.
  - by rewrite Hm.
Qed.

Lemma save_safe c : tracks safe_step (save c).
Proof.
  unfold save. tracks_auto; [apply new_id_safe| |apply commit_safe].
  apply safe_same. unfold insert_checkpoint. tracks_auto.
Qed.

Lemma put_object_safe key content : tracks safe_step (put_object key content).
Proof. apply safe_same. intros w. unfold same, exec, put_object. by destruct (object_put_ok _). Qed.

Lemma insert_artifact_quiet a :
  tracks (same (λ w, (wal_obs w, DB.tasks (w_db w), DB.missions (w_db w)))) (insert_artifact a).
Proof. unfold insert_artifact. tracks_auto. Qed.

Lemma insert_or_existing_safe a : Artifact.version a = 1 → tracks safe_step (insert_or_existing a).
Proof.
  intros Ha w.
  assert (tracks (same (λ w, (wal_obs w, DB.tasks (w_db w), DB.missions (w_db w))))
            (insert_or_existing a)) as Hq.
  { unfold insert_or_existing. apply tracks_try; [apply _| |].
    - apply tracks_bind; [apply _| |intros; apply tracks_ret, _].
      intros w'. pose proof (insert_artifact_quiet a w') as Hi. unfold exec, begin_nested in *.
      destruct (insert_artifact a w') as [[] w'']; [done|]. unfold same, wal_obs in *. simpl in *.
      congruence.
    - intros e k Hk. case_match; simplify_eq. unfold after_integrity_error, find_committed.
      tracks_auto. }
  specialize (Hq w). unfold same, wal_obs in Hq. constructor.
  - apply wal_obs_eq. unfold wal_obs. congruence.
  - intros Hok. pose proof (insert_or_existing_spec a w Hok Ha) as Hs. unfold wp, exec in *.
    destruct (insert_or_existing a w) as [[c|e] w']; simpl in *; [apply Hs|by rewrite Hs].
  - replace (DB.tasks (w_db (exec (insert_or_existing a) w))) with (DB.tasks (w_db w)) by congruence. eauto.
  - by replace (DB.missions (w_db (exec (insert_or_existing a) w)))
      with (DB.missions (w_db w)) by congruence.
Qed.

Lemma commit_artifact_safe tn m t ag av ty title content mime slot md :
  tracks safe_step (commit_artifact tn m t ag av ty title content mime slot md).
Proof.
  unfold commit_artifact, find_committed. tracks_auto.
  - apply put_object_safe.
  - apply new_id_safe.
  - apply utc_safe.
  - by apply insert_or_existing_safe.
Qed.
End safe_steps.
#[export] Hint Resolve new_id_safe utc_safe commit_safe publish_safe update_mission_safe
  generate_safe save_safe commit_artifact_safe : tracks.
#[export] Hint Extern 1 (tracks safe_step (update_task _ _)) =>
  (apply update_task_safe; intros; split; reflexivity) : tracks.

Section execution_safe.
Context `{Env} (gw : ModelGateway).

Lemma publish_event_safe l ty data : tracks safe_step (publish_event l ty data).
Proof. unfold publish_event. tracks_auto. Qed.
#[local] Hint Resolve publish_event_safe : tracks.

Lemma fail_safe l reason : tracks safe_step (fail l reason).
Proof. unfold fail. tracks_auto. Qed.
#[local] Hint Resolve fail_safe : tracks.

Lemma call_model_safe p run c : tracks safe_step (call_model_and_checkpoint (sql_adapter gw p) run c).
Proof.
  unfold call_model_and_checkpoint. simpl. tracks_auto.
  apply safe_same. unfold usage_for_task. tracks_auto.
Qed.

Lemma execute_safe p handle : tracks safe_step (execute (sql_adapter gw p) handle).
Proof.
  unfold execute. simpl. unfold latest_for_task. tracks_auto. apply call_model_safe.
Qed.

Lemma resume_safe p c : tracks safe_step (resume (sql_adapter gw p) c).
Proof. unfold resume. tracks_auto. apply call_model_safe. Qed.
#[local] Hint Resolve execute_safe resume_safe : tracks.

Lemma initialize_run_safe ctx : tracks safe_step (initialize_run ctx).
Proof. unfold initialize_run. tracks_auto. Qed.
#[local] Hint Resolve initialize_run_safe : tracks.

Lemma load_task_pure R `{!PreOrder R} tid : tracks R (load_task tid).
Proof. unfold load_task. tracks_auto. Qed.

Lemma mark_running_safe l c : tracks safe_step (mark_running l c).
Proof. unfold mark_running. tracks_auto. Qed.

Lemma first_run_safe l p ctx c : tracks safe_step (first_run l (sql_adapter gw p) ctx c).
Proof.
  unfold first_run. apply tracks_try; [apply _|tracks_auto|].
  intros e k Hk. repeat case_match; simplify_eq; tracks_auto.
Qed.

Lemma complete_safe l text parsed : tracks safe_step (complete l text parsed).
Proof. unfold complete, commit_task_artifact. tracks_auto. Qed.

Lemma repair_safe l p ctx error : tracks safe_step (repair l (sql_adapter gw p) ctx error).
Proof.
  unfold repair, validate_output, commit_task_artifact. tracks_auto.
  apply tracks_try; [apply _|tracks_auto|].
  intros e k Hk. case_match; simplify_eq. tracks_auto.
Qed.

Lemma finish_task_safe l p ctx r : tracks safe_step (finish_task l (sql_adapter gw p) ctx r).
Proof.
  unfold finish_task, report_run, validate_output. tracks_auto;
    eauto using complete_safe, repair_safe.
Qed.

Lemma execute_task_safe tid : tracks safe_step (execute_task gw tid).
Proof.
  unfold execute_task, latest_for_task. tracks_auto;
    eauto using mark_running_safe, first_run_safe, finish_task_safe.
  apply load_task_pure, _.
Qed.
End execution_safe.

(** ** How an execution ends *)

(** The task and its mission are marked failed, and the audit trail says so. *)
Definition ended_failed (tid : EntityId) (d : DB.t) : Prop :=
  ∃ t m pre e1 e2, DB.tasks d !! tid = Some t ∧ DB.missions d !! Task.mission_id t = Some m ∧
    Task.status t = TaskStatus.failed ∧ Mission.status m = MissionStatus.failed ∧
    DB.audit_events d = pre ++ [e1; e2] ∧
    AuditEvent.event_type e1 = EventType.task_failed ∧ AuditEvent.task_id e1 = Some tid ∧
    AuditEvent.event_type e2 = EventType.mission_failed ∧
    AuditEvent.mission_id e2 = Some (Task.mission_id t).

(** The task and its mission are marked completed, the task names its output artifact, and
    that artifact is a committed row of the task's primary slot. *)
Definition ended_completed (tid : EntityId) (d : DB.t) : Prop :=
  ∃ t m a k, DB.tasks d !! tid = Some t ∧ DB.missions d !! Task.mission_id t = Some m ∧
    Task.status t = TaskStatus.completed ∧ Mission.status m = MissionStatus.completed ∧
    DB.artifacts d !! k = Some a ∧ Task.output_artifact_id t = Some (Artifact.id a) ∧
    at_slot tid ArtifactType.mission_output "primary" a = true.

(** The loaded rows are those of the view, up to the columns an execution assigns. *)
Definition loaded_in (l : Loaded) (w : World) : Prop :=
  artifacts_ok (w_db w) ∧ is_Some (DB.missions (w_db w) !! ld_mission_id l) ∧
  ∃ t, DB.tasks (w_db w) !! ld_task_id l = Some t ∧ Task.mission_id t = ld_mission_id l.

Lemma loaded_in_safe l w w' : safe_step w w' → loaded_in l w → loaded_in l w'.
Proof.
  intros [_ Ha Ht Hm] (Hok & Hmi & t & Hk & Hmid). split_and!; [auto..|].
  destruct (Ht _ _ Hk) as (t' & Hk' & _ & Hm'). exists t'. split; [done|congruence].
Qed.

Lemma tracks_loaded {A} l (m : M A) : tracks safe_step m → tracks (pres (loaded_in l)) m.
Proof. apply tracks_impl. intros w w' Hs. exact (loaded_in_safe l w w' Hs). Qed.

Section ending.
Context `{Env} (gw : ModelGateway).

(** The event's row joins the view; nothing else of the database changes. *)
Lemma publish_event_spec l ty data w :
  wp (publish_event l ty data) w
    (λ _ w', ∃ e, w_db w' = DB.upd_audit_events (λ a, a ++ [e]) (w_db w) ∧
       AuditEvent.event_type e = ty ∧ AuditEvent.task_id e = Some (ld_task_id l) ∧
       AuditEvent.mission_id e = Some (ld_mission_id l) ∧ w_committed w' = w_committed w)
    (λ _ _, False).
Proof.
  unfold publish_event, publish, wp. simpl. destruct (redis_ok _); simpl; eexists; by split_and!.
Qed.

Lemma fail_spec l reason w :
  loaded_in l w → wp (fail l reason) w (λ _ w', ended_failed (ld_task_id l) (w_db w')) (λ _ _, False).
Proof.
  intros (_ & [m Hm] & t & Ht & Hmid). unfold fail.
  apply wp_bind. unfold wp at 1, utc. apply wp_bind, wp_modify, wp_bind.
  eapply wp_mono; [apply publish_event_spec| |done]. simpl. intros ? w1 (e1 & Hd1 & E1 & E2 & _).
  apply wp_bind. unfold wp at 1, utc. apply wp_bind, wp_modify.
  eapply wp_mono; [apply publish_event_spec| |done]. simpl. intros ? w2 (e2 & Hd2 & F1 & _ & F2 & _).
  eexists _, _, (DB.audit_events (w_db w)), e1, e2. rewrite Hd2. simpl. rewrite Hd1. simpl.
  rewrite lookup_alter_eq, Ht. simpl. split; [done|].
  unfold ld_mission_id in *. simpl. rewrite Hmid, lookup_alter_eq, Hm. simpl.
  split_and!; try done. by rewrite <- app_assoc.
Qed.

Lemma complete_spec l text parsed w :
  loaded_in l w →
  wp (complete l text parsed) w (λ _ w', ended_completed (ld_task_id l) (w_db w')) (λ _ _, True).
Proof.
  intros Hl. pose proof Hl as (Hok & _). unfold complete, commit_task_artifact. apply wp_bind.
  eapply wp_mono; [apply wp_conj; [by apply commit_artifact_spec
    | apply (tracks_wp safe_step), commit_artifact_safe]| |done].
  intros c w1 [(_ & Hslot & [k Hk] & _) Hs1]. pose proof (loaded_in_safe _ _ _ Hs1 Hl) as Hl1.
  destruct Hl1 as (_ & [m Hm] & t & Ht & Hmid).
  set (tid := ld_task_id l) in *. set (mid := ld_mission_id l) in *.
  set (I := λ w', DB.tasks (w_db w') !! tid = Some t ∧ DB.missions (w_db w') !! mid = Some m ∧
                  DB.artifacts (w_db w') !! k = Some (cr_artifact c)).
  apply wp_bind. eapply (wp_mono _ _ (λ _ w', I w') _ (λ _ _, True)); [|clear w1 Hk Hs1 Ht Hm|done].
  { apply wp_when. destruct (newly_created c); [|done].
    eapply wp_mono; [apply publish_event_spec| |done]. intros ? w2 (e & Hd & _). unfold I.
    rewrite Hd. done. }
  intros ? w2 (Ht & Hm & Hk). apply wp_bind, wp_modify, wp_bind.
  eapply wp_mono; [apply (tracks_wp (same w_db)), commit_view; by intros| |done].
  intros ? w4 Hd4. unfold same in Hd4. apply wp_bind. unfold wp at 1, utc.
  apply wp_bind, wp_modify, wp_bind. eapply wp_mono; [apply publish_event_spec| |done].
  intros ? w5 (e & Hd5 & _). apply wp_bind. unfold wp at 1, utc. apply wp_bind, wp_modify.
  eapply wp_mono; [apply publish_event_spec| |done]. intros ? w6 (e' & Hd6 & _).
  eexists _, _, (cr_artifact c), k. rewrite Hd6. simpl. rewrite Hd5. simpl. rewrite <- Hd4. simpl.
  rewrite lookup_alter_eq, lookup_alter_eq, Ht. simpl. split; [done|]. simpl.
  rewrite Hmid. fold mid. rewrite lookup_alter_eq, Hm. simpl. by split_and!.
Qed.

(** A step of the engine in front of a continuation that needs the loaded rows. *)
Lemma wp_safe_bind {A B} l (m : M A) (f : A → M B) w Q :
  tracks safe_step m → loaded_in l w → (∀ a w', loaded_in l w' → wp (f a) w' Q (λ _ _, True)) →
  wp (m ≫= f) w Q (λ _ _, True).
Proof. intros Hm Hl Hf. by eapply (wp_bind_pres (loaded_in l)); [apply tracks_loaded| | |]. Qed.

(** A run that either leaves the rows loaded or has failed the task. *)
Definition run_or_failed {A} (l : Loaded) (r : option A) (w : World) : Prop :=
  match r with Some _ => loaded_in l w | None => ended_failed (ld_task_id l) (w_db w) end.

Lemma handled_fail {A} l reason w :
  loaded_in l w → wp (_ ← fail l reason; mret None : M (option A)) w (run_or_failed l) (λ _ _, True).
Proof.
  intros Hl. apply wp_bind. eapply wp_mono; [by apply fail_spec| |done]. intros ? w' He. by apply wp_ret.
Qed.

Lemma first_run_spec l p ctx c w :
  loaded_in l w →
  wp (first_run l (sql_adapter gw p) ctx c) w (run_or_failed l) (λ _ _, True).
Proof.
  intros Hl. unfold first_run. apply wp_try.
  match goal with |- wp ?m _ _ _ => assert (tracks safe_step m) as Hm end.
  { tracks_auto; eauto using publish_event_safe, resume_safe, execute_safe, initialize_run_safe. }
  eapply wp_mono; [apply wp_conj; [by apply pres_wp, Hl; apply tracks_loaded, Hm
    | by apply (wp_bind_ret_Some _ _ (λ _ _, True))]| |]; simpl.
  - intros r w' [Hl' [r' ->]]. exact Hl'.
  - intros e w' [Hl' _].
    assert (∀ ty data reason, wp (_ ← publish_event l ty data; _ ← fail l reason; mret None) w'
              (run_or_failed (A := RunResult) l) (λ _ _, True)) as Hh.
    { intros. eapply wp_safe_bind; [apply publish_event_safe|exact Hl'|]. intros. by apply handled_fail. }
    destruct e; cbv beta iota delta [is_gateway_error];
      match goal with |- True => exact I | _ => apply Hh end.
Qed.

Lemma repair_spec l p ctx error w :
  loaded_in l w → wp (repair l (sql_adapter gw p) ctx error) w (run_or_failed l) (λ _ _, True).
Proof.
  intros Hl. unfold repair. eapply wp_safe_bind; [apply initialize_run_safe|exact Hl|].
  clear w Hl. intros handle w Hl. eapply wp_safe_bind; [apply publish_event_safe|exact Hl|].
  clear w Hl. intros ? w Hl. apply wp_bind.
  eapply (wp_mono _ _ (run_or_failed l) _ (λ _ _, True)); [|clear w Hl|done].
  { apply wp_try. eapply wp_mono; [apply wp_conj; [apply pres_wp, Hl; apply tracks_loaded;
      tracks_auto; apply execute_safe | by apply (wp_bind_ret_Some _ _ (λ _ _, True))]| |]; simpl.
    - intros r w' [Hl' [r' ->]]. exact Hl'.
    - intros e w' [Hl' _]. destruct (is_expected_error e); [by apply handled_fail|done]. }
  intros [r|] w Hl; [|by apply wp_ret]. simpl in Hl.
  eapply wp_safe_bind; [|exact Hl|].
  { tracks_auto. apply publish_event_safe. }
  clear w Hl. intros ? w Hl. unfold validate_output. destruct (res_output_text r) as [text|]; [|done].
  apply wp_bind, wp_ret. destruct (validate_mission_output text) as [[parsed|] err]; simpl.
  - by apply wp_ret.
  - eapply wp_safe_bind; [apply commit_artifact_safe|exact Hl|]. intros. by apply handled_fail.
Qed.

Lemma finish_task_spec l p ctx r w :
  loaded_in l w →
  wp (finish_task l (sql_adapter gw p) ctx r) w
    (λ _ w', ended_failed (ld_task_id l) (w_db w') ∨ ended_completed (ld_task_id l) (w_db w'))
    (λ _ _, True).
Proof.
  intros Hl. unfold finish_task.
  assert (∀ text parsed w', loaded_in l w' → wp (complete l text parsed) w'
    (λ _ w', ended_failed (ld_task_id l) (w_db w') ∨ ended_completed (ld_task_id l) (w_db w'))
    (λ _ _, True)) as Hc.
  { intros. eapply wp_mono; [by apply complete_spec| |done]. by right. }
  eapply wp_safe_bind; [|exact Hl|].
  { unfold report_run. tracks_auto; apply publish_event_safe. }
  clear w Hl. intros ? w Hl. unfold validate_output. destruct (res_output_text r) as [text|]; [|done].
  apply wp_bind, wp_ret. destruct (validate_mission_output text) as [[parsed|] err]; simpl; [by apply Hc|].
  apply wp_bind. eapply wp_mono; [by apply repair_spec| |done].
  intros [[text' parsed]|] w' Hr; simpl in Hr; [by apply Hc|]. apply wp_ret. by left.
Qed.

Lemma load_task_spec tid w :
  keyed (w_db w) → artifacts_ok (w_db w) →
  wp (load_task tid) w (λ l w', w' = w ∧ ld_task_id l = tid ∧ loaded_in l w') (λ _ _, True).
Proof.
  intros [Hkt Hkm] Hok. unfold load_task. apply wp_bind, wp_asks.
  destruct (DB.tasks (w_db w) !! tid) as [t|] eqn:Ht; [|done].
  apply wp_bind, wp_asks, wp_bind, wp_asks.
  destruct (DB.missions (w_db w) !! Task.mission_id t) as [m|] eqn:Hm; [|done].
  destruct (DB.agents (w_db w) !! _) as [a|]; [|done].
  destruct (Agent.active_version_id a) as [v|]; [|done]. apply wp_bind, wp_asks.
  destruct (DB.agent_versions (w_db w) !! v) as [av|]; [|done].
  apply wp_bind, wp_asks, wp_ret. split; [done|]. unfold loaded_in, ld_task_id, ld_mission_id. simpl.
  rewrite (Hkt _ _ Ht), (Hkm _ _ Hm). split_and!; [done..|by eexists|by exists t].
Qed.

Lemma execute_task_outcome tid w :
  keyed (w_db w) → artifacts_ok (w_db w) →
  wp (execute_task gw tid) w
    (λ _ w', ended_failed tid (w_db w') ∨ ended_completed tid (w_db w')) (λ _ _, True).
Proof.
  intros Hk Hok. unfold execute_task. apply wp_bind. unfold wp at 1, utc. apply wp_bind.
  eapply wp_mono; [by apply load_task_spec| |done]. intros l w1 (_ & <- & Hl).
  apply wp_bind. unfold latest_for_task. apply wp_asks.
  eapply wp_safe_bind; [apply mark_running_safe|exact Hl|]. intros ? w2 Hl2.
  apply wp_bind. unfold wp at 1, lift. destruct (run_context l) as [ctx|]; [|done].
  apply wp_bind. eapply wp_mono; [by apply first_run_spec| |done].
  intros [r|] w3 Hr; [by apply finish_task_spec|]. apply wp_ret. by left.
Qed.
End ending.

(** ** What an execution raises *)

Section execution_raises.
Context `{Env} (gw : ModelGateway).

(** Not one of the errors [execute_task] must handle. *)
Definition unexpected (e : exn) : Prop := is_expected_error e = false.

Lemma any_raises {A} (m : M A) : raises (λ _, True) m.
Proof. by intros w e. Qed.

Lemma publish_event_raises X l ty data : raises X (publish_event l ty data).
Proof. unfold publish_event. raises_auto. Qed.
#[local] Hint Resolve publish_event_raises : raises.

Lemma fail_raises X l reason : raises X (fail l reason).
Proof. unfold fail, update_task, update_mission. raises_auto. Qed.
#[local] Hint Resolve fail_raises : raises.

Lemma find_committed_raises t ty s : raises unexpected (find_committed t ty s).
Proof. unfold find_committed, scalar_one_or_none. by raises_auto. Qed.

Lemma insert_artifact_raises a : raises (λ e, is_integrity_error e = true) (insert_artifact a).
Proof. unfold insert_artifact. by raises_auto. Qed.

Lemma commit_artifact_raises tn m t ag av ty title content mime slot md :
  raises unexpected (commit_artifact tn m t ag av ty title content mime slot md).
Proof.
  unfold commit_artifact. raises_auto; [apply find_committed_raises| |].
  - intros w e. unfold result, put_object. destruct (object_put_ok _); [done|]. by intros [= <-].
  - unfold insert_or_existing. apply (raises_try _ (λ e, is_integrity_error e = true)).
    + raises_auto. apply begin_nested_raises, insert_artifact_raises.
    + intros e He. rewrite He. unfold after_integrity_error.
      raises_auto; try done; [apply find_committed_raises|]. by destruct e.
Qed.
#[local] Hint Resolve commit_artifact_raises : raises.

Lemma validate_output_raises text : raises unexpected (validate_output text).
Proof. unfold validate_output. by raises_auto. Qed.
#[local] Hint Resolve validate_output_raises : raises.

Lemma commit_raises_unexpected : raises unexpected commit.
Proof. by apply commit_raises. Qed.
#[local] Hint Resolve commit_raises_unexpected : raises.

Lemma complete_raises l text parsed : raises unexpected (complete l text parsed).
Proof. unfold complete, commit_task_artifact, update_task, update_mission. raises_auto. Qed.

Lemma repair_raises l ad ctx error : raises unexpected (repair l ad ctx error).
Proof.
  unfold repair, initialize_run, commit_task_artifact. raises_auto.
  apply (raises_try _ (λ _, True)); [apply any_raises|]. intros e _.
  destruct (is_expected_error e) eqn:He; [|done]. raises_auto.
Qed.

Lemma first_run_raises l ad ctx c : raises unexpected (first_run l ad ctx c).
Proof.
  unfold first_run. apply (raises_try _ (λ _, True)); [apply any_raises|]. intros e _.
  destruct e; cbv beta iota delta [is_gateway_error];
    match goal with |- unexpected _ => reflexivity | _ => raises_auto end.
Qed.

Lemma execute_task_raises tid : raises unexpected (execute_task gw tid).
Proof.
  unfold execute_task, load_task, latest_for_task, mark_running, finish_task, report_run, update_task.
  raises_auto; eauto using first_run_raises, repair_raises, complete_raises; try done.
  apply lift_raises. unfold run_context. intros e. destruct (ld_policy _); [done|]. by intros [= <-].
Qed.
End execution_raises.

(** ** Executions that send nothing *)

Section quiet.
Context `{Env}.

Lemma publish_event_silent l ty data : tracks (same w_sends) (publish_event l ty data).
Proof. unfold publish_event. tracks_auto. Qed.
#[local] Hint Resolve publish_event_silent : tracks.

Lemma mark_running_silent l c : tracks (same w_sends) (mark_running l c).
Proof. unfold mark_running, update_task. tracks_auto. Qed.

Lemma commit_artifact_silent tn m t ag av ty title content mime slot md :
  tracks (same w_sends) (commit_artifact tn m t ag av ty title content mime slot md).
Proof.
  unfold commit_artifact, find_committed. tracks_auto.
  - intros w. unfold same, exec, put_object. by destruct (object_put_ok _).
  - unfold insert_or_existing, insert_artifact. apply tracks_try; [apply _| |].
    + tracks_auto. apply begin_nested_same; [done|]. tracks_auto.
    + intros e k Hk. case_match; simplify_eq. unfold after_integrity_error, find_committed. tracks_auto.
Qed.

Lemma complete_silent l text parsed : tracks (same w_sends) (complete l text parsed).
Proof.
  unfold complete, commit_task_artifact, update_task, update_mission. tracks_auto.
  apply commit_artifact_silent.
Qed.

Lemma report_run_silent l r : tracks (same w_sends) (report_run l r).
Proof. unfold report_run. tracks_auto. Qed.
End quiet.

(** ** Theorems *)

Section executor_theorems.
Context `{Env} (gw : ModelGateway).


(** C6: recovery without paying twice. A task whose latest checkpoint holds a valid answer
    is finished without a single provider request; if the execution returns, the task is
    completed. *)
Theorem resumed_answer_is_not_bought_again tid w r text p m i o lt parsed :
  keyed (w_db w) → artifacts_ok (w_db w) →
  latest_row tid (w_db w) = Some r → RuntimeCheckpoint.state r = ModelResponded text p m i o lt →
  validate_mission_output text = (Some parsed, None) →
  wp (execute_task gw tid) w
    (λ _ w', w_sends w' = w_sends w ∧ ended_completed tid (w_db w'))
    (λ _ w', w_sends w' = w_sends w).
Proof.
  intros Hk Hok Hlat Hst Hv. set (s := w_sends w).
  set (I := λ l w', loaded_in l w' ∧ w_sends w' = s).
  assert (∀ {A} l (m : M A), tracks safe_step m → tracks (same w_sends) m → tracks (pres (I l)) m) as HI.
  { intros A l mm Hs Hq w' [Hl Hw']. split; [exact (loaded_in_safe l w' _ (Hs w') Hl)|]. specialize (Hq w').
    unfold same in Hq. congruence. }
  assert (∀ l w', I l w' → wp (complete l text parsed) w'
    (λ _ w'', w_sends w'' = s ∧ ended_completed (ld_task_id l) (w_db w''))
    (λ _ w'', w_sends w'' = s)) as Hc.
  { intros l w' [Hl <-]. eapply wp_mono; [apply wp_conj; [by apply complete_spec
      | apply (tracks_wp (same w_sends)), complete_silent]| |]; intros ? w''; [intros [Hc Hs]|intros [_ Hs]];
      unfold same in Hs; [split; [congruence|done]|congruence]. }
  unfold execute_task. apply wp_bind. unfold wp at 1, utc. apply wp_bind.
  eapply wp_mono; [apply wp_conj; [by apply load_task_spec
    | apply (tracks_wp (same w_sends)), load_task_pure, _]| |]; [|intros e w' [_ Hs]; by unfold same in Hs].
  intros l w1 [(-> & <- & Hl) _]. apply wp_bind. unfold latest_for_task. apply wp_asks. simpl.
  rewrite Hlat. simpl.
  eapply (wp_bind_pres (I l)); [by apply HI; [apply mark_running_safe|apply mark_running_silent]
    |by split| |by intros ?? []]. intros ? w2 Hw2.
  apply wp_bind. unfold wp at 1, lift. destruct (run_context l) as [ctx|]; [|apply Hw2].
  apply wp_bind. unfold first_run, resume. simpl. rewrite Hst. apply wp_try.
  eapply (wp_mono _ _ (λ r w', I l w' ∧ ∃ x, r = Some x ∧ res_output_text x = Some text)
            _ (λ e w', False)).
  - apply wp_bind.
    eapply (wp_bind_never (I l)); [apply HI; [apply publish_event_safe|apply publish_event_silent]
      |apply publish_event_raises|exact Hw2|].
    intros ? w3 Hw3. rewrite bool_decide_false by done. apply wp_bind, wp_ret, wp_ret, wp_ret. eauto.
  - intros ? w3 [Hw3 (x & -> & Hx)]. unfold finish_task.
    eapply (wp_bind_pres (I l)); [apply HI; [unfold report_run; tracks_auto; apply publish_event_safe
      |apply report_run_silent]|exact Hw3| |by intros ?? []].
    intros ? w4 Hw4. rewrite Hx. simpl. apply wp_bind, wp_ret. rewrite Hv. simpl. by apply Hc.
  - done.
Qed.
End executor_theorems.

(** ** Witnesses: the sample task, fresh and resumed from an answer *)

Lemma keyed_sample : keyed sample_db.
Proof.
  split; intros k x; simpl; rewrite lookup_singleton_Some; by intros [<- <-].
Qed.


(** The fresh run of the sample task completes, at its second request. *)
Example sample_run_completes :
  let w' := exec (execute_task sample_gateway 7) sample_world in
  (Task.status <$> DB.tasks (w_db w') !! 7%positive) = Some TaskStatus.completed ∧
  length (w_sends w') = 2%nat.
Proof. vm_compute. done. Qed.

Definition sample_response_row : RuntimeCheckpoint.t :=
  RuntimeCheckpoint.mk 80 6 7 4 2 (responded_state sample_response) RuntimeCheckpointStatus.created.

Definition sample_world_answered : World :=
  world_of (DB.upd_checkpoints (λ _, {[ 80%positive := sample_response_row ]}) sample_db).

Lemma resumed_answer_is_not_bought_again_witness :
  wp (execute_task sample_gateway 7) sample_world_answered
    (λ _ w', w_sends w' = [] ∧ ended_completed 7 (w_db w')) (λ _ w', w_sends w' = []).
Proof.
  refine (resumed_answer_is_not_bought_again sample_gateway 7 sample_world_answered
            sample_response_row "ok" "openai" "gpt-4o-mini" 120 40 250
            (mkMissionOutput "Report" "Fine." [] [] [] []) keyed_sample
            (artifacts_ok_empty (w_db sample_world_answered) eq_refl) _ _ _);
    vm_compute; reflexivity.
Defined.
