(* ===== verification/Lease.v ===== *)
(** * The per-task execution lease
    (services/mission-engine/mission_engine/engine/lease.py)

    One Redis key per task. Times are integer milliseconds of one global clock (the code's
    [time.monotonic()] seconds times 1000, without float rounding). The protocol is a step
    relation over the Redis key and the workers that currently run the task; the heartbeat
    of one worker is a function over the outcomes of its refresh cycles. *)

From stdpp Require Import relations.
From S2P Require Import Prelude Enums Contracts.
Local Open Scope Z_scope.

Definition LEASE_TTL_MS : Z := 20000.
Definition LEASE_REFRESH_MS : Z := 5000.
Definition LEASE_REFRESH_TIMEOUT_MS : Z := 2000.

(** [uuid.uuid4().hex] of a [TaskLease] *)
Definition Token := positive.

(** ** The Redis key

    [rk_entry] is the stored token with its expiry time; a key whose expiry has passed is
    gone. [rk_version] counts writes, which is what [WATCH] observes. *)
Record RedisKey := mkRedisKey { rk_entry : option (Token * Z); rk_version : nat }.

(** [GET key] at time [now] *)
Definition get (now : Z) (r : RedisKey) : option Token :=
  match rk_entry r with
  | Some (t, e) => if now <? e then Some t else None
  | None => None
  end.

(** [is_leased(redis_client, task_id)]: [EXISTS key] *)
Definition is_leased (now : Z) (r : RedisKey) : bool :=
  match get now r with Some _ => true | None => false end.

Definition write (e : option (Token * Z)) (r : RedisKey) : RedisKey := mkRedisKey e (S (rk_version r)).

(** [acquire()]: [SET key token NX PX ttl] *)
Definition acquire (tok : Token) (now : Z) (r : RedisKey) : bool * RedisKey :=
  match get now r with
  | Some _ => (false, r)
  | None => (true, write (Some (tok, now + LEASE_TTL_MS)) r)
  end.

(** [PEXPIRE key ttl]: nothing happens to a key that is gone. *)
Definition pexpire (now : Z) (r : RedisKey) : RedisKey :=
  match get now r with
  | Some t => write (Some (t, now + LEASE_TTL_MS)) r
  | None => r
  end.

(** [DEL key] *)
Definition delete (now : Z) (r : RedisKey) : RedisKey :=
  match get now r with Some _ => write None r | None => r end.

(** [_if_ours(command)]: [WATCH] and [GET] see the key as [seen] at time [t_get]; [EXEC]
    finds it as [r] at time [now], and aborts if it was written in between. *)
Definition if_ours (tok : Token) (command : Z → RedisKey → RedisKey) (t_get : Z) (seen : RedisKey)
    (now : Z) (r : RedisKey) : bool * RedisKey :=
  if decide (get t_get seen ≠ Some tok) then (false, r)
  else if decide (rk_version seen ≠ rk_version r) then (false, r)
  else (true, command now r).

(** [refresh()] and [release()] *)
Definition refresh (tok : Token) := if_ours tok pexpire.
Definition release (tok : Token) := if_ours tok delete.

(** ** The heartbeat *)

(** What one awaited [refresh()] gave: true, false, or an exception (a timeout included). *)
Inductive refresh_result := Refreshed | NotOurs | Errored.

Record Heartbeat := mkHeartbeat { hb_last_ok : Z; hb_now : Z }.

Definition worst_cycle : Z := LEASE_REFRESH_MS + LEASE_REFRESH_TIMEOUT_MS.

(** One iteration of the loop of [_heartbeat], which took [d]: the new state and whether the
    heartbeat goes on. *)
Definition heartbeat_cycle (h : Heartbeat) (d : Z) (res : refresh_result) : Heartbeat * bool :=
  let now := hb_now h + d in
  match res with
  | NotOurs => (mkHeartbeat (hb_last_ok h) now, false)
  | Refreshed => (mkHeartbeat now now, true)
  | Errored =>
      (mkHeartbeat (hb_last_ok h) now, negb (LEASE_TTL_MS <=? now - hb_last_ok h + worst_cycle))
  end.

(** [_heartbeat()] over a sequence of cycles: where it is, and whether it still runs. *)
Fixpoint heartbeat (h : Heartbeat) (cycles : list (Z * refresh_result)) : Heartbeat * bool :=
  match cycles with
  | [] => (h, true)
  | (d, res) :: cycles =>
      let '(h', go) := heartbeat_cycle h d res in
      if go then heartbeat h' cycles else (h', false)
  end.

(** ** Running the work under the lease *)

(** [lease_key(task_id)] *)
Definition LEASE_KEY_PREFIX : string := "daythree:task_lease:".
Definition lease_key (task_id : EntityId) : string := LEASE_KEY_PREFIX +:+ pretty task_id.

(** How [run] ended: when, with which [last_ok] of the heartbeat, and with what. *)
Record RunEnd (A : Type) := mkRunEnd { re_time : Z; re_last_ok : Z; re_result : outcome exn A }.
Arguments mkRunEnd {A}.
Arguments re_time {A}.
Arguments re_last_ok {A}.
Arguments re_result {A}.

(** [run(work)]: the race of the work against the heartbeat. The work would end by itself at a
    time and with a result, or never; [asyncio.wait] returns at the first completion, and a
    work that is done by then has its result returned or raised. Otherwise the work is
    cancelled. [None] says that the race is still on after the given cycles. *)
Fixpoint run {A} (task_id : EntityId) (work : option (Z * outcome exn A)) (h : Heartbeat)
    (cycles : list (Z * refresh_result)) : option (RunEnd A) :=
  match cycles with
  | [] => None
  | (d, res) :: cycles =>
      let '(h', go) := heartbeat_cycle h d res in
      match work with
      | Some (t, r) =>
          if t <=? hb_now h' then Some (mkRunEnd t (hb_last_ok h) r)
          else if go then run task_id work h' cycles
          else Some (mkRunEnd (hb_now h') (hb_last_ok h') (Raise (LeaseLostError (lease_key task_id))))
      | None =>
          if go then run task_id work h' cycles
          else Some (mkRunEnd (hb_now h') (hb_last_ok h') (Raise (LeaseLostError (lease_key task_id))))
      end
  end.

(** ** The protocol *)

(** [running] maps the token of every worker that executes the task to the time at which
    Redis last confirmed its lease. *)
Record System := mkSystem { sys_now : Z; sys_key : RedisKey; running : gmap Token Z }.

(** [seen] is an earlier state of the key: the same entry if nothing was written since. *)
Definition seen_before (seen r : RedisKey) : Prop :=
  rk_version seen = rk_version r → rk_entry seen = rk_entry r.

Inductive step : System → System → Prop :=
| step_tick s d :
    0 ≤ d → step s (mkSystem (sys_now s + d) (sys_key s) (running s))
| step_acquire s tok r :
    running s !! tok = None → acquire tok (sys_now s) (sys_key s) = (true, r) →
    step s (mkSystem (sys_now s) r (<[tok := sys_now s]> (running s)))
| step_refresh s tok t_get seen r :
    is_Some (running s !! tok) → t_get ≤ sys_now s → seen_before seen (sys_key s) →
    refresh tok t_get seen (sys_now s) (sys_key s) = (true, r) →
    step s (mkSystem (sys_now s) r
      (if is_leased (sys_now s) (sys_key s) then <[tok := sys_now s]> (running s) else running s))
| step_release s tok t_get seen ok r :
    t_get ≤ sys_now s → seen_before seen (sys_key s) →
    release tok t_get seen (sys_now s) (sys_key s) = (ok, r) →
    step s (mkSystem (sys_now s) r (base.delete tok (running s)))
| step_stop s tok :
    (* the work ends, is cancelled, or the worker dies without releasing *)
    step s (mkSystem (sys_now s) (sys_key s) (base.delete tok (running s))).

Definition initial (s : System) : Prop := running s = ∅.

(** A worker Redis confirmed less than a TTL ago owns the key for the rest of that TTL. *)
Definition lease_inv (s : System) : Prop :=
  ∀ tok t, running s !! tok = Some t →
    t ≤ sys_now s ∧
    (sys_now s < t + LEASE_TTL_MS → ∃ e, rk_entry (sys_key s) = Some (tok, e) ∧ t + LEASE_TTL_MS ≤ e).

Lemma get_Some now r t : get now r = Some t ↔ ∃ e, rk_entry r = Some (t, e) ∧ now < e.
Proof.
  unfold get. destruct (rk_entry r) as [[t' e]|]; [|naive_solver].
  destruct (Z.ltb_spec now e); naive_solver lia.
Qed.

Lemma lease_inv_step s s' : lease_inv s → step s s' → lease_inv s'.
Proof.
  intros HI Hst tok t. destruct Hst as
    [s d Hd | s tok' r Hnew Hacq | s tok' t_get seen r Hrun Htg Hseen Href
    | s tok' t_get seen ok r Htg Hseen Hrel | s tok']; simpl.
  - intros Ht. destruct (HI tok t Ht) as [H1 H2]. split; [lia|]. intros Hlt. apply H2. lia.
  - unfold acquire in Hacq. destruct (get (sys_now s) (sys_key s)) eqn:Hg; [done|].
    injection Hacq as <-. rewrite lookup_insert_Some. intros [[<- <-]|[Hne Ht]].
    + split; [lia|]. intros _. eexists. split; [done|lia].
    + destruct (HI tok t Ht) as [H1 H2]. split; [done|]. intros Hlt.
      destruct (H2 Hlt) as (e & He & Hle). exfalso.
      assert (get (sys_now s) (sys_key s) = Some tok) by (apply get_Some; exists e; split; [done|lia]).
      congruence.
  - unfold refresh, if_ours in Href. case_decide as Hg; [done|]. case_decide as Hv; [done|].
    injection Href as <-. apply get_Some in Hg as (e & He & _).
    rewrite (Hseen Hv) in He. unfold is_leased, pexpire, get. rewrite He.
    destruct (Z.ltb_spec (sys_now s) e) as [Hlt|Hge]; [|by apply HI].
    rewrite lookup_insert_Some. intros [[<- <-]|[Hne Ht]].
    + split; [lia|]. intros _. eexists. split; [done|lia].
    + destruct (HI tok t Ht) as [H1 H2]. split; [done|]. intros Hw.
      destruct (H2 Hw) as (e' & He' & _). congruence.
  - rewrite lookup_delete_Some. intros [Hne Ht]. destruct (HI tok t Ht) as [H1 H2].
    split; [done|]. intros Hw. destruct (H2 Hw) as (e & He & Hle).
    unfold release, if_ours in Hrel. case_decide as Hg; [injection Hrel as _ <-; eauto|].
    case_decide as Hv; [injection Hrel as _ <-; eauto|].
    apply get_Some in Hg as (e' & He' & _). rewrite (Hseen Hv) in He'. congruence.
  - rewrite lookup_delete_Some. intros [_ Ht]. by apply HI.
Qed.

Lemma lease_inv_reachable s s' : initial s → rtc step s s' → lease_inv s'.
Proof.
  intros Hi Hr. assert (lease_inv s) as HI by (intros tok t; by rewrite Hi, lookup_empty).
  clear Hi. induction Hr; eauto using lease_inv_step.
Qed.

Lemma worst_cycle_lt : worst_cycle < LEASE_TTL_MS.
Proof. done. Qed.

Lemma heartbeat_margin h cycles h' :
  Forall (λ c, 0 ≤ c.1 ≤ worst_cycle) cycles →
  hb_now h - hb_last_ok h + worst_cycle < LEASE_TTL_MS →
  heartbeat h cycles = (h', true) →
  hb_now h' - hb_last_ok h' + worst_cycle < LEASE_TTL_MS.
Proof.
  revert h. induction cycles as [|[d res] cycles IH]; intros h Hall Hh; simpl.
  { by intros [= <-]. }
  inversion_clear Hall as [|? ? Hd Hall']. destruct res; simpl; [|done|].
  - apply IH; [done|]. simpl. pose proof worst_cycle_lt. lia.
  - destruct (Z.leb_spec LEASE_TTL_MS (hb_now h + d - hb_last_ok h + worst_cycle)); simpl; [done|].
    apply IH; done.
Qed.

(** ** Theorems *)

(** C10: mutual exclusion. In every reachable state, at most one worker is running the task
    within a TTL of its last confirmation by Redis, and that worker's token is the one in
    the key; no acquire, refresh or release of another worker can take it away. *)
Theorem lease_mutual_exclusion s s' tok1 tok2 t1 t2 :
  initial s → rtc step s s' →
  running s' !! tok1 = Some t1 → running s' !! tok2 = Some t2 →
  sys_now s' < t1 + LEASE_TTL_MS → sys_now s' < t2 + LEASE_TTL_MS →
  tok1 = tok2 ∧ get (sys_now s') (sys_key s') = Some tok1.
Proof.
  intros Hi Hr H1 H2 L1 L2. pose proof (lease_inv_reachable _ _ Hi Hr) as HI.
  destruct (HI _ _ H1) as [_ I1]. destruct (HI _ _ H2) as [_ I2].
  destruct (I1 L1) as (e1 & E1 & G1), (I2 L2) as (e2 & E2 & G2).
  split; [congruence|]. apply get_Some. exists e1. split; [done|lia].
Qed.

(** The heartbeat gives up in time by its own clock. As long as it still runs, after any
    sequence of cycles within the worst-case length, the end of its next cycle comes before
    a TTL has passed since [last_ok]. *)
Theorem heartbeat_gives_up_in_time start cycles h' d :
  Forall (λ c, 0 ≤ c.1 ≤ worst_cycle) cycles → 0 ≤ d ≤ worst_cycle →
  heartbeat (mkHeartbeat start start) cycles = (h', true) →
  hb_now h' + d < hb_last_ok h' + LEASE_TTL_MS.
Proof.
  intros Hall Hd Hh.
  assert (hb_now h' - hb_last_ok h' + worst_cycle < LEASE_TTL_MS).
  { eapply heartbeat_margin; [done| |done]. simpl. pose proof worst_cycle_lt. lia. }
  lia.
Qed.

Lemma lease_key_inj t t' : lease_key t = lease_key t' → t = t'.
Proof. unfold lease_key. intros E. by apply (inj (String.append LEASE_KEY_PREFIX)), (inj pretty) in E. Qed.

(** The clock of a heartbeat in order: not behind [last_ok], and with room for a cycle. *)
Definition in_time (h : Heartbeat) : Prop :=
  hb_last_ok h ≤ hb_now h ∧ hb_now h - hb_last_ok h + worst_cycle < LEASE_TTL_MS.

Lemma cycle_in_time h d res :
  in_time h → 0 ≤ d ≤ worst_cycle →
  let '(h', go) := heartbeat_cycle h d res in
  hb_now h' = hb_now h + d ∧ hb_last_ok h ≤ hb_last_ok h' ≤ hb_now h' ∧ hb_now h' < hb_last_ok h' + LEASE_TTL_MS ∧
  (go = true → in_time h').
Proof.
  intros [H1 H2] Hd. pose proof worst_cycle_lt. destruct res; simpl; unfold in_time; simpl; split_and!; lia || done.
Qed.

(** How a race ends, from a heartbeat that is in time. *)
Lemma run_spec {A} task_id (work : option (Z * outcome exn A)) h cycles e :
  Forall (λ c, 0 ≤ c.1 ≤ worst_cycle) cycles → in_time h → (∀ t r, work = Some (t, r) → hb_now h ≤ t) →
  run task_id work h cycles = Some e →
  hb_last_ok h ≤ re_last_ok e ≤ re_time e ∧ re_time e < re_last_ok e + LEASE_TTL_MS ∧
  (work = Some (re_time e, re_result e) ∨
   re_result e = Raise (LeaseLostError (lease_key task_id)) ∧ ∀ t r, work = Some (t, r) → re_time e < t).
Proof.
  revert h. induction cycles as [|[d res] cycles IH]; intros h Hall Hin Hw; [done|]. simpl.
  inversion_clear Hall as [|? ? Hd Hall']. simpl in Hd. pose proof (cycle_in_time h d res Hin Hd) as Hc.
  destruct (heartbeat_cycle h d res) as [h' go]. destruct Hc as (E & Hl & Ht & Hgo). destruct Hin as [Hin1 Hin2].
  assert ((∀ t r, work = Some (t, r) → hb_now h' < t) →
    (if go then run task_id work h' cycles
     else Some (mkRunEnd (hb_now h') (hb_last_ok h') (Raise (LeaseLostError (lease_key task_id))))) = Some e →
    hb_last_ok h ≤ re_last_ok e ≤ re_time e ∧ re_time e < re_last_ok e + LEASE_TTL_MS ∧
    (work = Some (re_time e, re_result e) ∨
     re_result e = Raise (LeaseLostError (lease_key task_id)) ∧ ∀ t r, work = Some (t, r) → re_time e < t)) as Hrest.
  { intros Hlate He. destruct go.
    - destruct (IH h' Hall' (Hgo eq_refl)) as (H1 & H2 & H3); [|done|split_and!; [lia..|done|done]].
      intros t r Htr. specialize (Hlate t r Htr). lia.
    - injection He as <-. simpl. split_and!; [lia..|]. right. by split. }
  destruct work as [[t r]|]; [|by apply Hrest]. destruct (Z.leb_spec t (hb_now h')) as [Hle|Hgt].
  - intros [= <-]. simpl. specialize (Hw t r eq_refl). split_and!; [lia..|]. by left.
  - apply Hrest. by intros t' r' [= <- <-].
Qed.


(** Three refreshes in a row that fail end the race, whatever the work does. *)
Lemma run_ends_after_three_failures {A} task_id (work : option (Z * outcome exn A)) start d1 d2 d3 cycles :
  LEASE_REFRESH_MS ≤ d1 → LEASE_REFRESH_MS ≤ d2 → LEASE_REFRESH_MS ≤ d3 →
  is_Some (run task_id work (mkHeartbeat start start) ((d1, Errored) :: (d2, Errored) :: (d3, Errored) :: cycles)).
Proof.
  intros H1 H2 H3. unfold LEASE_REFRESH_MS in *. simpl. unfold worst_cycle, LEASE_REFRESH_MS, LEASE_REFRESH_TIMEOUT_MS, LEASE_TTL_MS in *.
  destruct (Z.leb_spec 20000 (start + d1 + d2 + d3 - start + (5000 + 2000))) as [_|?]; [|lia].
  simpl. repeat case_match; by eexists.
Qed.

(** Releasing is safe: a worker whose token is not the one in the key (its lease expired
    and the task was taken over) leaves the key as it is. *)
Theorem release_never_frees_another_lease tok other e t_get seen now r :
  rk_entry r = Some (other, e) → other ≠ tok → seen_before seen r →
  release tok t_get seen now r = (false, r).
Proof.
  intros Hr Hne Hs. unfold release, if_ours. case_decide as Hg; [done|]. case_decide as Hv; [done|].
  apply get_Some in Hg as (e' & He' & _). rewrite (Hs Hv) in He'. congruence.
Qed.

(** The cycles of a run in which one refresh is answered 1.9 s after Redis processed it and
    the following ones fail. *)
Definition slow_then_failing : list (Z * refresh_result) :=
  [(6900, Refreshed); (6450, Errored); (6450, Errored)].

(** The margin the heartbeat leaves is measured from when the answer arrives, not from
    when Redis extended the key, so it can be too small: a refresh that Redis processes at
    5000 and that is answered at 6900 leaves [last_ok] 1900 ms late; after two failed
    refreshes the heartbeat goes on at 19800, its next check may be at 26800, but the key is
    gone at 25000 and another worker can acquire it while the first one still works. *)
Theorem heartbeat_can_outlive_its_key :
  heartbeat (mkHeartbeat 0 0) slow_then_failing = (mkHeartbeat 6900 19800, true) ∧
  heartbeat (mkHeartbeat 0 0) (slow_then_failing ++ [(worst_cycle, Errored)]) =
    (mkHeartbeat 6900 26800, false) ∧
  ∃ s, rtc step (mkSystem 0 (mkRedisKey None 0) ∅) s ∧ sys_now s = 25000 ∧
    running s = {[ 1%positive := 5000; 2%positive := 25000 ]}.
Proof.
  split; [reflexivity|]. split; [reflexivity|].
  eexists. split; [|split].
  - eapply rtc_l; [by eapply (step_acquire _ 1%positive)|]. simpl.
    eapply rtc_l; [by apply (step_tick _ 5000)|]. simpl.
    eapply rtc_l.
    { eapply (step_refresh _ 1%positive 5000 (mkRedisKey (Some (1%positive, 20000)) 1));
        [by eexists|done|by intros _|reflexivity]. }
    simpl. eapply rtc_l; [by apply (step_tick _ 20000)|]. simpl.
    eapply rtc_l; [by eapply (step_acquire _ 2%positive)|]. simpl.
    apply rtc_refl.
  - reflexivity.
  - vm_compute. reflexivity.
Qed.

(** ** Witnesses *)

Lemma lease_mutual_exclusion_witness :
  let s := mkSystem 0 (mkRedisKey None 0) ∅ in
  let s' := mkSystem 0 (mkRedisKey (Some (1%positive, 20000)) 1) {[ 1%positive := 0 ]} in
  rtc step s s' ∧ get (sys_now s') (sys_key s') = Some 1%positive.
Proof.
  intros s s'. assert (rtc step s s') as Hr.
  { apply rtc_once. by apply (step_acquire s 1%positive). }
  split; [done|].
  apply (lease_mutual_exclusion s s' 1%positive 1%positive 0 0); [done|done|reflexivity..].
Defined.

Lemma heartbeat_gives_up_in_time_witness : 19800 + 7000 < 6900 + LEASE_TTL_MS.
Proof.
  apply (heartbeat_gives_up_in_time 0 slow_then_failing (mkHeartbeat 6900 19800) 7000);
    [|vm_compute; split; congruence|reflexivity].
  repeat constructor; vm_compute; congruence.
Defined.


Lemma release_never_frees_another_lease_witness :
  release 1%positive 25100 (mkRedisKey (Some (1%positive, 25000)) 2) 25200
    (mkRedisKey (Some (2%positive, 45000)) 3) =
  (false, mkRedisKey (Some (2%positive, 45000)) 3).
Proof.
  apply (release_never_frees_another_lease 1%positive 2%positive 45000); [done|done|].
  intros Hv. vm_compute in Hv. discriminate Hv.
Defined.
