(* ===== verification/Consumers.v ===== *)
(** * The reference consumer of the event stream
    (services/event-service/event_service/consumers/log_consumer.py)

    [tail_stream] over the stream's messages in order; an entry's id is its position. What
    other processes publish is an input of every iteration: what was added since the last
    call of [XREAD], and what arrives while the call blocks, nothing if it times out. *)

From S2P Require Import Prelude Enums Contracts.

(** [xread(..., block=5000, count=10)] *)
Definition COUNT : nat := 10.

Record Arrival (A : Type) := mkArrival { published_before : list A; published_during : list A }.
Arguments mkArrival {A}.
Arguments published_before {A}.
Arguments published_during {A}.

Section consumer.
Context {A : Type}.
Implicit Types (stream : list A) (a : Arrival A).

(** [XREAD COUNT 10 BLOCK 5000 STREAMS stream cursor], where [None] is ["$"], the end of the
    stream at the time of the call: entries behind the cursor at once, or what arrives. The
    position behind which it looked, the entries, and the stream afterwards. *)
Definition xread (cursor : option nat) (a : Arrival A) stream : nat * list A * list A :=
  let now := stream ++ published_before a in
  let pos := default (length now) cursor in
  let batch := match take COUNT (drop pos now) with
               | [] => take COUNT (published_during a)
               | batch => batch
               end in
  (pos, batch, now ++ published_during a).

(** What a run of [tail_stream] has logged, in order, and the stream at that point. *)
Record Tail := mkTail { tl_logged : list A; tl_stream : list A; tl_stopped : bool }.

(** [tail_stream(redis_client, stream_name, stop_after=..)], from the state of its loop; it
    goes on for as many iterations as there are inputs. *)
Fixpoint tail_stream (stop_after : option nat) (cursor : option nat) (logged : list A) stream
    (arrivals : list (Arrival A)) : Tail :=
  if match stop_after with Some n => n <=? length logged | None => false end%nat
  then mkTail logged stream true
  else match arrivals with
       | [] => mkTail logged stream false
       | a :: arrivals =>
           let '(pos, batch, stream) := xread cursor a stream in
           tail_stream stop_after (match batch with [] => cursor | _ => Some (pos + length batch)%nat end)
             (logged ++ batch) stream arrivals
       end.

(** ** Lemmas *)

(** The messages are the part of the stream that ends at the cursor; it begins behind
    [base]. *)
Definition reads_up_to (base : nat) (cursor : option nat) (logged : list A) stream : Prop :=
  match cursor with
  | None => logged = [] ∧ (base ≤ length stream)%nat
  | Some c => ∃ start, logged = drop start (take c stream) ∧ (base ≤ start ≤ c)%nat ∧ (c ≤ length stream)%nat
  end.

Lemma xread_spec base cursor a logged stream pos batch stream' :
  reads_up_to base cursor logged stream → xread cursor a stream = (pos, batch, stream') →
  reads_up_to base (match batch with [] => cursor | _ => Some (pos + length batch)%nat end) (logged ++ batch) stream' ∧
  (length batch ≤ COUNT)%nat ∧ stream `prefix_of` stream'.
Proof.
  unfold xread. intros Hr [= <- <- <-]. set (now := stream ++ published_before a).
  assert (stream `prefix_of` now) as Hp by (by apply prefix_app_r).
  split_and!; [|destruct (take COUNT (drop _ now)) eqn:E; [|rewrite <- E]; rewrite length_take; lia|].
  2: { etrans; [exact Hp|]. by apply prefix_app_r. }
  set (pos := default (length now) cursor).
  assert (∃ start, logged = drop start (take pos now) ∧ (base ≤ start ≤ pos)%nat ∧ (pos ≤ length now)%nat) as (start & -> & Hs & Hn).
  { destruct cursor as [c|]; simpl in *.
    - destruct Hr as (start & -> & Hs). exists start. apply prefix_length in Hp as Hl. subst pos. simpl. split; [|lia].
      unfold now. by rewrite take_app_le by lia.
    - destruct Hr as [-> Hl]. apply prefix_length in Hp. exists (length now). subst pos. simpl.
      rewrite take_ge, drop_ge by lia. split; [done|lia]. }
  destruct (take COUNT (drop pos now)) as [|x batch] eqn:Hb.
  - assert (pos = length now) as Hpos.
    { apply (f_equal length) in Hb. rewrite length_take, length_drop in Hb. unfold COUNT in Hb. cbn [length] in Hb. lia. }
    destruct (take COUNT (published_during a)) as [|y batch'] eqn:Hd.
    + rewrite app_nil_r. destruct cursor as [c|]; simpl in *; [|destruct Hr as [-> Hr]; apply prefix_length in Hp; split; [done|rewrite length_app; lia]].
      exists start. rewrite take_app_le by (subst pos; simpl in *; lia). rewrite length_app. subst pos. simpl in *. split; [done|lia].
    + rewrite <- Hd. exists start. rewrite length_app, length_take.
      assert (take (pos + COUNT `min` length (published_during a)) (now ++ published_during a) =
              take pos now ++ take COUNT (published_during a)) as ->.
      { rewrite take_app, (take_ge now), (take_ge now) by lia. f_equal. rewrite Hpos.
        replace (length now + COUNT `min` length (published_during a) - length now)%nat with (COUNT `min` length (published_during a))%nat by lia.
        rewrite <- take_take. by rewrite (take_ge _ (length _)) by lia. }
      rewrite drop_app_le by (rewrite length_take; lia). split; [done|lia].
  - rewrite <- Hb. exists start. rewrite length_app, length_take, length_drop.
    assert (take (pos + COUNT `min` (length now - pos)) (now ++ published_during a) = take pos now ++ take COUNT (drop pos now)) as ->.
    { rewrite take_app_le by lia. rewrite <- take_take_drop. f_equal. rewrite <- (take_take _ COUNT).
      by rewrite (take_ge (drop pos now) (length now - pos)) by (rewrite length_drop; lia). }
    rewrite drop_app_le by (rewrite length_take; lia). split; [done|lia].
Qed.

Lemma tail_spec base stop_after cursor logged stream arrivals :
  reads_up_to base cursor logged stream →
  (∀ n, stop_after = Some n → (length logged < n + COUNT)%nat) →
  let t := tail_stream stop_after cursor logged stream arrivals in
  (∃ cursor', reads_up_to base cursor' (tl_logged t) (tl_stream t)) ∧ stream `prefix_of` tl_stream t ∧
  (∀ n, stop_after = Some n → (length (tl_logged t) < n + COUNT)%nat ∧ (tl_stopped t = true ↔ n ≤ length (tl_logged t))%nat) ∧
  (stop_after = None → tl_stopped t = false).
Proof.
  revert cursor logged stream. induction arrivals as [|a arrivals IH]; intros cursor logged stream Hr Hn; cbn [tail_stream];
    destruct (match stop_after with Some n => (n <=? length logged)%nat | None => false end) eqn:Hstop.
  - split_and!; [by exists cursor|reflexivity| |by intros ->]. intros n ->. apply Nat.leb_le in Hstop. split; [by apply Hn|done].
  - split_and!; [by exists cursor|reflexivity| |by intros ->]. intros n ->. apply Nat.leb_gt in Hstop. split; [by apply Hn|simpl; split; [done|lia]].
  - split_and!; [by exists cursor|reflexivity| |by intros ->]. intros n ->. apply Nat.leb_le in Hstop. split; [by apply Hn|done].
  - destruct (xread cursor a stream) as [[pos batch] stream'] eqn:Hx.
    destruct (xread_spec base cursor a logged stream pos batch stream' Hr Hx) as (Hr' & Hb & Hp).
    destruct (IH _ _ _ Hr') as (H1 & H2 & H3 & H4).
    + intros n ->. apply Nat.leb_gt in Hstop. rewrite length_app. lia.
    + cbn zeta in *. split; [exact H1|]. split; [etrans; [exact Hp|exact H2]|]. by split.
Qed.

(** C38: the consumer reads the stream without a gap. From its start at the end of the stream,
    whatever is published and whenever its reads time out, the messages it has logged are
    consecutive entries of the stream, in order and without repetition, none of them older
    than its start; with [stop_after = n] it ends once it has logged [n], and at most nine
    more than that. *)
Theorem tail_reads_without_gaps stop_after stream arrivals :
  let t := tail_stream stop_after None [] stream arrivals in
  (∃ start, (length stream ≤ start)%nat ∧ tl_logged t = take (length (tl_logged t)) (drop start (tl_stream t))) ∧
  ∀ n, stop_after = Some n → (length (tl_logged t) < n + COUNT)%nat ∧ (tl_stopped t = true ↔ n ≤ length (tl_logged t))%nat.
Proof.
  destruct (tail_spec (length stream) stop_after None [] stream arrivals) as ([cursor Hr] & _ & Hn & _); [by split| |].
  { intros n _. unfold COUNT. simpl. lia. }
  split; [|done]. destruct cursor as [c|]; simpl in Hr; [destruct Hr as (start & E & Hs & Hc)|destruct Hr as [E _]].
  - exists start. split; [lia|]. rewrite E at 1. rewrite E, length_drop, length_take. rewrite take_drop_commute.
    do 2 f_equal. lia.
  - exists (length stream). split; [lia|]. by rewrite E.
Qed.

(** It may miss the first message: while nothing has arrived the cursor stays at ["$"], and
    what is published between two reads that time out is behind it. *)
Lemma tail_may_miss_the_first_message (first second : A) :
  tl_logged (tail_stream None None [] [] [mkArrival [] []; mkArrival [first] [second]]) = [second].
Proof. reflexivity. Qed.
End consumer.
