(* ===== verification/Recovery.v ===== *)
(** * Orphan recovery and the worker
    (services/mission-engine/mission_engine/engine/recovery.py and services/worker/main.py)

    The sweep requeues [running] tasks that no worker holds a lease on, counting every
    recovery; [process_task] executes one dequeued task under its lease. The lease itself is
    verified in [Lease]; here its answers are inputs. *)

From Stdlib Require Import Floats.
From S2P Require Import Prelude Enums Contracts Budgets Telemetry Breaker Database Scenario Transitions.
From S2P Require Import Missions Gateway Ledger Checkpoints Adapter Artifacts Executor.
Local Open Scope Z_scope.

Definition MAX_REQUEUES_REASON : string := "max_requeues".
Definition MAX_AUTO_REQUEUES : Z := 10.

(** [EXECUTABLE_STATUSES] *)
Definition executable (s : TaskStatus.t) : bool :=
  match s with TaskStatus.queued | TaskStatus.running => true | _ => false end.

Section recovery.
Context `{Env}.

(** The event of [_fail_after_max_requeues]. *)
Definition publish_max_requeues (mission : Mission.t) (task : Task.t) (event_type : EventType.t) :
    M unit :=
  i ← new_id;
  now ← utc;
  publish (build_event i now event_type (Mission.tenant_id mission) (Mission.id mission)
             (mkActor ActorType.system None) "worker" None (Some (Mission.id mission))
             (Some (Task.id task)) (Some (Task.assigned_agent_id task))
             [("reason", JStr MAX_REQUEUES_REASON)]).

(** [_fail_after_max_requeues(session, publisher, task)] *)
Definition fail_after_max_requeues (has_publisher : bool) (task : Task.t) : M unit :=
  if negb has_publisher then
    raise (RuntimeError "An event publisher is required to fail a task that hit the requeue cap.")
  else
    mission ← get_row DB.missions (Task.mission_id task);
    match mission with
    | None => raise (AttributeError "status")
    | Some mission =>
        match validate_task_transition TaskStatus.running TaskStatus.failed,
              validate_mission_transition (Mission.status mission) MissionStatus.failed with
        | Ret _, Ret _ =>
            now ← utc;
            _ ← update_task (Task.id task)
                  (λ t, Task.set_completed_at (Some now) (Task.set_status TaskStatus.failed t));
            _ ← update_mission (Mission.id mission)
                  (λ m, Mission.set_completed_at (Some now) (Mission.set_status MissionStatus.failed m));
            for_each [EventType.task_failed; EventType.mission_failed]
              (publish_max_requeues mission task)
        | _, _ => mret tt
        end
    end.

(** [register_recovery(session, publisher, task_id, max_requeues=..)] *)
Definition register_recovery (has_publisher : bool) (task_id : EntityId) (max_requeues : Z) : M bool :=
  task ← get_row DB.tasks task_id;
  match task with
  | None => mret false
  | Some task =>
      if decide (Task.status task ≠ TaskStatus.running) then mret false
      else if max_requeues <=? Task.retry_count task then
        _ ← fail_after_max_requeues has_publisher task;
        mret false
      else
        _ ← update_task task_id (λ t, Task.set_retry_count (Task.retry_count t + 1) t);
        mret true
  end.

(** The sweep's query: running tasks of agents that the platform's own worker executes. *)
Definition is_orphan_candidate (d : DB.t) (t : Task.t) : bool :=
  bool_decide (Task.status t = TaskStatus.running) &&
  bool_decide (runtime_adapter_of d (Task.assigned_agent_id t) = Some "custom_durable").

(** One iteration of the sweep's loop. *)
Definition recover_one (has_publisher : bool) (leased : EntityId → bool) (task_id : EntityId) :
    M bool :=
  if leased task_id then mret false
  else
    should_requeue ← with_session
      (b ← register_recovery has_publisher task_id MAX_AUTO_REQUEUES;
       _ ← commit;
       mret b);
    _ ← when should_requeue (enqueue_task task_id);
    mret should_requeue.

(** [requeue_orphaned_running_tasks(redis_client, sessionmaker, event_publisher)]; returns
    the number of tasks requeued. *)
Fixpoint recover_all (has_publisher : bool) (leased : EntityId → bool) (ids : list EntityId)
    (requeued : Z) : M Z :=
  match ids with
  | [] => mret requeued
  | i :: ids =>
      b ← recover_one has_publisher leased i;
      recover_all has_publisher leased ids (if (b : bool) then requeued + 1 else requeued)
  end.

Definition requeue_orphaned_running_tasks (has_publisher : bool) (leased : EntityId → bool) : M Z :=
  running_ids ← with_session (asks_db (λ d, Task.id <$> select (is_orphan_candidate d) (DB.tasks d)));
  recover_all has_publisher leased running_ids 0.

(** What is left of a run from [w0] to [w1] that was cut off right after its [n]-th durable
    effect (a commit or a provider request): the committed database and the requests of that
    moment; nothing staged survives. The breaker, queue and stores keep their later values,
    which no statement about a cut-off run mentions. *)
Definition cut_off (w0 w1 : World) (n : nat) : World :=
  match drop (length (w_durable_log w0)) (w_durable_log w1) !! n with
  | None => set_db (w_committed w1) w1
  | Some (committed, sent) =>
      set_durable_log (take (length (w_durable_log w0) + S n) (w_durable_log w1))
        (set_sends (take sent (w_sends w1)) (set_committed committed (set_db committed w1)))
  end.

(** [lease.run(execute_task(...))] and the commit behind it; [lost_at = Some n] is a lease
    lost after the [n]-th durable effect: the work is cancelled and [LeaseLostError] raised. *)
Definition run_leased (gw : ModelGateway) (task_id : EntityId) (lost_at : option nat) : M unit := λ w,
  match lost_at with
  | None => (_ ← execute_task gw task_id; commit) w
  | Some n =>
      (Raise (LeaseLostError (pretty task_id)), cut_off w (exec (execute_task gw task_id) w) n)
  end.

(** [process_task(redis_client, sessionmaker, deps, task_id)]; [acquired] is the answer of
    [lease.acquire()]. *)
Definition process_task (gw : ModelGateway) (task_id : EntityId) (acquired : bool)
    (lost_at : option nat) : M bool :=
  if negb acquired then mret false
  else with_session (
    task ← get_row DB.tasks task_id;
    match task with
    | None => mret false
    | Some task =>
        if negb (executable (Task.status task)) then mret false
        else
          _ ← try_except (run_leased gw task_id lost_at) (λ _, Some rollback);
          mret true
    end).
End recovery.

(** ** Recovery *)

(** The tasks after [register_recovery] answered [b]. *)
Definition recovery_post (tid : EntityId) (cap : Z) (w : World) (b : bool) (w' : World) : Prop :=
  match DB.tasks (w_db w) !! tid with
  | Some t =>
      if b then
        Task.status t = TaskStatus.running ∧ Task.retry_count t < cap ∧
        DB.tasks (w_db w') = <[tid := Task.set_retry_count (Task.retry_count t + 1) t]> (DB.tasks (w_db w))
      else
        DB.tasks (w_db w') = DB.tasks (w_db w) ∨
        (Task.status t = TaskStatus.running ∧ cap ≤ Task.retry_count t ∧
         Task.status <$> DB.tasks (w_db w') !! tid = Some TaskStatus.failed ∧
         Mission.status <$> DB.missions (w_db w') !! Task.mission_id t = Some MissionStatus.failed)
  | None => b = false ∧ w' = w
  end.

Section recovery_theorems.
Context `{Env}.

(** What [register_recovery] does, by case. *)
Lemma register_recovery_spec tid cap w :
  keyed (w_db w) →
  wp (register_recovery true tid cap) w (recovery_post tid cap w) (λ e _, e = AttributeError "status").
Proof.
  intros [Hkt Hkm]. unfold register_recovery, recovery_post. apply wp_bind, wp_asks.
  destruct (DB.tasks (w_db w) !! tid) as [t|] eqn:Ht; [|by apply wp_ret].
  case_decide as Hst; [apply wp_ret; by left|].
  destruct (Z.leb_spec cap (Task.retry_count t)).
  - apply wp_bind. unfold fail_after_max_requeues. simpl. apply wp_bind, wp_asks.
    destruct (DB.missions (w_db w) !! Task.mission_id t) as [m|] eqn:Hm; [|done].
    destruct (validate_mission_transition _ _) as [[]|]; [|apply wp_ret, wp_ret; by left].
    assert (∀ m t ty w', wp (publish_max_requeues m t ty) w'
      (λ _ w'', DB.tasks (w_db w'') = DB.tasks (w_db w') ∧ DB.missions (w_db w'') = DB.missions (w_db w'))
      (λ _ _, False)) as Hp.
    { intros. unfold publish_max_requeues, publish, wp. simpl. by destruct (redis_ok _). }
    apply wp_bind. unfold wp at 1, utc. apply wp_bind, wp_modify, wp_bind, wp_modify.
    simpl for_each. apply wp_bind. eapply wp_mono; [apply Hp| |done]. intros ? w1 [T1 M1].
    apply wp_bind. eapply wp_mono; [apply Hp| |done]. intros ? w2 [T2 M2]. apply wp_ret, wp_ret.
    right. rewrite T2, T1, M2, M1. simpl.
    rewrite (Hkt _ _ Ht), (Hkm _ _ Hm), !lookup_alter_eq, Ht, Hm. done.
  - apply wp_bind, wp_modify, wp_ret. simpl. split_and!; [done|done|].
    by rewrite (alter_insert_eq _ _ _ _ Ht).
Qed.

(** Every recovery is counted and capped. [register_recovery] allows a requeue only for a
    task that is running with fewer than [max_requeues] counted recoveries, and counts it; a
    running task at the cap whose mission may fail is marked failed with its mission; in
    every other case the tasks stay as they are. *)
Theorem register_recovery_counts_and_caps tid cap w :
  keyed (w_db w) →
  wp (register_recovery true tid cap) w (recovery_post tid cap w) (λ e _, e = AttributeError "status").
Proof. apply register_recovery_spec. Qed.
End recovery_theorems.

(** ** The worker *)

(** What a crash or a lost lease leaves is still covered by charges. *)
Lemma cut_off_wal w0 w1 n : wal w1 → wal (cut_off w0 w1 n).
Proof.
  intros [H1 H2 H3 H4 H5 H6]. unfold cut_off.
  destruct (_ !! n) as [[c sent]|] eqn:Hn; [|by constructor].
  rewrite lookup_drop in Hn. apply list_elem_of_lookup_2 in Hn.
  pose proof (proj1 (Forall_forall _ _) H2 _ Hn) as Hc. pose proof (proj1 (Forall_forall _ _) H6 _ Hn) as Hf.
  simpl in *. constructor; simpl; try done.
  - rewrite length_take. unfold charges. simpl. lia.
  - by apply Forall_take.
  - by apply Forall_take.
Qed.

Section worker_theorems.
Context `{Env}.

Lemma with_session_wal {A} (m : M A) : tracks (pres wal) m → tracks (pres wal) (with_session m).
Proof.
  intros Hm w [H1 H2 H3 H4 H5 H6]. unfold exec, with_session.
  specialize (Hm (set_db (w_committed w) w)). unfold exec in Hm.
  destruct (m _) as [r w']. simpl in *. destruct Hm as [G1 G2 G3 G4 G5 G6]; by constructor.
Qed.

Lemma rollback_wal : tracks (pres wal) rollback.
Proof. intros w [H1 H2 H3 H4 H5 H6]. by constructor. Qed.

Lemma run_leased_wal gw tid lost_at : tracks (pres wal) (run_leased gw tid lost_at).
Proof.
  assert (tracks (pres wal) (execute_task gw tid)) as He.
  { intros w. exact (ss_wal _ _ (execute_task_safe gw tid w)). }
  destruct lost_at as [n|].
  - intros w Hw. unfold exec, run_leased. simpl. by apply cut_off_wal, He.
  - assert (tracks (pres wal) (_ ← execute_task gw tid; commit)) as Hm; [|exact Hm].
    apply tracks_bind; [apply _|done|]. intros _ w. exact (commit_wal w).
Qed.

(** The worker never leaves an uncharged request behind: processing a dequeued task keeps
    the write-ahead invariant whether the lease is refused, the execution finishes, fails, or
    is cancelled by a lost lease after any of its commits or provider requests. *)
Lemma process_task_wal gw tid acquired lost_at w :
  wal w → wal (exec (process_task gw tid acquired lost_at) w).
Proof.
  revert w. change (tracks (pres wal) (process_task gw tid acquired lost_at)).
  unfold process_task. destruct (negb acquired); [apply tracks_ret, _|].
  apply with_session_wal. tracks_auto. apply tracks_try; [apply _|apply run_leased_wal|].
  intros e k [= <-]. apply rollback_wal.
Qed.

(** A duplicate queue entry is harmless: a task whose committed status is not queued or
    running, or whose lease another worker holds, is skipped, with no request, no write and
    no event. *)
Theorem process_task_skips gw tid acquired lost_at t w :
  w_db w = w_committed w → DB.tasks (w_committed w) !! tid = Some t →
  acquired = false ∨ executable (Task.status t) = false →
  process_task gw tid acquired lost_at w = (Ret false, w).
Proof.
  intros Hdb Ht Hskip. unfold process_task. destruct acquired; [|done].
  destruct Hskip as [?|Hex]; [done|]. simpl.
  unfold with_session, mbind, ST_bind, get_row, asks_db, asks. simpl. rewrite Ht, Hex. simpl.
  rewrite <- Hdb. by destruct w.
Qed.

(** C17: a task is requeued only after its recovery is durably counted. After one iteration of
    the sweep the queue is as it was, or it gained exactly this task, which was not leased
    and whose committed row is running with its count raised by one, to at most
    [MAX_AUTO_REQUEUES]. *)
Theorem sweep_counts_before_requeue leased tid t w :
  keyed (w_committed w) → DB.tasks (w_committed w) !! tid = Some t →
  let post (w' : World) := w_queue w' = w_queue w ∨
    (w_queue w' = tid :: w_queue w ∧ leased tid = false ∧
     Task.retry_count t + 1 ≤ MAX_AUTO_REQUEUES ∧
     DB.tasks (w_committed w') !! tid = Some (Task.set_retry_count (Task.retry_count t + 1) t) ∧
     Task.status t = TaskStatus.running) in
  wp (recover_one true leased tid) w (λ _, post) (λ _, post).
Proof.
  intros Hk Ht post. unfold recover_one. destruct (leased tid) eqn:Hl; [by apply wp_ret; left|].
  apply wp_bind. unfold wp at 1, with_session. simpl.
  set (w0 := set_db (w_committed w) w).
  assert (tracks (same w_queue) (register_recovery true tid MAX_AUTO_REQUEUES)) as Hq.
  { unfold register_recovery, fail_after_max_requeues, publish_max_requeues, update_task, update_mission.
    tracks_auto. intros w'. unfold same, exec, publish. simpl. by destruct (redis_ok _). }
  pose proof (register_recovery_spec tid MAX_AUTO_REQUEUES w0 Hk) as Hr.
  specialize (Hq w0). unfold recovery_post, wp, exec, same, mbind, ST_bind, commit in *.
  destruct (register_recovery true tid MAX_AUTO_REQUEUES w0) as [[b|e] w1]; simpl in *; [|by left].
  destruct (commit_ok _); simpl; [|by left]. rewrite Ht in Hr.
  destruct b; simpl; [|by left]. destruct Hr as (Hst & Hlt & Htasks).
  unfold enqueue_task. simpl. destruct (redis_ok _); simpl; [|by left].
  right. simpl. rewrite <- Hq, Htasks, lookup_insert_eq. split_and!; try done. lia.
Qed.
End worker_theorems.

(** ** Witnesses: the sample task left running by a dead worker *)

Definition sample_db_orphan (retries : Z) : DB.t :=
  DB.upd_tasks (λ _, {[ 7%positive :=
    Task.set_retry_count retries (Task.set_status TaskStatus.running sample_task) ]}) sample_db.

Lemma keyed_orphan n : keyed (sample_db_orphan n).
Proof. split; intros k x; simpl; rewrite lookup_singleton_Some; by intros [<- <-]. Qed.

Lemma register_recovery_counts_and_caps_witness :
  wp (register_recovery true 7 10) (world_of (sample_db_orphan 10))
    (recovery_post 7 10 (world_of (sample_db_orphan 10))) (λ e _, e = AttributeError "status").
Proof. apply register_recovery_counts_and_caps, keyed_orphan. Defined.

(** At the cap the sample task is failed; below it, it is counted and requeued. *)
Example sample_recoveries :
  (λ t, (Task.status t, Task.retry_count t)) <$>
    DB.tasks (w_db (exec (register_recovery true 7 10) (world_of (sample_db_orphan 10)))) !! 7%positive
    = Some (TaskStatus.failed, 10) ∧
  (λ t, (Task.status t, Task.retry_count t)) <$>
    DB.tasks (w_db (exec (register_recovery true 7 10) (world_of (sample_db_orphan 9)))) !! 7%positive
    = Some (TaskStatus.running, 10).
Proof. vm_compute. done. Qed.

Lemma process_task_skips_witness :
  process_task sample_gateway 7 false None sample_world = (Ret false, sample_world).
Proof.
  apply (process_task_skips sample_gateway 7 false None sample_task);
    [reflexivity | vm_compute; reflexivity | by left].
Defined.

Lemma sweep_counts_before_requeue_witness :
  let w := world_of (sample_db_orphan 3) in
  let t := Task.set_retry_count 3 (Task.set_status TaskStatus.running sample_task) in
  let post (w' : World) := w_queue w' = w_queue w ∨
    (w_queue w' = 7%positive :: w_queue w ∧ false = false ∧
     Task.retry_count t + 1 ≤ MAX_AUTO_REQUEUES ∧
     DB.tasks (w_committed w') !! 7%positive = Some (Task.set_retry_count (Task.retry_count t + 1) t) ∧
     Task.status t = TaskStatus.running) in
  wp (recover_one true (λ _, false) 7) w (λ _, post) (λ _, post).
Proof.
  exact (sweep_counts_before_requeue (λ _, false) 7
           (Task.set_retry_count 3 (Task.set_status TaskStatus.running sample_task))
           (world_of (sample_db_orphan 3)) (keyed_orphan 3) eq_refl).
Defined.
