(* ===== verification/RateLimit.v ===== *)
(** * The fixed-window rate limiter of the API
    ([_enforce_rate_limit] of services/api/routes/agent_runtime.py, external_agents.py,
    model_policies.py and projects.py, which differ in key, limit and text only)

    One Redis counter per key: [INCR] starts a missing or expired key at 1, and
    [EXPIRE key window NX] gives it a lifetime unless it has one. Times are in milliseconds. *)

From S2P Require Import Prelude Enums Contracts.
Local Open Scope Z_scope.

Record Counter := mkCounter { c_count : Z; c_expires : option Z }.

(** The key as Redis sees it at [now]. *)
Definition alive (now : Z) (c : option Counter) : option Counter :=
  match c with
  | Some c => match c_expires c with
              | Some e => if now <? e then Some c else None
              | None => Some c
              end
  | None => None
  end.

(** [redis.incr(key)] *)
Definition incr (now : Z) (c : option Counter) : Z * Counter :=
  match alive now c with
  | Some c => (c_count c + 1, mkCounter (c_count c + 1) (c_expires c))
  | None => (1, mkCounter 1 None)
  end.

(** [redis.expire(key, window_seconds, nx=True)] *)
Definition expire_nx (now window_seconds : Z) (c : Counter) : Counter :=
  match c_expires c with
  | Some _ => c
  | None => mkCounter (c_count c) (Some (now + 1000 * window_seconds))
  end.

(** [_enforce_rate_limit(redis, ...)] *)
Definition enforce_rate_limit (max_requests window_seconds : Z) (detail : string) (now : Z)
    (c : option Counter) : outcome exn unit * option Counter :=
  let '(count, c) := incr now c in
  let c := expire_nx now window_seconds c in
  (if max_requests <? count then Raise (HTTPException 429 detail) else Ret tt, Some c).

(** Requests that are let through, out of those made at the times [ts] on one key. *)
Fixpoint admitted (max_requests window_seconds : Z) (detail : string) (c : option Counter) (ts : list Z) : Z :=
  match ts with
  | [] => 0
  | t :: ts =>
      let '(r, c) := enforce_rate_limit max_requests window_seconds detail t c in
      (match r with Ret _ => 1 | Raise _ => 0 end) + admitted max_requests window_seconds detail c ts
  end.

(** ** The limiters of the four route modules, on one Redis *)

(** The counters by their keys. *)
Abbreviation Counters := (gmap string Counter).

(** [_RATE_LIMIT_MAX_REQUESTS] and [_RATE_LIMIT_WINDOW_SECONDS] of each module. *)
Definition AGENT_RUNTIME_LIMIT : Z * Z := (60, 60).
Definition EXTERNAL_AGENTS_LIMIT : Z * Z := (60, 60).
Definition MODEL_POLICIES_LIMIT : Z * Z := (20, 60).
Definition PROJECTS_LIMIT : Z * Z := (20, 60).

(** [_enforce_rate_limit] on the counter of one key. *)
Definition enforce_on (key : string) (limit : Z * Z) (detail : string) (now : Z) (redis : Counters) :
    outcome exn unit * Counters :=
  let '(r, c) := enforce_rate_limit limit.1 limit.2 detail now (redis !! key) in
  (r, partial_alter (λ _, c) key redis).

(** projects.py: creating and archiving share a counter per tenant. *)
Definition projects_enforce_rate_limit (tenant_id : EntityId) : Z → Counters → outcome exn unit * Counters :=
  enforce_on ("ratelimit:projects:create:" +:+ pretty tenant_id) PROJECTS_LIMIT
    "Too many project creations; slow down and retry shortly.".

(** model_policies.py *)
Definition model_policies_enforce_rate_limit (tenant_id : EntityId) : Z → Counters → outcome exn unit * Counters :=
  enforce_on ("ratelimit:model-policies:create:" +:+ pretty tenant_id) MODEL_POLICIES_LIMIT
    "Too many model-policy creations; slow down and retry shortly.".

(** external_agents.py *)
Definition external_agents_enforce_rate_limit (tenant_id : EntityId) : Z → Counters → outcome exn unit * Counters :=
  enforce_on ("ratelimit:external-agents:status:" +:+ pretty tenant_id) EXTERNAL_AGENTS_LIMIT
    "Too many external-agent status updates; slow down and retry shortly.".

(** agent_runtime.py: a counter per key and per route. *)
Inductive runtime_route := Sessions | SessionsHeartbeat | Close.

Definition route_name (route : runtime_route) : string :=
  match route with Sessions => "sessions" | SessionsHeartbeat => "sessions-heartbeat" | Close => "close" end.

Definition agent_runtime_enforce_rate_limit (route : runtime_route) (tenant_id key_id : EntityId) :
    Z → Counters → outcome exn unit * Counters :=
  enforce_on ("ratelimit:agent-runtime:" +:+ route_name route +:+ ":" +:+ pretty tenant_id +:+ ":" +:+ pretty key_id)
    AGENT_RUNTIME_LIMIT "Too many agent-runtime calls; slow down and retry shortly.".

(** What is counted together. *)
Inductive limiter :=
| ProjectsOf (tenant_id : EntityId)
| ModelPoliciesOf (tenant_id : EntityId)
| ExternalAgentsOf (tenant_id : EntityId)
| AgentRuntimeOf (route : runtime_route) (tenant_id key_id : EntityId).

#[global] Instance runtime_route_eq_dec : EqDecision runtime_route.
Proof. solve_decision. Defined.
#[global] Instance limiter_eq_dec : EqDecision limiter.
Proof. solve_decision. Defined.

Definition enforce (x : limiter) : Z → Counters → outcome exn unit * Counters :=
  match x with
  | ProjectsOf tenant_id => projects_enforce_rate_limit tenant_id
  | ModelPoliciesOf tenant_id => model_policies_enforce_rate_limit tenant_id
  | ExternalAgentsOf tenant_id => external_agents_enforce_rate_limit tenant_id
  | AgentRuntimeOf route tenant_id key_id => agent_runtime_enforce_rate_limit route tenant_id key_id
  end.

(** Requests of all callers in the order Redis sees them, each with its time: how many of
    [x]'s get through. *)
Fixpoint let_through (x : limiter) (redis : Counters) (requests : list (limiter * Z)) : Z :=
  match requests with
  | [] => 0
  | (y, t) :: requests =>
      let '(r, redis) := enforce y t redis in
      (if decide (y = x) then match r with Ret _ => 1 | Raise _ => 0 end else 0) + let_through x redis requests
  end.

(** What the theorems say of a limiter: its key and its numbers. *)
Definition key_of (x : limiter) : string :=
  match x with
  | ProjectsOf tn => "ratelimit:projects:create:" +:+ pretty tn
  | ModelPoliciesOf tn => "ratelimit:model-policies:create:" +:+ pretty tn
  | ExternalAgentsOf tn => "ratelimit:external-agents:status:" +:+ pretty tn
  | AgentRuntimeOf route tn k => "ratelimit:agent-runtime:" +:+ route_name route +:+ ":" +:+ pretty tn +:+ ":" +:+ pretty k
  end.

Definition limit_of (x : limiter) : Z * Z :=
  match x with
  | ProjectsOf _ => PROJECTS_LIMIT
  | ModelPoliciesOf _ => MODEL_POLICIES_LIMIT
  | ExternalAgentsOf _ => EXTERNAL_AGENTS_LIMIT
  | AgentRuntimeOf _ _ _ => AGENT_RUNTIME_LIMIT
  end.

Section limiter.
Context (n w : Z) (detail : string).
Hypothesis n_pos : 0 ≤ n.

(** What one request does, by the state of its key. *)
Lemma enforce_alive t k e : t < e →
  enforce_rate_limit n w detail t (Some (mkCounter k (Some e))) =
    (if n <? k + 1 then Raise (HTTPException 429 detail) else Ret tt, Some (mkCounter (k + 1) (Some e))).
Proof.
  intros Ht. unfold enforce_rate_limit, incr, alive. simpl.
  by rewrite (proj2 (Z.ltb_lt t e) Ht).
Qed.

Lemma enforce_fresh t c : alive t c = None →
  enforce_rate_limit n w detail t c =
    (if n <? 1 then Raise (HTTPException 429 detail) else Ret tt, Some (mkCounter 1 (Some (t + 1000 * w)))).
Proof. intros Ha. unfold enforce_rate_limit, incr. by rewrite Ha. Qed.

Lemma enforce_immortal t k :
  enforce_rate_limit n w detail t (Some (mkCounter k None)) =
    (if n <? k + 1 then Raise (HTTPException 429 detail) else Ret tt,
     Some (mkCounter (k + 1) (Some (t + 1000 * w)))).
Proof. done. Qed.

(** One lifetime of the key lets at most [n] requests through. *)
Lemma admitted_one_life k e ts : 0 ≤ k → Forall (λ t, t < e) ts →
  admitted n w detail (Some (mkCounter k (Some e))) ts ≤ Z.max 0 (n - k).
Proof.
  revert k. induction ts as [|t ts IH]; intros k Hk Hts; simpl; [lia|].
  apply Forall_cons in Hts as [Ht Hts]. rewrite enforce_alive by done.
  specialize (IH (k + 1) ltac:(lia) Hts). destruct (Z.ltb_spec n (k + 1)); simpl; lia.
Qed.

Lemma admitted_fresh t c ts : alive t c = None → Forall (λ x, x < t + 1000 * w) ts →
  admitted n w detail c (t :: ts) ≤ n.
Proof.
  intros Ha Hts. simpl. rewrite enforce_fresh by done.
  pose proof (admitted_one_life 1 (t + 1000 * w) ts ltac:(lia) Hts).
  destruct (Z.ltb_spec n 1); simpl; lia.
Qed.

Lemma admitted_window a k e ts : 0 ≤ k → Forall (λ t, a ≤ t < a + 1000 * w) ts →
  admitted n w detail (Some (mkCounter k (Some e))) ts ≤ Z.max 0 (n - k) + n.
Proof.
  revert k. induction ts as [|t ts IH]; intros k Hk Hts; [simpl; lia|].
  apply Forall_cons in Hts as [Ht Hts]. destruct (Z.ltb_spec t e) as [Hlt|Hge].
  - simpl. rewrite enforce_alive by done. specialize (IH (k + 1) ltac:(lia) Hts).
    destruct (Z.ltb_spec n (k + 1)); simpl; lia.
  - assert (admitted n w detail (Some (mkCounter k (Some e))) (t :: ts) ≤ n); [|lia].
    apply admitted_fresh; [simpl; by rewrite (proj2 (Z.ltb_ge t e) Hge)|].
    eapply Forall_impl; [exact Hts|]. simpl. lia.
Qed.
End limiter.

(** The limiter bounds the rate. Whatever the state of the counter, of all requests made on
    one key within any interval of one window's length at most twice the limit get through;
    on a fresh key, at most the limit. *)
Lemma admissions_bounded n w detail a c ts :
  0 ≤ n → (∀ x, c = Some x → 0 ≤ c_count x) → Forall (λ t, a ≤ t < a + 1000 * w) ts →
  admitted n w detail c ts ≤ 2 * n ∧ (c = None → admitted n w detail c ts ≤ n).
Proof.
  intros Hn Hc Hts.
  assert (∀ t ts', ts = t :: ts' → Forall (λ x, x < t + 1000 * w) ts') as Hlater.
  { intros t ts' ->. apply Forall_cons in Hts as [Ht Hts]. eapply Forall_impl; [exact Hts|]. simpl. lia. }
  destruct ts as [|t ts]; [simpl; lia|]. specialize (Hlater t ts eq_refl).
  destruct c as [[k [e|]]|].
  - split; [|done]. specialize (Hc _ eq_refl). simpl in Hc.
    pose proof (admitted_window n w detail Hn a k e (t :: ts) Hc Hts). lia.
  - split; [|done]. specialize (Hc _ eq_refl). simpl in Hc. cbn [admitted]. rewrite enforce_immortal.
    pose proof (admitted_one_life n w detail (k + 1) (t + 1000 * w) ts ltac:(lia) Hlater).
    destruct (Z.ltb_spec n (k + 1)); simpl; lia.
  - pose proof (admitted_fresh n w detail Hn t None ts eq_refl Hlater). lia.
Qed.

(** ** All limiters together *)

(** A tenant's number and a key's number can be read back. *)
Lemma numbers_inj (a b a' b' : positive) :
  pretty a +:+ ":" +:+ pretty b = pretty a' +:+ ":" +:+ pretty b' → a = a' ∧ b = b'.
Proof.
  intros E. assert (a = a') as <- by (apply (inj pretty); eapply before_colon, E; apply no_colon_pretty).
  split; [done|]. do 2 apply (inj (String.append _)) in E. by apply (inj pretty) in E.
Qed.

(** Different limiters count under different keys. *)
Lemma key_of_inj x y : key_of x = key_of y → x = y.
Proof.
  destruct x as [tn|tn|tn|[] tn k], y as [tn'|tn'|tn'|[] tn' k']; simpl; intros E; simplify_eq; try done;
    by destruct (numbers_inj _ _ _ _ E) as [<- <-].
Qed.

Lemma enforce_is x : ∃ detail, ∀ now redis, enforce x now redis = enforce_on (key_of x) (limit_of x) detail now redis.
Proof. destruct x; by eexists. Qed.

(** The times of [x]'s own requests. *)
Definition times (x : limiter) (requests : list (limiter * Z)) : list Z :=
  (filter (λ p, p.1 = x) requests).*2.

(** The requests of others change nothing for [x]. *)
Lemma let_through_alone x : ∃ detail, ∀ redis requests,
  let_through x redis requests = admitted (limit_of x).1 (limit_of x).2 detail (redis !! key_of x) (times x requests).
Proof.
  destruct (enforce_is x) as [detail Hx]. exists detail. intros redis requests. revert redis.
  induction requests as [|[y t] requests IH]; intros redis; [done|]. unfold times. cbn [let_through].
  rewrite filter_cons. simpl. destruct (decide (y = x)) as [->|Hne].
  - rewrite Hx. unfold enforce_on. simpl. destruct (enforce_rate_limit _ _ _ _ _) as [r c]. rewrite IH.
    by rewrite lookup_partial_alter_eq.
  - destruct (enforce_is y) as [dy Hy]. rewrite Hy. unfold enforce_on.
    destruct (enforce_rate_limit _ _ _ _ _) as [r c]. rewrite IH, lookup_partial_alter_ne; [done|].
    intros E. by apply Hne, key_of_inj.
Qed.

(** C36: the limits hold for every caller, whatever the others do. Of all requests that tenants
    and keys make to the four limited route modules, in any order on the shared Redis, those
    that count for one limiter (a tenant's projects, model policies or external agents, or one
    hook key on one route) and fall into an interval of one window's length get through at most
    twice its limit of times, and at most its limit if its counter was fresh; the requests of
    other tenants, keys and modules neither use up its budget nor add to it. *)
Theorem rate_limits_hold x a redis requests :
  (∀ c, redis !! key_of x = Some c → 0 ≤ c_count c) →
  (∀ t, (x, t) ∈ requests → a ≤ t < a + 1000 * (limit_of x).2) →
  let n := let_through x redis requests in
  n ≤ 2 * (limit_of x).1 ∧ (redis !! key_of x = None → n ≤ (limit_of x).1) ∧
  ∀ others, times x others = times x requests → let_through x redis others = n.
Proof.
  intros Hc Ht n. destruct (let_through_alone x) as [detail Hn]. unfold n. rewrite Hn.
  pose proof (admissions_bounded (limit_of x).1 (limit_of x).2 detail a (redis !! key_of x) (times x requests)) as Hb.
  destruct Hb as [H1 H2].
  - by destruct x.
  - done.
  - apply Forall_forall. intros t (p & -> & [Hp Hin]%list_elem_of_filter)%list_elem_of_fmap.
    destruct p as [y t]. simpl in *. subst y. by apply Ht.
  - split_and!; [done..|]. intros others Ho. by rewrite Hn, Ho.
Qed.

(** The limiter cannot wedge a tenant. After any request, whatever the counter's state
    before it (a counter without a lifetime, left by a request that died between [INCR] and
    [EXPIRE], included), a request that comes one window later or more is let through. *)
Theorem rate_limit_self_heals n w detail c t t' :
  1 ≤ n → (∀ x e, c = Some x → c_expires x = Some e → e ≤ t + 1000 * w) → t + 1000 * w ≤ t' →
  let c' := (enforce_rate_limit n w detail t c).2 in
  (enforce_rate_limit n w detail t' c').1 = Ret tt.
Proof.
  intros Hn Hc Ht c'.
  assert (∃ x e, c' = Some x ∧ c_expires x = Some e ∧ e ≤ t + 1000 * w) as (x & e & Hc' & Hx & He).
  { unfold c', enforce_rate_limit, incr, alive. destruct c as [[k [e|]]|]; simpl.
    - specialize (Hc _ e eq_refl eq_refl). destruct (t <? e); do 2 eexists; (split; [done|]); simpl; eauto with lia.
    - do 2 eexists. split; [done|]. simpl. eauto with lia.
    - do 2 eexists. split; [done|]. simpl. eauto with lia. }
  rewrite Hc', (enforce_fresh n w detail t').
  - simpl. destruct (Z.ltb_spec n 1); [lia|done].
  - simpl. rewrite Hx. destruct (Z.ltb_spec t' e); [lia|done].
Qed.

(** Thirty requests of tenant 1 to create projects, with requests of tenant 2 and of a hook key
    of tenant 1 in between. *)
Definition sample_requests : list (limiter * Z) :=
  concat (replicate 30 [(ProjectsOf 1, 5); (ProjectsOf 2, 5); (AgentRuntimeOf Close 1 9, 6)]).

Lemma rate_limits_hold_witness :
  let_through (ProjectsOf 1) ∅ sample_requests = 20 ∧ let_through (ProjectsOf 1) ∅ sample_requests ≤ 20.
Proof.
  split; [vm_compute; reflexivity|].
  destruct (rate_limits_hold (ProjectsOf 1) 0 ∅ sample_requests) as (_ & H2 & _); [done| |by apply H2].
  assert (Forall (λ p, 0 ≤ p.2 < 60000) sample_requests) as Hall by (apply (bool_decide_unpack _); vm_compute; exact I).
  rewrite Forall_forall in Hall. intros t Ht. exact (Hall _ Ht).
Defined.

(** A counter far over the limit, with no lifetime. *)
Lemma rate_limit_self_heals_witness :
  (enforce_rate_limit 60 60 "slow down" 70000
     (enforce_rate_limit 60 60 "slow down" 1000 (Some (mkCounter 500 None))).2).1 = Ret tt.
Proof.
  apply (rate_limit_self_heals 60 60 "slow down" (Some (mkCounter 500 None)) 1000 70000).
  - lia.
  - intros x e [= <-] He. discriminate He.
  - lia.
Defined.
