(* ===== verification/Rooms.v ===== *)
(** * Agent rooms
    (packages/common/rooms.py and services/api/services/room_assignment.py)

    The slot arithmetic of the apartment and the allocator that persists a room per active
    agent. *)

From stdpp Require Import relations.
From S2P Require Import Prelude Enums Contracts Breaker Database Scenario.
Local Open Scope Z_scope.

(** ** Slots *)

Definition ROOMS_PER_FLOOR : Z := 4.

(** [slot_to_room(slot)]: Python's [//] and [%] round down, as [Z.div] and [Z.modulo] do. *)
Definition slot_to_room (slot : Z) : outcome exn (Z * Z) :=
  if slot <? 0 then Raise (ValueError "slot must be >= 0")
  else Ret (slot / ROOMS_PER_FLOOR + 1, slot mod ROOMS_PER_FLOOR + 1).

(** [room_to_slot(floor, room_index)] *)
Definition room_to_slot (floor room_index : Z) : Z :=
  (floor - 1) * ROOMS_PER_FLOOR + (room_index - 1).

(** The [while slot in occupied] loop; [fuel] bounds its iterations. *)
Fixpoint free_slot_from (fuel : nat) (slot : Z) (occupied : gset Z) : Z :=
  match fuel with
  | O => slot
  | S fuel => if decide (slot ∈ occupied) then free_slot_from fuel (slot + 1) occupied else slot
  end.

(** [lowest_free_slot(occupied)]: the loop stops after at most [size occupied] steps. *)
Definition lowest_free_slot (occupied : gset Z) : Z := free_slot_from (size occupied) 0 occupied.

(** ** The allocator *)

(** [tenant_id == .. AND agent_id == .. AND released_at IS NULL] *)
Definition active_of (tenant_id : EntityId) (r : AgentRoomAssignment.t) : bool :=
  bool_decide (AgentRoomAssignment.tenant_id r = tenant_id) &&
  bool_decide (AgentRoomAssignment.released_at r = None).

Definition active_for (tenant_id agent_id : EntityId) (r : AgentRoomAssignment.t) : bool :=
  active_of tenant_id r && bool_decide (AgentRoomAssignment.agent_id r = agent_id).

Definition active_at (tenant_id : EntityId) (floor room : Z) (r : AgentRoomAssignment.t) : bool :=
  active_of tenant_id r && bool_decide (AgentRoomAssignment.floor r = floor) &&
  bool_decide (AgentRoomAssignment.room_index r = room).

Definition slot_of (r : AgentRoomAssignment.t) : Z :=
  room_to_slot (AgentRoomAssignment.floor r) (AgentRoomAssignment.room_index r).

(** [get_assignment(session, tenant_id, agent_id)] *)
Definition get_assignment (tenant_id agent_id : EntityId) : M (option AgentRoomAssignment.t) :=
  rows ← asks_db (λ d, select (active_for tenant_id agent_id) (DB.room_assignments d));
  scalar_one_or_none rows.

(** [list_assignments(session, tenant_id)] *)
Definition list_assignments (tenant_id : EntityId) : M (list AgentRoomAssignment.t) :=
  asks_db (λ d, select (active_of tenant_id) (DB.room_assignments d)).

(** The insert with the table's checks, foreign keys and its two partial unique indexes. *)
Definition insert_room_assignment (r : AgentRoomAssignment.t) : M unit :=
  d ← asks_db id;
  let tn := AgentRoomAssignment.tenant_id r in
  _ ← integrity (negb (is_present (AgentRoomAssignment.id r) (DB.room_assignments d)))
        "agent_room_assignments_pkey";
  _ ← integrity ((1 <=? AgentRoomAssignment.room_index r) && (AgentRoomAssignment.room_index r <=? 4))
        "ck_agent_room_assignments_room_index";
  _ ← integrity (1 <=? AgentRoomAssignment.floor r) "ck_agent_room_assignments_floor";
  _ ← integrity (is_present tn (DB.tenants d)) "agent_room_assignments_tenant_id_fkey";
  _ ← integrity (is_present (AgentRoomAssignment.agent_id r) (DB.agents d))
        "agent_room_assignments_agent_id_fkey";
  _ ← integrity (negb (exists_row (active_at tn (AgentRoomAssignment.floor r)
                         (AgentRoomAssignment.room_index r)) (DB.room_assignments d)))
        "uq_agent_room_assignments_active_room";
  _ ← integrity (negb (exists_row (active_for tn (AgentRoomAssignment.agent_id r))
                         (DB.room_assignments d)))
        "uq_agent_room_assignments_active_agent";
  modify_db (DB.upd_room_assignments (<[AgentRoomAssignment.id r := r]>)).

Definition MAX_ALLOCATION_ATTEMPTS : nat := 16.

Section allocator.
Context `{Env}.

(** What other sessions commit at this point becomes visible to this one. *)
Definition interfere (rival : DB.t → DB.t) : M unit :=
  modify (λ w, set_committed (rival (w_committed w)) (set_db (rival (w_db w)) w)).

(** One iteration of [ensure_assignment]'s loop; [None] means another round. [rival] is what
    other sessions commit between the occupancy query and the insert. *)
Definition try_allocate (rival : DB.t → DB.t) (tenant_id agent_id : EntityId) :
    M (option AgentRoomAssignment.t) :=
  existing ← get_assignment tenant_id agent_id;
  match existing with
  | Some a => mret (Some a)
  | None =>
      rows ← list_assignments tenant_id;
      room ← lift (slot_to_room (lowest_free_slot (list_to_set (slot_of <$> rows))));
      i ← new_id;
      now ← utc;
      _ ← interfere rival;
      let assignment := AgentRoomAssignment.mk i tenant_id agent_id room.1 room.2 now None in
      try_except
        (_ ← begin_nested (insert_room_assignment assignment);
         mret (Some assignment))
        (λ e, if is_integrity_error e then Some (_ ← rollback; mret None) else None)
  end.

Fixpoint allocate_loop (rivals : nat → DB.t → DB.t) (attempts : nat)
    (tenant_id agent_id : EntityId) : M (option AgentRoomAssignment.t) :=
  match attempts with
  | O => mret None
  | S attempts =>
      r ← try_allocate (rivals attempts) tenant_id agent_id;
      match r with
      | Some a => mret (Some a)
      | None => allocate_loop rivals attempts tenant_id agent_id
      end
  end.

(** [ensure_assignment(session, tenant_id, agent_id)]: every exception is logged and
    swallowed. [rivals n] is what other sessions commit during the attempt with [n] more to
    go. *)
Definition ensure_assignment (rivals : nat → DB.t → DB.t) (tenant_id agent_id : EntityId) :
    M (option AgentRoomAssignment.t) :=
  try_except (allocate_loop rivals MAX_ALLOCATION_ATTEMPTS tenant_id agent_id) (λ _, Some (mret None)).

(** Nobody else is registering an agent. *)
Definition no_rivals (_ : nat) (d : DB.t) : DB.t := d.

(** [release_assignment(session, tenant_id, agent_id)] *)
Definition release_assignment (tenant_id agent_id : EntityId) : M unit :=
  try_except
    (a ← get_assignment tenant_id agent_id;
     match a with
     | None => mret tt
     | Some a =>
         now ← utc;
         modify_db (DB.upd_room_assignments
           (alter (AgentRoomAssignment.set_released_at (Some now)) (AgentRoomAssignment.id a)))
     end)
    (λ _, Some (mret tt)).
End allocator.

(** ** Slot arithmetic *)

Lemma slot_to_room_Ret slot : 0 ≤ slot →
  slot_to_room slot = Ret (slot / 4 + 1, slot mod 4 + 1).
Proof. intros Hs. unfold slot_to_room. destruct (Z.ltb_spec slot 0); [lia|done]. Qed.

Lemma slot_room_bijection slot : 0 ≤ slot →
  ∃ f r, slot_to_room slot = Ret (f, r) ∧ 1 ≤ f ∧ 1 ≤ r ≤ 4 ∧ room_to_slot f r = slot.
Proof.
  intros Hs. rewrite slot_to_room_Ret by done. do 2 eexists. split; [done|].
  unfold room_to_slot, ROOMS_PER_FLOOR.
  pose proof (Z.div_mod slot 4 ltac:(done)). pose proof (Z.mod_pos_bound slot 4 ltac:(done)).
  pose proof (Z.div_pos slot 4 Hs ltac:(done)). lia.
Qed.

(** Slots and rooms are in bijection: a slot's room has a floor from 1 and an index from
    1 to 4 and leads back to the slot, and every such room is the room of its slot. *)
Theorem slot_room_round_trip slot floor room :
  (0 ≤ slot → ∃ f r, slot_to_room slot = Ret (f, r) ∧ 1 ≤ f ∧ 1 ≤ r ≤ 4 ∧ room_to_slot f r = slot) ∧
  (1 ≤ floor → 1 ≤ room ≤ 4 →
     0 ≤ room_to_slot floor room ∧ slot_to_room (room_to_slot floor room) = Ret (floor, room)).
Proof.
  split; [apply slot_room_bijection|].
  - intros Hf Hr. unfold room_to_slot, ROOMS_PER_FLOOR. split; [lia|].
    rewrite slot_to_room_Ret by lia.
    rewrite Z.div_add_l, (Z.add_comm ((floor - 1) * 4)), Z_mod_plus_full by done.
    rewrite (Z.div_small (room - 1)), (Z.mod_small (room - 1)) by lia. do 2 f_equal; lia.
Qed.

Lemma free_slot_from_spec fuel slot occupied :
  let r := free_slot_from fuel slot occupied in
  slot ≤ r ≤ slot + Z.of_nat fuel ∧ (∀ i, slot ≤ i < r → i ∈ occupied) ∧
  (r < slot + Z.of_nat fuel → r ∉ occupied).
Proof.
  revert slot. induction fuel as [|fuel IH]; intros slot; simpl; [split_and!; lia|].
  case_decide as Hin.
  - destruct (IH (slot + 1)) as (H1 & H2 & H3). split_and!; [lia|lia| |intros; apply H3; lia].
    intros i Hi. destruct (decide (i = slot)) as [->|]; [done|]. apply H2. lia.
  - split_and!; [lia|lia|lia|done].
Qed.

(** Distinct slots below [n] that are all occupied are at most as many as the occupied. *)
Lemma occupied_prefix_size (n : nat) (occupied : gset Z) :
  (∀ i, 0 ≤ i < Z.of_nat n → i ∈ occupied) → (n ≤ size occupied)%nat.
Proof.
  intros Hall. assert (list_to_set (seqZ 0 (Z.of_nat n)) ⊆ occupied) as Hsub.
  { intros i Hi. rewrite elem_of_list_to_set, elem_of_seqZ in Hi. apply Hall. lia. }
  apply subseteq_size in Hsub. rewrite size_list_to_set, length_seqZ in Hsub by apply NoDup_seqZ. lia.
Qed.

Lemma lowest_free_slot_spec occupied :
  let r := lowest_free_slot occupied in
  0 ≤ r ∧ r ∉ occupied ∧ ∀ i, 0 ≤ i < r → i ∈ occupied.
Proof.
  intros r. destruct (free_slot_from_spec (size occupied) 0 occupied) as (H1 & H2 & H3).
  fold (lowest_free_slot occupied) in *. fold r in H1, H2, H3. split_and!; [lia| |done].
  destruct (decide (r < 0 + Z.of_nat (size occupied))) as [|Hge]; [by apply H3|].
  intros Hin. assert (S (size occupied) ≤ size occupied)%nat; [|lia].
  apply occupied_prefix_size. intros i Hi. destruct (decide (i = r)) as [->|]; [done|]. apply H2. lia.
Qed.

(** One iteration of [while slot in occupied: slot += 1]. *)
Inductive scan (occupied : gset Z) : relation Z :=
| scan_next slot : slot ∈ occupied → scan occupied slot (slot + 1).

Lemma scan_steps (occupied : gset Z) (n : nat) slot :
  (∀ i, slot ≤ i < slot + Z.of_nat n → i ∈ occupied) → nsteps (scan occupied) n slot (slot + Z.of_nat n).
Proof.
  revert slot. induction n as [|n IH]; intros slot Hall; [rewrite Z.add_0_r; constructor|].
  apply (nsteps_l _ _ _ (slot + 1)); [constructor; apply Hall; lia|].
  replace (slot + Z.of_nat (S n)) with (slot + 1 + Z.of_nat n) by lia. apply IH. intros i Hi. apply Hall. lia.
Qed.

(** C35: the allocator's search ends. Whatever slots are occupied, the [while] loop from slot 0
    takes at most as many iterations as there are occupied slots, stops in the slot that
    [lowest_free_slot] computes, where it can take no further step, and that slot has a room
    which leads back to it. *)
Theorem lowest_free_slot_terminates occupied :
  ∃ n : nat, (n ≤ size occupied)%nat ∧ nsteps (scan occupied) n 0 (lowest_free_slot occupied) ∧
    nf (scan occupied) (lowest_free_slot occupied) ∧
    ∃ f r, slot_to_room (lowest_free_slot occupied) = Ret (f, r) ∧ room_to_slot f r = lowest_free_slot occupied.
Proof.
  destruct (lowest_free_slot_spec occupied) as (Hpos & Hfree & Hall). set (r := lowest_free_slot occupied) in *.
  exists (Z.to_nat r). split_and!.
  - apply occupied_prefix_size. intros i Hi. apply Hall. lia.
  - replace r with (0 + Z.of_nat (Z.to_nat r)) at 2 by lia. apply scan_steps. intros i Hi. apply Hall. lia.
  - intros [x Hx]. inversion Hx. done.
  - destruct (slot_room_bijection r Hpos) as (f & m & Hr & _ & _ & Hb). by exists f, m.
Qed.

(** ** The table's invariant *)

(** The two partial unique indexes and the two checks, on active rows. *)
Record rooms_ok (d : DB.t) : Prop := {
  rooms_room : ∀ k1 k2 r1 r2,
    DB.room_assignments d !! k1 = Some r1 → DB.room_assignments d !! k2 = Some r2 →
    active_at (AgentRoomAssignment.tenant_id r1) (AgentRoomAssignment.floor r1)
      (AgentRoomAssignment.room_index r1) r2 = true →
    AgentRoomAssignment.released_at r1 = None → k1 = k2;
  rooms_agent : ∀ k1 k2 r1 r2,
    DB.room_assignments d !! k1 = Some r1 → DB.room_assignments d !! k2 = Some r2 →
    active_for (AgentRoomAssignment.tenant_id r1) (AgentRoomAssignment.agent_id r1) r2 = true →
    AgentRoomAssignment.released_at r1 = None → k1 = k2;
  rooms_range : ∀ k r, DB.room_assignments d !! k = Some r →
    1 ≤ AgentRoomAssignment.floor r ∧ 1 ≤ AgentRoomAssignment.room_index r ≤ 4;
  rooms_keyed : ∀ k r, DB.room_assignments d !! k = Some r → AgentRoomAssignment.id r = k;
}.

Lemma rooms_ok_table d d' : DB.room_assignments d' = DB.room_assignments d → rooms_ok d → rooms_ok d'.
Proof. intros E [H1 H2 H3 H4]. by constructor; rewrite E. Qed.

Lemma active_of_spec tn r :
  active_of tn r = true ↔ AgentRoomAssignment.tenant_id r = tn ∧ AgentRoomAssignment.released_at r = None.
Proof. unfold active_of. by rewrite andb_true_iff, !bool_decide_eq_true. Qed.

Lemma active_for_spec tn ag r :
  active_for tn ag r = true ↔
  AgentRoomAssignment.tenant_id r = tn ∧ AgentRoomAssignment.released_at r = None ∧
  AgentRoomAssignment.agent_id r = ag.
Proof. unfold active_for. rewrite andb_true_iff, active_of_spec, bool_decide_eq_true. tauto. Qed.

Lemma active_at_spec tn f i r :
  active_at tn f i r = true ↔
  AgentRoomAssignment.tenant_id r = tn ∧ AgentRoomAssignment.released_at r = None ∧
  AgentRoomAssignment.floor r = f ∧ AgentRoomAssignment.room_index r = i.
Proof. unfold active_at. rewrite !andb_true_iff, active_of_spec, !bool_decide_eq_true. tauto. Qed.

(** [get_assignment] finds the agent's one active room, if there is one. *)
Lemma get_assignment_spec tn ag w :
  rooms_ok (w_db w) →
  wp (get_assignment tn ag) w
    (λ r w', w' = w ∧
       match r with
       | Some a => active_for tn ag a = true ∧ ∃ k, DB.room_assignments (w_db w) !! k = Some a
       | None => ∀ k a, DB.room_assignments (w_db w) !! k = Some a → active_for tn ag a = false
       end)
    (λ _ _, False).
Proof.
  intros Hok. unfold get_assignment. apply wp_bind, wp_asks.
  assert (∀ k1 k2 a1 a2, DB.room_assignments (w_db w) !! k1 = Some a1 →
    DB.room_assignments (w_db w) !! k2 = Some a2 →
    active_for tn ag a1 = true → active_for tn ag a2 = true → k1 = k2) as Hu.
  { intros k1 k2 a1 a2 H1 H2 P1%active_for_spec P2%active_for_spec.
    destruct P1 as (<- & Hr1 & <-). apply (rooms_agent _ Hok _ _ _ _ H1 H2); [|done].
    apply active_for_spec. naive_solver. }
  pose proof (select_at_most_one (active_for tn ag) _ Hu) as Hsel.
  unfold scalar_one_or_none. by destruct (select _ _) as [|a [|]].
Qed.

(** The slots taken by the tenant's active rooms. *)
Definition occupied_slots (tn : EntityId) (d : DB.t) : gset Z :=
  list_to_set (slot_of <$> select (active_of tn) (DB.room_assignments d)).

(** A free slot's room is not in use. *)
Lemma free_room_is_free tn d f i :
  rooms_ok d → 1 ≤ f → 1 ≤ i ≤ 4 → room_to_slot f i ∉ occupied_slots tn d →
  exists_row (active_at tn f i) (DB.room_assignments d) = false.
Proof.
  intros Hok Hf Hi Hfree. apply exists_row_false. intros k r Hk.
  destruct (active_at tn f i r) eqn:Ha; [|done]. apply active_at_spec in Ha as (Ht & Hr & <- & <-).
  destruct Hfree. apply elem_of_list_to_set, list_elem_of_fmap. exists r. split; [done|].
  apply elem_of_select. split; [by apply active_of_spec|by exists k].
Qed.

(** An insert with free keys and references in place goes through and keeps the invariant. *)
Lemma insert_room_ok r w :
  rooms_ok (w_db w) → DB.room_assignments (w_db w) !! AgentRoomAssignment.id r = None →
  1 ≤ AgentRoomAssignment.floor r → 1 ≤ AgentRoomAssignment.room_index r ≤ 4 →
  is_Some (DB.tenants (w_db w) !! AgentRoomAssignment.tenant_id r) →
  is_Some (DB.agents (w_db w) !! AgentRoomAssignment.agent_id r) →
  exists_row (active_at (AgentRoomAssignment.tenant_id r) (AgentRoomAssignment.floor r)
                (AgentRoomAssignment.room_index r)) (DB.room_assignments (w_db w)) = false →
  exists_row (active_for (AgentRoomAssignment.tenant_id r) (AgentRoomAssignment.agent_id r))
    (DB.room_assignments (w_db w)) = false →
  let d' := DB.upd_room_assignments (<[AgentRoomAssignment.id r := r]>) (w_db w) in
  insert_room_assignment r w = (Ret tt, set_db d' w) ∧ rooms_ok d'.
Proof.
  intros Hok Hk Hf Hi Ht Ha Hroom Hagent d'. split.
  - unfold insert_room_assignment, is_present, asks_db, asks, modify_db, modify, mbind, ST_bind,
      mret, ST_ret, integrity, id. simpl. rewrite bool_decide_false by (rewrite Hk; by intros []).
    simpl. destruct (Z.leb_spec 1 (AgentRoomAssignment.room_index r)); [|lia].
    destruct (Z.leb_spec (AgentRoomAssignment.room_index r) 4); [|lia].
    destruct (Z.leb_spec 1 (AgentRoomAssignment.floor r)); [|lia]. simpl.
    rewrite !bool_decide_true by done. by rewrite Hroom, Hagent.
  - rewrite exists_row_false in Hroom. rewrite exists_row_false in Hagent. constructor; simpl.
    + intros k1 k2 r1 r2 [[<- <-]|[Hn1 H1]]%lookup_insert_Some
        [[<- <-]|[Hn2 H2]]%lookup_insert_Some; [done|..]; intros Hat Hrel.
      * by rewrite (Hroom _ _ H2) in Hat.
      * apply active_at_spec in Hat as (E1 & E2 & E3 & E4). pose proof (Hroom _ _ H1) as Hr.
        assert (active_at (AgentRoomAssignment.tenant_id r) (AgentRoomAssignment.floor r)
          (AgentRoomAssignment.room_index r) r1 = true) by (apply active_at_spec; naive_solver). congruence.
      * by eapply (rooms_room _ Hok).
    + intros k1 k2 r1 r2 [[<- <-]|[Hn1 H1]]%lookup_insert_Some
        [[<- <-]|[Hn2 H2]]%lookup_insert_Some; [done|..]; intros Hat Hrel.
      * by rewrite (Hagent _ _ H2) in Hat.
      * apply active_for_spec in Hat as (E1 & E2 & E3). pose proof (Hagent _ _ H1) as Hr.
        assert (active_for (AgentRoomAssignment.tenant_id r) (AgentRoomAssignment.agent_id r) r1 = true)
          by (apply active_for_spec; naive_solver). congruence.
      * by eapply (rooms_agent _ Hok).
    + intros k r' [[<- <-]|[_ Hr']]%lookup_insert_Some; [done|by eapply (rooms_range _ Hok)].
    + intros k r' [[<- <-]|[_ Hr']]%lookup_insert_Some; [done|by eapply (rooms_keyed _ Hok)].
Qed.

(** The checks an insert that goes through has passed; a refused one changes nothing. *)
Lemma insert_room_spec r w :
  rooms_ok (w_db w) →
  wp (insert_room_assignment r) w
    (λ _ w', w_committed w' = w_committed w ∧ rooms_ok (w_db w')) (λ e w', w' = w).
Proof.
  intros Hok. destruct (insert_room_assignment r w) as [[[]|e] w'] eqn:Hi; unfold wp; rewrite Hi.
  - unfold insert_room_assignment, is_present, asks_db, asks, modify_db, modify, mbind, ST_bind,
      mret, ST_ret, raise, integrity, id in Hi. simpl in Hi.
    destruct (negb _) eqn:E1 in Hi; simpl in Hi; [|done].
    apply negb_true_iff, bool_decide_eq_false, eq_None_not_Some in E1.
    destruct (_ && _) eqn:E2 in Hi; simpl in Hi; [|done].
    apply andb_true_iff in E2 as [E2%Z.leb_le E2'%Z.leb_le].
    destruct (1 <=? _) eqn:E3 in Hi; simpl in Hi; [|done]. apply Z.leb_le in E3.
    case_bool_decide as E4; simpl in Hi; [|done]. case_bool_decide as E5; simpl in Hi; [|done].
    destruct (exists_row _ _) eqn:E6 in Hi; simpl in Hi; [done|].
    destruct (exists_row _ _) eqn:E7 in Hi; simpl in Hi; [done|]. injection Hi as <-.
    split; [done|]. by apply (insert_room_ok r w).
  - unfold insert_room_assignment, integrity, asks_db, asks, modify_db, modify, mbind, ST_bind, mret,
      ST_ret, raise, id in Hi. simpl in Hi. by repeat case_match; simplify_eq.
Qed.

Section allocation_lemmas.
Context `{Env}.

Lemma try_allocate_keeps rival tn ag :
  (∀ d, rooms_ok d → rooms_ok (rival d)) →
  tracks (pres (λ w, rooms_ok (w_db w) ∧ rooms_ok (w_committed w))) (try_allocate rival tn ag).
Proof.
  intros Hr. unfold try_allocate, get_assignment, list_assignments. tracks_auto.
  - intros w Hw. exact Hw.
  - intros w Hw. exact Hw.
  - intros w [Hd Hc]. split; simpl; auto.
  - apply tracks_try; [apply _| |].
    + apply tracks_bind; [apply _| |intros; apply tracks_ret, _].
      intros w [Hd Hc]. unfold exec, begin_nested.
      match goal with |- context [insert_room_assignment ?r w] =>
        pose proof (insert_room_spec r w Hd) as Hi end.
      unfold wp in Hi. destruct (insert_room_assignment _ w) as [[[]|e] w']; simpl.
      * by destruct Hi as [-> ?].
      * by subst.
    + intros e k Hk. case_match; simplify_eq. tracks_auto. intros w [Hd Hc]. by split.
Qed.
End allocation_lemmas.

(** ** Theorems *)

Section room_theorems.
Context `{Env}.

(** A first attempt that allocates decides. *)
Lemma ensure_assignment_first rivals tn ag a w w' :
  try_allocate (rivals 15%nat) tn ag w = (Ret (Some a), w') →
  ensure_assignment rivals tn ag w = (Ret (Some a), w').
Proof.
  assert (∀ n, try_allocate (rivals n) tn ag w = (Ret (Some a), w') →
    allocate_loop rivals (S n) tn ag w = (Ret (Some a), w')) as Hl.
  { intros n Ht. simpl. unfold mbind, ST_bind. by rewrite Ht. }
  intros Ht. unfold ensure_assignment, try_except, MAX_ALLOCATION_ATTEMPTS. by rewrite (Hl 15%nat Ht).
Qed.

Lemma try_allocate_spec tn ag w :
  rooms_ok (w_db w) → fresh_above (w_next_id w) (DB.room_assignments (w_db w)) →
  is_Some (DB.tenants (w_db w) !! tn) → is_Some (DB.agents (w_db w) !! ag) →
  ∃ a w', try_allocate (λ d, d) tn ag w = (Ret (Some a), w') ∧ rooms_ok (w_db w') ∧
    active_for tn ag a = true ∧ (∃ k, DB.room_assignments (w_db w') !! k = Some a) ∧
    ((w' = w ∧ ∃ k, DB.room_assignments (w_db w) !! k = Some a) ∨
     (slot_of a = lowest_free_slot (occupied_slots tn (w_db w)) ∧
      w_db w' = DB.upd_room_assignments (<[AgentRoomAssignment.id a := a]>) (w_db w))).
Proof.
  intros Hok Hfresh Ht Hag. unfold try_allocate, mbind, ST_bind.
  pose proof (get_assignment_spec tn ag w Hok) as Hg. unfold wp in Hg.
  destruct (get_assignment tn ag w) as [[[a|]|e] w0]; [|..|done]; destruct Hg as [-> Hg].
  { exists a, w. simpl. destruct Hg as [? Hin]. split_and!; [done..|]. left. split; done. }
  unfold list_assignments, asks_db, asks, lift, try_except. simpl.
  fold (occupied_slots tn (w_db w)). set (slot := lowest_free_slot _).
  destruct (lowest_free_slot_spec (occupied_slots tn (w_db w))) as (Hpos & Hfree & _). fold slot in Hpos, Hfree.
  destruct (slot_room_bijection slot Hpos) as (f & i & Hroom & Hf & Hi & Hback). rewrite Hroom. simpl.
  unfold begin_nested. set (w1 := set_committed _ _).
  set (r := AgentRoomAssignment.mk _ _ _ _ _ _ _).
  destruct (insert_room_ok r w1) as [Hins Hok']; try done.
  - by apply fresh_above_None.
  - apply (free_room_is_free tn (w_db w) f i); [done..|]. by rewrite Hback.
  - apply exists_row_false. intros k a Hk. by apply (Hg k a).
  - rewrite Hins. exists r. eexists. split; [reflexivity|]. simpl. split_and!.
    + exact Hok'.
    + by apply active_for_spec.
    + exists (w_next_id w). by rewrite lookup_insert_eq.
    + by right.
Qed.

(** The first attempt, with nobody in the way. *)
Lemma ensure_assignment_alone tn ag w :
  rooms_ok (w_db w) → fresh_above (w_next_id w) (DB.room_assignments (w_db w)) →
  is_Some (DB.tenants (w_db w) !! tn) → is_Some (DB.agents (w_db w) !! ag) →
  ∃ a w', ensure_assignment no_rivals tn ag w = (Ret (Some a), w') ∧ rooms_ok (w_db w') ∧
    active_for tn ag a = true ∧ (∃ k, DB.room_assignments (w_db w') !! k = Some a) ∧
    ((w' = w ∧ ∃ k, DB.room_assignments (w_db w) !! k = Some a) ∨
     (slot_of a = lowest_free_slot (occupied_slots tn (w_db w)) ∧
      w_db w' = DB.upd_room_assignments (<[AgentRoomAssignment.id a := a]>) (w_db w))).
Proof.
  intros Hok Hf Ht Ha. destruct (try_allocate_spec tn ag w Hok Hf Ht Ha) as (a & w' & Hr & Hpost).
  exists a, w'. split; [by apply (ensure_assignment_first no_rivals)|done].
Qed.

(** An invariant of the database that does not look at the rooms, and that other sessions
    keep, survives an allocation. *)
Lemma ensure_assignment_pres (I : DB.t → Prop) rivals tn ag :
  (∀ n d, I d → I (rivals n d)) → (∀ f d, I d → I (DB.upd_room_assignments f d)) →
  tracks (pres (λ w : World, I (w_db w) ∧ I (w_committed w))) (ensure_assignment rivals tn ag).
Proof.
  intros Hr Hf. set (J := pres _).
  assert (∀ A (m : M A), tracks (same (λ w, (w_db w, w_committed w))) m → tracks J m) as Hsame.
  { intros A m. apply tracks_impl. intros w w' E. unfold same in E. injection E as E1 E2.
    intros Hw. by rewrite <- E1, <- E2. }
  unfold ensure_assignment. apply tracks_try; [apply _| |by intros e k [= <-]; apply tracks_ret, _].
  generalize MAX_ALLOCATION_ATTEMPTS. induction n as [|n IH]; simpl; [apply tracks_ret, _|].
  apply tracks_bind; [apply _| |intros []; [apply tracks_ret, _|done]].
  unfold try_allocate, get_assignment, list_assignments.
  repeat first [ solve [apply Hsame; tracks_auto] | tracks_step ].
  - intros w [H1 H2]. split; simpl; auto.
  - apply tracks_try; [apply _| |].
    + apply tracks_bind; [apply _| |intros; apply tracks_ret, _]. intros w [H1 H2].
      unfold exec, begin_nested, insert_room_assignment, integrity, asks_db, asks, modify_db, modify, mbind, ST_bind,
        mret, ST_ret, raise, id. simpl. by repeat (case_match; simpl in *; simplify_eq); auto.
    + intros e k Hk. case_match; simplify_eq. apply tracks_bind; [apply _| |intros; apply tracks_ret, _].
      intros w [H1 H2]. by split.
Qed.

(** Rooms are allocated deterministically and never double-booked. For a tenant and an
    agent that exist, [ensure_assignment] returns a room: the agent's active one, unchanged,
    if it has one; otherwise, with no concurrent registration, the room of the lowest slot
    free in the tenant's building, now the agent's, and no other table changes. No two active
    rows share a room or an agent afterwards. *)
Theorem ensure_assignment_lowest_free tn ag w :
  rooms_ok (w_db w) → fresh_above (w_next_id w) (DB.room_assignments (w_db w)) →
  is_Some (DB.tenants (w_db w) !! tn) → is_Some (DB.agents (w_db w) !! ag) →
  ∃ a w', ensure_assignment no_rivals tn ag w = (Ret (Some a), w') ∧ rooms_ok (w_db w') ∧
    active_for tn ag a = true ∧ (∃ k, DB.room_assignments (w_db w') !! k = Some a) ∧
    ((w' = w ∧ ∃ k, DB.room_assignments (w_db w) !! k = Some a) ∨
     (slot_of a = lowest_free_slot (occupied_slots tn (w_db w)) ∧
      w_db w' = DB.upd_room_assignments (<[AgentRoomAssignment.id a := a]>) (w_db w))).
Proof. apply ensure_assignment_alone. Qed.

(** C28: no double booking under concurrency. Whatever other sessions commit between the
    occupancy query and the insert, on every one of the attempts, and whether or not a room
    is found, [ensure_assignment] returns without raising and leaves a table in which no two
    active rows share a room or an agent. *)
Theorem ensure_assignment_keeps_rooms rivals tn ag w :
  (∀ n d, rooms_ok d → rooms_ok (rivals n d)) → rooms_ok (w_db w) → rooms_ok (w_committed w) →
  wp (ensure_assignment rivals tn ag) w (λ _ w', rooms_ok (w_db w')) (λ _ _, False).
Proof.
  intros Hr Hd Hc. set (I := λ w, rooms_ok (w_db w) ∧ rooms_ok (w_committed w)).
  assert (∀ n, tracks (pres I) (allocate_loop rivals n tn ag)) as Hl.
  { induction n as [|n IH]; simpl; tracks_auto. apply try_allocate_keeps. intros d. apply Hr. }
  unfold ensure_assignment. apply wp_try.
  eapply wp_mono; [apply pres_wp; [apply Hl|done]|by intros ? w' []|].
  intros e w' [Hd' _]. by apply wp_ret.
Qed.
End room_theorems.

(** ** Witnesses: agent 4 of the sample tenant moves into room 1 of floor 1 *)

Lemma rooms_ok_empty d : DB.room_assignments d = ∅ → rooms_ok d.
Proof. intros Hd. by constructor; rewrite Hd. Qed.

Lemma ensure_assignment_lowest_free_witness :
  ∃ a w', ensure_assignment no_rivals 1 4 sample_world = (Ret (Some a), w') ∧
    slot_of a = 0 ∧ rooms_ok (w_db w').
Proof.
  destruct (ensure_assignment_lowest_free 1 4 sample_world) as (a & w' & He & Hok & _ & _ & [[_ [k Hk]]|[Hs _]]).
  - by apply rooms_ok_empty.
  - intros i [r Hr]. change (DB.room_assignments (w_db sample_world)) with (∅ : gmap EntityId AgentRoomAssignment.t) in Hr.
    by rewrite lookup_empty in Hr.
  - by eexists.
  - by eexists.
  - change (DB.room_assignments (w_db sample_world)) with (∅ : gmap EntityId AgentRoomAssignment.t) in Hk.
    by rewrite lookup_empty in Hk.
  - exists a, w'. split; [exact He|]. split; [exact Hs|exact Hok].
Defined.

(** A rival session that clears the building on every attempt. *)
Lemma ensure_assignment_keeps_rooms_witness :
  wp (ensure_assignment (λ _, DB.upd_room_assignments (λ _, ∅)) 1 4) sample_world
    (λ _ w', rooms_ok (w_db w')) (λ _ _, False).
Proof.
  apply (ensure_assignment_keeps_rooms (λ _, DB.upd_room_assignments (λ _, ∅)) 1 4 sample_world).
  - intros n d _. by apply rooms_ok_empty.
  - by apply rooms_ok_empty.
  - by apply rooms_ok_empty.
Defined.
