(* ===== verification/Routes.v ===== *)
(** * Mission and task routes
    (services/api/routes/missions.py and services/api/routes/tasks.py)

    Each route is the body that runs for an authenticated user inside [Api.request]'s
    session; its [HTTPException]s are the API's error answers. *)

From S2P Require Import Prelude Enums Contracts Breaker Database Scenario Transitions Missions Api Budgets.
From S2P Require Import Telemetry Gateway Ledger Checkpoints Adapter Artifacts Executor Recovery.
Local Open Scope Z_scope.

(** ** Missions *)

(** [MissionResponse]: the row, its project link and the derived [is_agent_runtime]. *)
Record MissionResponse := mkMissionResponse {
  mr_mission : Mission.t;
  mr_project_id : option EntityId;
  mr_is_agent_runtime : bool;
}.

(** [MissionCreateRequest] *)
Record MissionCreateRequest := mkMissionCreateRequest {
  mc_title : string;
  mc_objective : string;
  mc_assigned_agent_id : EntityId;
  mc_priority : MissionPriority.t;
  mc_risk_level : RiskLevel.t;
  mc_budget_policy : option BudgetPolicy;
  mc_project_id : option EntityId;
}.

(** [session.add(MissionProject(...)); flush]: primary key, foreign key to the mission, and
    the composite foreign key to the tenant's project. *)
Definition insert_mission_project (r : MissionProject.t) : M unit :=
  d ← asks_db id;
  _ ← integrity (negb (is_present (MissionProject.mission_id r) (DB.mission_projects d)))
        "mission_projects_pkey";
  _ ← integrity (is_present (MissionProject.mission_id r) (DB.missions d))
        "mission_projects_mission_id_fkey";
  _ ← integrity (match DB.projects d !! MissionProject.project_id r with
                 | Some p => bool_decide (Project.tenant_id p = MissionProject.tenant_id r)
                 | None => false
                 end) "fk_mission_projects_tenant_project";
  modify_db (DB.upd_mission_projects (<[MissionProject.mission_id r := r]>)).

(** [_resolve_project_link(session, project_id, tenant_id)] *)
Definition resolve_project_link (project_id : option EntityId) (tenant_id : EntityId) : M unit :=
  match project_id with
  | None => mret tt
  | Some p =>
      project ← tenant_scoped_or_404 DB.projects Project.tenant_id "Project" p tenant_id;
      if decide (Project.status project = ProjectStatus.archived) then
        raise (HTTPException 409 "This project is archived and cannot be linked to a new mission.")
      else mret tt
  end.

(** [_is_agent_runtime_mission(session, mission_id)] *)
Definition is_agent_runtime_mission (mission_id : EntityId) : M bool :=
  asks_db (λ d, exists_row
    (λ s, bool_decide (AgentRuntimeSession.mission_id s = Some mission_id)) (DB.runtime_sessions d)).

(** [_mission_response(session, mission)] *)
Definition mission_response (mission : Mission.t) : M MissionResponse :=
  link ← get_row DB.mission_projects (Mission.id mission);
  is_runtime ← is_agent_runtime_mission (Mission.id mission);
  mret (mkMissionResponse mission
          (match link with
           | Some l => if decide (MissionProject.tenant_id l = Mission.tenant_id mission)
                       then Some (MissionProject.project_id l) else None
           | None => None
           end) is_runtime).

Definition mission_or_404 (mission_id : EntityId) (user : User.t) : M Mission.t :=
  tenant_scoped_or_404 DB.missions Mission.tenant_id "Mission" mission_id (User.tenant_id user).

(** The 409 that protects a mission owned by an agent-runtime session. *)
Definition refuse_agent_runtime (mission_id : EntityId) (verb : string) : M unit :=
  b ← is_agent_runtime_mission mission_id;
  when b (raise (HTTPException 409 ("This mission belongs to a Claude Code agent-runtime session and "
            +:+ "cannot be " +:+ verb +:+ " here."))).

(** An [InvalidTransition] becomes a 409 with its text. *)
Definition transition_409 {A} (e : exn) : option (M A) :=
  match e with
  | InvalidTransition entity current target =>
      Some (raise (HTTPException 409 ("Invalid " +:+ entity +:+ " transition: " +:+ current +:+ " -> "
                     +:+ target)))
  | _ => None
  end.

Section mission_routes.
Context `{Env}.

(** [create_mission_route(payload, user, ...)] *)
Definition create_mission_route (payload : MissionCreateRequest) (user : User.t) : M MissionResponse :=
  _ ← resolve_project_link (mc_project_id payload) (User.tenant_id user);
  code ← new_id;
  mission ← create_mission (User.tenant_id user) ("MSN-" +:+ pretty code) (mc_title payload)
              (mc_objective payload) (Some (User.id user)) (mc_assigned_agent_id payload)
              (mc_priority payload) (mc_risk_level payload) (mc_budget_policy payload);
  _ ← match mc_project_id payload with
      | Some p => insert_mission_project (MissionProject.mk (Mission.id mission) (User.tenant_id user) p)
      | None => mret tt
      end;
  _ ← publish_api EventType.mission_created (User.tenant_id user) (user_actor user)
        (Mission.id mission) (Some (Mission.id mission)) None (Mission.assigned_agent_id mission) [];
  mission_response mission.

(** [get_mission(mission_id, user, session)] *)
Definition get_mission (mission_id : EntityId) (user : User.t) : M MissionResponse :=
  mission ← mission_or_404 mission_id user;
  mission_response mission.

(** [update_mission(mission_id, payload, user, session)] *)
Definition update_mission_route (mission_id : EntityId) (project_id : option EntityId) (user : User.t) :
    M MissionResponse :=
  mission ← mission_or_404 mission_id user;
  _ ← resolve_project_link project_id (User.tenant_id user);
  existing_link ← get_row DB.mission_projects (Mission.id mission);
  _ ← match project_id, existing_link with
      | None, None => mret tt
      | None, Some _ => modify_db (DB.upd_mission_projects (delete (Mission.id mission)))
      | Some p, None =>
          insert_mission_project (MissionProject.mk (Mission.id mission) (User.tenant_id user) p)
      | Some p, Some _ =>
          modify_db (DB.upd_mission_projects
            (alter (MissionProject.set_project_id p) (Mission.id mission)))
      end;
  mission_response mission.

(** What [start_mission_route] does for a mission it has just started. *)
Definition announce_and_enqueue (mission_id : EntityId) (user : User.t) (result : StartMissionResult) :
    M unit :=
  let tn := User.tenant_id user in
  let actor := user_actor user in
  let task := sm_task result in
  _ ← publish_api EventType.mission_started tn actor mission_id (Some mission_id) None
        (Mission.assigned_agent_id (sm_mission result)) [];
  _ ← publish_api EventType.task_created tn actor mission_id (Some mission_id) (Some (Task.id task))
        (Some (Task.assigned_agent_id task)) [];
  _ ← publish_api EventType.task_assigned tn actor mission_id (Some mission_id) (Some (Task.id task))
        (Some (Task.assigned_agent_id task)) [];
  _ ← commit;
  version ← active_version (Task.assigned_agent_id task);
  match version with
  | Some v => when (bool_decide (AgentVersion.runtime_adapter v = "custom_durable"))
                (enqueue_task (Task.id task))
  | None => mret tt
  end.

(** [start_mission_route(mission_id, user, ...)] *)
Definition start_mission_route (mission_id : EntityId) (user : User.t) : M MissionResponse :=
  _ ← mission_or_404 mission_id user;
  _ ← refuse_agent_runtime mission_id "started";
  result ← try_except (start_mission mission_id)
    (λ e, match e with ValueError msg => Some (raise (HTTPException 409 msg)) | _ => None end);
  _ ← when (newly_started result) (announce_and_enqueue mission_id user result);
  mission_response (sm_mission result).

(** [cancel_mission(mission_id, user, ...)] *)
Definition cancel_mission (mission_id : EntityId) (user : User.t) : M MissionResponse :=
  mission ← mission_or_404 mission_id user;
  _ ← refuse_agent_runtime mission_id "cancelled";
  _ ← try_except (mark_mission_status mission MissionStatus.cancelled) transition_409;
  _ ← publish_api EventType.mission_cancelled (User.tenant_id user) (user_actor user) mission_id
        (Some mission_id) None None [];
  refreshed ← get_row DB.missions mission_id;
  mission_response (default mission refreshed).
End mission_routes.

(** ** Tasks *)

(** [_get_task_tenant_scoped] and the 404 behind it: the task's mission must be the tenant's. *)
Definition task_or_404 (task_id tenant_id : EntityId) : M Task.t :=
  task ← get_row DB.tasks task_id;
  match task with
  | None => raise (not_found "Task")
  | Some t =>
      mission ← get_row DB.missions (Task.mission_id t);
      match mission with
      | Some m => if decide (Mission.tenant_id m = tenant_id) then mret t else raise (not_found "Task")
      | None => raise (not_found "Task")
      end
  end.

Section task_routes.
Context `{Env}.

(** [retry_task(task_id, user, session, redis_client)] *)
Definition retry_task (task_id : EntityId) (user : User.t) : M Task.t :=
  task ← task_or_404 task_id (User.tenant_id user);
  version ← active_version (Task.assigned_agent_id task);
  let internal := match version with
                  | Some v => bool_decide (AgentVersion.runtime_adapter v = "custom_durable")
                  | None => false
                  end in
  if negb internal then
    raise (HTTPException 409
             "This task is executed externally and cannot be retried by the platform worker.")
  else
    _ ← try_except (lift (validate_task_transition (Task.status task) TaskStatus.queued)) transition_409;
    _ ← update_task task_id (Task.set_status TaskStatus.queued);
    _ ← enqueue_task (Task.id task);
    mret (Task.set_status TaskStatus.queued task).

(** [_load_external_task(session, task_id, tenant_id)] *)
Definition load_external_task (task_id tenant_id : EntityId) :
    M (Task.t * Mission.t * Agent.t * AgentVersion.t) :=
  task ← task_or_404 task_id tenant_id;
  mission ← get_row DB.missions (Task.mission_id task);
  agent ← get_row DB.agents (Task.assigned_agent_id task);
  version ← active_version (Task.assigned_agent_id task);
  let refuse := raise (HTTPException 409
    ("This task is executed internally by the worker, not via complete-external/fail-external.")) in
  match version, agent, mission with
  | Some v, Some a, Some m =>
      if decide (AgentVersion.runtime_adapter v = "custom_durable") then refuse
      else mret (task, m, a, v)
  | _, _, _ => refuse
  end.

(** [await session.refresh(task)] *)
Definition refreshed_task (task_id : EntityId) : M Task.t :=
  row ← get_row DB.tasks task_id;
  match row with
  | Some t => mret t
  | None => raise (RuntimeError "Could not refresh instance")
  end.

(** [complete_task_external(task_id, payload, user, ...)] *)
Definition complete_task_external (task_id : EntityId) (output_text : string) (user : User.t) : M Task.t :=
  l ← load_external_task task_id (User.tenant_id user);
  let '(task, mission, agent, agent_version) := l in
  let actor := mkActor ActorType.agent (Some (Agent.id agent)) in
  let say ty t data := publish_api ty (User.tenant_id user) actor (Mission.id mission)
                         (Some (Mission.id mission)) t (Some (Agent.id agent)) data in
  _ ← try_except
        (_ ← lift (validate_task_transition (Task.status task) TaskStatus.running);
         lift (validate_mission_transition (Mission.status mission) MissionStatus.completed))
        transition_409;
  match validate_mission_output output_text with
  | (None, error) =>
      raise (HTTPException 422 ("Output failed validation: " +:+ default "None" error))
  | (Some parsed, _) =>
      started ← utc;
      _ ← update_task task_id
            (λ t, Task.set_started_at (Some started) (Task.set_status TaskStatus.running t));
      _ ← say EventType.task_started (Some task_id) [];
      c ← commit_artifact (Mission.tenant_id mission) (Mission.id mission) task_id (Agent.id agent)
            (AgentVersion.id agent_version) ArtifactType.mission_output (out_title parsed) output_text
            "application/json" "primary" [];
      _ ← when (newly_created c)
            (say EventType.artifact_created (Some task_id)
               [("artifact_id", JStr (pretty (Artifact.id (cr_artifact c))))]);
      done ← utc;
      _ ← update_task task_id
            (λ t, Task.set_completed_at (Some done) (Task.set_status TaskStatus.completed
                    (Task.set_output_artifact_id (Some (Artifact.id (cr_artifact c))) t)));
      _ ← say EventType.task_completed (Some task_id) [];
      _ ← update_mission (Mission.id mission)
            (λ m, Mission.set_completed_at (Some done) (Mission.set_status MissionStatus.completed m));
      _ ← say EventType.mission_completed None [];
      refreshed_task task_id
  end.

(** [fail_task_external(task_id, payload, user, ...)] *)
Definition fail_task_external (task_id : EntityId) (reason : string) (user : User.t) : M Task.t :=
  l ← load_external_task task_id (User.tenant_id user);
  let '(task, mission, agent, _) := l in
  let actor := mkActor ActorType.agent (Some (Agent.id agent)) in
  let say ty t data := publish_api ty (User.tenant_id user) actor (Mission.id mission)
                         (Some (Mission.id mission)) t (Some (Agent.id agent)) data in
  _ ← try_except
        (status ←
           (if decide (Task.status task = TaskStatus.queued) then
              _ ← lift (validate_task_transition TaskStatus.queued TaskStatus.running);
              started ← utc;
              _ ← update_task task_id
                    (λ t, Task.set_started_at (Some started) (Task.set_status TaskStatus.running t));
              _ ← say EventType.task_started (Some task_id) [];
              mret TaskStatus.running
            else mret (Task.status task));
         _ ← lift (validate_task_transition status TaskStatus.failed);
         lift (validate_mission_transition (Mission.status mission) MissionStatus.failed))
        transition_409;
  now ← utc;
  _ ← update_task task_id (λ t, Task.set_completed_at (Some now) (Task.set_status TaskStatus.failed t));
  _ ← say EventType.task_failed (Some task_id) [("reason", JStr reason)];
  _ ← update_mission (Mission.id mission)
        (λ m, Mission.set_completed_at (Some now) (Mission.set_status MissionStatus.failed m));
  _ ← say EventType.mission_failed None [("reason", JStr reason)];
  refreshed_task task_id.
End task_routes.

(** ** Theorems *)

Section route_theorems.
Context `{Env}.

Lemma mission_of_other_tenant {A} mid user w m (f : Mission.t → M A) :
  DB.missions (w_db w) !! mid = Some m → Mission.tenant_id m ≠ User.tenant_id user →
  (mission ← mission_or_404 mid user; f mission) w = (Raise (not_found "Mission"), w).
Proof.
  intros Hm Hne. unfold mission_or_404, mbind, ST_bind. rewrite tenant_scoped_404; [done|]. naive_solver.
Qed.

Lemma task_of_other_tenant {A} tid user w t m (f : Task.t → M A) :
  DB.tasks (w_db w) !! tid = Some t → DB.missions (w_db w) !! Task.mission_id t = Some m →
  Mission.tenant_id m ≠ User.tenant_id user →
  (task ← task_or_404 tid (User.tenant_id user); f task) w = (Raise (not_found "Task"), w).
Proof.
  intros Ht Hm Hne. unfold task_or_404, mbind, ST_bind, get_row, asks_db, asks. simpl.
  rewrite Ht. simpl. rewrite Hm. simpl. by rewrite decide_False.
Qed.

(** Tenant isolation. Every route on a mission or a task of another tenant answers 404,
    the answer of a resource that does not exist, and changes nothing. *)
Theorem other_tenants_are_invisible mid m tid t user project output reason w :
  DB.missions (w_db w) !! mid = Some m → DB.tasks (w_db w) !! tid = Some t →
  Task.mission_id t = mid → Mission.tenant_id m ≠ User.tenant_id user →
  get_mission mid user w = (Raise (not_found "Mission"), w) ∧
  update_mission_route mid project user w = (Raise (not_found "Mission"), w) ∧
  start_mission_route mid user w = (Raise (not_found "Mission"), w) ∧
  cancel_mission mid user w = (Raise (not_found "Mission"), w) ∧
  retry_task tid user w = (Raise (not_found "Task"), w) ∧
  complete_task_external tid output user w = (Raise (not_found "Task"), w) ∧
  fail_task_external tid reason user w = (Raise (not_found "Task"), w).
Proof.
  intros Hm Ht <- Hne.
  assert (load_external_task tid (User.tenant_id user) w = (Raise (not_found "Task"), w)) as Hl.
  { by eapply task_of_other_tenant. }
  split_and!; try by eapply mission_of_other_tenant.
  - by eapply task_of_other_tenant.
  - unfold complete_task_external, mbind at 1, ST_bind at 1. by rewrite Hl.
  - unfold fail_task_external, mbind at 1, ST_bind at 1. by rewrite Hl.
Qed.

(** The queue holds what it held, or one task more that is committed. *)
Definition queued_is_committed (w0 w : World) : Prop :=
  w_queue w = w_queue w0 ∨
  ∃ t, w_queue w = t :: w_queue w0 ∧ is_Some (DB.tasks (w_committed w) !! t).

Lemma publish_api_quiet ty tn actor corr m t a data :
  tracks (same (λ w, (w_queue w, DB.tasks (w_db w)))) (publish_api ty tn actor corr m t a data).
Proof.
  unfold publish_api. tracks_auto. intros w. unfold same, exec, publish. simpl. by destruct (redis_ok _).
Qed.
#[local] Hint Resolve publish_api_quiet : tracks.

Lemma announce_enqueues_committed mid user r w0 w :
  w_queue w = w_queue w0 → is_Some (DB.tasks (w_db w) !! Task.id (sm_task r)) →
  wp (announce_and_enqueue mid user r) w (λ _, queued_is_committed w0) (λ _, queued_is_committed w0).
Proof.
  intros Hq Ht. set (I := λ w, w_queue w = w_queue w0 ∧ is_Some (DB.tasks (w_db w) !! Task.id (sm_task r))).
  assert (∀ ty tn actor corr m t a data, tracks (pres I) (publish_api ty tn actor corr m t a data)) as Hp.
  { intros *. eapply tracks_impl; [|apply publish_api_quiet]. intros w1 w2 Hs [H1 H2].
    unfold same in Hs. injection Hs as E1 E2. unfold I. by rewrite <- E1, <- E2. }
  assert (∀ w', I w' → queued_is_committed w0 w') as HI by (intros ? []; by left).
  assert (I w) as Hw by done. clear Hq Ht.
  unfold announce_and_enqueue.
  do 3 (eapply (wp_bind_pres I); [apply Hp|exact Hw|clear dependent w; intros _ w Hw|intros ?; apply HI]).
  apply wp_bind. unfold wp at 1, commit. destruct Hw as [Hq' Ht']. destruct (commit_ok _); [|by left].
  apply wp_bind. set (w1 := log_durable _).
  assert (∀ R `{!PreOrder R} i, tracks R (active_version i)) as Hav.
  { intros R HR i. unfold active_version. tracks_auto. }
  eapply wp_mono; [apply (tracks_wp eq), Hav, _| |]; intros ? w2 <-; [|by left].
  case_match; [|by apply wp_ret; left]. apply wp_when. case_bool_decide; [|by left].
  unfold wp, enqueue_task. simpl. destruct (redis_ok _); [|by left]. right. simpl.
  eexists. split; [by rewrite Hq'|done].
Qed.

(** C18: a worker never dequeues a task it cannot see. Whatever happens during
    [start_mission_route] (a failed commit, a failed push), the queue afterwards is the old
    one, or the old one plus a task whose row is already committed. *)
Theorem start_route_enqueues_only_committed mid user w :
  wp (start_mission_route mid user) w (λ _, queued_is_committed w) (λ _, queued_is_committed w).
Proof.
  unfold start_mission_route. apply wp_bind.
  eapply wp_mono; [apply tenant_scoped_spec| |by intros e w' [-> _]; left]. intros ? w1 [-> _].
  apply wp_bind. unfold refuse_agent_runtime. apply wp_bind, wp_asks, wp_when.
  match goal with |- if ?b then _ else _ => destruct b end; [by apply wp_raise; left|].
  apply wp_bind, wp_try. eapply wp_mono; [apply wp_conj; [apply start_mission_rows
    | apply (tracks_wp (same w_queue)), start_mission_quiet]| |].
  - intros r w1 [Hr Hq]. unfold same in Hq. apply wp_bind, wp_when.
    assert (∀ w', queued_is_committed w w' → wp (mission_response (sm_mission r)) w'
      (λ _, queued_is_committed w) (λ _, queued_is_committed w)) as Hresp by done.
    destruct (newly_started r); [|by apply Hresp; left].
    eapply wp_mono; [apply announce_enqueues_committed|intros ? w2 Hc; exact (Hresp w2 Hc)|done]; [congruence|].
    destruct Hr as (_ & _ & -> & _). rewrite lookup_insert_eq. by eexists.
  - intros e w1 [_ Hq]. unfold same in Hq. assert (queued_is_committed w w1) by (by left). by destruct e.
Qed.
End route_theorems.

(** ** Witnesses, and three runs of the sample installation *)

Definition sample_operator : User.t :=
  User.mk 2 1 "op@acme.test" "Op" UserRole.operator UserStatus.active "hash".

(** An operator of a second tenant, 9. *)
Definition foreign_operator : User.t :=
  User.mk 8 9 "op@other.test" "Op" UserRole.operator UserStatus.active "hash".

Lemma other_tenants_are_invisible_witness :
  cancel_mission 6 foreign_operator sample_world = (Raise (not_found "Mission"), sample_world) ∧
  retry_task 7 foreign_operator sample_world = (Raise (not_found "Task"), sample_world).
Proof.
  destruct (other_tenants_are_invisible 6 sample_mission 7 sample_task foreign_operator None "" ""
              sample_world eq_refl eq_refl eq_refl) as (_ & _ & _ & Hc & Hr & _); [done|].
  split; [exact Hc | exact Hr].
Defined.

(** The sample installation after its task and mission failed. *)
Definition sample_world_failed : World :=
  world_of (DB.upd_tasks (λ _, {[ 7%positive := Task.set_status TaskStatus.failed sample_task ]})
    (DB.upd_missions (λ _, {[ 6%positive := Mission.set_status MissionStatus.failed sample_mission ]})
       sample_db)).


(** [retry_task] pushes to the queue before its session commits. In the window between
    the two, the queue already holds the task but its committed status is still failed, so a
    worker that pops the entry skips the task and the entry is spent. *)
Theorem retry_enqueues_before_commit :
  let w := exec (retry_task 7 sample_operator) sample_world_failed in
  w_queue w = [7%positive] ∧
  Task.status <$> DB.tasks (w_committed w) !! 7%positive = Some TaskStatus.failed ∧
  result (process_task sample_gateway 7 true None) w = Ret false.
Proof. vm_compute. done. Qed.

(** Retrying a failed task does not touch its mission, which stays failed while the task
    runs again, and the worker then moves the mission from failed to completed, a transition
    the state machine forbids. *)
Theorem retried_task_revives_failed_mission :
  let w1 := exec (request (retry_task 7 sample_operator)) sample_world_failed in
  let w2 := exec (process_task sample_gateway 7 true None) w1 in
  Task.status <$> DB.tasks (w_committed w1) !! 7%positive = Some TaskStatus.queued ∧
  Mission.status <$> DB.missions (w_committed w1) !! 6%positive = Some MissionStatus.failed ∧
  Mission.status <$> DB.missions (w_committed w2) !! 6%positive = Some MissionStatus.completed ∧
  ¬ mission_step MissionStatus.failed MissionStatus.completed.
Proof.
  split; [vm_compute; reflexivity|]. split; [vm_compute; reflexivity|].
  split; [vm_compute; reflexivity|]. by apply mission_terminal_stuck.
Qed.

(** The sample installation with the second tenant and its operator. *)
Definition sample_world_two_tenants : World :=
  world_of (DB.upd_tenants (<[9%positive := Tenant.mk 9 "other" "Other" TenantStatus.active]>)
    (DB.upd_users (<[8%positive := foreign_operator]>) sample_db)).

(** [create_mission_route] does not check the tenant of the assigned agent: an operator of
    tenant 9 creates a mission of tenant 9 for agent 4, which belongs to tenant 1. *)
Theorem create_mission_accepts_foreign_agent :
  let payload := mkMissionCreateRequest "Brief" "Do it." 4 MissionPriority.normal RiskLevel.low None None in
  ∃ r, result (request (create_mission_route payload foreign_operator)) sample_world_two_tenants = Ret r ∧
    Mission.tenant_id (mr_mission r) = 9%positive ∧
    Mission.assigned_agent_id (mr_mission r) = Some 4%positive ∧
    Agent.tenant_id <$> DB.agents (w_committed sample_world_two_tenants) !! 4%positive = Some 1%positive.
Proof. eexists. split; [vm_compute; reflexivity|]. vm_compute. done. Qed.
