(* ===== verification/Projects.v ===== *)
(** * Projects, model policies and external agent statuses
    (services/api/routes/projects.py, model_policies.py and external_agents.py, with their
    request schemas)

    As in [AgentRuntime], [limit] is the answer of the route's rate limiter. [rival] is what
    other sessions commit between a route's checks and its insert. *)

From Stdlib Require Import Ascii.
From S2P Require Import Prelude Enums Contracts Breaker Telemetry Database Scenario Api Rooms.
Local Open Scope Z_scope.

(** ** Project requests *)

Record ProjectCreateRequest := mkProjectRequest { pq_code : string; pq_name : string }.

Definition CODE_MAX_LENGTH : Z := 20.
Definition NAME_MAX_LENGTH : Z := 80.

Definition byte_between (lo hi : nat) (c : ascii) : bool :=
  (lo <=? nat_of_ascii c)%nat && (nat_of_ascii c <=? hi)%nat.

(** [len(value)]: the characters of a UTF-8 text are its bytes that do not continue another. *)
Fixpoint py_len (s : string) : Z :=
  match s with
  | EmptyString => 0
  | String c s => (if byte_between 128 191 c then 0 else 1) + py_len s
  end.

Definition code_first (c : ascii) : bool := byte_between 65 90 c || byte_between 48 57 c.
Definition code_next (c : ascii) : bool := code_first c || bool_decide (c ∈ ["_"; "-"]%char).

(** [[A-Z0-9_-]*$], where [$] also matches before a final newline. *)
Fixpoint code_rest (s : string) : bool :=
  match s with
  | EmptyString => true
  | String c s' => if code_next c then code_rest s' else bool_decide (s = String "010" EmptyString)
  end.

(** [_CODE_PATTERN.match(value)] *)
Definition code_matches (s : string) : bool :=
  match s with EmptyString => false | String c s => code_first c && code_rest s end.

(** [_validate_code(value)] *)
Definition validate_code (value : string) : outcome exn string :=
  if negb ((1 <=? py_len value) && (py_len value <=? CODE_MAX_LENGTH)) || negb (code_matches value) then
    Raise (ValueError "code must be 1-20 characters matching ^[A-Z0-9][A-Z0-9_-]*$")
  else Ret value.

Fixpoint has_control (s : string) : bool :=
  match s with
  | EmptyString => false
  | String c s => byte_between 0 31 c || byte_between 127 127 c || has_control s
  end.

(** [_validate_name(value)] *)
Definition validate_name (value : string) : outcome exn string :=
  if negb ((1 <=? py_len value) && (py_len value <=? NAME_MAX_LENGTH)) then
    Raise (ValueError "name must be 1-80 characters")
  else if has_control value then Raise (ValueError "name must not contain control characters")
  else Ret value.

(** ** Project routes *)

Definition MAX_ACTIVE_PROJECTS : Z := 48.

Definition project_of_tenant (tn : EntityId) (p : Project.t) : bool := bool_decide (Project.tenant_id p = tn).

Definition active_project (tn : EntityId) (p : Project.t) : bool :=
  project_of_tenant tn p && bool_decide (Project.status p = ProjectStatus.active).

Definition has_code (tn : EntityId) (code : string) (p : Project.t) : bool :=
  project_of_tenant tn p && bool_decide (Project.code p = code).

(** [session.add(project); flush] *)
Definition insert_project (r : Project.t) : M unit :=
  d ← asks_db id;
  _ ← integrity (negb (is_present (Project.id r) (DB.projects d))) "projects_pkey";
  _ ← integrity (is_present (Project.tenant_id r) (DB.tenants d)) "projects_tenant_id_fkey";
  _ ← integrity (negb (exists_row (has_code (Project.tenant_id r) (Project.code r)) (DB.projects d)))
        "uq_projects_tenant_code";
  modify_db (DB.upd_projects (<[Project.id r := r]>)).

Section projects.
Context `{Env}.

Definition code_taken (code : string) : exn :=
  HTTPException 409 ("A project with code '" +:+ code +:+ "' already exists for this tenant.").

Definition project_data (p : Project.t) : list (string * json) :=
  [("project_id", JStr (pretty (Project.id p))); ("status", JStr (value (Project.status p)))].

Definition publish_project (event_type : EventType.t) (user : User.t) (p : Project.t) : M unit :=
  publish_api event_type (User.tenant_id user) (user_actor user) (Project.id p) None None None (project_data p).

(** [list_projects(user, session)] *)
Definition list_projects (user : User.t) : M (list Project.t) :=
  asks_db (λ d, select (project_of_tenant (User.tenant_id user)) (DB.projects d)).

(** [create_project(payload, user, ...)]. The advisory lock is what [rival] has to respect,
    see [respects_lock]. *)
Definition create_project (limit : outcome exn unit) (rival : DB.t → DB.t) (payload : ProjectCreateRequest)
    (user : User.t) : M Project.t :=
  let tn := User.tenant_id user in
  _ ← lift limit;
  rows ← asks_db (λ d, select (has_code tn (pq_code payload)) (DB.projects d));
  existing ← scalar_one_or_none rows;
  match existing with
  | Some _ => raise (code_taken (pq_code payload))
  | None =>
      active_count ← asks_db (λ d, Z.of_nat (count_rows (active_project tn) (DB.projects d)));
      if MAX_ACTIVE_PROJECTS <=? active_count then
        raise (HTTPException 409 ("This tenant already has " +:+ pretty MAX_ACTIVE_PROJECTS +:+
                 " active projects, the maximum allowed."))
      else
        i ← new_id;
        now ← utc;
        let project := Project.mk i tn (pq_code payload) (pq_name payload) ProjectStatus.active now
          (Some (User.id user)) in
        _ ← interfere rival;
        _ ← try_except (insert_project project)
              (λ e, if is_integrity_error e then Some (raise (code_taken (pq_code payload))) else None);
        _ ← publish_project EventType.project_created user project;
        mret project
  end.

(** [archive_project(project_id, user, ...)] *)
Definition archive_project (limit : outcome exn unit) (project_id : EntityId) (user : User.t) : M Project.t :=
  _ ← lift limit;
  project ← tenant_scoped_or_404 DB.projects Project.tenant_id "Project" project_id (User.tenant_id user);
  if decide (Project.status project ≠ ProjectStatus.archived) then
    let archived := Project.set_status ProjectStatus.archived in
    _ ← modify_db (DB.upd_projects (alter archived (Project.id project)));
    _ ← publish_project EventType.project_archived user (archived project);
    mret (archived project)
  else mret project.
End projects.

(** ** Model policies *)

Record ModelPolicyCreateRequest := mkPolicyRequest {
  pc_name : string;
  pc_primary_provider : string;
  pc_primary_model : string;
}.

(** The [MUTATORS] of the model-policy routes. *)
Definition POLICY_MUTATORS : list UserRole.t := [UserRole.platform_admin; UserRole.tenant_admin].

Definition policy_named (tn : EntityId) (name : string) (p : ModelPolicy.t) : bool :=
  bool_decide (ModelPolicy.tenant_id p = tn) && bool_decide (ModelPolicy.name p = name).

(** [session.add(policy); flush]: there is no unique constraint on the name. *)
Definition insert_model_policy (r : ModelPolicy.t) : M unit :=
  d ← asks_db id;
  _ ← integrity (negb (is_present (ModelPolicy.id r) (DB.model_policies d))) "model_policies_pkey";
  _ ← integrity (is_present (ModelPolicy.tenant_id r) (DB.tenants d)) "model_policies_tenant_id_fkey";
  modify_db (DB.upd_model_policies (<[ModelPolicy.id r := r]>)).

Section policies.
Context `{Env}.

(** [list_model_policies(user, session)] *)
Definition list_model_policies (user : User.t) : M (list ModelPolicy.t) :=
  asks_db (λ d, select (λ p, bool_decide (ModelPolicy.tenant_id p = User.tenant_id user)) (DB.model_policies d)).

(** [create_model_policy(payload, user, ...)]; [providers] is
    [available_provider_names(settings)]. *)
Definition create_model_policy (limit : outcome exn unit) (providers : gset string) (rival : DB.t → DB.t)
    (payload : ModelPolicyCreateRequest) (user : User.t) : M ModelPolicy.t :=
  let tn := User.tenant_id user in
  let provider := pc_primary_provider payload in
  let model := pc_primary_model payload in
  _ ← lift limit;
  if decide (provider ∉ providers) then
    raise (HTTPException 422 ("'" +:+ provider +:+ "' is not a registered model provider in this deployment."))
  else
    match require_priced provider model with
    | Raise (UnpricedModelError _ _) =>
        raise (HTTPException 422 ("No price is configured for model '" +:+ provider +:+ "/" +:+ model +:+
                 "'; it cannot be used until a price is added."))
    | Raise e => raise e
    | Ret _ =>
        rows ← asks_db (λ d, select (policy_named tn (pc_name payload)) (DB.model_policies d));
        existing ← scalar_one_or_none rows;
        match existing with
        | Some _ => raise (HTTPException 409 ("A model policy named '" +:+ pc_name payload +:+
                             "' already exists for this tenant."))
        | None =>
            i ← new_id;
            now ← utc;
            let policy := ModelPolicy.mk i tn (pc_name payload) provider model now in
            _ ← interfere rival;
            _ ← insert_model_policy policy;
            _ ← publish_api EventType.model_policy_created tn (user_actor user) i None None None
                  [("name", JStr (ModelPolicy.name policy)); ("primary_provider", JStr provider);
                   ("primary_model", JStr model)];
            mret policy
        end
    end.
End policies.

(** ** External agent statuses *)

Record ExternalAgentStatusUpdate := mkStatusUpdate { su_status : string; su_job_description : option string }.

Definition status_of (tn : EntityId) (name : string) (s : ExternalAgentStatus.t) : bool :=
  bool_decide (ExternalAgentStatus.tenant_id s = tn) && bool_decide (ExternalAgentStatus.name s = name).

(** The insert that the commit flushes. *)
Definition insert_external_status (r : ExternalAgentStatus.t) : M unit :=
  d ← asks_db id;
  _ ← integrity (negb (is_present (ExternalAgentStatus.id r) (DB.external_agent_statuses d)))
        "external_agent_statuses_pkey";
  _ ← integrity (is_present (ExternalAgentStatus.tenant_id r) (DB.tenants d))
        "external_agent_statuses_tenant_id_fkey";
  _ ← integrity (negb (exists_row (status_of (ExternalAgentStatus.tenant_id r) (ExternalAgentStatus.name r))
                         (DB.external_agent_statuses d)))
        "uq_external_agent_statuses_tenant_name";
  modify_db (DB.upd_external_agent_statuses (<[ExternalAgentStatus.id r := r]>)).

Section statuses.
Context `{Env}.

(** [list_external_agent_statuses(user, session)] *)
Definition list_external_agent_statuses (user : User.t) : M (list ExternalAgentStatus.t) :=
  asks_db (λ d, select (λ s, bool_decide (ExternalAgentStatus.tenant_id s = User.tenant_id user))
                  (DB.external_agent_statuses d)).

(** [set_external_agent_status(payload, name, user, ...)] *)
Definition set_external_agent_status (limit : outcome exn unit) (payload : ExternalAgentStatusUpdate)
    (name : string) (user : User.t) : M ExternalAgentStatus.t :=
  let tn := User.tenant_id user in
  let row i now := ExternalAgentStatus.mk i tn name (su_status payload) (su_job_description payload) now in
  _ ← lift limit;
  rows ← asks_db (λ d, select (status_of tn name) (DB.external_agent_statuses d));
  existing ← scalar_one_or_none rows;
  match existing with
  | None =>
      i ← new_id;
      now ← utc;
      _ ← insert_external_status (row i now);
      _ ← commit;
      mret (row i now)
  | Some s =>
      now ← utc;
      let s' := row (ExternalAgentStatus.id s) now in
      _ ← modify_db (DB.upd_external_agent_statuses (alter (λ _, s') (ExternalAgentStatus.id s)));
      _ ← commit;
      mret s'
  end.
End statuses.

(** ** The cap on active projects *)

Definition active_count (tn : EntityId) (d : DB.t) : Z :=
  Z.of_nat (count_rows (active_project tn) (DB.projects d)).

Definition cap_ok (d : DB.t) : Prop := ∀ tn, active_count tn d ≤ MAX_ACTIVE_PROJECTS.

(** What other sessions can commit while this one holds the tenant's advisory lock: they keep
    the cap, and no other session creates a project of this tenant. *)
Definition respects_lock (tn : EntityId) (rival : DB.t → DB.t) : Prop :=
  ∀ d, (cap_ok d → cap_ok (rival d)) ∧ active_count tn (rival d) ≤ active_count tn d.

Section cap.
Context `{Env}.

Abbreviation capped := (λ w : World, cap_ok (w_db w) ∧ cap_ok (w_committed w)).

Lemma cap_ok_same d d' : DB.projects d' = DB.projects d → cap_ok d → cap_ok d'.
Proof. intros E Hd tn. specialize (Hd tn). unfold active_count in *. by rewrite E. Qed.

(** The insert of an active project of a tenant below the cap. *)
Lemma insert_project_capped p w :
  capped w → active_count (Project.tenant_id p) (w_db w) < MAX_ACTIVE_PROJECTS →
  wp (insert_project p) w (λ _, capped) (λ _ w', w' = w).
Proof.
  intros [Hd Hc] Hlt. unfold insert_project, wp, integrity, asks_db, asks, modify_db, modify, mbind, ST_bind, mret,
    ST_ret, raise, id, is_present; simpl.
  case_bool_decide as Hk; simpl; [done|]. case_bool_decide; simpl; [|done].
  destruct (exists_row _ _); simpl; [done|]. split; [|done]. intros tn. unfold active_count; simpl.
  rewrite count_insert_fresh by (by apply eq_None_not_Some).
  specialize (Hd tn). unfold active_count in Hd, Hlt.
  destruct (active_project tn p) eqn:Ha; [|lia].
  apply andb_true_iff in Ha as [<-%bool_decide_eq_true _]. lia.
Qed.

Lemma publish_project_capped ty user p : tracks (pres capped) (publish_project ty user p).
Proof.
  apply pres_wp. intros w [Hd Hc]. unfold publish_project, publish_api, wp, publish. simpl.
  by destruct (redis_ok _).
Qed.

Lemma create_project_capped limit rival payload user :
  respects_lock (User.tenant_id user) rival → tracks (pres capped) (create_project limit rival payload user).
Proof.
  intros Hr. apply pres_wp. intros w Hw. unfold create_project.
  apply wp_bind. destruct limit as [[]|e]; [|exact Hw]. unfold wp at 1, lift. simpl.
  apply wp_bind, wp_asks, wp_bind. destruct (select _ _) as [|x [|]]; [|exact Hw..].
  apply wp_ret. apply wp_bind, wp_asks. destruct (Z.leb_spec MAX_ACTIVE_PROJECTS
    (active_count (User.tenant_id user) (w_db w))) as [Hle|Hlt]; unfold active_count in *.
  { rewrite (proj2 (Z.leb_le _ _)) by lia. exact Hw. }
  rewrite (proj2 (Z.leb_gt _ _)) by lia.
  apply wp_bind. unfold wp at 1, new_id. apply wp_bind. unfold wp at 1, utc.
  apply wp_bind, wp_modify. simpl.
  set (w1 := set_committed _ _). destruct (Hr (w_db w)) as [Hd1 Hn], (Hr (w_committed w)) as [Hc1 _].
  assert (capped w1) as Hw1 by (destruct Hw; split; [by apply Hd1|by apply Hc1]).
  apply wp_bind, wp_try. eapply wp_mono; [apply insert_project_capped; [exact Hw1|]|..].
  - unfold active_count in *. simpl in *. lia.
  - intros ? w2 Hw2. eapply (wp_bind_pres capped); [apply publish_project_capped|done|by intros|by intros].
  - intros e w2 ->. destruct (is_integrity_error e); exact Hw1.
Qed.

Lemma archive_row_capped k w :
  capped w → capped (set_db (DB.upd_projects (alter (Project.set_status ProjectStatus.archived) k) (w_db w)) w).
Proof.
  intros [Hd Hc]. split; [|done]. intros tn. specialize (Hd tn). unfold active_count in *. simpl.
  etrans; [|exact Hd]. apply Nat2Z.inj_le, count_alter_le.
  intros v Hv. unfold active_project in Hv. rewrite (bool_decide_false (_ = ProjectStatus.active)) in Hv by done.
  by rewrite andb_false_r in Hv.
Qed.

Lemma archive_project_capped limit pid user : tracks (pres capped) (archive_project limit pid user).
Proof.
  apply pres_wp. intros w Hw. unfold archive_project.
  apply wp_bind. destruct limit as [[]|e]; [|exact Hw]. unfold wp at 1, lift.
  apply wp_bind. eapply wp_mono; [apply tenant_scoped_spec| |by intros ? ? [-> _]].
  intros p w' (-> & _ & _). case_decide; [|by apply wp_ret].
  apply wp_bind, wp_modify. eapply (wp_bind_pres capped); [apply publish_project_capped| | |by intros].
  - by apply archive_row_capped.
  - intros ? w' Hw'. by apply wp_ret.
Qed.

(** A request keeps what its route keeps, in the committed database. *)
Lemma request_capped {A} (route : M A) w :
  tracks (pres capped) route → cap_ok (w_committed w) → cap_ok (w_committed (exec (request route) w)).
Proof.
  intros Hr Hw. specialize (Hr (set_db (w_committed w) w) (conj Hw Hw)).
  unfold exec, request, mbind, ST_bind, commit in *.
  destruct (route _) as [[r|e] w1]; simpl in *; destruct Hr as [H1 H2]; [|done]. by destruct (commit_ok _).
Qed.

(** The town never has more projects than lots. Whatever the requests of a tenant, and
    whatever other sessions commit while one of them holds the tenant's advisory lock, no
    tenant ever has more than 48 active projects in the committed database. *)
Theorem project_cap_holds limit rival payload pid user w :
  respects_lock (User.tenant_id user) rival → cap_ok (w_committed w) →
  cap_ok (w_committed (exec (request (create_project limit rival payload user)) w)) ∧
  cap_ok (w_committed (exec (request (archive_project limit pid user)) w)).
Proof.
  intros Hr Hw. split; apply request_capped; [by apply create_project_capped|done|apply archive_project_capped|done].
Qed.
End cap.

(** ** Policies and statuses *)

Section writes.
Context `{Env}.

Lemma insert_model_policy_spec p w :
  is_Some (DB.tenants (w_db w) !! ModelPolicy.tenant_id p) → DB.model_policies (w_db w) !! ModelPolicy.id p = None →
  insert_model_policy p w = (Ret tt, set_db (DB.upd_model_policies (<[ModelPolicy.id p := p]>) (w_db w)) w).
Proof.
  intros Ht Hp. unfold insert_model_policy, is_present, asks_db, asks, modify_db, modify, mbind, ST_bind, mret, ST_ret,
    integrity, id. simpl. rewrite bool_decide_false by (rewrite Hp; by intros []).
  by rewrite bool_decide_true.
Qed.

(** Every policy the API creates can be used: it names a provider that is registered in this
    deployment and a model that has a price, so that the gateway never refuses the agents of
    the policy; a refused request stores nothing. *)
Theorem created_policies_are_usable limit providers payload user w :
  is_Some (DB.tenants (w_db w) !! User.tenant_id user) →
  fresh_above (w_next_id w) (DB.model_policies (w_db w)) →
  wp (create_model_policy limit providers id payload user) w
    (λ p w', DB.model_policies (w_db w') = <[ModelPolicy.id p := p]> (DB.model_policies (w_db w)) ∧
       ModelPolicy.tenant_id p = User.tenant_id user ∧ ModelPolicy.primary_provider p ∈ providers ∧
       (∀ i o, ∃ c, estimate_cost_usd (ModelPolicy.primary_provider p) (ModelPolicy.primary_model p) i o = Ret c))
    (λ e w', w' = w).
Proof.
  intros Ht Hf. unfold create_model_policy.
  apply wp_bind. destruct limit as [[]|e]; [|done]. unfold wp at 1, lift.
  case_decide as Hp; [done|]. destruct (require_priced _ _) as [[]|e] eqn:Hpr; [|by destruct e].
  apply wp_bind, wp_asks, wp_bind. destruct (select _ _) as [|x [|]]; [|done..].
  apply wp_ret, wp_bind. unfold wp at 1, new_id. apply wp_bind. unfold wp at 1, utc.
  apply wp_bind, wp_modify, wp_bind. unfold wp at 1.
  rewrite insert_model_policy_spec; [|done|exact (fresh_above_None _ _ Hf)].
  apply wp_bind. eapply wp_mono; [apply publish_api_calm| |done]. intros ? w1 [C1 _]. apply wp_ret. simpl.
  split_and!; [exact (f_equal DB.model_policies C1)|done|done|].
  intros i o. unfold require_priced in Hpr. unfold estimate_cost_usd.
  destruct (price_for _ _) as [[]|]; [by eexists|done].
Qed.

(** The name is the key of a tenant's statuses. *)
Definition statuses_ok (d : DB.t) : Prop :=
  (∀ k s, DB.external_agent_statuses d !! k = Some s → ExternalAgentStatus.id s = k) ∧
  (∀ k1 k2 s1 s2, DB.external_agent_statuses d !! k1 = Some s1 → DB.external_agent_statuses d !! k2 = Some s2 →
     status_of (ExternalAgentStatus.tenant_id s1) (ExternalAgentStatus.name s1) s2 = true → k1 = k2).

Lemma status_of_spec tn name s :
  status_of tn name s = true ↔ ExternalAgentStatus.tenant_id s = tn ∧ ExternalAgentStatus.name s = name.
Proof. unfold status_of. by rewrite andb_true_iff, !bool_decide_eq_true. Qed.

(** A row stored under its id keeps the key, if no other row has its name. *)
Lemma statuses_ok_insert r d :
  statuses_ok d →
  (∀ k s, DB.external_agent_statuses d !! k = Some s →
     status_of (ExternalAgentStatus.tenant_id r) (ExternalAgentStatus.name r) s = true → k = ExternalAgentStatus.id r) →
  statuses_ok (DB.upd_external_agent_statuses (<[ExternalAgentStatus.id r := r]>) d).
Proof.
  intros [Hi Hu] Hr. split; simpl.
  - intros k s [[<- <-]|[_ Hs]]%lookup_insert_Some; [done|by apply Hi].
  - intros k1 k2 s1 s2 [[<- <-]|[_ H1]]%lookup_insert_Some [[<- <-]|[_ H2]]%lookup_insert_Some Hst; [done|..].
    + symmetry. by eapply Hr.
    + apply (Hr _ s1); [done|]. apply status_of_spec in Hst as [-> ->]. by apply status_of_spec.
    + by eapply Hu.
Qed.

Lemma insert_external_status_ok r w :
  is_Some (DB.tenants (w_db w) !! ExternalAgentStatus.tenant_id r) →
  DB.external_agent_statuses (w_db w) !! ExternalAgentStatus.id r = None →
  (∀ k s, DB.external_agent_statuses (w_db w) !! k = Some s →
     status_of (ExternalAgentStatus.tenant_id r) (ExternalAgentStatus.name r) s = false) →
  insert_external_status r w =
    (Ret tt, set_db (DB.upd_external_agent_statuses (<[ExternalAgentStatus.id r := r]>) (w_db w)) w).
Proof.
  intros Ht Hk Hn. unfold insert_external_status, is_present, asks_db, asks, modify_db, modify, mbind, ST_bind, mret,
    ST_ret, integrity, id. simpl. rewrite bool_decide_false by (rewrite Hk; by intros []).
  rewrite bool_decide_true by done. simpl. apply exists_row_false in Hn. by rewrite Hn.
Qed.

(** What an upsert of a status leaves. *)
Definition upserted (tn : EntityId) (payload : ExternalAgentStatusUpdate) (name : string)
    (old : gmap EntityId ExternalAgentStatus.t) (s : ExternalAgentStatus.t) (d : DB.t) : Prop :=
  statuses_ok d ∧ status_of tn name s = true ∧ ExternalAgentStatus.status s = su_status payload ∧
  DB.external_agent_statuses d = <[ExternalAgentStatus.id s := s]> old.

Lemma commit_upserted tn payload name old s w c :
  w_committed w = c → upserted tn payload name old s (w_db w) →
  wp (_ ← commit; mret s) w (λ s w', w_committed w' = w_db w' ∧ upserted tn payload name old s (w_db w'))
    (λ _ w', w_committed w' = c).
Proof.
  intros Hc Hs. apply wp_bind. unfold wp at 1, commit. destruct (commit_ok _); [|done]. by apply wp_ret.
Qed.

(** The write route is an upsert: after it, the tenant's one row of that name holds the
    reported status, committed, every other row is as it was, and the name is still a key;
    a request that fails has committed nothing. *)
Theorem external_status_upserts payload name user w :
  let tn := User.tenant_id user in
  statuses_ok (w_db w) → is_Some (DB.tenants (w_db w) !! tn) →
  fresh_above (w_next_id w) (DB.external_agent_statuses (w_db w)) →
  wp (set_external_agent_status (Ret tt) payload name user) w
    (λ s w', w_committed w' = w_db w' ∧
             upserted tn payload name (DB.external_agent_statuses (w_db w)) s (w_db w'))
    (λ _ w', w_committed w' = w_committed w).
Proof.
  intros tn [Hi Hu] Ht Hf. unfold set_external_agent_status. fold tn.
  apply wp_bind. unfold wp at 1, lift. apply wp_bind, wp_asks, wp_bind.
  assert (∀ k1 k2 s1 s2, DB.external_agent_statuses (w_db w) !! k1 = Some s1 →
    DB.external_agent_statuses (w_db w) !! k2 = Some s2 → status_of tn name s1 = true → status_of tn name s2 = true →
    k1 = k2) as Hu'.
  { intros k1 k2 s1 s2 H1 H2 [<- <-]%status_of_spec P2. by eapply Hu. }
  pose proof (select_at_most_one (status_of tn name) _ Hu') as Hsel.
  destruct (select _ _) as [|s [|]]; [..|done]; simpl in Hsel; apply wp_ret.
  - apply wp_bind. unfold wp at 1, new_id. apply wp_bind. unfold wp at 1, utc. apply wp_bind. unfold wp at 1.
    rewrite insert_external_status_ok; [|done|exact (fresh_above_None _ _ Hf)|done].
    apply commit_upserted; [done|]. split_and!; [|by apply status_of_spec|done|done].
    apply statuses_ok_insert; [by split|]. intros k s Hk. simpl. by rewrite (Hsel k s Hk).
  - destruct Hsel as [Hs [k Hk]]. pose proof (Hi k s Hk) as <-.
    apply wp_bind. unfold wp at 1, utc. apply wp_bind, wp_modify, commit_upserted; [done|]. simpl.
    set (r := ExternalAgentStatus.mk _ _ _ _ _ _).
    assert (alter (λ _, r) (ExternalAgentStatus.id s) (DB.external_agent_statuses (w_db w)) =
            <[ExternalAgentStatus.id s := r]> (DB.external_agent_statuses (w_db w))) as Ealt
      by exact (alter_insert_eq (λ _, r) _ _ s Hk).
    split_and!; [|by apply status_of_spec|done|exact Ealt].
    assert (statuses_ok (DB.upd_external_agent_statuses (<[ExternalAgentStatus.id r := r]>) (w_db w))) as Hok.
    { apply statuses_ok_insert; [by split|]. intros k' s' Hk' Hst. exact (Hu' _ _ _ _ Hk' Hk Hst Hs). }
    unfold statuses_ok in *. simpl in *. by rewrite Ealt.
Qed.
End writes.

(** ** Witnesses *)

Definition town_operator : User.t := User.mk 2 1 "op@acme.test" "Op" UserRole.operator UserStatus.active "hash".

(** A full town: 48 active projects of tenant 1. *)
Definition full_town : DB.t :=
  DB.upd_projects (λ _, list_to_map ((λ n, let i := Pos.of_succ_nat n in
    (i, Project.mk i 1 (pretty n) "P" ProjectStatus.active 0 None)) <$> seq 0 48)) sample_db.

Lemma project_cap_holds_witness :
  cap_ok (w_committed (exec (request (create_project (Ret tt) id (mkProjectRequest "TOWER" "Tower") town_operator))
                        (world_of full_town))) ∧
  result (request (create_project (Ret tt) id (mkProjectRequest "TOWER" "Tower") town_operator))
    (world_of full_town) =
  Raise (HTTPException 409 "This tenant already has 48 active projects, the maximum allowed.").
Proof.
  split; [|vm_compute; reflexivity].
  refine (proj1 (project_cap_holds (Ret tt) id (mkProjectRequest "TOWER" "Tower") 1 town_operator
                   (world_of full_town) _ _)).
  - by intros d.
  - intros tn. unfold active_count. destruct (decide (tn = 1%positive)) as [->|Hne]; [by vm_compute|].
    assert (count_rows (active_project tn) (DB.projects (w_committed (world_of full_town))) = 0%nat) as ->; [|done].
    apply length_zero_iff_nil. destruct (select _ _) as [|p l] eqn:Hs; [done|].
    assert (p ∈ select (active_project tn) (DB.projects (w_committed (world_of full_town)))) as Hp
      by (rewrite Hs; by left).
    apply elem_of_select in Hp as [Hp [k Hk]]. apply elem_of_list_to_map_2, list_elem_of_fmap in Hk as (n & [= -> ->] & _).
    apply andb_true_iff in Hp as [Hp _]. by apply bool_decide_eq_true in Hp.
Defined.

Lemma created_policies_are_usable_witness :
  wp (create_model_policy (Ret tt) {["openai"; "mock"]} id (mkPolicyRequest "fast" "openai" "gpt-4o-mini") town_operator)
    sample_world (λ p w', ModelPolicy.primary_provider p ∈ ({["openai"; "mock"]} : gset string)) (λ _ w', w' = sample_world).
Proof.
  eapply wp_mono; [apply (created_policies_are_usable (Ret tt) {["openai"; "mock"]}
    (mkPolicyRequest "fast" "openai" "gpt-4o-mini") town_operator sample_world)| |done].
  - by eexists.
  - intros k [p Hp]. simpl in Hp. by apply lookup_singleton_Some in Hp as [<- _].
  - intros p w' (_ & _ & Hp & _). exact Hp.
Defined.

Lemma external_status_upserts_witness :
  wp (set_external_agent_status (Ret tt) (mkStatusUpdate "working" None) "claude" town_operator) sample_world
    (λ s w', w_committed w' = w_db w' ∧
       upserted 1 (mkStatusUpdate "working" None) "claude" ∅ s (w_db w'))
    (λ _ w', w_committed w' = w_committed sample_world).
Proof.
  apply (external_status_upserts (mkStatusUpdate "working" None) "claude" town_operator sample_world).
  - split; intros *; simpl; by rewrite lookup_empty.
  - by eexists.
  - intros k [s Hs]. simpl in Hs. by rewrite lookup_empty in Hs.
Defined.
