(* ===== verification/Tools.v ===== *)
(** * The tool SDK
    (packages/tool-sdk/tool_sdk: registry.py and tools.py)

    [ToolRegistry.execute] is the one door to a tool: it asks [Permissions] first and runs
    the handler afterwards. The calculator walks the syntax tree of an expression; Python's
    parser and its numeric tower are parameters, so its theorems hold for every one. *)

From S2P Require Import Prelude Enums Contracts Permissions Breaker Database Scenario.
Local Open Scope Z_scope.

(** ** Tools *)

Abbreviation Params := (list (string * json)).

(** [ArtifactPort] *)
Record ArtifactPort := mkArtifactPort {
  ap_read : json → M json;
  ap_write : json → json → json → M json;
}.

Record ToolContext := mkToolContext {
  available_context : gmap string json;
  artifact_port : option ArtifactPort;
}.

Definition ToolHandler : Type := Params → ToolContext → M json.

(** [params[k]] *)
Definition param (k : string) (params : Params) : M json :=
  match obj_get k params with Some v => mret v | None => raise (KeyError k) end.

Section calculator.
(** Python's numbers, and the functions of [operator] on them. *)
Context {num : Type}.

Inductive binop := Add | Sub | Mult | Div | Pow | OtherBinOp.
Inductive unop := USub | UAdd | OtherUnaryOp.

(** The nodes of [ast]: what is neither a constant nor an operator application is [OtherNode];
    a constant that is no [int] or [float] (a string, [None], a complex number) has no
    number. *)
Inductive ast :=
| Constant (v : option num)
| BinOp (lhs : ast) (op : binop) (rhs : ast)
| UnaryOp (op : unop) (operand : ast)
| OtherNode.

Context (operator_binary : binop → num → num → outcome exn num).
Context (operator_unary : unop → num → outcome exn num).
Context (ast_parse : json → outcome exn ast).
Context (ast_dump : ast → string) (py_str : json → string) (num_json : num → json).

(** [type(op) in _SAFE_OPERATORS] *)
Definition safe_binop (op : binop) : bool := match op with OtherBinOp => false | _ => true end.
Definition safe_unop (op : unop) : bool := match op with OtherUnaryOp => false | _ => true end.

Definition unsupported (node : ast) : exn :=
  ValueError ("Unsupported expression element: " +:+ ast_dump node).

(** [_safe_eval(node)] *)
Fixpoint safe_eval (node : ast) : outcome exn num :=
  match node with
  | Constant (Some v) => Ret v
  | BinOp lhs op rhs =>
      if safe_binop op then
        match safe_eval lhs with
        | Raise e => Raise e
        | Ret l => match safe_eval rhs with
                   | Raise e => Raise e
                   | Ret r => operator_binary op l r
                   end
        end
      else Raise (unsupported node)
  | UnaryOp op operand =>
      if safe_unop op then
        match safe_eval operand with Raise e => Raise e | Ret x => operator_unary op x end
      else Raise (unsupported node)
  | Constant None | OtherNode => Raise (unsupported node)
  end.

(** [calculator_execute(params, context)] *)
Definition calculator_execute : ToolHandler := λ params _,
  let expression := default (JStr "") (obj_get "expression" params) in
  let evaluated := match ast_parse expression with Raise e => Raise e | Ret tree => safe_eval tree end in
  match evaluated with
  | Ret result => mret (JObj [("expression", expression); ("result", num_json result)])
  | Raise exc => raise (ValueError ("calculator.execute could not evaluate '" +:+ py_str expression +:+ "': " +:+
                          str_exn exc))
  end.
End calculator.
Arguments ast : clear implicits.

(** [knowledge_read(params, context)]: a list or an object is no key of a dict. *)
Definition knowledge_read : ToolHandler := λ params context,
  let key := default JNull (obj_get "key" params) in
  let missing := mret (JObj [("key", key); ("found", JBool false); ("value", JNull)]) in
  match key with
  | JStr k =>
      match available_context context !! k with
      | Some v => mret (JObj [("key", key); ("found", JBool true); ("value", v)])
      | None => missing
      end
  | JList _ => raise (TypeError "unhashable type: 'list'")
  | JObj _ => raise (TypeError "unhashable type: 'dict'")
  | _ => missing
  end.

(** [artifact_read(params, context)] *)
Definition artifact_read : ToolHandler := λ params context,
  match artifact_port context with
  | None => raise (RuntimeError "artifact.read tool was invoked without an ArtifactPort bound.")
  | Some port => artifact_id ← param "artifact_id" params; ap_read port artifact_id
  end.

(** [artifact_write(params, context)] *)
Definition artifact_write : ToolHandler := λ params context,
  match artifact_port context with
  | None => raise (RuntimeError "artifact.write tool was invoked without an ArtifactPort bound.")
  | Some port =>
      title ← param "title" params;
      content ← param "content" params;
      ap_write port title content (default (JStr "text/plain") (obj_get "mime_type" params))
  end.

(** [DEFAULT_TOOL_HANDLERS] *)
Definition DEFAULT_TOOL_HANDLERS (calculator : ToolHandler) : gmap string ToolHandler :=
  list_to_map [("calculator.execute", calculator); ("knowledge.read", knowledge_read);
               ("artifact.read", artifact_read); ("artifact.write", artifact_write)].

(** ** The registry *)

Record ToolExecutionResult := mkToolResult {
  tr_tool : string;
  tr_decision : PermissionDecision;
  tr_output : option json;
  tr_error : option string;
}.

(** [ToolExecutionResult.executed] *)
Definition executed (r : ToolExecutionResult) : bool :=
  dec_allowed (tr_decision r) && bool_decide (tr_error r = None).

(** [ToolRegistry.execute(tool, params, context, ...)] *)
Definition registry_execute (handlers : gmap string ToolHandler) (tool : string) (params : Params)
    (context : ToolContext) (platform tenant agent : ToolPolicy) (mission : option ToolPolicy) :
    M ToolExecutionResult :=
  let decision := evaluate_tool_access tool platform tenant agent mission ALL_TOOLS in
  if negb (dec_allowed decision) then mret (mkToolResult tool decision None None)
  else
    match handlers !! tool with
    | None => mret (mkToolResult tool decision None
                      (Some ("No handler registered for tool '" +:+ tool +:+ "'.")))
    | Some handler =>
        try_except (result ← handler params context; mret (mkToolResult tool decision (Some result) None))
          (λ exc, Some (mret (mkToolResult tool decision None (Some (str_exn exc)))))
    end.

(** ** The registry runs what is permitted, and nothing else *)

(** C31: no tool runs without permission. Whatever handlers are registered and whatever they
    do, [execute] never raises; a tool some scope does not permit has no effect at all and
    its result says so; and a result that counts as executed carries the output of the
    registered handler of a permitted tool, run once in the world of the call. *)
Theorem tools_run_only_if_permitted handlers tool params context pl te ag mi w :
  wp (registry_execute handlers tool params context pl te ag mi) w
    (λ r w', tr_tool r = tool ∧ tr_decision r = evaluate_tool_access tool pl te ag mi ALL_TOOLS ∧
       (¬ permitted tool pl te ag mi ALL_TOOLS → w' = w ∧ executed r = false ∧ tr_output r = None) ∧
       (executed r = true →
          permitted tool pl te ag mi ALL_TOOLS ∧
          ∃ handler out, handlers !! tool = Some handler ∧ handler params context w = (Ret out, w') ∧
            tr_output r = Some out))
    (λ _ _, False).
Proof.
  unfold registry_execute. set (decision := evaluate_tool_access _ _ _ _ _ _).
  pose proof (evaluate_allowed_iff tool pl te ag mi ALL_TOOLS) as Hiff. fold decision in Hiff.
  unfold executed. destruct (dec_allowed decision) eqn:Hd; simpl.
  - assert (permitted tool pl te ag mi ALL_TOOLS) as Hp by (by apply Hiff).
    destruct (handlers !! tool) as [h|] eqn:Hh; [|by apply wp_ret; simpl; rewrite Hd].
    apply wp_try, wp_bind. unfold wp at 1. destruct (h params context w) as [[out|e] w'] eqn:Hrun; apply wp_ret; simpl;
      rewrite Hd; (split_and!; [done..|]); intros He; [|done]. split; [done|]. by exists h, out.
  - apply wp_ret. simpl. rewrite Hd. split_and!; done.
Qed.

(** ** The calculator evaluates arithmetic, and nothing else *)

Section arithmetic.
Context {num : Type}.
Context (operator_binary : binop → num → num → outcome exn num) (operator_unary : unop → num → outcome exn num).
Context (ast_dump : ast num → string).

Abbreviation eval := (safe_eval operator_binary operator_unary ast_dump).

(** Expressions of numbers and the seven operators. *)
Inductive arithmetic : ast num → Prop :=
| ar_constant v : arithmetic (Constant (Some v))
| ar_binary l op r : safe_binop op = true → arithmetic l → arithmetic r → arithmetic (BinOp l op r)
| ar_unary op x : safe_unop op = true → arithmetic x → arithmetic (UnaryOp op x).

(** Their value, as a relation. *)
Inductive denotes : ast num → num → Prop :=
| de_constant v : denotes (Constant (Some v)) v
| de_binary l op r x y z :
    denotes l x → denotes r y → operator_binary op x y = Ret z → safe_binop op = true → denotes (BinOp l op r) z
| de_unary op e x z : denotes e x → operator_unary op x = Ret z → safe_unop op = true → denotes (UnaryOp op e) z.

Lemma safe_eval_denotes e v : eval e = Ret v ↔ denotes e v.
Proof.
  split.
  - revert v. induction e as [[n|]|l IHl op r IHr|op x IHx|]; intros v; simpl; [intros [= <-]; constructor|done|..|done].
    + destruct (safe_binop op) eqn:Hop; [|done]. destruct (eval l) as [a|] eqn:Ha; [|done].
      destruct (eval r) as [b|] eqn:Hb; [|done]. intros Hv. econstructor; eauto.
    + destruct (safe_unop op) eqn:Hop; [|done]. destruct (eval x) as [a|] eqn:Ha; [|done].
      intros Hv. econstructor; eauto.
  - induction 1 as [|l op r x y z _ IHl _ IHr Hz Hop|op e x z _ IHe Hz Hop]; simpl; [done|..].
    + by rewrite Hop, IHl, IHr.
    + by rewrite Hop, IHe.
Qed.

Lemma denotes_arithmetic e v : denotes e v → arithmetic e.
Proof. induction 1; by constructor. Qed.

(** On an arithmetic expression, only an operator can fail. *)
Lemma arithmetic_errors e x :
  arithmetic e → eval e = Raise x →
  (∃ op a b, operator_binary op a b = Raise x) ∨ (∃ op a, operator_unary op a = Raise x).
Proof.
  intros He. revert x. induction He as [|l op r Hop _ IHl _ IHr|op e Hop _ IHe]; intros x; simpl; [done|..]; rewrite Hop.
  - destruct (eval l) as [a|]; [|intros [= <-]; by apply IHl]. destruct (eval r) as [b|]; [|intros [= <-]; by apply IHr].
    intros Hx. left. eauto.
  - destruct (eval e) as [a|]; [|intros [= <-]; by apply IHe]. intros Hx. right. eauto.
Qed.

End arithmetic.
