(* ===== verification/Providers.v ===== *)
(** * Provider adapters
    (services/model-gateway/model_gateway/providers: mock.py, openai_provider.py,
    anthropic_provider.py)

    What each adapter sends and what it makes of the answer. The SDKs are outside the
    repository: their answer to a request is an argument, an exception of theirs being its
    HTTP status, if it has one, and its text. *)

From Stdlib Require Import Floats.
From S2P Require Import Prelude Enums Contracts Telemetry Breaker Database Scenario Rooms Projects.
Local Open Scope Z_scope.

(** ** The mock *)

Definition OUTLINE : list string :=
  ["Objective"; "Business problem"; "Required data"; "Core capabilities"; "Integration considerations";
   "KPI framework"; "Risks"; "Assumptions"; "Recommended MVP boundary"; "Open questions"].

Definition mock_content (heading : string) : string :=
  "[MOCK OUTPUT — no external model was called] Placeholder content for '" +:+ heading +:+
  "', generated deterministically from the task instructions. This is a Phase 0 walking-skeleton response, " +:+
  "not real analysis; no evidence is claimed here per the 'never invent evidence' instruction.".

Definition mock_section (heading : string) : json :=
  JObj [("heading", JStr heading); ("content", JStr (mock_content heading))].

(** [request.metadata.get('mission_title', 'Mission Output')], as the f-string shows it;
    [str_json] is [str()] of a value that is not a string. *)
Definition mission_title (str_json : json → string) (metadata : list (string * json)) : string :=
  match obj_get "mission_title" metadata with
  | None => "Mission Output"
  | Some (JStr s) => s
  | Some j => str_json j
  end.

Definition mock_payload (title : string) : json :=
  JObj [("title", JStr ("[MOCK] " +:+ title));
        ("executive_summary", JStr ("This artifact was produced by the deterministic MockModelProvider " +:+
           "(no ANTHROPIC_API_KEY configured / mock provider selected). It exists to " +:+
           "prove the end-to-end mission pipeline, not to answer the objective."));
        ("sections", JList (mock_section <$> OUTLINE));
        ("assumptions", JList [JStr "A real model provider was not configured for this run."]);
        ("risks", JList [JStr "This output must not be used for any real business decision."]);
        ("open_questions", JList [JStr "What does the real model say once a provider is configured?"])].

(** [int((end - start) * 1000)] *)
Definition elapsed_ms (start stop : float) : Z := Py.trunc (Py.mul (Py.sub stop start) (Py.of_int 1000)).

Section mock.
Context `{Env} (str_json : json → string).

(** [MockModelProvider.generate(request)] *)
Definition mock_generate (request : ModelRequest) : M ModelResponse :=
  start ← monotonic;
  let text := json_dumps (mock_payload (mission_title str_json (req_metadata request))) in
  stop ← monotonic;
  let latency_ms := if elapsed_ms start stop =? 0 then 1 else elapsed_ms start stop in
  mret (mkModelResponse text
          (Z.max 1 (py_len (req_system_prompt request +:+ req_user_prompt request) / 4))
          (Z.max 1 (py_len text / 4)) latency_ms "mock" (req_model request) "stop" false
          (Some (JObj [("mock", JBool true); ("request_hash", JStr (sha256_hex (dump_request request)))]))).
End mock.

(** ** OpenAI *)

(** What the adapter reads of a [ChatCompletion]; an absent string is [None]. *)
Record Choice := mkChoice { ch_content : option string; ch_finish_reason : option string }.
Record ChatCompletion := mkCompletion {
  cc_choices : list Choice;
  cc_usage : option (Z * Z);
  cc_model : string;
  cc_dump : json;
}.

(** The keyword arguments that depend on the model. *)
Record ModelParams := mkParams {
  mp_max_tokens : option Z;
  mp_max_completion_tokens : option Z;
  mp_temperature : option float;
}.

Definition MAX_TOKENS_MODEL_PREFIXES : list string := ["gpt-4"; "gpt-3.5"; "chatgpt-4o"].

(** [_model_param_kwargs(request)] *)
Definition model_param_kwargs (request : ModelRequest) : ModelParams :=
  if existsb (λ p, String.prefix p (req_model request)) MAX_TOKENS_MODEL_PREFIXES
  then mkParams (Some (req_max_output_tokens request)) None (Some (req_temperature request))
  else mkParams None (Some (req_max_output_tokens request)) None.

(** [_usage_or_estimate(response, request)] *)
Definition usage_or_estimate (response : ChatCompletion) (request : ModelRequest) : Z * Z * bool :=
  match cc_usage response with
  | Some (prompt_tokens, completion_tokens) => (prompt_tokens, completion_tokens, false)
  | None => (estimate_input_tokens (req_system_prompt request) (req_user_prompt request),
             req_max_output_tokens request, true)
  end.

(** [text or default] *)
Definition or_default (s : option string) (default : string) : string :=
  match s with Some t => if decide (t = "") then default else t | None => default end.

Section clients.
Context `{Env}.

(** [OpenAIProvider(api_key)] refuses an empty key. *)
Definition openai_init (api_key : string) : outcome exn unit :=
  if decide (api_key = "") then
    Raise (ValueError ("OpenAIProvider requires OPENAI_API_KEY. Use MockModelProvider " +:+
                       "(DEFAULT_MODEL_PROVIDER=mock) when no key is configured."))
  else Ret tt.

(** [OpenAIProvider.generate(request)]; [answer] is what the SDK's [create] gives. *)
Definition openai_generate (request : ModelRequest) (answer : (option Z * string) + ChatCompletion) :
    M ((option Z * string) + ModelResponse) :=
  start ← monotonic;
  match answer with
  | inl e => mret (inl e)
  | inr response =>
      stop ← monotonic;
      match cc_choices response with
      | [] => mret (inl (None, "list index out of range"))
      | choice :: _ =>
          let '(input_tokens, output_tokens, estimated) := usage_or_estimate response request in
          mret (inr (mkModelResponse (or_default (ch_content choice) "") input_tokens output_tokens
                       (elapsed_ms start stop) "openai" (cc_model response)
                       (or_default (ch_finish_reason choice) "stop") estimated (Some (cc_dump response))))
      end
  end.

(** ** Anthropic *)

Record Block := mkBlock { bl_type : string; bl_text : string }.
Record Message := mkMessage {
  ms_content : list Block;
  ms_usage : Z * Z;
  ms_model : string;
  ms_stop_reason : option string;
  ms_dump : json;
}.

(** [AnthropicProvider(api_key)] *)
Definition anthropic_init (api_key : string) : outcome exn unit :=
  if decide (api_key = "") then
    Raise (ValueError ("AnthropicProvider requires ANTHROPIC_API_KEY. Use MockModelProvider " +:+
                       "(DEFAULT_MODEL_PROVIDER=mock) when no key is configured."))
  else Ret tt.

(** ["".join(block.text for block in content if block.type == "text")] *)
Definition text_of (content : list Block) : string :=
  foldr (λ b s, if decide (bl_type b = "text") then bl_text b +:+ s else s) "" content.

(** [AnthropicProvider.generate(request)] *)
Definition anthropic_generate (request : ModelRequest) (answer : (option Z * string) + Message) :
    M ((option Z * string) + ModelResponse) :=
  start ← monotonic;
  match answer with
  | inl e => mret (inl e)
  | inr response =>
      stop ← monotonic;
      mret (inr (mkModelResponse (text_of (ms_content response)) (ms_usage response).1 (ms_usage response).2
                   (elapsed_ms start stop) "anthropic" (ms_model response)
                   (or_default (ms_stop_reason response) "stop") false (Some (ms_dump response))))
  end.
End clients.

(** ** Theorems *)

Section provider_theorems.
Context `{Env}.

(** The mock's answer always passes the output contract. Whatever the request, and as long
    as [json.loads] reads back what [json.dumps] wrote, the text is a valid mission output
    with the ten sections of the outline, each marked as mock output; it costs nothing, and
    no token count or latency is zero. *)
Theorem mock_output_validates str_json request w :
  (let payload := mock_payload (mission_title str_json (req_metadata request)) in
   json_loads (json_dumps payload) = inr payload) →
  wp (mock_generate str_json request) w
    (λ r _, (∃ out, validate_mission_output (resp_text r) = (Some out, None) ∧
               heading <$> sections out = OUTLINE ∧
               Forall (λ s, String.prefix "[MOCK OUTPUT" (content s) = true) (sections out)) ∧
       estimate_cost_usd (resp_provider r) (resp_model r) (resp_input_tokens r) (resp_output_tokens r) = Ret 0 ∧
       1 ≤ resp_input_tokens r ∧ 1 ≤ resp_output_tokens r ∧ resp_latency_ms r ≠ 0)
    (λ _ _, False).
Proof.
  intros Hj. unfold mock_generate. apply wp_bind. unfold wp at 1; cbn [monotonic]. apply wp_bind.
  unfold wp at 1; cbn [monotonic]. apply wp_ret. cbn [resp_text resp_provider resp_model resp_input_tokens resp_output_tokens
    resp_latency_ms]. split_and!; [|  |lia|lia|].
  - unfold validate_mission_output. rewrite Hj. eexists. split; [reflexivity|]. split; [reflexivity|]. by repeat constructor.
  - unfold estimate_cost_usd, price_for.
    assert (PRICING !! ("mock", req_model request) = None ∨ PRICING !! ("mock", req_model request) = Some (0, 0)) as Hp.
    { assert (map_Forall (λ k p, k.1 = "mock" → p = (0, 0)) PRICING) as Hall
        by (apply (bool_decide_unpack _); vm_compute; exact I).
      destruct (PRICING !! _) as [p|] eqn:Hp; [right|by left]. by rewrite (Hall _ _ Hp). }
    assert (PRICING !! ("mock", "*") = Some (0, 0)) as Hw by (vm_compute; reflexivity).
    destruct Hp as [-> | ->]; rewrite ?Hw, !Z.mul_0_r; done.
  - destruct (_ =? 0) eqn:He; [done|]. by apply Z.eqb_neq in He.
Qed.

(** A completion of OpenAI is never recorded as free, and every request is capped. The
    request carries the budget's output cap as exactly one of the two parameters the API
    knows. When the answer reports its usage, that is what is recorded; when it does not,
    the tokens, and so the price, are those of the worst case that was charged ahead of the
    request, and the record says that they are estimates. *)
Theorem openai_completion_never_free request answer w :
  (let p := model_param_kwargs request in
   (mp_max_tokens p = Some (req_max_output_tokens request) ∧ mp_max_completion_tokens p = None) ∨
   (mp_max_tokens p = None ∧ mp_max_completion_tokens p = Some (req_max_output_tokens request) ∧ mp_temperature p = None)) ∧
  wp (openai_generate request answer) w
    (λ r _, ∀ response, r = inr response → ∃ c, answer = inr c ∧
       resp_usage_estimated response = bool_decide (cc_usage c = None) ∧
       match cc_usage c with
       | Some u => (resp_input_tokens response, resp_output_tokens response) = u
       | None =>
           let worst := estimate_worst_case_attempt "openai" (req_model request) (req_system_prompt request)
                          (req_user_prompt request) (req_max_output_tokens request) in
           ∀ cost, estimate_cost_usd "openai" (req_model request) (resp_input_tokens response)
                     (resp_output_tokens response) = Ret cost →
             worst = Ret (resp_input_tokens response, resp_output_tokens response, cost)
       end)
    (λ _ _, False).
Proof.
  split.
  - unfold model_param_kwargs. destruct (existsb _ _); [by left|by right].
  - unfold openai_generate. apply wp_bind. unfold wp at 1; cbn [monotonic].
    destruct answer as [e|c]; [by apply wp_ret|]. apply wp_bind. unfold wp at 1; cbn [monotonic].
    destruct (cc_choices c) as [|choice l]; [by apply wp_ret|]. unfold usage_or_estimate.
    destruct (cc_usage c) as [[i o]|] eqn:Hu; apply wp_ret; intros response [= <-]; exists c; (split; [done|]); rewrite Hu.
    + done.
    + split; [done|]. simpl. intros cost Hc. unfold estimate_worst_case_attempt. by rewrite Hc.
Qed.
End provider_theorems.

(** ** Witnesses *)

(** The sample environment, with a JSON codec that reads back the mock's answer. *)
Definition mock_env : Env := {|
  sha256_hex := sha256_hex;
  json_loads := λ _, inr (mock_payload "Mission Output");
  json_dumps := λ _, "{}";
  validation_errors := validation_errors;
  fmt_2f := fmt_2f;
  fmt_0f := fmt_0f;
  dump_request := dump_request;
  dump_tool_policy := dump_tool_policy;
  dump_budget_policy := dump_budget_policy;
  output_json_schema := output_json_schema;
  utc_now := utc_now;
  mono_now := mono_now;
  provider_generate := provider_generate;
  object_put_ok := object_put_ok;
  redis_ok := redis_ok;
  commit_ok := commit_ok;
  savepoint_recovers := savepoint_recovers;
  bucket := bucket;
|}.

Lemma mock_output_validates_witness :
  wp (@mock_generate mock_env (λ _, "") sample_request) sample_world
    (λ r _, ∃ out, @validate_mission_output mock_env (resp_text r) = (Some out, None) ∧ heading <$> sections out = OUTLINE)
    (λ _ _, False).
Proof.
  eapply wp_mono; [apply (@mock_output_validates mock_env (λ _, "") sample_request sample_world); reflexivity| |done].
  intros r w' ((out & Hv & Hh & _) & _). by exists out.
Defined.

Example openai_params :
  model_param_kwargs (ModelRequest_make "openai" "gpt-4o-mini" "" "" 500) =
    mkParams (Some 500) None (Some (Py.div (Py.of_int 2) (Py.of_int 10))) ∧
  model_param_kwargs (ModelRequest_make "openai" "o3-mini" "" "" 500) = mkParams None (Some 500) None.
Proof. split; reflexivity. Qed.

Example anthropic_text :
  text_of [mkBlock "thinking" "hm"; mkBlock "text" "one "; mkBlock "text" "two"] = "one two".
Proof. reflexivity. Qed.
