(* ===== verification/RoomsView.v ===== *)
(** * The apartment's read model
    (services/api/routes/agent_rooms.py)

    One GET shows every agent's room, what the agent is doing (from its latest task) and the
    projects of the town. Agents without a room get one on the way, by
    [Rooms.ensure_assignment]; [rivals a] is what other sessions commit while agent [a] is
    given a room. Ids have a total order here as UUIDs do in the database. *)

From stdpp Require Import sorting.
From S2P Require Import Prelude Enums Contracts Breaker Database Scenario Api Rooms.
Local Open Scope Z_scope.

(** [RoomActivity] *)
Module RoomActivity.
Inductive t := idle | assigned | working | completed | failed.
#[export] Instance t_eq_dec : EqDecision t.
Proof. solve_decision. Defined.
End RoomActivity.
Export (hints) RoomActivity.

(** Microseconds; [_RESULT_HOLD_SECONDS] is 6. *)
Definition RESULT_HOLD : Z := 6000000.

Definition DEFAULT_FLOOR_COUNT : Z := 5.

(** [_activity_for_task(task, now)] *)
Definition activity_for_task (task : option Task.t) (now : Z) : RoomActivity.t * option Z :=
  match task with
  | None => (RoomActivity.idle, None)
  | Some t =>
      let created := Task.created_at t in
      match Task.status t with
      | TaskStatus.queued => (RoomActivity.assigned, Some created)
      | TaskStatus.running | TaskStatus.waiting =>
          (RoomActivity.working, Some (default created (Task.started_at t)))
      | TaskStatus.completed | TaskStatus.failed | TaskStatus.cancelled =>
          let changed_at := default created (Task.completed_at t) in
          if RESULT_HOLD <=? now - changed_at then (RoomActivity.idle, Some changed_at)
          else (if decide (Task.status t = TaskStatus.completed) then RoomActivity.completed
                else RoomActivity.failed, Some changed_at)
      end
  end.

(** The join of tasks with the tenant's missions. *)
Definition task_in_tenant (tn : EntityId) (d : DB.t) (t : Task.t) : bool :=
  match DB.missions d !! Task.mission_id t with
  | Some m => bool_decide (Mission.tenant_id m = tn)
  | None => false
  end.

(** [ORDER BY created_at DESC, id DESC]: [t] comes before [u]. *)
Definition newer (t u : Task.t) : bool :=
  (Task.created_at u <? Task.created_at t) ||
  ((Task.created_at u =? Task.created_at t) && (Task.id u <? Task.id t)%positive).

(** [DISTINCT ON (assigned_agent_id)] keeps the first task of every agent in that order. *)
Definition keep_newest (t : Task.t) (latest : gmap EntityId Task.t) : gmap EntityId Task.t :=
  match latest !! Task.assigned_agent_id t with
  | Some u => if newer t u then <[Task.assigned_agent_id t := t]> latest else latest
  | None => <[Task.assigned_agent_id t := t]> latest
  end.

(** [_latest_task_by_agent(session, tenant_id)] *)
Definition latest_task_by_agent (tn : EntityId) : M (gmap EntityId Task.t) :=
  asks_db (λ d, foldr keep_newest ∅ (select (task_in_tenant tn d) (DB.tasks d))).

(** The rows of [_project_id_by_mission]'s query. *)
Definition linked (tn : EntityId) (mission_ids : list EntityId) (d : DB.t) (l : MissionProject.t) : bool :=
  bool_decide (MissionProject.tenant_id l = tn) && bool_decide (MissionProject.mission_id l ∈ mission_ids) &&
  match DB.projects d !! MissionProject.project_id l with
  | Some p => bool_decide (Project.tenant_id p = tn)
  | None => false
  end.

(** [_project_id_by_mission(session, tenant_id, mission_ids)] *)
Definition project_id_by_mission (tn : EntityId) (mission_ids : list EntityId) : M (gmap EntityId EntityId) :=
  match mission_ids with
  | [] => mret ∅
  | _ => asks_db (λ d, list_to_map ((λ l, (MissionProject.mission_id l, MissionProject.project_id l)) <$>
                         select (linked tn mission_ids d) (DB.mission_projects d)))
  end.

Record ProjectSummary := mkProjectSummary {
  ps_id : EntityId;
  ps_code : string;
  ps_name : string;
  ps_status : ProjectStatus.t;
}.

Definition summarize (p : Project.t) : ProjectSummary :=
  mkProjectSummary (Project.id p) (Project.code p) (Project.name p) (Project.status p).

(** [ORDER BY created_at, id] *)
Definition placed_before (p q : Project.t) : Prop :=
  Project.created_at p < Project.created_at q ∨
  (Project.created_at p = Project.created_at q ∧ (Project.id p ≤ Project.id q)%positive).

#[export] Instance placed_before_dec : RelDecision placed_before.
Proof. intros p q. unfold placed_before. apply _. Defined.

Definition in_summary (tn : EntityId) (referenced : gset EntityId) (p : Project.t) : bool :=
  bool_decide (Project.tenant_id p = tn) &&
  (bool_decide (Project.status p = ProjectStatus.active) || bool_decide (Project.id p ∈ referenced)).

(** [_projects_summary(session, tenant_id, referenced_ids)] *)
Definition projects_summary (tn : EntityId) (referenced : gset EntityId) : M (list ProjectSummary) :=
  asks_db (λ d, summarize <$> merge_sort placed_before (select (in_summary tn referenced) (DB.projects d))).

Record AgentRoomOut := mkAgentRoomOut {
  ro_agent_id : EntityId;
  ro_agent_code : string;
  ro_display_name : string;
  ro_lifecycle_state : AgentLifecycleState.t;
  ro_floor : Z;
  ro_room_index : Z;
  ro_assigned_at : Z;
  ro_activity : RoomActivity.t;
  ro_active_task_id : option EntityId;
  ro_activity_changed_at : option Z;
  ro_project_id : option EntityId;
}.

Record AgentRoomsResponse := mkAgentRoomsResponse {
  rr_rooms_per_floor : Z;
  rr_default_floor_count : Z;
  rr_rooms : list AgentRoomOut;
  rr_projects : list ProjectSummary;
}.

Definition shown_agent (tn : EntityId) (a : Agent.t) : bool :=
  bool_decide (Agent.tenant_id a = tn) && bool_decide (Agent.lifecycle_state a ≠ AgentLifecycleState.suspended).

Section view.
Context `{Env}.

(** The backfill loop. *)
Fixpoint backfill (rivals : EntityId → nat → DB.t → DB.t) (tn : EntityId) (agents : list Agent.t)
    (assignments : gmap EntityId AgentRoomAssignment.t) : M (gmap EntityId AgentRoomAssignment.t) :=
  match agents with
  | [] => mret assignments
  | a :: agents =>
      match assignments !! Agent.id a with
      | Some _ => backfill rivals tn agents assignments
      | None =>
          backfilled ← ensure_assignment (rivals (Agent.id a)) tn (Agent.id a);
          backfill rivals tn agents
            (match backfilled with Some r => <[Agent.id a := r]> assignments | None => assignments end)
      end
  end.

(** The body of the loop over the agents. *)
Definition room_out (assignments : gmap EntityId AgentRoomAssignment.t) (latest : gmap EntityId Task.t)
    (project_ids : gmap EntityId EntityId) (now : Z) (a : Agent.t) : option AgentRoomOut :=
  assignment ← assignments !! Agent.id a;
  let task := latest !! Agent.id a in
  let '(activity, changed_at) := activity_for_task task now in
  let project_id :=
    match task with
    | Some t => if decide (activity ≠ RoomActivity.idle) then project_ids !! Task.mission_id t else None
    | None => None
    end in
  Some (mkAgentRoomOut (Agent.id a) (Agent.agent_code a) (Agent.display_name a) (Agent.lifecycle_state a)
          (AgentRoomAssignment.floor assignment) (AgentRoomAssignment.room_index assignment)
          (AgentRoomAssignment.assigned_at assignment) activity (Task.id <$> task) changed_at project_id).

(** [list_agent_rooms(user, session)] *)
Definition list_agent_rooms (rivals : EntityId → nat → DB.t → DB.t) (user : User.t) : M AgentRoomsResponse :=
  let tn := User.tenant_id user in
  agents ← asks_db (λ d, select (shown_agent tn) (DB.agents d));
  rows ← list_assignments tn;
  assignments ← backfill rivals tn agents
    (list_to_map ((λ r, (AgentRoomAssignment.agent_id r, r)) <$> rows));
  latest ← latest_task_by_agent tn;
  project_ids ← project_id_by_mission tn (Task.mission_id <$> (map_to_list latest).*2);
  now ← utc;
  let rooms := omap (room_out assignments latest project_ids now) agents in
  projects ← projects_summary tn (list_to_set (omap ro_project_id rooms));
  mret (mkAgentRoomsResponse ROOMS_PER_FLOOR DEFAULT_FLOOR_COUNT rooms projects).
End view.

(** ** The latest task *)

Lemma newer_spec t u :
  newer t u = true ↔
  Task.created_at u < Task.created_at t ∨
  (Task.created_at u = Task.created_at t ∧ (Task.id u < Task.id t)%positive).
Proof. unfold newer. by rewrite orb_true_iff, andb_true_iff, Z.ltb_lt, Z.eqb_eq, Pos.ltb_lt. Qed.

Lemma newer_irrefl t : newer t t = false.
Proof. apply not_true_is_false. rewrite newer_spec. lia. Qed.

Lemma newer_trans t u v : newer t u = true → newer u v = true → newer t v = true.
Proof. rewrite !newer_spec. lia. Qed.

(** [latest] holds, for every agent, a task of [l] that no task of [l] of that agent beats. *)
Definition newest_of (l : list Task.t) (latest : gmap EntityId Task.t) : Prop :=
  ∀ a, match latest !! a with
       | Some t => t ∈ l ∧ Task.assigned_agent_id t = a ∧
                   ∀ u, u ∈ l → Task.assigned_agent_id u = a → newer u t = false
       | None => ∀ u, u ∈ l → Task.assigned_agent_id u ≠ a
       end.

Lemma keep_newest_spec l : newest_of l (foldr keep_newest ∅ l).
Proof.
  induction l as [|t l IH]; intros a; simpl;
    [rewrite lookup_empty; intros u Hu; by apply elem_of_nil in Hu|].
  set (m := foldr keep_newest ∅ l) in *. pose proof (IH (Task.assigned_agent_id t)) as Ht. unfold keep_newest.
  destruct (decide (a = Task.assigned_agent_id t)) as [->|Hne].
  - destruct (m !! Task.assigned_agent_id t) as [u|] eqn:Hu.
    + destruct Ht as (Hin & Ha & Hmax). destruct (newer t u) eqn:Hn.
      * rewrite lookup_insert_eq. split_and!; [by left|done|].
        intros v [->|Hv]%elem_of_cons Hva; [apply newer_irrefl|].
        apply not_true_is_false. intros Hvt. specialize (Hmax v Hv Hva). by rewrite (newer_trans _ _ _ Hvt Hn) in Hmax.
      * rewrite Hu. split_and!; [by right|done|]. intros v [->|Hv]%elem_of_cons Hva; [done|by apply Hmax].
    + rewrite lookup_insert_eq. split_and!; [by left|done|].
      intros v [->|Hv]%elem_of_cons Hva; [apply newer_irrefl|]. by destruct (Ht v Hv).
  - specialize (IH a). assert (match m !! Task.assigned_agent_id t with
      | Some u => if newer t u then <[Task.assigned_agent_id t := t]> m else m
      | None => <[Task.assigned_agent_id t := t]> m end !! a = m !! a) as ->.
    { by repeat case_match; rewrite ?lookup_insert_ne by done. }
    destruct (m !! a) as [u|].
    + destruct IH as (Hin & Ha & Hmax). split_and!; [by right|done|].
      intros v [->|Hv]%elem_of_cons Hva; [congruence|by apply Hmax].
    + intros v [->|Hv]%elem_of_cons Hva; [congruence|by apply (IH v)].
Qed.

(** ** The view *)

Section consistent.
Context `{Env}.

Lemma backfill_returns rivals tn agents assignments w :
  wp (backfill rivals tn agents assignments) w (λ _ _, True) (λ _ _, False).
Proof.
  revert assignments w. induction agents as [|a agents IH]; intros assignments w; simpl; [by apply wp_ret|].
  destruct (assignments !! Agent.id a); [apply IH|]. apply wp_bind. unfold ensure_assignment. apply wp_try.
  unfold wp at 1. destruct (allocate_loop _ _ _ _ w) as [[r|e] w']; [apply IH|]. unfold wp at 1. apply IH.
Qed.

Definition projects_keyed (d : DB.t) : Prop := ∀ k q, DB.projects d !! k = Some q → Project.id q = k.

Lemma backfill_keyed rivals tn agents assignments :
  (∀ a n d, projects_keyed d → projects_keyed (rivals a n d)) →
  tracks (pres (λ w : World, projects_keyed (w_db w) ∧ projects_keyed (w_committed w)))
    (backfill rivals tn agents assignments).
Proof.
  intros Hr. revert assignments. induction agents as [|a agents IH]; intros assignments; simpl; [apply tracks_ret, _|].
  destruct (assignments !! Agent.id a); [apply IH|]. apply tracks_bind; [apply _| |by intros].
  apply ensure_assignment_pres; [apply Hr|done].
Qed.

(** What one line of the answer says, about the database [d] it is read from. *)
Record room_ok (tn : EntityId) (agents : list Agent.t) (d : DB.t) (projects : list ProjectSummary)
    (x : AgentRoomOut) : Prop := {
  ok_agent : ∃ a, a ∈ agents ∧ Agent.id a = ro_agent_id x;
  ok_task : ∀ i, ro_active_task_id x = Some i → ∃ t, Task.id t = i ∧ Task.assigned_agent_id t = ro_agent_id x ∧
    t ∈ select (task_in_tenant tn d) (DB.tasks d) ∧
    ∀ u, u ∈ select (task_in_tenant tn d) (DB.tasks d) → Task.assigned_agent_id u = ro_agent_id x → newer u t = false;
  ok_home : ro_activity x = RoomActivity.idle → ro_project_id x = None;
  ok_project : ∀ p, ro_project_id x = Some p → p ∈ ps_id <$> projects;
}.

Lemma project_ids_spec tn ids d m p :
  projects_keyed d →
  (list_to_map ((λ l, (MissionProject.mission_id l, MissionProject.project_id l)) <$>
     select (linked tn ids d) (DB.mission_projects d)) : gmap EntityId EntityId) !! m = Some p →
  ∃ q, DB.projects d !! p = Some q ∧ Project.tenant_id q = tn ∧ Project.id q = p.
Proof.
  intros Hk Hp. apply elem_of_list_to_map_2, list_elem_of_fmap in Hp as (l & [= -> ->] & [Hl _]%elem_of_select).
  unfold linked in Hl. apply andb_true_iff in Hl as [_ Hl].
  destruct (DB.projects d !! MissionProject.project_id l) as [q|] eqn:Hq; [|done].
  apply bool_decide_eq_true in Hl. exists q. split_and!; [done|done|by apply Hk].
Qed.

Lemma summary_covers tn referenced d p q :
  DB.projects d !! p = Some q → Project.tenant_id q = tn → Project.id q = p → p ∈ referenced →
  p ∈ ps_id <$> (summarize <$> merge_sort placed_before (select (in_summary tn referenced) (DB.projects d))).
Proof.
  intros Hq Ht Hi Hp. apply list_elem_of_fmap. exists (summarize q). split; [done|].
  apply list_elem_of_fmap_2. rewrite merge_sort_Permutation. apply elem_of_select. split; [|by eexists].
  unfold in_summary. rewrite bool_decide_true by done. simpl. rewrite (bool_decide_true (_ ∈ _)) by congruence.
  apply orb_true_r.
Qed.

(** The query's result, whether it is asked or not: projects of the tenant. *)
Lemma project_id_by_mission_spec tn ids w Q R :
  projects_keyed (w_db w) →
  (∀ pids : gmap EntityId EntityId,
     (∀ m p, pids !! m = Some p → ∃ q, DB.projects (w_db w) !! p = Some q ∧ Project.tenant_id q = tn ∧ Project.id q = p) →
     Q pids w) →
  wp (project_id_by_mission tn ids) w Q R.
Proof.
  intros Hk HQ. destruct ids as [|i ids]; [apply wp_ret, HQ; intros m p; by rewrite lookup_empty|].
  apply wp_asks, HQ. intros m p. by apply project_ids_spec.
Qed.

#[local] Instance placed_before_trans : Transitive placed_before.
Proof. intros p q r. unfold placed_before. lia. Qed.

#[local] Instance placed_before_total : Total placed_before.
Proof. intros p q. unfold placed_before. lia. Qed.

Lemma room_out_ok tn agents d assignments pids now a x projects :
  newest_of (select (task_in_tenant tn d) (DB.tasks d)) (foldr keep_newest ∅ (select (task_in_tenant tn d) (DB.tasks d))) →
  a ∈ agents →
  room_out assignments (foldr keep_newest ∅ (select (task_in_tenant tn d) (DB.tasks d))) pids now a = Some x →
  (∀ p, ro_project_id x = Some p → p ∈ ps_id <$> projects) →
  room_ok tn agents d projects x.
Proof.
  intros Hl Ha Hx Hp. unfold room_out in Hx. destruct (assignments !! Agent.id a) as [r|]; [|done]. cbn [mbind option_bind] in Hx.
  specialize (Hl (Agent.id a)). set (latest := foldr _ _ _) in *.
  destruct (activity_for_task _ now) as [act ch]. injection Hx as <-. split; [by exists a| | |done]; cbn.
  - intros i Hi. destruct (latest !! Agent.id a) as [t|]; [|done]. injection Hi as <-.
    destruct Hl as (Hin & Hag & Hmax). by exists t.
  - intros ->. by destruct (latest !! Agent.id a).
Qed.

End consistent.

Definition sample_viewer : User.t := User.mk 2 1 "op@acme.test" "Op" UserRole.operator UserStatus.active "hash".

(** The sample installation with one project, to which its mission belongs. *)
Definition project_world : World :=
  world_of (DB.upd_mission_projects (<[6%positive := MissionProject.mk 6 1 12]>)
    (DB.upd_projects (<[12%positive := Project.mk 12 1 "hq" "Headquarters" ProjectStatus.active 0 None]>) sample_db)).


(** The agent of the sample installation has a queued task for its project: it is shown there. *)
Example sample_room :
  match result (list_agent_rooms (λ _, no_rivals) sample_viewer) project_world with
  | Ret r => (λ x, (ro_agent_code x, ro_activity x, ro_active_task_id x, ro_project_id x)) <$> rr_rooms r
  | Raise _ => []
  end = [("analyst", RoomActivity.assigned, Some 7%positive, Some 12%positive)].
Proof. vm_compute. reflexivity. Qed.
