(* ===== verification/Closure.v ===== *)
(** * Closing what an external agent runtime left open
    (services/api/services/agent_runtime_closure.py, and the reap sweep of
    services/worker/main.py)

    A Claude Code session and each of its subagents is a row of [agent_runtime_sessions] with
    a task of its own. A subagent's task is closed once, by its hook, by the end of its
    session, or by the reaper; [agent_runtime_closures] records which. The row locks
    ([FOR UPDATE]) make every function here run against a database no other closer of the
    same rows changes, so each is one step of its session. *)

From Stdlib Require Import Floats.
From S2P Require Import Prelude Enums Contracts Breaker Database Scenario Transitions Missions Api.
Local Open Scope Z_scope.

(** [_TERMINAL_TASK_STATUSES] *)
Definition task_terminal (s : TaskStatus.t) : bool :=
  match s with
  | TaskStatus.completed | TaskStatus.failed | TaskStatus.cancelled => true
  | _ => false
  end.

Definition of_session (sid : EntityId) (c : AgentRuntimeClosure.t) : bool :=
  bool_decide (AgentRuntimeClosure.runtime_session_id c = sid).

(** [_get_existing_closure(session, runtime_session_id)] *)
Definition get_existing_closure (sid : EntityId) : M (option AgentRuntimeClosure.t) :=
  rows ← asks_db (λ d, select (of_session sid) (DB.closures d));
  scalar_one_or_none rows.

(** The tenant-scoped [SELECT ... FOR UPDATE] of a runtime session. *)
Definition lock_runtime_session (tenant_id sid : EntityId) : M (option AgentRuntimeSession.t) :=
  get_tenant_scoped DB.runtime_sessions AgentRuntimeSession.tenant_id sid tenant_id.

(** [session.get(Task, task_id) if task_id else None] *)
Definition task_of_session (s : AgentRuntimeSession.t) : M (option Task.t) :=
  match AgentRuntimeSession.task_id s with
  | Some t => get_row DB.tasks t
  | None => mret None
  end.

(** The closure's insert: keys, references and the NOT NULL on [task_id]. *)
Definition insert_closure (c : AgentRuntimeClosure.t) : M unit :=
  d ← asks_db id;
  _ ← integrity (negb (is_present (AgentRuntimeClosure.id c) (DB.closures d)))
        "agent_runtime_closures_pkey";
  _ ← integrity (is_present (AgentRuntimeClosure.tenant_id c) (DB.tenants d))
        "agent_runtime_closures_tenant_id_fkey";
  _ ← integrity (is_present (AgentRuntimeClosure.runtime_session_id c) (DB.runtime_sessions d))
        "agent_runtime_closures_runtime_session_id_fkey";
  _ ← integrity (match AgentRuntimeClosure.task_id c with
                 | Some t => is_present t (DB.tasks d)
                 | None => false
                 end) "agent_runtime_closures.task_id";
  _ ← integrity (negb (exists_row (of_session (AgentRuntimeClosure.runtime_session_id c)) (DB.closures d)))
        "uq_agent_runtime_closures_runtime_session_id";
  modify_db (DB.upd_closures (<[AgentRuntimeClosure.id c := c]>)).

(** The string of a close outcome, read as a session outcome. *)
Definition session_outcome (o : AgentRuntimeCloseOutcome.t) : AgentRuntimeOutcome.t :=
  match o with
  | AgentRuntimeCloseOutcome.completed => AgentRuntimeOutcome.completed
  | AgentRuntimeCloseOutcome.failed => AgentRuntimeOutcome.failed
  end.

Definition target_status (o : AgentRuntimeCloseOutcome.t) : TaskStatus.t :=
  match o with
  | AgentRuntimeCloseOutcome.completed => TaskStatus.completed
  | AgentRuntimeCloseOutcome.failed => TaskStatus.failed
  end.

(** [runtime_session.ended_at = now(); runtime_session.outcome = outcome] *)
Definition ended (now : Z) (o : AgentRuntimeOutcome.t) (s : AgentRuntimeSession.t) :
    AgentRuntimeSession.t :=
  AgentRuntimeSession.set_outcome (Some o) (AgentRuntimeSession.set_ended_at (Some now) s).

Section closing.
Context `{Env}.

(** [_publish(...)]: the envelope's [correlation_id] is the mission, and is required. *)
Definition publish_closure (event_type : EventType.t) (tenant_id : EntityId) (actor : Actor)
    (mission_id : option EntityId) (task : Task.t) (data : list (string * json)) : M unit :=
  match mission_id with
  | None => raise (ValueError "correlation_id")
  | Some m => publish_api event_type tenant_id actor m (Some m) (Some (Task.id task))
                (Some (Task.assigned_agent_id task)) data
  end.

(** The hop through [running] that [_advance_task] takes first, if any; returns the task's
    status after it. *)
Definition enter_running (tenant_id : EntityId) (actor : Actor) (mission_id : option EntityId)
    (task : Task.t) (target : TaskStatus.t) : M TaskStatus.t :=
  if decide (Task.status task = TaskStatus.queued) then
    _ ← lift (validate_task_transition TaskStatus.queued TaskStatus.running);
    now ← utc;
    _ ← update_task (Task.id task)
          (λ t, Task.set_started_at (Some now) (Task.set_status TaskStatus.running t));
    _ ← publish_closure EventType.task_started tenant_id actor mission_id task [];
    mret TaskStatus.running
  else if decide (Task.status task = TaskStatus.waiting ∧ target = TaskStatus.completed) then
    _ ← lift (validate_task_transition TaskStatus.waiting TaskStatus.running);
    _ ← update_task (Task.id task) (Task.set_status TaskStatus.running);
    mret TaskStatus.running
  else mret (Task.status task).

(** [_advance_task(session, publisher, ...)] *)
Definition advance_task (tenant_id : EntityId) (actor : Actor) (mission_id : option EntityId)
    (task : Task.t) (target : TaskStatus.t) (reason_code : AgentRuntimeReasonCode.t) : M unit :=
  if task_terminal (Task.status task) then mret tt
  else
    status ← enter_running tenant_id actor mission_id task target;
    _ ← lift (validate_task_transition status target);
    now ← utc;
    _ ← update_task (Task.id task)
          (λ t, Task.set_completed_at (Some now) (Task.set_status target t));
    publish_closure
      (if decide (target = TaskStatus.completed) then EventType.task_completed else EventType.task_failed)
      tenant_id actor mission_id task [("reason_code", JStr (value reason_code))].

(** The branch of [close_task] for a session that has its closure already: a hook that comes
    after the reaper stamps [late_close_at], once. *)
Definition close_again (closed_by : AgentRuntimeClosedBy.t) (existing : AgentRuntimeClosure.t) :
    M (option AgentRuntimeClosure.t * bool) :=
  if decide (closed_by = AgentRuntimeClosedBy.hook ∧
             AgentRuntimeClosure.closed_by existing = AgentRuntimeClosedBy.reaper ∧
             AgentRuntimeClosure.late_close_at existing = None) then
    now ← utc;
    _ ← modify_db (DB.upd_closures (alter (AgentRuntimeClosure.set_late_close_at (Some now))
                                      (AgentRuntimeClosure.id existing)));
    mret (Some (AgentRuntimeClosure.set_late_close_at (Some now) existing), false)
  else mret (Some existing, false).

(** What follows a closure that was inserted. *)
Definition finish_close (tenant_id : EntityId) (actor : Actor) (s : AgentRuntimeSession.t)
    (task : option Task.t) (outcome : AgentRuntimeCloseOutcome.t) (reason_code : AgentRuntimeReasonCode.t) :
    M unit :=
  _ ← match task with
      | Some t => advance_task tenant_id actor (AgentRuntimeSession.mission_id s) t
                    (target_status outcome) reason_code
      | None => mret tt
      end;
  now ← utc;
  modify_db (DB.upd_runtime_sessions
    (alter (ended now (session_outcome outcome)) (AgentRuntimeSession.id s))).

(** [close_task(session, publisher, ...)] *)
Definition close_task (tenant_id : EntityId) (actor : Actor) (sid : EntityId)
    (outcome : AgentRuntimeCloseOutcome.t) (reason_code : AgentRuntimeReasonCode.t)
    (closed_by : AgentRuntimeClosedBy.t) (tool_call_count : option Z) :
    M (option AgentRuntimeClosure.t * bool) :=
  runtime_session ← lock_runtime_session tenant_id sid;
  match runtime_session with
  | None => mret (None, false)
  | Some s =>
      existing ← get_existing_closure sid;
      match existing with
      | Some c => close_again closed_by c
      | None =>
          task ← task_of_session s;
          i ← new_id;
          now ← utc;
          let closure := AgentRuntimeClosure.mk i tenant_id (AgentRuntimeSession.id s)
            (AgentRuntimeSession.task_id s) closed_by outcome reason_code tool_call_count None now None in
          inserted ← try_except
            (_ ← begin_nested (insert_closure closure); mret None)
            (λ e, if is_integrity_error e then
                    Some (existing ← after_integrity_error (get_existing_closure sid);
                          match existing with None => raise e | Some c => mret (Some c) end)
                  else None);
          match inserted with
          | Some c => mret (Some c, false)
          | None =>
              _ ← finish_close tenant_id actor s task outcome reason_code;
              mret (Some closure, true)
          end
      end
  end.

(** The open subagents of a session. *)
Definition open_child (sid : EntityId) (s : AgentRuntimeSession.t) : bool :=
  bool_decide (AgentRuntimeSession.parent_session_id s = Some sid) &&
  bool_decide (AgentRuntimeSession.ended_at s = None).

(** The mission's part of [end_session]. *)
Definition complete_mission_of (s : AgentRuntimeSession.t) : M unit :=
  match AgentRuntimeSession.mission_id s with
  | None => mret tt
  | Some m =>
      mission ← get_row DB.missions m;
      match mission with
      | Some m =>
          when (bool_decide (Mission.status m = MissionStatus.running))
            (try_except (mark_mission_status m MissionStatus.completed)
               (λ e, match e with InvalidTransition _ _ _ => Some (mret tt) | _ => None end))
      | None => mret tt
      end
  end.

(** [end_session(session, publisher, ...)] *)
Definition end_session (tenant_id : EntityId) (actor : Actor) (sid : EntityId)
    (outcome : AgentRuntimeOutcome.t) : M (option AgentRuntimeSession.t) :=
  runtime_session ← lock_runtime_session tenant_id sid;
  match runtime_session with
  | None => mret None
  | Some s =>
      match AgentRuntimeSession.ended_at s with
      | Some _ => mret (Some s)
      | None =>
          parent_task ← task_of_session s;
          _ ← match parent_task with
              | Some t => advance_task tenant_id actor (AgentRuntimeSession.mission_id s) t
                            TaskStatus.completed AgentRuntimeReasonCode.session_ended
              | None => mret tt
              end;
          open_subagents ← asks_db (λ d,
            AgentRuntimeSession.id <$> select (open_child (AgentRuntimeSession.id s)) (DB.runtime_sessions d));
          _ ← for_each open_subagents (λ sub_id,
                _ ← close_task tenant_id actor sub_id AgentRuntimeCloseOutcome.failed
                      AgentRuntimeReasonCode.session_ended AgentRuntimeClosedBy.session_end None;
                mret tt);
          _ ← complete_mission_of s;
          now ← utc;
          _ ← modify_db (DB.upd_runtime_sessions (alter (ended now outcome) (AgentRuntimeSession.id s)));
          mret (Some (ended now outcome s))
      end
  end.

(** ** The reaper *)

(** [coalesce(last_heartbeat_at, started_at)] *)
Definition last_activity (s : AgentRuntimeSession.t) : Z :=
  default (AgentRuntimeSession.started_at s) (AgentRuntimeSession.last_heartbeat_at s).

(** SQL's [greatest(a, b, c)], which ignores NULLs. *)
Definition greatest (a : Z) (b : option Z) (c : Z) : Z := Z.max a (Z.max (default c b) c).

(** The task of a runtime session is run by something other than the platform's worker. *)
Definition external_task (d : DB.t) (s : AgentRuntimeSession.t) : bool :=
  match AgentRuntimeSession.task_id s ≫= (DB.tasks d !!.) with
  | Some t =>
      match runtime_adapter_of d (Task.assigned_agent_id t) with
      | Some a => bool_decide (a ≠ "custom_durable")
      | None => false
      end
  | None => false
  end.

(** The rows of [_stale_subagents_query(cutoff, batch_size)]. *)
Definition stale_subagent (cutoff : Z) (d : DB.t) (s : AgentRuntimeSession.t) : bool :=
  match AgentRuntimeSession.parent_session_id s ≫= (DB.runtime_sessions d !!.) with
  | Some parent =>
      bool_decide (AgentRuntimeSession.kind s = AgentRuntimeKind.subagent) &&
      bool_decide (AgentRuntimeSession.ended_at s = None) &&
      external_task d s &&
      (greatest (last_activity s) (AgentRuntimeSession.last_heartbeat_at parent)
         (AgentRuntimeSession.started_at parent) <? cutoff)
  | None => false
  end.

(** The rows of [_stale_sessions_query(cutoff, batch_size)]. *)
Definition stale_session (cutoff : Z) (d : DB.t) (s : AgentRuntimeSession.t) : bool :=
  bool_decide (AgentRuntimeSession.kind s = AgentRuntimeKind.session) &&
  bool_decide (AgentRuntimeSession.ended_at s = None) &&
  external_task d s &&
  (last_activity s <? cutoff) &&
  negb (exists_row (open_child (AgentRuntimeSession.id s)) (DB.runtime_sessions d)).

(** The query behind both: rows another transaction has locked are skipped, and at most
    [batch_size] are returned. *)
Definition reap_batch (locked : EntityId → bool) (batch_size : nat)
    (stale : DB.t → AgentRuntimeSession.t → bool) : M (list (EntityId * EntityId)) :=
  asks_db (λ d, (λ s, (AgentRuntimeSession.id s, AgentRuntimeSession.tenant_id s)) <$>
    take batch_size (select (λ s, stale d s && negb (locked (AgentRuntimeSession.id s)))
                       (DB.runtime_sessions d))).

Definition system_actor : Actor := mkActor ActorType.system None.

(** The reaper's first loop; returns the number newly reaped. *)
Fixpoint reap_subagents (rows : list (EntityId * EntityId)) (reaped : Z) : M Z :=
  match rows with
  | [] => mret reaped
  | (sid, tenant_id) :: rows =>
      r ← close_task tenant_id system_actor sid AgentRuntimeCloseOutcome.failed
            AgentRuntimeReasonCode.reaped_stale AgentRuntimeClosedBy.reaper None;
      reap_subagents rows (if r.2 : bool then reaped + 1 else reaped)
  end.

(** [reap_stale_runtime_sessions(session, publisher, reap_window=.., now=.., batch_size=..)] *)
Definition reap_stale_runtime_sessions (locked : EntityId → bool) (reap_window : Z) (now : option Z)
    (batch_size : nat) : M Z :=
  now ← match now with Some n => mret n | None => utc end;
  let cutoff := now - reap_window in
  stale_subs ← reap_batch locked batch_size (stale_subagent cutoff);
  reaped ← reap_subagents stale_subs 0;
  stale ← reap_batch locked batch_size (stale_session cutoff);
  _ ← for_each stale (λ '(sid, tenant_id),
        _ ← end_session tenant_id system_actor sid AgentRuntimeOutcome.abandoned; mret tt);
  mret reaped.

(** [run_agent_runtime_reap_sweep(sessionmaker, event_publisher)] *)
Definition run_agent_runtime_reap_sweep (locked : EntityId → bool) (reap_window_minutes : Z) : M Z :=
  with_session
    (reaped ← reap_stale_runtime_sessions locked (reap_window_minutes * 60000000) None 200;
     _ ← commit;
     mret reaped).

(** ** The hook-loss rate *)

Record HookLossRate := mkHookLossRate {
  hl_since : Z;
  hl_until : Z;
  lost : Z;
  total : Z;
  rate : float;
}.

Definition closed_in (tenant_id : EntityId) (since until : Z) (c : AgentRuntimeClosure.t) : bool :=
  bool_decide (AgentRuntimeClosure.tenant_id c = tenant_id) &&
  (since <=? AgentRuntimeClosure.closed_at c) && (AgentRuntimeClosure.closed_at c <? until).

Definition is_lost (c : AgentRuntimeClosure.t) : bool :=
  bool_decide (AgentRuntimeClosure.closed_by c = AgentRuntimeClosedBy.reaper) &&
  bool_decide (AgentRuntimeClosure.late_close_at c = None).

(** [compute_hook_loss_rate(session, tenant_id, since=.., until=..)] *)
Definition compute_hook_loss_rate (tenant_id : EntityId) (since : Z) (until : option Z) : M HookLossRate :=
  until ← match until with Some u => mret u | None => utc end;
  total ← asks_db (λ d, Z.of_nat (count_rows (closed_in tenant_id since until) (DB.closures d)));
  lost ← asks_db (λ d, Z.of_nat (count_rows (λ c, closed_in tenant_id since until c && is_lost c)
                                   (DB.closures d)));
  mret (mkHookLossRate since until lost total
          (if total =? 0 then 0%float else Py.div (Py.of_int lost) (Py.of_int total))).
End closing.

(** ** What closing touches *)

Abbreviation rs w := (DB.runtime_sessions (w_db w)).

(** [s'] is [s], or [s] after it was ended. *)
Definition later (s s' : AgentRuntimeSession.t) : Prop := s' = s ∨ ∃ now o, s' = ended now o s.

#[global] Instance later_preorder : PreOrder later.
Proof.
  split; [by left|]. intros a b c [->|(n1 & o1 & ->)] [->|(n2 & o2 & ->)]; unfold later; eauto.
Qed.

(** Only sessions in [S] and tasks in [T] change; sessions change only by ending, and tasks
    keep their key and their agent. *)
Record closes (S T : EntityId → Prop) (w w' : World) : Prop := {
  cl_session_out : ∀ k, ¬ S k → rs w' !! k = rs w !! k;
  cl_session : ∀ k, match rs w !! k with
                    | Some s => ∃ s', rs w' !! k = Some s' ∧ later s s'
                    | None => rs w' !! k = None
                    end;
  cl_task_out : ∀ k, ¬ T k → DB.tasks (w_db w') !! k = DB.tasks (w_db w) !! k;
  cl_task : ∀ k, (λ t, (Task.id t, Task.assigned_agent_id t)) <$> DB.tasks (w_db w') !! k =
                 (λ t, (Task.id t, Task.assigned_agent_id t)) <$> DB.tasks (w_db w) !! k;
  cl_agents : DB.agents (w_db w') = DB.agents (w_db w) ∧
              DB.agent_versions (w_db w') = DB.agent_versions (w_db w);
}.

#[global] Instance closes_preorder S T : PreOrder (closes S T).
Proof.
  split.
  - intros w. constructor; try done. intros k. destruct (rs w !! k); [|done].
    eexists. split; [done|by left].
  - intros a b c [A1 A2 A3 A4 [A5 A6]] [B1 B2 B3 B4 [B5 B6]]. constructor.
    + intros k Hk. by rewrite B1, A1.
    + intros k. specialize (A2 k). specialize (B2 k). destruct (rs a !! k) as [s|].
      * destruct A2 as (s1 & Hs1 & L1). rewrite Hs1 in B2. destruct B2 as (s2 & Hs2 & L2).
        exists s2. split; [done|]. by etrans.
      * by rewrite A2 in B2.
    + intros k Hk. by rewrite B3, A3.
    + intros k. by rewrite B4, A4.
    + split; congruence.
Qed.

Lemma closes_mono (S T S' T' : EntityId → Prop) w w' :
  (∀ k, S k → S' k) → (∀ k, T k → T' k) → closes S T w w' → closes S' T' w w'.
Proof. intros HS HT [H1 H2 H3 H4 H5]. constructor; eauto. Qed.

(** What [closes] looks at. *)
Definition reaper_obs (w : World) :=
  (rs w, DB.tasks (w_db w), DB.agents (w_db w), DB.agent_versions (w_db w)).

Lemma closes_same {A} S T (m : M A) : tracks (same reaper_obs) m → tracks (closes S T) m.
Proof.
  apply tracks_impl. intros w w' E. unfold same, reaper_obs in E. injection E as E1 E2 E3 E4.
  constructor; try done; try (by intros; rewrite ?E1, ?E2).
  intros k. rewrite E1. destruct (rs w' !! k); [|done]. eexists. split; [done|by left].
Qed.

Section closing_tracks.
Context `{Env}.

Lemma publish_api_obs ty tn actor corr m t a data :
  tracks (same reaper_obs) (publish_api ty tn actor corr m t a data).
Proof.
  unfold publish_api. tracks_auto. intros w. unfold same, exec, publish. simpl. by destruct (redis_ok _).
Qed.

Lemma publish_closure_closes S T ty tn actor m t data :
  tracks (closes S T) (publish_closure ty tn actor m t data).
Proof.
  apply closes_same. unfold publish_closure. destruct m; [apply publish_api_obs|apply tracks_raise, _].
Qed.

Lemma update_task_closes (S T : EntityId → Prop) k f :
  T k → (∀ t, Task.id (f t) = Task.id t ∧ Task.assigned_agent_id (f t) = Task.assigned_agent_id t) →
  tracks (closes S T) (update_task k f).
Proof.
  intros Hk Hf w. unfold exec, update_task. simpl. constructor; simpl; try done.
  - intros j. destruct (rs w !! j); [|done]. eexists. split; [done|by left].
  - intros j Hj. rewrite lookup_alter_ne; [done|]. by intros ->.
  - intros j. rewrite lookup_alter. case_decide; [subst|done].
    destruct (DB.tasks (w_db w) !! j) as [t|]; [|done]. simpl. by destruct (Hf t) as [-> ->].
Qed.

Lemma end_row_closes (S T : EntityId → Prop) k now o :
  S k → tracks (closes S T) (modify_db (DB.upd_runtime_sessions (alter (ended now o) k))).
Proof.
  intros Hk w. unfold exec. simpl. constructor; simpl; try done.
  - intros j Hj. rewrite lookup_alter_ne; [done|]. by intros ->.
  - intros j. rewrite lookup_alter. case_decide; subst.
    + destruct (rs w !! j); [|done]. eexists. split; [done|]. right. eauto.
    + destruct (rs w !! j); [|done]. eexists. split; [done|by left].
Qed.

Lemma advance_task_closes (S T : EntityId → Prop) tn actor m t target rc :
  T (Task.id t) → tracks (closes S T) (advance_task tn actor m t target rc).
Proof.
  intros Ht. unfold advance_task, enter_running.
  repeat first [ solve [apply closes_same; tracks_auto] | apply publish_closure_closes
               | apply update_task_closes; [done|by intros []] | tracks_step ].
Qed.

Lemma insert_closure_closes S T c : tracks (closes S T) (begin_nested (insert_closure c)).
Proof.
  apply closes_same. intros w. unfold same, exec, begin_nested.
  assert (tracks (same reaper_obs) (insert_closure c)) as Hi by (unfold insert_closure; tracks_auto).
  specialize (Hi w). unfold same, exec in Hi. by destruct (insert_closure c w) as [[] w'].
Qed.

Lemma get_existing_closure_tracks R `{!PreOrder R} sid : tracks R (get_existing_closure sid).
Proof. unfold get_existing_closure. tracks_auto. Qed.

(** Rows are stored under their ids. *)
Definition sessions_keyed (w : World) : Prop :=
  (∀ k s, rs w !! k = Some s → AgentRuntimeSession.id s = k) ∧
  (∀ k t, DB.tasks (w_db w) !! k = Some t → Task.id t = k).

Lemma closes_keyed S T w w' : closes S T w w' → sessions_keyed w → sessions_keyed w'.
Proof.
  intros [_ Hs _ Ht _] [Ks Kt]. split.
  - intros k s' Hk. specialize (Hs k). destruct (rs w !! k) as [s|] eqn:Hw; [|congruence].
    destruct Hs as (s1 & H1 & [->|(n & o & ->)]); rewrite Hk in H1; injection H1 as ->; exact (Ks _ _ Hw).
  - intros k t' Hk. specialize (Ht k). rewrite Hk in Ht.
    destruct (DB.tasks (w_db w) !! k) as [t|] eqn:Hw; [|done]. injection Ht as -> _. by apply Kt.
Qed.

Lemma lock_spec tn sid w :
  wp (lock_runtime_session tn sid) w
    (λ r w', w' = w ∧ ∀ s, r = Some s ↔ rs w !! sid = Some s ∧ AgentRuntimeSession.tenant_id s = tn)
    (λ _ _, False).
Proof.
  unfold lock_runtime_session, get_tenant_scoped, wp, mbind, ST_bind, get_row, asks_db, asks. simpl.
  destruct (rs w !! sid); simpl; [|by split; [|naive_solver]]. case_decide; naive_solver.
Qed.

Lemma task_of_session_spec s w :
  wp (task_of_session s) w
    (λ r w', w' = w ∧ r = AgentRuntimeSession.task_id s ≫= (DB.tasks (w_db w) !!.)) (λ _ _, False).
Proof. unfold task_of_session. by destruct (AgentRuntimeSession.task_id s). Qed.

(** The session [sid] is in [S], and its task in [T]. *)
Definition covers (S T : EntityId → Prop) (w : World) (sid : EntityId) : Prop :=
  S sid ∧ ∀ s t, rs w !! sid = Some s → AgentRuntimeSession.task_id s = Some t → T t.

Lemma closes_covers S T w w' sid : closes S T w w' → covers S T w sid → covers S T w' sid.
Proof.
  intros [_ Hs _ _ _] [HS HT]. split; [done|]. intros s' t Hk Ht. specialize (Hs sid).
  destruct (rs w !! sid) as [s|] eqn:Hw; [|congruence]. destruct Hs as (s1 & H1 & L).
  rewrite Hk in H1. injection H1 as <-. apply (HT s t eq_refl). by destruct L as [->|(n & o & ->)].
Qed.

(** [close_task] touches its session and that session's task, nothing else of them. *)
Lemma close_task_closes S T tn actor sid o rc cb n w :
  sessions_keyed w → covers S T w sid →
  wp (close_task tn actor sid o rc cb n) w (λ _, closes S T w) (λ _, closes S T w).
Proof.
  intros [Ks Kt] [HS HT]. unfold close_task. apply wp_bind.
  eapply wp_mono; [apply lock_spec| |done]. intros [s|] w1 [-> Hr]; [|apply wp_ret; reflexivity].
  destruct (proj1 (Hr s) eq_refl) as [Hs Htn]. pose proof (Ks _ _ Hs) as Hid.
  apply wp_bind. eapply wp_mono; [apply (tracks_wp eq), get_existing_closure_tracks, _| |by intros ? ? <-].
  intros [c|] w1 <-.
  { apply tracks_wp, closes_same. unfold close_again. tracks_auto. }
  apply wp_bind. eapply wp_mono; [apply task_of_session_spec| |done]. intros task w1 [-> Htask].
  assert (∀ t, task = Some t → T (Task.id t)) as HTt.
  { intros t ->. destruct (AgentRuntimeSession.task_id s) as [k|] eqn:Hk; [|done]. simpl in Htask.
    rewrite (Kt k t) by done. by eapply HT. }
  apply tracks_wp. unfold finish_close. rewrite Hid.
  repeat first [ solve [apply closes_same; tracks_auto] | apply insert_closure_closes
               | apply advance_task_closes; by apply HTt | apply end_row_closes; done
               | apply tracks_try; [apply _| |intros ? ? ?; case_match; simplify_eq;
                   unfold after_integrity_error, get_existing_closure] | tracks_step ].
Qed.

(** A loop of closes. *)
Lemma close_each_closes S T tn actor o rc cb n l w :
  sessions_keyed w → Forall (covers S T w) l →
  wp (for_each l (λ sub_id, _ ← close_task tn actor sub_id o rc cb n; mret tt)) w
    (λ _, closes S T w) (λ _, closes S T w).
Proof.
  revert w. induction l as [|sid l IH]; intros w Hk Hc; simpl; [apply wp_ret; reflexivity|].
  apply Forall_cons in Hc as [Hsid Hl]. do 2 apply wp_bind.
  eapply wp_mono; [by apply close_task_closes| |done]. intros r w1 H1. apply wp_ret.
  eapply wp_mono; [apply IH| |].
  - exact (closes_keyed _ _ _ _ H1 Hk).
  - eapply Forall_impl; [exact Hl|]. intros x. exact (closes_covers _ _ _ _ _ H1).
  - intros ? w2 H2. etrans; [exact H1|exact H2].
  - intros ? w2 H2. etrans; [exact H1|exact H2].
Qed.

Lemma mark_mission_status_obs m target : tracks (same reaper_obs) (mark_mission_status m target).
Proof. unfold mark_mission_status, update_mission. tracks_auto. Qed.

(** [end_session] touches its session, that session's open subagents, and their tasks. *)
Lemma end_session_closes S T tn actor sid o w :
  sessions_keyed w → covers S T w sid →
  (∀ k s, rs w !! k = Some s → open_child sid s = true → covers S T w k) →
  wp (end_session tn actor sid o) w (λ _, closes S T w) (λ _, closes S T w).
Proof.
  intros Hk Hc Hkids. destruct Hk as [Ks Kt]. unfold end_session. apply wp_bind.
  eapply wp_mono; [apply lock_spec| |done]. intros [s|] w1 [-> Hr]; [|apply wp_ret; reflexivity].
  destruct (proj1 (Hr s) eq_refl) as [Hs Htn]. pose proof (Ks _ _ Hs) as Hid. rewrite Hid.
  destruct (AgentRuntimeSession.ended_at s); [apply wp_ret; reflexivity|].
  apply wp_bind. eapply wp_mono; [apply task_of_session_spec| |done]. intros task w1 [-> Htask].
  apply wp_bind. eapply wp_mono; [apply (tracks_wp (closes S T))| |done].
  { destruct task as [t|]; [|apply tracks_ret, _]. apply advance_task_closes.
    destruct (AgentRuntimeSession.task_id s) as [k|] eqn:Hk; [|done]. simpl in Htask.
    rewrite (Kt k t) by done. destruct Hc as [_ HT]. by eapply HT. }
  intros ? w1 H1. apply wp_bind, wp_asks, wp_bind.
  eapply wp_mono; [apply close_each_closes|..].
  - exact (closes_keyed _ _ _ _ H1 (conj Ks Kt)).
  - apply Forall_fmap, Forall_forall. intros c [Ho [k Hck]]%elem_of_select. simpl.
    destruct (closes_keyed _ _ _ _ H1 (conj Ks Kt)) as [Ks1 _]. rewrite (Ks1 _ _ Hck).
    eapply closes_covers; [exact H1|].
    destruct H1 as [_ H1 _ _ _]. specialize (H1 k). destruct (rs w !! k) as [c0|] eqn:Hc0; [|congruence].
    destruct H1 as (c1 & E1 & L). rewrite Hck in E1. injection E1 as <-.
    apply (Hkids k c0 Hc0). destruct L as [->|(n & oo & ->)]; [done|].
    unfold open_child in Ho. simpl in Ho. by rewrite andb_false_r in Ho.
  - intros ? w2 H2.
    assert (∀ m : M (option AgentRuntimeSession.t), tracks (closes S T) m →
      wp m w2 (λ _, closes S T w) (λ _, closes S T w)) as Hrest.
    { intros m Hm. eapply wp_mono; [by apply (tracks_wp (closes S T))|..];
        intros ? w3 H3; (etrans; [exact H1|]; etrans; [exact H2|exact H3]). }
    apply Hrest. apply tracks_bind; [apply _| |].
    + apply closes_same. unfold complete_mission_of. tracks_auto.
      apply tracks_try; [apply _|apply mark_mission_status_obs|]. intros ex k He.
      destruct ex; simplify_eq. apply tracks_ret, _.
    + intros _. repeat first [ solve [apply closes_same; tracks_auto]
        | apply end_row_closes; by destruct Hc | tracks_step ].
  - intros ? w2 H2. etrans; [exact H1|exact H2].
Qed.
End closing_tracks.

(** ** The reaper spares what is alive *)

(** A runtime session that shows activity at or after [cutoff]: its own; for a subagent, its
    parent's; for a session, an open subagent's. An ended one is left alone as well. *)
Definition live (cutoff : Z) (d : DB.t) (s : AgentRuntimeSession.t) : Prop :=
  is_Some (AgentRuntimeSession.ended_at s) ∨ cutoff ≤ last_activity s ∨
  (∃ p ps, AgentRuntimeSession.kind s = AgentRuntimeKind.subagent ∧
     AgentRuntimeSession.parent_session_id s = Some p ∧
     DB.runtime_sessions d !! p = Some ps ∧ cutoff ≤ last_activity ps) ∨
  (∃ k c, AgentRuntimeSession.kind s = AgentRuntimeKind.session ∧
     DB.runtime_sessions d !! k = Some c ∧ open_child (AgentRuntimeSession.id s) c = true ∧
     cutoff ≤ last_activity c).

Lemma stale_subagent_true cutoff d s :
  stale_subagent cutoff d s = true →
  AgentRuntimeSession.kind s = AgentRuntimeKind.subagent ∧ AgentRuntimeSession.ended_at s = None ∧
  external_task d s = true ∧ last_activity s < cutoff ∧
  ∃ p ps, AgentRuntimeSession.parent_session_id s = Some p ∧ DB.runtime_sessions d !! p = Some ps ∧
    last_activity ps < cutoff.
Proof.
  unfold stale_subagent. destruct (AgentRuntimeSession.parent_session_id s) as [p|] eqn:Hp; [|done].
  simpl. destruct (DB.runtime_sessions d !! p) as [ps|] eqn:Hps; [|done].
  intros [[[Hk%bool_decide_eq_true He%bool_decide_eq_true]%andb_true_iff Hx]%andb_true_iff
    Hlt%Z.ltb_lt]%andb_true_iff.
  unfold greatest in Hlt. split_and!; [done..|lia|]. exists p, ps. split_and!; [done..|].
  unfold last_activity in *. destruct (AgentRuntimeSession.last_heartbeat_at ps); simpl in *; lia.
Qed.

Lemma stale_session_true cutoff d s :
  stale_session cutoff d s = true →
  AgentRuntimeSession.kind s = AgentRuntimeKind.session ∧ AgentRuntimeSession.ended_at s = None ∧
  external_task d s = true ∧ last_activity s < cutoff ∧
  ∀ k c, DB.runtime_sessions d !! k = Some c → open_child (AgentRuntimeSession.id s) c = false.
Proof.
  unfold stale_session.
  intros [[[[Hk%bool_decide_eq_true He%bool_decide_eq_true]%andb_true_iff Hx]%andb_true_iff
    Hlt%Z.ltb_lt]%andb_true_iff Hno%negb_true_iff]%andb_true_iff.
  split_and!; [done..|]. by apply exists_row_false.
Qed.

(** A session a reap query returns is in the table and stale. *)
Lemma reap_batch_spec locked n stale w :
  wp (reap_batch locked n stale) w
    (λ rows w', w' = w ∧ ∀ sid tn, (sid, tn) ∈ rows →
       ∃ k s, rs w !! k = Some s ∧ AgentRuntimeSession.id s = sid ∧ stale (w_db w) s = true)
    (λ _ _, False).
Proof.
  unfold reap_batch. split; [done|]. intros sid tn (s & [= -> ->] & Hin)%list_elem_of_fmap.
  apply subseteq_take, elem_of_select in Hin as [[? _]%andb_true_iff [k Hk]]. eauto.
Qed.

Section reaper.
Context `{Env}.

(** The task of a stale session is not the worker's. *)
Lemma external_not_durable w k s t :
  rs w !! k = Some s → external_task (w_db w) s = true →
  AgentRuntimeSession.task_id s = Some t → ∀ row, DB.tasks (w_db w) !! t = Some row →
  runtime_adapter_of (w_db w) (Task.assigned_agent_id row) ≠ Some "custom_durable".
Proof.
  intros Hk Hx Ht row Hrow. unfold external_task in Hx. rewrite Ht in Hx. simpl in Hx. rewrite Hrow in Hx.
  destruct (runtime_adapter_of _ _); [|done]. apply bool_decide_eq_true in Hx. by intros [= ->].
Qed.

(** The sessions a query found, and their tasks. *)
Definition found (stale : DB.t → AgentRuntimeSession.t → bool) (w : World) (k : EntityId) : Prop :=
  ∃ s, rs w !! k = Some s ∧ stale (w_db w) s = true.
Definition found_task (stale : DB.t → AgentRuntimeSession.t → bool) (w : World) (t : EntityId) : Prop :=
  ∃ k s, rs w !! k = Some s ∧ stale (w_db w) s = true ∧ AgentRuntimeSession.task_id s = Some t.

Lemma found_covers stale w sid : found stale w sid → covers (found stale w) (found_task stale w) w sid.
Proof.
  intros (s & Hs & Hst). split; [by exists s|]. intros s' t Hs' Ht. exists sid, s. split_and!; congruence.
Qed.

Lemma reap_subagents_closes S T rows n w :
  sessions_keyed w → (∀ sid tn, (sid, tn) ∈ rows → covers S T w sid) →
  wp (reap_subagents rows n) w (λ _, closes S T w) (λ _, closes S T w).
Proof.
  revert n w. induction rows as [|[sid tn] rows IH]; intros n w Hk Hc; simpl; [apply wp_ret; reflexivity|].
  apply wp_bind. eapply wp_mono; [apply close_task_closes; [done|eapply Hc; left]| |done].
  intros r w1 H1. eapply wp_mono; [apply IH| |].
  - exact (closes_keyed _ _ _ _ H1 Hk).
  - intros sid' tn' Hin. eapply (closes_covers _ _ _ _ _ H1), Hc. right. exact Hin.
  - intros ? w2 H2. etrans; [exact H1|exact H2].
  - intros ? w2 H2. etrans; [exact H1|exact H2].
Qed.

(** Ending a session that has no open subagent, in a loop. *)
Lemma end_each_closes S T rows o w :
  sessions_keyed w →
  (∀ sid tn, (sid, tn) ∈ rows → covers S T w sid ∧
     ∀ k c, rs w !! k = Some c → open_child sid c = false) →
  wp (for_each rows (λ '(sid, tn), _ ← end_session tn system_actor sid o; mret tt)) w
    (λ _, closes S T w) (λ _, closes S T w).
Proof.
  revert w. induction rows as [|[sid tn] rows IH]; intros w Hk Hc; simpl; [apply wp_ret; reflexivity|].
  destruct (Hc sid tn ltac:(left)) as [Hcov Hno]. do 2 apply wp_bind.
  eapply wp_mono; [apply end_session_closes; [done|exact Hcov|]| |done].
  { intros k c Hkc Ho. by rewrite (Hno k c Hkc) in Ho. }
  intros r w1 H1. apply wp_ret. eapply wp_mono; [apply IH| |].
  - exact (closes_keyed _ _ _ _ H1 Hk).
  - intros sid' tn' Hin. destruct (Hc sid' tn' ltac:(by right)) as [Hcov' Hno']. split.
    + exact (closes_covers _ _ _ _ _ H1 Hcov').
    + intros k c Hkc. destruct H1 as [_ H1 _ _ _]. specialize (H1 k).
      destruct (rs w !! k) as [c0|] eqn:Hc0; [|congruence]. destruct H1 as (c1 & E1 & L).
      rewrite Hkc in E1. injection E1 as <-. destruct L as [->|(m & oo & ->)]; [by eapply Hno'|].
      unfold open_child. simpl. by rewrite andb_false_r.
  - intros ? w2 H2. etrans; [exact H1|exact H2].
  - intros ? w2 H2. etrans; [exact H1|exact H2].
Qed.

(** Live sessions and the worker's own tasks are as they were. *)
Definition spared (cutoff : Z) (w w' : World) : Prop :=
  (∀ k s, rs w !! k = Some s → live cutoff (w_db w) s → rs w' !! k = Some s) ∧
  (∀ k t, DB.tasks (w_db w) !! k = Some t →
     runtime_adapter_of (w_db w) (Task.assigned_agent_id t) = Some "custom_durable" →
     DB.tasks (w_db w') !! k = Some t).

Lemma subagent_pass_spares cutoff w w1 :
  closes (found (stale_subagent cutoff) w) (found_task (stale_subagent cutoff) w) w w1 →
  spared cutoff w w1.
Proof.
  intros [Hout _ Htout _ _]. split.
  - intros k s Hk Hl. rewrite Hout; [done|]. intros (s' & Hs' & Hst). rewrite Hk in Hs'.
    injection Hs' as <-. apply stale_subagent_true in Hst as (Hkind & He & _ & Hlt & p & ps & Hp & Hps & Hplt).
    destruct Hl as [[? ?]|[?|[(p' & ps' & _ & Hp' & Hps' & ?)|(k' & c & Hkind' & _)]]];
      [congruence|lia| |congruence].
    assert (ps' = ps) as -> by congruence. lia.
  - intros k t Ht Had. rewrite Htout; [done|]. intros (k' & s & Hs & Hst & Hst').
    apply stale_subagent_true in Hst as (_ & _ & Hx & _). by eapply external_not_durable.
Qed.

Lemma session_pass_spares cutoff w w1 w2 :
  spared cutoff w w1 →
  closes (found (stale_subagent cutoff) w) (found_task (stale_subagent cutoff) w) w w1 →
  closes (found (stale_session cutoff) w1) (found_task (stale_session cutoff) w1) w1 w2 →
  spared cutoff w w2.
Proof.
  intros [S1 S2] H1 [Hout _ Htout _ _]. split.
  - intros k s Hs Hl. rewrite Hout; [by apply S1|]. intros (s' & Hs' & Hst).
    rewrite (S1 k s Hs Hl) in Hs'. injection Hs' as <-.
    apply stale_session_true in Hst as (Hkind & He & _ & Hlt & Hno).
    destruct Hl as [[? ?]|[?|[(p & ps & Hkind' & _)|(k' & c & _ & Hc & Ho & Hact)]]];
      [congruence|lia|congruence|].
    assert (rs w1 !! k' = Some c) as Hc1.
    { apply S1; [done|]. right. by left. }
    by rewrite (Hno k' c Hc1) in Ho.
  - intros k t Ht Had. rewrite Htout; [by apply S2|]. intros (k' & s & Hs & Hst & Hst').
    apply stale_session_true in Hst as (_ & _ & Hx & _).
    eapply (external_not_durable w1 k' s k Hs Hx Hst' t (S2 k t Ht Had)).
    destruct H1 as [_ _ _ _ [Ea Ev]]. unfold runtime_adapter_of in *. by rewrite Ea, Ev.
Qed.

(** C14: the reaper only ever closes the dead. Whatever it returns or raises, a runtime
    session that has ended, or shows activity within the reap window (its own, for a subagent
    its parent's, for a session an open subagent's), is exactly as it was; and so is every
    task of an agent the platform's own worker executes. *)
Theorem reaper_spares_live_sessions locked window now batch w :
  sessions_keyed w →
  wp (reap_stale_runtime_sessions locked window (Some now) batch) w
    (λ _, spared (now - window) w) (λ _, spared (now - window) w).
Proof.
  intros Hk. unfold reap_stale_runtime_sessions. apply wp_bind, wp_ret, wp_bind.
  eapply wp_mono; [apply reap_batch_spec| |done]. intros subs w0 [-> Hsubs]. apply wp_bind.
  eapply wp_mono; [apply (reap_subagents_closes (found (stale_subagent (now - window)) w)
    (found_task (stale_subagent (now - window)) w)); [done|]| |].
  - intros sid tn Hin. destruct (Hsubs sid tn Hin) as (k & s & Hs & Hid & Hst).
    apply found_covers. exists s. rewrite <- Hid, (proj1 Hk _ _ Hs). done.
  - intros n w1 H1. pose proof (subagent_pass_spares _ _ _ H1) as Hsp.
    pose proof (closes_keyed _ _ _ _ H1 Hk) as Hk1. apply wp_bind.
    eapply wp_mono; [apply reap_batch_spec| |done]. intros rows w2 [-> Hrows]. apply wp_bind.
    eapply wp_mono; [apply (end_each_closes (found (stale_session (now - window)) w1)
      (found_task (stale_session (now - window)) w1)); [done|]| |].
    + intros sid tn Hin. destruct (Hrows sid tn Hin) as (k & s & Hs & Hid & Hst). split.
      * apply found_covers. exists s. rewrite <- Hid, (proj1 Hk1 _ _ Hs). done.
      * apply stale_session_true in Hst as (_ & _ & _ & _ & Hno). by rewrite <- Hid.
    + intros ? w2 H2. apply wp_ret. exact (session_pass_spares _ _ _ _ Hsp H1 H2).
    + intros ? w2 H2. exact (session_pass_spares _ _ _ _ Hsp H1 H2).
  - intros ? w1 H1. exact (subagent_pass_spares _ _ _ H1).
Qed.
End reaper.

(** ** Closing works, once *)

Lemma sans_audit_tasks f d : sans_audit (DB.upd_tasks f d) = DB.upd_tasks f (sans_audit d).
Proof. done. Qed.

Lemma upd_tasks_alter f k t d :
  DB.tasks d !! k = Some t → DB.upd_tasks (alter f k) d = DB.upd_tasks (<[k := f t]>) d.
Proof. intros Hk. unfold DB.upd_tasks. by rewrite (alter_insert_eq _ _ _ _ Hk). Qed.

Lemma upd_tasks_twice k t1 t2 d :
  DB.upd_tasks (<[k := t2]>) (DB.upd_tasks (<[k := t1]>) d) = DB.upd_tasks (<[k := t2]>) d.
Proof. unfold DB.upd_tasks. simpl. by rewrite insert_insert_eq. Qed.

Lemma upd_tasks_id k t d : DB.tasks d !! k = Some t → DB.upd_tasks (<[k := t]>) d = d.
Proof. intros Hk. unfold DB.upd_tasks. rewrite insert_id by done. by destruct d. Qed.

(** The tables of the agent runtime are consistent: rows are under their ids, a session's
    references exist, a subagent is of its parent's tenant, a session has at most one closure,
    and a session that has one has ended. *)
Record runtime_ok (d : DB.t) : Prop := {
  ro_keyed : keyed d;
  ro_id : ∀ k s, DB.runtime_sessions d !! k = Some s → AgentRuntimeSession.id s = k;
  ro_tenant : ∀ k s, DB.runtime_sessions d !! k = Some s →
    is_Some (DB.tenants d !! AgentRuntimeSession.tenant_id s);
  ro_mission : ∀ k s, DB.runtime_sessions d !! k = Some s → is_Some (AgentRuntimeSession.mission_id s);
  ro_task : ∀ k s, DB.runtime_sessions d !! k = Some s →
    ∃ i t, AgentRuntimeSession.task_id s = Some i ∧ DB.tasks d !! i = Some t;
  ro_child : ∀ k s p ps, DB.runtime_sessions d !! k = Some s →
    AgentRuntimeSession.parent_session_id s = Some p → DB.runtime_sessions d !! p = Some ps →
    AgentRuntimeSession.tenant_id s = AgentRuntimeSession.tenant_id ps;
  ro_closure_id : ∀ k c, DB.closures d !! k = Some c → AgentRuntimeClosure.id c = k;
  ro_once : ∀ k1 k2 c1 c2, DB.closures d !! k1 = Some c1 → DB.closures d !! k2 = Some c2 →
    AgentRuntimeClosure.runtime_session_id c1 = AgentRuntimeClosure.runtime_session_id c2 → k1 = k2;
  ro_ended : ∀ k c s, DB.closures d !! k = Some c →
    DB.runtime_sessions d !! AgentRuntimeClosure.runtime_session_id c = Some s →
    AgentRuntimeSession.ended_at s ≠ None;
}.

(** The one closure of a session, if it has one. *)
Lemma get_existing_closure_spec sid w :
  runtime_ok (w_db w) →
  wp (get_existing_closure sid) w
    (λ r w', w' = w ∧
       match r with
       | Some c => AgentRuntimeClosure.runtime_session_id c = sid ∧
                   DB.closures (w_db w) !! AgentRuntimeClosure.id c = Some c
       | None => ∀ k c, DB.closures (w_db w) !! k = Some c → AgentRuntimeClosure.runtime_session_id c ≠ sid
       end)
    (λ _ _, False).
Proof.
  intros Hok. unfold get_existing_closure. apply wp_bind, wp_asks.
  assert (∀ k1 k2 c1 c2, DB.closures (w_db w) !! k1 = Some c1 → DB.closures (w_db w) !! k2 = Some c2 →
    of_session sid c1 = true → of_session sid c2 = true → k1 = k2) as Hu.
  { intros k1 k2 c1 c2 H1 H2 P1%bool_decide_eq_true P2%bool_decide_eq_true.
    apply (ro_once _ Hok _ _ _ _ H1 H2). congruence. }
  pose proof (select_at_most_one (of_session sid) _ Hu) as Hsel.
  unfold scalar_one_or_none. destruct (select _ _) as [|c [|]]; [|..|done]; (split; [done|]).
  - intros k c Hk. by apply Hsel, bool_decide_eq_false in Hk.
  - destruct Hsel as [Hc%bool_decide_eq_true [k Hk]]. by rewrite (ro_closure_id _ Hok _ _ Hk).
Qed.

Section close_spec.
Context `{Env}.

Lemma publish_closure_calm ty tn actor m t data w :
  wp (publish_closure ty tn actor (Some m) t data) w (λ _, calm w) (λ _ _, False).
Proof.
  apply publish_api_calm.
Qed.

(** What [_advance_task] does to its task, and to nothing else: it is terminal afterwards,
    with the target's status unless it was terminal before. It never raises. *)
Definition advanced (t t' : Task.t) (target : TaskStatus.t) : Prop :=
  Task.id t' = Task.id t ∧ task_terminal (Task.status t') = true ∧
  (if task_terminal (Task.status t) then t' = t else Task.status t' = target).

Lemma enter_running_spec tn actor m t target w :
  DB.tasks (w_db w) !! Task.id t = Some t → task_terminal (Task.status t) = false →
  target = TaskStatus.completed ∨ target = TaskStatus.failed →
  wp (enter_running tn actor (Some m) t target) w
    (λ s w', task_step s target ∧ ∃ t', Task.id t' = Task.id t ∧
       calm (set_db (DB.upd_tasks (<[Task.id t := t']>) (w_db w)) w) w')
    (λ _ _, False).
Proof.
  intros Ht Hnt Htgt. unfold enter_running. case_decide as Hq.
  - apply wp_bind. unfold wp at 1, lift. simpl. apply wp_bind. unfold wp at 1, utc.
    apply wp_bind, wp_modify, wp_bind.
    eapply wp_mono; [apply publish_closure_calm| |done]. intros ? w1 [H1 H2]. apply wp_ret. split.
    + destruct Htgt as [-> | ->]; by vm_compute.
    + exists (Task.set_started_at (Some (utc_now (w_utc_ticks w))) (Task.set_status TaskStatus.running t)).
      split; [done|]. split; [|done]. rewrite H1. simpl. by rewrite (upd_tasks_alter _ _ _ _ Ht).
  - case_decide as Hw.
    + apply wp_bind. unfold wp at 1, lift. simpl. apply wp_bind, wp_modify, wp_ret.
      destruct Hw as [_ ->]. split; [by vm_compute|].
      exists (Task.set_status TaskStatus.running t). split; [done|]. split; [|done]. simpl.
      by rewrite (upd_tasks_alter _ _ _ _ Ht).
    + apply wp_ret. split.
      * destruct (Task.status t) eqn:Hs; try done; destruct Htgt as [-> | ->]; try by vm_compute.
        by destruct Hw.
      * exists t. split; [done|]. split; [|done]. simpl. by rewrite upd_tasks_id.
Qed.

Lemma advance_task_spec tn actor m t target rc w :
  DB.tasks (w_db w) !! Task.id t = Some t → target = TaskStatus.completed ∨ target = TaskStatus.failed →
  wp (advance_task tn actor (Some m) t target rc) w
    (λ _ w', ∃ t', advanced t t' target ∧
       calm (set_db (DB.upd_tasks (<[Task.id t := t']>) (w_db w)) w) w')
    (λ _ _, False).
Proof.
  intros Ht Htgt. unfold advance_task, advanced. destruct (task_terminal (Task.status t)) eqn:Hterm.
  { apply wp_ret. exists t. split; [done|]. split; [|done]. simpl. by rewrite upd_tasks_id. }
  apply wp_bind. eapply wp_mono; [by apply enter_running_spec| |done].
  intros s w1 (Hstep & t1 & Hid & Hc). apply wp_bind. unfold wp at 1, lift. rewrite Hstep.
  apply wp_bind. unfold wp at 1, utc. apply wp_bind, wp_modify.
  eapply wp_mono; [apply publish_closure_calm| |done]. intros ? w2 [C1 C2].
  exists (Task.set_completed_at (Some (utc_now (w_utc_ticks w1))) (Task.set_status target t1)).
  split; [split_and!; [done| |done]; by destruct Htgt as [-> | ->]|].
  destruct Hc as [D1 D2]. simpl in *. split; [|simpl; lia].
  rewrite C1, sans_audit_tasks, D1, sans_audit_tasks.
  rewrite (upd_tasks_alter _ _ t1) by (simpl; by rewrite lookup_insert_eq). by rewrite upd_tasks_twice.
Qed.

Lemma insert_closure_ok c t w :
  DB.closures (w_db w) !! AgentRuntimeClosure.id c = None →
  is_Some (DB.tenants (w_db w) !! AgentRuntimeClosure.tenant_id c) →
  is_Some (rs w !! AgentRuntimeClosure.runtime_session_id c) →
  AgentRuntimeClosure.task_id c = Some t → is_Some (DB.tasks (w_db w) !! t) →
  (∀ k c', DB.closures (w_db w) !! k = Some c' →
     AgentRuntimeClosure.runtime_session_id c' ≠ AgentRuntimeClosure.runtime_session_id c) →
  insert_closure c w =
    (Ret tt, set_db (DB.upd_closures (<[AgentRuntimeClosure.id c := c]>) (w_db w)) w).
Proof.
  intros Hk Htn Hs Ht Htk Hno. unfold insert_closure, is_present, asks_db, asks, modify_db, modify,
    mbind, ST_bind, mret, ST_ret, integrity, id. simpl.
  rewrite bool_decide_false by (rewrite Hk; by intros []). simpl.
  rewrite Ht, !bool_decide_true by done. simpl.
  assert (exists_row (of_session (AgentRuntimeClosure.runtime_session_id c)) (DB.closures (w_db w)) = false)
    as ->; [|done].
  apply exists_row_false. intros k c' Hc'. by apply bool_decide_eq_false, (Hno k c').
Qed.

(** What a first close leaves: exactly one closure row more, the session's task advanced, the
    session ended. *)
Definition closed_once (tn : EntityId) (s : AgentRuntimeSession.t) (o : AgentRuntimeCloseOutcome.t)
    (rc : AgentRuntimeReasonCode.t) (cb : AgentRuntimeClosedBy.t) (n : option Z)
    (c : AgentRuntimeClosure.t) (w w' : World) : Prop :=
  ∃ t t' i now now', AgentRuntimeSession.task_id s = Some i ∧ DB.tasks (w_db w) !! i = Some t ∧
    advanced t t' (target_status o) ∧ DB.closures (w_db w) !! AgentRuntimeClosure.id c = None ∧
    c = AgentRuntimeClosure.mk (AgentRuntimeClosure.id c) tn (AgentRuntimeSession.id s) (Some i) cb o rc
          n None now None ∧
    (AgentRuntimeClosure.id c < w_next_id w')%positive ∧ (w_next_id w ≤ w_next_id w')%positive ∧
    sans_audit (w_db w') =
      DB.upd_runtime_sessions (alter (ended now' (session_outcome o)) (AgentRuntimeSession.id s))
        (DB.upd_tasks (<[i := t']>)
           (DB.upd_closures (<[AgentRuntimeClosure.id c := c]>) (sans_audit (w_db w)))).

Lemma close_task_first tn actor sid s o rc cb n w :
  runtime_ok (w_db w) → fresh_above (w_next_id w) (DB.closures (w_db w)) →
  rs w !! sid = Some s → AgentRuntimeSession.tenant_id s = tn →
  (∀ k c, DB.closures (w_db w) !! k = Some c → AgentRuntimeClosure.runtime_session_id c ≠ sid) →
  wp (close_task tn actor sid o rc cb n) w
    (λ r w', ∃ c, r = (Some c, true) ∧ closed_once tn s o rc cb n c w w') (λ _ _, False).
Proof.
  intros Hok Hf Hs Htn Hno. pose proof (ro_id _ Hok _ _ Hs) as Hid.
  destruct (ro_task _ Hok _ _ Hs) as (i & t & Hi & Ht). destruct (ro_mission _ Hok _ _ Hs) as [m Hm].
  pose proof (proj1 (ro_keyed _ Hok) _ _ Ht) as Htid.
  unfold close_task. apply wp_bind. eapply wp_mono; [apply lock_spec| |done].
  intros r w1 [-> Hr]. rewrite (proj2 (Hr s) (conj Hs Htn)). clear r Hr.
  apply wp_bind. eapply wp_mono; [by apply get_existing_closure_spec| |done].
  intros [c|] w1 [-> Hc]; [by destruct Hc as [? ?%Hno]|].
  apply wp_bind. eapply wp_mono; [apply task_of_session_spec| |done]. intros task w1 [-> ->].
  rewrite Hi. simpl. rewrite Ht. apply wp_bind. unfold wp at 1, new_id. apply wp_bind. unfold wp at 1, utc.
  set (c := AgentRuntimeClosure.mk _ _ _ _ _ _ _ _ _ _ _). set (w1 := set_utc_ticks _ _).
  apply wp_bind, wp_try, wp_bind. unfold wp at 1, begin_nested.
  rewrite (insert_closure_ok c i w1); [|by apply fresh_above_None|..].
  2:{ simpl. rewrite <- Htn. by apply (ro_tenant _ Hok _ _ Hs). }
  2:{ simpl. rewrite Hid. by eexists. }
  2:{ done. }
  2:{ by eexists. }
  2:{ simpl. rewrite Hid. exact Hno. }
  apply wp_ret, wp_bind. unfold finish_close. rewrite Hm. apply wp_bind.
  eapply wp_mono; [apply advance_task_spec; [by rewrite Htid|by destruct o; [left|right]]| |done].
  intros ? w2 (t' & Hadv & [C1 C2]). apply wp_bind. unfold wp at 1, utc. apply wp_modify, wp_ret.
  exists c. split; [done|]. exists t, t', i, (utc_now (w_utc_ticks w)), (utc_now (w_utc_ticks w2)).
  rewrite Htid in C1. simpl in C2 |- *. split_and!; try done.
  - by apply fresh_above_None.
  - lia.
  - lia.
  - change (sans_audit (DB.upd_runtime_sessions ?f ?d)) with (DB.upd_runtime_sessions f (sans_audit d)).
    by rewrite C1.
Qed.

(** The tables after a first close. *)
Lemma closed_once_tables tn s o rc cb n c w w' :
  closed_once tn s o rc cb n c w w' →
  DB.closures (w_db w') = <[AgentRuntimeClosure.id c := c]> (DB.closures (w_db w)) ∧
  (∃ now, rs w' = alter (ended now (session_outcome o)) (AgentRuntimeSession.id s) (rs w)) ∧
  (∃ i t t', AgentRuntimeSession.task_id s = Some i ∧ DB.tasks (w_db w) !! i = Some t ∧
     advanced t t' (target_status o) ∧ DB.tasks (w_db w') = <[i := t']> (DB.tasks (w_db w))) ∧
  DB.missions (w_db w') = DB.missions (w_db w) ∧ DB.tenants (w_db w') = DB.tenants (w_db w).
Proof.
  intros (t & t' & i & now & now' & Hi & Ht & Hadv & Hn & Hc & _ & _ & Hd).
  split_and!; [exact (f_equal DB.closures Hd)| | |exact (f_equal DB.missions Hd)|exact (f_equal DB.tenants Hd)].
  - exists now'. exact (f_equal DB.runtime_sessions Hd).
  - exists i, t, t'. split_and!; [done..|]. exact (f_equal DB.tasks Hd).
Qed.

Lemma alter_lookup_Some {V} (f : V → V) k m j (v' : V) :
  alter f k m !! j = Some v' → ∃ v, (m : gmap EntityId V) !! j = Some v ∧ (v' = v ∨ (j = k ∧ v' = f v)).
Proof.
  rewrite lookup_alter. case_decide as Hjk; [|eauto]. subst. intros (v & ? & Hv)%fmap_Some. eauto.
Qed.

(** A first close keeps the tables consistent, and the closure ids below the supply. *)
Lemma closed_once_ok tn sid s o rc cb n c w w' :
  runtime_ok (w_db w) → fresh_above (w_next_id w) (DB.closures (w_db w)) →
  rs w !! sid = Some s →
  (∀ k c, DB.closures (w_db w) !! k = Some c → AgentRuntimeClosure.runtime_session_id c ≠ sid) →
  closed_once tn s o rc cb n c w w' →
  runtime_ok (w_db w') ∧ fresh_above (w_next_id w') (DB.closures (w_db w')).
Proof.
  intros Hok Hf Hs Hno Hc. pose proof (ro_id _ Hok _ _ Hs) as Hid.
  pose proof (closed_once_tables _ _ _ _ _ _ _ _ _ Hc) as (Ec & (now & Er) & (i & t & t' & Hi & Ht & Ha & Et) & Em & Etn).
  destruct Hc as (_ & _ & j & now1 & _ & _ & _ & _ & Hn & Hcdef & Hlt & Hle & _).
  assert (AgentRuntimeClosure.runtime_session_id c = sid) as Hcs by (rewrite Hcdef; exact Hid).
  rewrite Hid in Er. destruct Ha as (Hid' & _).
  assert (∀ k r', rs w' !! k = Some r' → ∃ r, rs w !! k = Some r ∧ (r' = r ∨ (k = sid ∧ r' = ended now (session_outcome o) r))) as Hback.
  { intros k r'. rewrite Er. apply alter_lookup_Some. }
  split; [constructor|].
  - destruct (ro_keyed _ Hok) as [Kt Km]. split; rewrite ?Et, ?Em; [|done].
    intros k x [[<- <-]|[_ Hx]]%lookup_insert_Some; [|by apply Kt]. rewrite Hid'. by apply Kt.
  - intros k r' (r & Hr & [->|[_ ->]])%Hback; exact (ro_id _ Hok _ _ Hr).
  - rewrite Etn. intros k r' (r & Hr & [->|[_ ->]])%Hback; exact (ro_tenant _ Hok _ _ Hr).
  - intros k r' (r & Hr & [->|[_ ->]])%Hback; exact (ro_mission _ Hok _ _ Hr).
  - intros k r' (r & Hr & Hcase)%Hback. destruct (ro_task _ Hok _ _ Hr) as (i1 & t1 & Hi1 & Ht1).
    exists i1. rewrite Et, lookup_insert. case_decide; eexists; split; try done;
      destruct Hcase as [->|[_ ->]]; exact Hi1.
  - intros k r' p ps' (r & Hr & Hcase)%Hback Hp (ps & Hps & Hcase')%Hback.
    assert (AgentRuntimeSession.parent_session_id r = Some p) as Hp' by (by destruct Hcase as [->|[_ ->]]).
    pose proof (ro_child _ Hok _ _ _ _ Hr Hp' Hps) as E.
    destruct Hcase as [->|[_ ->]], Hcase' as [->|[_ ->]]; exact E.
  - rewrite Ec. intros k x [[<- <-]|[_ Hx]]%lookup_insert_Some; [done|by apply (ro_closure_id _ Hok)].
  - rewrite Ec. intros k1 k2 c1 c2 [[<- <-]|[_ H1]]%lookup_insert_Some [[<- <-]|[_ H2]]%lookup_insert_Some E;
      [done|exfalso; apply (Hno _ _ H2); congruence|exfalso; apply (Hno _ _ H1); congruence|].
    by eapply (ro_once _ Hok).
  - rewrite Ec. intros k x r' [[<- <-]|[_ Hx]]%lookup_insert_Some Hr'.
    + rewrite Hcs, Er, lookup_alter_eq, Hs in Hr'. by injection Hr' as <-.
    + apply Hback in Hr' as (r & Hr & [->|[_ ->]]); [by eapply (ro_ended _ Hok)|done].
  - rewrite Ec. intros k [x [[<- <-]|[_ Hx]]%lookup_insert_Some]; [done|].
    assert (k < w_next_id w)%positive by (apply Hf; eauto). lia.
Qed.

(** A close of a session that has its closure changes nothing, but for the stamp of a hook
    that comes after the reaper. *)
Lemma close_task_again tn actor sid s k c o rc cb n w :
  runtime_ok (w_db w) → rs w !! sid = Some s → AgentRuntimeSession.tenant_id s = tn →
  DB.closures (w_db w) !! k = Some c → AgentRuntimeClosure.runtime_session_id c = sid →
  wp (close_task tn actor sid o rc cb n) w
    (λ r w', (r = (Some c, false) ∧ w' = w ∧
                ¬ (cb = AgentRuntimeClosedBy.hook ∧ AgentRuntimeClosure.closed_by c = AgentRuntimeClosedBy.reaper ∧
                   AgentRuntimeClosure.late_close_at c = None)) ∨
             (cb = AgentRuntimeClosedBy.hook ∧ AgentRuntimeClosure.closed_by c = AgentRuntimeClosedBy.reaper ∧
              AgentRuntimeClosure.late_close_at c = None ∧
              ∃ now, let c' := AgentRuntimeClosure.set_late_close_at (Some now) c in
                r = (Some c', false) ∧ w_db w' = DB.upd_closures (<[k := c']>) (w_db w)))
    (λ _ _, False).
Proof.
  intros Hok Hs Htn Hk Hc. unfold close_task. apply wp_bind. eapply wp_mono; [apply lock_spec| |done].
  intros r w1 [-> Hr]. rewrite (proj2 (Hr s) (conj Hs Htn)). clear r Hr.
  apply wp_bind. eapply wp_mono; [by apply get_existing_closure_spec| |done].
  intros [c0|] w1 [-> Hc0]; [|by destruct (Hc0 k c Hk)]. destruct Hc0 as [Hc1 Hc2].
  assert (c0 = c) as ->.
  { assert (AgentRuntimeClosure.id c0 = k) as E; [|congruence].
    apply (ro_once _ Hok _ _ _ _ Hc2 Hk). congruence. }
  unfold close_again. case_decide as Hlate.
  - apply wp_bind. unfold wp at 1, utc. apply wp_bind, wp_modify, wp_ret. right.
    destruct Hlate as (-> & ? & ?). split_and!; [done..|]. exists (utc_now (w_utc_ticks w)). split; [done|].
    simpl. rewrite (ro_closure_id _ Hok _ _ Hk). unfold DB.upd_closures. by rewrite (alter_insert_eq _ _ _ _ Hk).
  - apply wp_ret. left. done.
Qed.

(** [runtime_ok] looks at five tables. *)
Lemma runtime_ok_tables d d' :
  DB.runtime_sessions d' = DB.runtime_sessions d → DB.closures d' = DB.closures d →
  DB.tenants d' = DB.tenants d → keyed d' →
  (∀ i, is_Some (DB.tasks d !! i) → is_Some (DB.tasks d' !! i)) → runtime_ok d → runtime_ok d'.
Proof.
  intros Er Ec Et Hk Ht [H1 H2 H3 H4 H5 H6 H7 H8 H9].
  constructor; rewrite ?Er, ?Ec, ?Et; try done.
  intros k s Hs. destruct (H5 k s Hs) as (i & t & Hi & Hti). destruct (Ht i ltac:(eauto)) as [t' Ht']. eauto.
Qed.

(** What each step of [end_session] keeps while it ends what it has to. *)
Record settles (w w' : World) : Prop := {
  st_ok : runtime_ok (w_db w') ∧ fresh_above (w_next_id w') (DB.closures (w_db w'));
  st_sessions : ∀ k, match rs w !! k with
                     | Some s => ∃ s', rs w' !! k = Some s' ∧ later s s'
                     | None => rs w' !! k = None
                     end;
  st_terminal : ∀ i t, DB.tasks (w_db w) !! i = Some t → task_terminal (Task.status t) = true →
    DB.tasks (w_db w') !! i = Some t;
}.

Lemma settles_refl w :
  runtime_ok (w_db w) → fresh_above (w_next_id w) (DB.closures (w_db w)) → settles w w.
Proof.
  intros Hok Hf. constructor; [done| |done]. intros k. destruct (rs w !! k); [|done].
  eexists. split; [done|by left].
Qed.

Lemma settles_trans w1 w2 w3 : settles w1 w2 → settles w2 w3 → settles w1 w3.
Proof.
  intros [A1 A2 A3] [B1 B2 B3]. constructor; [done| |eauto]. intros k. specialize (A2 k). specialize (B2 k).
  destruct (rs w1 !! k); [|by rewrite A2 in B2]. destruct A2 as (s1 & E1 & L1). rewrite E1 in B2.
  destruct B2 as (s2 & E2 & L2). exists s2. split; [done|]. by etrans.
Qed.

(** An ended session stays ended. *)
Lemma settles_ended w w' k s :
  settles w w' → rs w !! k = Some s → is_Some (AgentRuntimeSession.ended_at s) →
  ∃ s', rs w' !! k = Some s' ∧ is_Some (AgentRuntimeSession.ended_at s').
Proof.
  intros [_ Hs _] Hk He. specialize (Hs k). rewrite Hk in Hs. destruct Hs as (s' & E & L).
  exists s'. split; [done|]. destruct L as [->|(n & o & ->)]; [done|by eexists].
Qed.

(** One close that is not a hook's, on a session in any state. *)
Lemma close_task_settles tn actor sid s o rc cb n w :
  runtime_ok (w_db w) → fresh_above (w_next_id w) (DB.closures (w_db w)) →
  rs w !! sid = Some s → AgentRuntimeSession.tenant_id s = tn → cb ≠ AgentRuntimeClosedBy.hook →
  wp (close_task tn actor sid o rc cb n) w
    (λ _ w', settles w w' ∧ DB.missions (w_db w') = DB.missions (w_db w) ∧
       ∃ s', rs w' !! sid = Some s' ∧ is_Some (AgentRuntimeSession.ended_at s'))
    (λ _ _, False).
Proof.
  intros Hok Hf Hs Htn Hcb.
  destruct (exists_row (of_session sid) (DB.closures (w_db w))) eqn:Hex.
  - apply exists_row_true in Hex as (k & c & Hk & Hc%bool_decide_eq_true).
    eapply wp_mono; [by eapply close_task_again| |done]. intros r w' [(_ & -> & _)|(? & _)]; [|done].
    split_and!; [by apply settles_refl|done|]. exists s. split; [done|].
    apply not_eq_None_Some. eapply (ro_ended _ Hok); [exact Hk|]. by rewrite Hc.
  - rewrite exists_row_false in Hex.
    assert (∀ k c, DB.closures (w_db w) !! k = Some c → AgentRuntimeClosure.runtime_session_id c ≠ sid) as Hno.
    { intros k c Hk%Hex. by apply bool_decide_eq_false in Hk. }
    eapply wp_mono; [by apply close_task_first| |done]. intros r w' (c & -> & Hc).
    pose proof (closed_once_ok _ _ _ _ _ _ _ _ _ _ Hok Hf Hs Hno Hc) as Hok'.
    apply closed_once_tables in Hc as (_ & (now & Er) & (i & t & t' & _ & Ht & Ha & Et) & Em & _).
    rewrite (ro_id _ Hok _ _ Hs) in Er. split_and!; [constructor; [done|..]|done|].
    + intros k. rewrite Er, lookup_alter.
      destruct (rs w !! k) as [s0|] eqn:Hk0; case_decide; subst; rewrite ?Hk0; try done;
        (eexists; split; [done|]); unfold later; eauto.
    + intros j x Hx Hterm. rewrite Et, lookup_insert. case_decide; [subst|done].
      rewrite Ht in Hx. injection Hx as ->. destruct Ha as (_ & _ & Ha). rewrite Hterm in Ha. by subst.
    + rewrite Er, lookup_alter_eq, Hs. eexists. split; [done|]. by eexists.
Qed.

Lemma close_each_settles tn actor o rc cb n l w :
  runtime_ok (w_db w) → fresh_above (w_next_id w) (DB.closures (w_db w)) →
  (∀ sid, sid ∈ l → ∃ s, rs w !! sid = Some s ∧ AgentRuntimeSession.tenant_id s = tn) →
  cb ≠ AgentRuntimeClosedBy.hook →
  wp (for_each l (λ sub_id, _ ← close_task tn actor sub_id o rc cb n; mret tt)) w
    (λ _ w', settles w w' ∧ DB.missions (w_db w') = DB.missions (w_db w) ∧
       ∀ sid, sid ∈ l → ∃ s', rs w' !! sid = Some s' ∧ is_Some (AgentRuntimeSession.ended_at s'))
    (λ _ _, False).
Proof.
  intros Hok Hf Hl Hcb. revert w Hok Hf Hl. induction l as [|sid l IH]; intros w Hok Hf Hl; simpl.
  { apply wp_ret. split_and!; [by apply settles_refl|done|]. by intros sid ?%elem_of_nil. }
  destruct (Hl sid ltac:(left)) as (s & Hs & Htn). do 2 apply wp_bind.
  eapply wp_mono; [by apply (close_task_settles tn actor sid s)| |done].
  intros r w1 (H1 & M1 & s1 & E1 & He1). apply wp_ret.
  eapply wp_mono; [apply IH; [by apply H1..|]| |done].
  - intros sid' Hin. destruct (Hl sid' ltac:(by right)) as (s0 & Hs0 & Htn0).
    destruct H1 as [_ H1 _]. specialize (H1 sid'). rewrite Hs0 in H1. destruct H1 as (s' & E & L).
    exists s'. split; [done|]. by destruct L as [->|(? & ? & ->)].
  - intros ? w2 (H2 & M2 & Hall). split_and!; [by eapply settles_trans|congruence|].
    intros sid' [->|Hin]%elem_of_cons; [by eapply settles_ended|by apply Hall].
Qed.

(** The session's mission is not running after its part of [end_session]; nothing but that
    mission changes. *)
Lemma complete_mission_spec s w :
  keyed (w_db w) →
  wp (complete_mission_of s) w
    (λ _ w', keyed (w_db w') ∧ w_next_id w' = w_next_id w ∧ rs w' = rs w ∧
       DB.tasks (w_db w') = DB.tasks (w_db w) ∧ DB.closures (w_db w') = DB.closures (w_db w) ∧
       DB.tenants (w_db w') = DB.tenants (w_db w) ∧
       ∀ i m, AgentRuntimeSession.mission_id s = Some i → DB.missions (w_db w') !! i = Some m →
         Mission.status m ≠ MissionStatus.running)
    (λ _ _, False).
Proof.
  intros [Kt Km]. unfold complete_mission_of.
  destruct (AgentRuntimeSession.mission_id s) as [i|]; [|by apply wp_ret].
  apply wp_bind, wp_asks. destruct (DB.missions (w_db w) !! i) as [m|] eqn:Hm.
  2:{ apply wp_ret. split_and!; try done. intros j m [= <-]. by rewrite Hm. }
  apply wp_when. case_bool_decide as Hrun.
  - apply wp_try. unfold mark_mission_status. apply wp_bind. unfold wp at 1, lift. rewrite Hrun. simpl.
    apply wp_bind, wp_modify. simpl. apply wp_bind. unfold wp at 1, utc. apply wp_modify. simpl.
    rewrite (Km _ _ Hm). split_and!; try done.
    + split; [done|]. simpl. intros k x Hx.
      apply alter_lookup_Some in Hx as (x1 & Hx & Hc1). apply alter_lookup_Some in Hx as (x2 & Hx & Hc2).
      rewrite <- (Km _ _ Hx). by destruct Hc1 as [->|[_ ->]], Hc2 as [->|[_ ->]].
    + intros j x [= <-]. rewrite !lookup_alter_eq, Hm. by intros [= <-].
  - split_and!; try done. intros j x [= <-]. rewrite Hm. by intros [= <-].
Qed.

Lemma advance_settles tn actor i s t rc w :
  runtime_ok (w_db w) → fresh_above (w_next_id w) (DB.closures (w_db w)) →
  is_Some (AgentRuntimeSession.mission_id s) → DB.tasks (w_db w) !! i = Some t →
  wp (advance_task tn actor (AgentRuntimeSession.mission_id s) t TaskStatus.completed rc) w
    (λ _ w', settles w w' ∧ rs w' = rs w ∧
       ∃ t', DB.tasks (w_db w') !! i = Some t' ∧ task_terminal (Task.status t') = true)
    (λ _ _, False).
Proof.
  intros Hok Hf [m ->] Ht. destruct (ro_keyed _ Hok) as [Kt Km]. pose proof (Kt _ _ Ht) as Hid.
  eapply wp_mono; [apply advance_task_spec; [by rewrite Hid|by left]| |done].
  intros ? w1 (t1 & (Hid1 & Hterm & Hadv) & [C1 C2]). rewrite Hid in C1.
  pose proof (f_equal DB.runtime_sessions C1) as Er. pose proof (f_equal DB.tasks C1) as Et.
  pose proof (f_equal DB.closures C1) as Ec. pose proof (f_equal DB.tenants C1) as Etn.
  pose proof (f_equal DB.missions C1) as Em. simpl in Er, Et, Ec, Etn, Em, C2.
  split_and!; [constructor|done|].
  - split; [|rewrite Ec; intros k Hk; specialize (Hf k Hk); lia].
    apply (runtime_ok_tables (w_db w)); try done.
    + split; rewrite ?Et, ?Em; [|done]. intros k x [[<- <-]|[_ Hx]]%lookup_insert_Some; [congruence|by apply Kt].
    + intros k Hk. rewrite Et, lookup_insert. case_decide; [by eexists|done].
  - intros k. rewrite Er. destruct (rs w !! k); [|done]. eexists. split; [done|by left].
  - intros k x Hx Hx'. rewrite Et, lookup_insert. case_decide; [subst k|done]. rewrite Ht in Hx.
    injection Hx as ->. rewrite Hx' in Hadv. by subst.
  - exists t1. by rewrite Et, lookup_insert_eq.
Qed.

(** Ending a row keeps the tables consistent. *)
Lemma end_row_ok now o k d :
  runtime_ok d → runtime_ok (DB.upd_runtime_sessions (alter (ended now o) k) d).
Proof.
  intros Hok.
  assert (∀ j r', alter (ended now o) k (DB.runtime_sessions d) !! j = Some r' →
    ∃ r, DB.runtime_sessions d !! j = Some r ∧ later r r') as Hback.
  { intros j r' (r & Hr & Hc)%alter_lookup_Some. exists r. split; [done|].
    destruct Hc as [->|[_ ->]]; [by left|right; eauto]. }
  destruct Hok as [H1 H2 H3 H4 H5 H6 H7 H8 H9]. constructor; simpl; try done.
  - intros j r' (r & Hr & [->|(? & ? & ->)])%Hback; exact (H2 _ _ Hr).
  - intros j r' (r & Hr & [->|(? & ? & ->)])%Hback; exact (H3 _ _ Hr).
  - intros j r' (r & Hr & [->|(? & ? & ->)])%Hback; exact (H4 _ _ Hr).
  - intros j r' (r & Hr & [->|(? & ? & ->)])%Hback; exact (H5 _ _ Hr).
  - intros j r' p ps' (r & Hr & L)%Hback Hp (ps & Hps & L')%Hback.
    assert (AgentRuntimeSession.parent_session_id r = Some p) as Hp' by (by destruct L as [->|(? & ? & ->)]).
    pose proof (H6 _ _ _ _ Hr Hp' Hps) as E.
    by destruct L as [->|(? & ? & ->)], L' as [->|(? & ? & ->)].
  - intros j c r' Hc (r & Hr & [->|(? & ? & ->)])%Hback; [by eapply H9|done].
Qed.

(** Once every subagent found open is ended, no subagent is open. *)
Lemma kids_all_ended sid w1 w2 :
  runtime_ok (w_db w1) → settles w1 w2 →
  (∀ k, k ∈ AgentRuntimeSession.id <$> select (open_child sid) (rs w1) →
     ∃ s', rs w2 !! k = Some s' ∧ is_Some (AgentRuntimeSession.ended_at s')) →
  ∀ k c, rs w2 !! k = Some c → AgentRuntimeSession.parent_session_id c = Some sid →
    is_Some (AgentRuntimeSession.ended_at c).
Proof.
  intros Hok1 S2 Hkids k c Hc Hp. pose proof (st_sessions _ _ S2 k) as Hb.
  destruct (rs w1 !! k) as [c1|] eqn:Hc1; [|congruence].
  destruct Hb as (c2 & E2 & L). rewrite Hc in E2. injection E2 as <-.
  destruct L as [->|(n & o' & ->)]; [|by eexists].
  destruct (AgentRuntimeSession.ended_at c1) eqn:Hend; [by eexists|].
  destruct (Hkids k) as (c3 & E3 & He3); [|rewrite Hc in E3; injection E3 as <-; by rewrite Hend in He3].
  apply list_elem_of_fmap. exists c1. split; [symmetry; by apply (ro_id _ Hok1)|].
  apply elem_of_select. split; [|eauto]. unfold open_child. by rewrite !bool_decide_true.
Qed.

(** C15: the end of a session leaves nothing of it open. For an open session of a consistent
    database, [end_session] returns the session, ended with the given outcome; every one of
    its subagents has ended, its own task is in a terminal status, its mission is not
    running, and the database is still consistent. *)
Theorem end_session_closes_everything tn actor sid s o w :
  runtime_ok (w_db w) → fresh_above (w_next_id w) (DB.closures (w_db w)) →
  rs w !! sid = Some s → AgentRuntimeSession.tenant_id s = tn → AgentRuntimeSession.ended_at s = None →
  wp (end_session tn actor sid o) w
    (λ r w', runtime_ok (w_db w') ∧
       (∃ s', r = Some s' ∧ rs w' !! sid = Some s' ∧ is_Some (AgentRuntimeSession.ended_at s') ∧
          AgentRuntimeSession.outcome s' = Some o) ∧
       (∀ k c, rs w' !! k = Some c → AgentRuntimeSession.parent_session_id c = Some sid →
          is_Some (AgentRuntimeSession.ended_at c)) ∧
       (∃ i t, AgentRuntimeSession.task_id s = Some i ∧ DB.tasks (w_db w') !! i = Some t ∧
          task_terminal (Task.status t) = true) ∧
       (∀ i m, AgentRuntimeSession.mission_id s = Some i → DB.missions (w_db w') !! i = Some m →
          Mission.status m ≠ MissionStatus.running))
    (λ _ _, False).
Proof.
  intros Hok Hf Hs Htn He. pose proof (ro_id _ Hok _ _ Hs) as Hid.
  destruct (ro_task _ Hok _ _ Hs) as (i & t & Hi & Ht).
  unfold end_session. apply wp_bind. eapply wp_mono; [apply lock_spec| |done].
  intros r w1 [-> Hr]. rewrite (proj2 (Hr s) (conj Hs Htn)), He, Hid. clear r Hr.
  apply wp_bind. eapply wp_mono; [apply task_of_session_spec| |done]. intros ? w1 [-> ->].
  rewrite Hi. simpl. rewrite Ht. apply wp_bind.
  eapply wp_mono; [apply (advance_settles tn actor i s t); [done..|by apply (ro_mission _ Hok _ _ Hs)|done]| |done].
  intros ? w1 (S1 & R1 & t1 & Ht1 & Hterm). destruct (st_ok _ _ S1) as [Hok1 Hf1].
  apply wp_bind, wp_asks, wp_bind.
  set (kids := AgentRuntimeSession.id <$> select (open_child sid) (rs w1)).
  eapply wp_mono; [apply (close_each_settles tn actor); [done..| |done]| |done].
  { intros k (c & -> & [Ho [j Hj]]%elem_of_select)%list_elem_of_fmap.
    rewrite (ro_id _ Hok1 _ _ Hj). exists c. split; [done|].
    apply andb_true_iff in Ho as [Hp%bool_decide_eq_true _]. rewrite <- Htn.
    eapply (ro_child _ Hok1); [exact Hj|exact Hp|by rewrite R1]. }
  intros ? w2 (S2 & M2 & Hkids). destruct (st_ok _ _ S2) as [Hok2 Hf2].
  pose proof (kids_all_ended sid w1 w2 Hok1 S2 Hkids) as Hended.
  apply wp_bind. eapply wp_mono; [apply (complete_mission_spec s), (ro_keyed _ Hok2)| |done].
  intros ? w3 (K3 & N3 & R3 & T3 & C3 & Tn3 & Hmission).
  assert (runtime_ok (w_db w3)) as Hok3.
  { apply (runtime_ok_tables (w_db w2)); try done. intros k. by rewrite T3. }
  apply wp_bind. unfold wp at 1, utc. apply wp_bind, wp_modify, wp_ret.
  pose proof (st_sessions _ _ S2 sid) as Hsid. rewrite R1, Hs in Hsid. destruct Hsid as (s2 & E2 & L2).
  simpl. split_and!.
  - by apply end_row_ok.
  - exists (ended (utc_now (w_utc_ticks w3)) o s). split_and!; [done| |by eexists|done].
    rewrite lookup_alter_eq, R3, E2. by destruct L2 as [->|(? & ? & ->)].
  - intros k c (c0 & Hc0 & Hcase)%alter_lookup_Some Hp. rewrite R3 in Hc0.
    destruct Hcase as [->|[_ ->]]; [by eapply Hended|by eexists].
  - exists i, t1. split_and!; [done| |done]. rewrite T3. by apply (st_terminal _ _ S2).
  - exact Hmission.
Qed.


(** A late hook repairs the hook-loss rate. When a hook closes a session the reaper had
    given up on, the number of lost closures in any interval that contains the closure drops
    by one and the total stays; and always [0 <= lost <= total]. *)
Theorem late_close_repairs_loss_rate tn actor sid s k c o rc n since until w :
  runtime_ok (w_db w) → rs w !! sid = Some s → AgentRuntimeSession.tenant_id s = tn →
  DB.closures (w_db w) !! k = Some c → AgentRuntimeClosure.runtime_session_id c = sid →
  closed_in tn since until c = true → is_lost c = true →
  let before := compute_hook_loss_rate tn since (Some until) in
  ∃ h1 w1 h2, before w = (Ret h1, w) ∧
    exec (close_task tn actor sid o rc AgentRuntimeClosedBy.hook n) w = w1 ∧
    result before w1 = Ret h2 ∧
    lost h2 = lost h1 - 1 ∧ total h2 = total h1 ∧ 0 ≤ lost h2 ∧ lost h1 ≤ total h1.
Proof.
  intros Hok Hs Htn Hk Hc Hin Hlost before.
  apply andb_true_iff in Hlost as [Hr%bool_decide_eq_true Hl%bool_decide_eq_true].
  pose proof (close_task_again tn actor sid s k c o rc AgentRuntimeClosedBy.hook n w Hok Hs Htn Hk Hc) as H2.
  unfold wp in H2. unfold exec, before, compute_hook_loss_rate, result, mbind, ST_bind, asks_db, asks. simpl.
  destruct (close_task _ _ _ _ _ _ _ w) as [[r|?] w1]; [|done]. simpl.
  destruct H2 as [(_ & _ & [])|(_ & _ & _ & now & _ & Hd)]; [done|].
  do 3 eexists. do 3 (split; [reflexivity|]). simpl. rewrite Hd. simpl.
  rewrite (count_update (closed_in tn since until) _ k c) by done.
  unfold count_rows.
  rewrite (select_update (λ c, closed_in tn since until c && is_lost c) _ k c) by done.
  rewrite (select_lookup (λ c, closed_in tn since until c && is_lost c) _ k c Hk).
  rewrite (select_lookup (closed_in tn since until) _ k c Hk). simpl.
  assert (is_lost c = true) as -> by (unfold is_lost; by rewrite !bool_decide_true).
  rewrite Hin. simpl.
  assert (is_lost (AgentRuntimeClosure.set_late_close_at (Some now) c) = false) as -> by apply andb_false_r.
  rewrite andb_false_r. simpl.
  assert (length (select (λ c, closed_in tn since until c && is_lost c) (delete k (DB.closures (w_db w)))) ≤
    length (select (closed_in tn since until) (delete k (DB.closures (w_db w)))))%nat as Hle.
  { apply count_mono. by intros v [? _]%andb_true_iff. }
  split_and!; lia.
Qed.
End close_spec.

(** ** Witnesses: the sample tenant with a Claude Code session (20) and its subagent (21) *)

(** Splits a row of a table given as inserts into the empty map. *)
Ltac row_cases H :=
  repeat (apply lookup_insert_Some in H as [[<- <-]|[_ H]]); try (apply lookup_singleton_Some in H as [<- <-]);
  try (by rewrite lookup_empty in H).

Definition twin_task (i : EntityId) : Task.t :=
  Task.mk i 12 10 "Twin" "See the session." TaskStatus.queued 0 (pretty i) BudgetPolicy_default []
    None None None 0.

Definition twin_session : AgentRuntimeSession.t :=
  AgentRuntimeSession.mk 20 1 AgentRuntimeKind.session (Some 10%positive) (Some 12%positive)
    (Some 13%positive) "s" None None 0 None None None.

Definition twin_subagent (ended_at : option Z) : AgentRuntimeSession.t :=
  AgentRuntimeSession.mk 21 1 AgentRuntimeKind.subagent (Some 10%positive) (Some 12%positive)
    (Some 14%positive) "s" (Some "a") (Some 20%positive) 0 None ended_at None.

Definition reaped_closure : AgentRuntimeClosure.t :=
  AgentRuntimeClosure.mk 30 1 21 (Some 14%positive) AgentRuntimeClosedBy.reaper
    AgentRuntimeCloseOutcome.failed AgentRuntimeReasonCode.reaped_stale None None 5 None.

Definition twin_db (sub_ended : option Z) (closures : gmap EntityId AgentRuntimeClosure.t) : DB.t :=
  DB.upd_agents (<[10%positive := Agent.mk 10 1 "AGT-CLAUDE-CODE" "Claude Code" None None None AgentLifecycleState.active
                     (Some 11%positive) None 0 0]>)
  (DB.upd_agent_versions (<[11%positive := AgentVersion.mk 11 10 1 "Twin." "external_manual" 3
                              AutonomyLevel.a1 ToolPolicy_default [] [] "sum" None 0]>)
  (DB.upd_missions (<[12%positive := Mission.mk 12 1 "s" "Claude Code session s" "Claude Code session."
                        (Some 2%positive) MissionStatus.running MissionPriority.normal RiskLevel.low
                        BudgetPolicy_default (Some 10%positive) 0 (Some 0) None]>)
  (DB.upd_tasks (λ m, <[13%positive := twin_task 13]> (<[14%positive := twin_task 14]> m))
  (DB.upd_runtime_sessions (λ _, <[20%positive := twin_session]> (<[21%positive := twin_subagent sub_ended]> ∅))
  (DB.upd_closures (λ _, closures) sample_db))))).

Definition twin_world : World := world_of (twin_db None ∅).
Definition twin_world_reaped : World :=
  world_of (twin_db (Some 5) (<[30%positive := reaped_closure]> ∅)).

Lemma twin_keyed d cs : keyed (twin_db d cs).
Proof. split; intros k x Hx; simpl in Hx; row_cases Hx; done. Qed.

(** The rows of [twin_db], with the closures left to the caller. *)
Lemma twin_ok d cs :
  (∀ k c, cs !! k = Some c → AgentRuntimeClosure.id c = k ∧ AgentRuntimeClosure.runtime_session_id c = 21%positive) →
  (∀ k1 k2 c1 c2, cs !! k1 = Some c1 → cs !! k2 = Some c2 → k1 = k2) → (cs ≠ ∅ → is_Some d) →
  runtime_ok (twin_db d cs).
Proof.
  intros Hc Hu Hd. constructor; simpl; [apply twin_keyed|..].
  - intros k s Hs. row_cases Hs; done.
  - intros k s Hs. row_cases Hs; by eexists.
  - intros k s Hs. row_cases Hs; by eexists.
  - intros k s Hs. row_cases Hs; do 2 eexists; (split; [done|]); reflexivity.
  - intros k s p ps Hs Hp Hps. row_cases Hs; row_cases Hps; done.
  - intros k c Hk. by apply Hc.
  - eauto.
  - intros k c s Hk Hs. destruct (Hc k c Hk) as [_ E]. rewrite E in Hs.
    assert (s = twin_subagent d) as -> by (by injection Hs as <-). simpl. destruct Hd as [? ->]; [|done].
    intros ->. by rewrite lookup_empty in Hk.
Qed.

Lemma twin_world_ok : runtime_ok (w_db twin_world).
Proof. apply twin_ok; try done; intros *; by rewrite lookup_empty. Qed.

Lemma twin_world_reaped_ok : runtime_ok (w_db twin_world_reaped).
Proof.
  apply twin_ok; [intros k c Hk; by row_cases Hk| |by eexists].
  intros k1 k2 c1 c2 H1 H2. row_cases H1. row_cases H2. done.
Qed.

Lemma twin_world_fresh : fresh_above (w_next_id twin_world) (DB.closures (w_db twin_world)).
Proof. intros i [c Hc]. by vm_compute in Hc. Qed.

(** Both sessions were last heard of at 0; with a window of 100 seconds they are alive at 50. *)
Lemma reaper_spares_live_sessions_witness :
  wp (reap_stale_runtime_sessions (λ _, false) 100000000 (Some 50000000) 200) twin_world
    (λ _, spared (50000000 - 100000000) twin_world) (λ _, spared (50000000 - 100000000) twin_world).
Proof.
  apply (reaper_spares_live_sessions (λ _, false) 100000000 50000000 200 twin_world).
  split; [exact (ro_id _ twin_world_ok)|exact (proj1 (ro_keyed _ twin_world_ok))].
Defined.

Lemma end_session_closes_everything_witness :
  wp (end_session 1 system_actor 20 AgentRuntimeOutcome.abandoned) twin_world
    (λ r w', ∀ k c, rs w' !! k = Some c → AgentRuntimeSession.parent_session_id c = Some 20%positive →
       is_Some (AgentRuntimeSession.ended_at c))
    (λ _ _, False).
Proof.
  eapply wp_mono;
    [apply (end_session_closes_everything 1 system_actor 20 twin_session AgentRuntimeOutcome.abandoned twin_world
              twin_world_ok twin_world_fresh); reflexivity| |done].
  intros r w' (_ & _ & Hkids & _). exact Hkids.
Defined.


Lemma late_close_repairs_loss_rate_witness :
  ∃ h1 h2, result (compute_hook_loss_rate 1 0 (Some 10)) twin_world_reaped = Ret h1 ∧
    result (compute_hook_loss_rate 1 0 (Some 10))
      (exec (close_task 1 system_actor 21 AgentRuntimeCloseOutcome.completed
               AgentRuntimeReasonCode.hook_reported AgentRuntimeClosedBy.hook None) twin_world_reaped) = Ret h2 ∧
    lost h2 = lost h1 - 1.
Proof.
  destruct (late_close_repairs_loss_rate 1 system_actor 21 (twin_subagent (Some 5)) 30 reaped_closure
    AgentRuntimeCloseOutcome.completed AgentRuntimeReasonCode.hook_reported None 0 10 twin_world_reaped
    twin_world_reaped_ok eq_refl eq_refl eq_refl eq_refl eq_refl eq_refl)
    as (h1 & w1 & h2 & H1 & H2 & H3 & H4 & _).
  exists h1, h2. split; [unfold result; by rewrite H1|]. split; [by rewrite H2|done].
Defined.
