(* ===== verification/Worker.v ===== *)
(** * The worker's poll loop
    (services/worker/main.py: [run_forever])

    One worker process: two sweeps at startup, then a loop that sweeps again when its timers
    are due, takes a task from the queue and processes it. What the loop cannot decide itself
    are inputs of an iteration: which tasks are leased, which rows are locked, how
    [lease.acquire()] ends, when a lease is lost, and what other services push onto the queue
    meanwhile. The loop ends when the inputs do, which is when the stop event is seen. *)

From Stdlib Require Import Floats.
From S2P Require Import Prelude Enums Contracts Budgets Telemetry Breaker Database Scenario Transitions.
From S2P Require Import Missions Api Gateway Config Ledger Checkpoints Adapter Artifacts Executor Recovery Closure.
Local Open Scope Z_scope.

Definition ORPHAN_SWEEP_INTERVAL_SECONDS : float := Py.of_int 10.
Definition AGENT_RUNTIME_REAP_SWEEP_INTERVAL_SECONDS : float := Py.of_int 60.

(** [last_sweep] and [last_reap_sweep]. *)
Record Timers := mkTimers { last_sweep : float; last_reap_sweep : float }.

(** What one iteration meets. *)
Record Poll := mkPoll {
  po_leased : EntityId → bool;
  po_locked : EntityId → bool;
  po_pushed : list EntityId;
  po_acquire : outcome exn bool;
  po_lost_at : option nat;
}.

Section worker.
Context `{Env}.

(** [try: m  except Exception: logger.exception(...)] *)
Definition logged (m : M unit) : M unit := try_except m (λ _, Some (mret tt)).

(** [if time.monotonic() - last >= interval: last = time.monotonic(); try: sweep ...];
    returns the new [last]. *)
Definition sweep_if_due (interval last : float) (sweep : M Z) : M float :=
  now ← monotonic;
  if Py.ge (Py.sub now last) interval then
    last ← monotonic;
    _ ← logged (_ ← sweep; mret tt);
    mret last
  else mret last.

(** Pushes of other services. *)
Definition others_push (ids : list EntityId) : M unit :=
  modify (λ w, set_queue (ids ++ w_queue w) w).

(** [dequeue_task] under its [try]: [None] is a logged failure of Redis or an empty queue,
    after both of which the loop polls again. *)
Definition poll_queue : M (option EntityId) := try_except dequeue_task (λ _, Some (mret None)).

(** [process_task] with [lease.acquire()] as it ends. *)
Definition process_dequeued (gw : ModelGateway) (task_id : EntityId) (p : Poll) : M unit :=
  acquired ← lift (po_acquire p);
  _ ← process_task gw task_id acquired (po_lost_at p);
  mret tt.

(** The last [try] of the iteration. *)
Definition process_or_put_back (gw : ModelGateway) (task_id : EntityId) (p : Poll) : M unit :=
  try_except (process_dequeued gw task_id p) (λ _, Some (logged (enqueue_task task_id))).

(** One iteration; returns the task it took from the queue, if any. *)
Definition poll_once (settings : Settings) (gw : ModelGateway) (t : Timers) (p : Poll) :
    M (Timers * option EntityId) :=
  last_sweep ← sweep_if_due ORPHAN_SWEEP_INTERVAL_SECONDS (last_sweep t)
                 (requeue_orphaned_running_tasks true (po_leased p));
  last_reap_sweep ← sweep_if_due AGENT_RUNTIME_REAP_SWEEP_INTERVAL_SECONDS (last_reap_sweep t)
                      (run_agent_runtime_reap_sweep (po_locked p) (agent_runtime_reap_window_minutes settings));
  _ ← others_push (po_pushed p);
  dequeued ← poll_queue;
  _ ← match dequeued with
      | None => mret tt
      | Some task_id => process_or_put_back gw task_id p
      end;
  mret (mkTimers last_sweep last_reap_sweep, dequeued).

(** [while not stop_event.is_set()]; returns the tasks taken, in order. *)
Fixpoint poll_loop (settings : Settings) (gw : ModelGateway) (t : Timers) (polls : list Poll) :
    M (list EntityId) :=
  match polls with
  | [] => mret []
  | p :: polls =>
      r ← poll_once settings gw t p;
      taken ← poll_loop settings gw r.1 polls;
      mret (option_list r.2 ++ taken)
  end.

(** [run_forever()]; [leased] and [locked] are what the sweeps at startup see. *)
Definition run_forever (settings : Settings) (leased locked : EntityId → bool) (polls : list Poll) :
    M (list EntityId) :=
  _ ← lift (require_safe_for_production settings);
  let gw := build_model_gateway settings in
  _ ← requeue_orphaned_running_tasks true leased;
  _ ← run_agent_runtime_reap_sweep locked (agent_runtime_reap_window_minutes settings);
  last_sweep ← monotonic;
  last_reap_sweep ← monotonic;
  poll_loop settings gw (mkTimers last_sweep last_reap_sweep) polls.
End worker.

(** ** What every step of the worker leaves intact *)

(** A step that changes none of this touches neither the queue nor the ledger. *)
Definition quiet_obs (w : World) := (wal_obs w, w_queue w).

(** Relations that the bookkeeping of the sweeps stays within: anything that leaves
    [quiet_obs] alone, fresh ids, commits, sessions and pushes onto the queue. *)
Class Harmless (R : relation World) : Prop := {
  harmless_preorder :: PreOrder R;
  harmless_obs : ∀ A (m : M A), tracks (same quiet_obs) m → tracks R m;
  harmless_new_id : tracks R new_id;
  harmless_commit `{Env} : tracks R commit;
  harmless_enqueue `{Env} i : tracks R (enqueue_task i);
  harmless_session A (m : M A) : tracks R m → tracks R (with_session m);
}.

(** The queue only grows, at the end that is served last. *)
Definition pushes (w w' : World) : Prop := ∃ l, w_queue w' = l ++ w_queue w.

#[global] Instance pushes_preorder : PreOrder pushes.
Proof.
  split; [by exists []|]. intros a b c [l1 H1] [l2 H2]. exists (l2 ++ l1). by rewrite H2, H1, app_assoc.
Qed.

Lemma same_pushes {A} (m : M A) : tracks (same w_queue) m → tracks pushes m.
Proof. apply tracks_impl. intros w w' Hs. exists []. by rewrite <- Hs. Qed.

#[global] Instance pushes_harmless : Harmless pushes.
Proof.
  split; [apply _|..].
  - intros A m Hm. apply same_pushes. intros w. exact (f_equal snd (Hm w)).
  - intros w. by exists [].
  - intros ? w. exists []. unfold exec, commit. by destruct (commit_ok _).
  - intros ? i w. unfold exec, enqueue_task. destruct (redis_ok _); [by exists [i]|by exists []].
  - intros A m Hm w. specialize (Hm (set_db (w_committed w) w)). unfold exec, with_session in *.
    by destruct (m _) as [r w'].
Qed.

#[global] Instance wal_harmless : Harmless (pres wal).
Proof.
  split; [apply _|..].
  - intros A m Hm. apply tracks_obs_wal. intros w. exact (f_equal fst (Hm w)).
  - intros w. exact (wal_set_next_id w).
  - intros ? w. exact (commit_wal w).
  - intros ? i w [H1 H2 H3 H4 H5 H6]. unfold exec, enqueue_task. destruct (redis_ok _); by constructor.
  - intros A m. apply with_session_wal.
Qed.

Lemma begin_nested_obs {A} (m : M A) : tracks (same quiet_obs) m → tracks (same quiet_obs) (begin_nested m).
Proof.
  intros Hm w. specialize (Hm w). unfold same, exec, begin_nested, quiet_obs, wal_obs in *.
  destruct (m w) as [[] w']; [done|]. simpl in *. congruence.
Qed.

Section harmless.
Context `{Env} (R : relation World) `{!Harmless R}.

Lemma modify_db_harmless f :
  (∀ d, DB.model_invocations (f d) = DB.model_invocations d) → tracks R (modify_db f).
Proof.
  intros Hf. apply harmless_obs. intros w. unfold same, exec, quiet_obs, wal_obs. simpl. by rewrite Hf.
Qed.

Lemma utc_harmless : tracks R utc.
Proof. by apply harmless_obs. Qed.

Lemma publish_harmless ev : tracks R (publish ev).
Proof.
  apply harmless_obs. intros w. unfold same, exec, publish, quiet_obs, wal_obs. simpl. by destruct (redis_ok _).
Qed.

Lemma update_task_harmless k f : tracks R (update_task k f).
Proof. unfold update_task. by apply modify_db_harmless. Qed.

Lemma update_mission_harmless k f : tracks R (update_mission k f).
Proof. unfold update_mission. by apply modify_db_harmless. Qed.
End harmless.

#[export] Hint Resolve utc_harmless publish_harmless update_task_harmless update_mission_harmless
  harmless_new_id harmless_commit harmless_enqueue : tracks.
#[export] Hint Extern 1 (tracks _ (modify_db _)) => (apply modify_db_harmless; [apply _|intros ?; reflexivity]) : tracks.

Section sweeps.
Context `{Env} (R : relation World) `{!Harmless R}.

Lemma publish_api_harmless ty tn actor corr m t ag data : tracks R (publish_api ty tn actor corr m t ag data).
Proof. unfold publish_api. tracks_auto. Qed.
#[local] Hint Resolve publish_api_harmless : tracks.

Lemma register_recovery_harmless has_publisher tid n : tracks R (register_recovery has_publisher tid n).
Proof. unfold register_recovery, fail_after_max_requeues, publish_max_requeues. tracks_auto. Qed.
#[local] Hint Resolve register_recovery_harmless : tracks.

Lemma recover_one_harmless has_publisher leased tid : tracks R (recover_one has_publisher leased tid).
Proof. unfold recover_one. tracks_auto. apply harmless_session. tracks_auto. Qed.

Lemma recover_all_harmless has_publisher leased ids n : tracks R (recover_all has_publisher leased ids n).
Proof.
  revert n. induction ids as [|i ids IH]; intros n; simpl; [apply tracks_ret, _|].
  apply tracks_bind; [apply _|apply recover_one_harmless|]. intros b. apply IH.
Qed.

Lemma orphan_sweep_harmless has_publisher leased : tracks R (requeue_orphaned_running_tasks has_publisher leased).
Proof.
  unfold requeue_orphaned_running_tasks. apply tracks_bind; [apply _|apply harmless_session; tracks_auto|].
  intros ids. apply recover_all_harmless.
Qed.

Lemma mark_mission_status_harmless m target : tracks R (mark_mission_status m target).
Proof. unfold mark_mission_status. tracks_auto. Qed.

Lemma advance_task_harmless tn actor m t target rc : tracks R (advance_task tn actor m t target rc).
Proof. unfold advance_task, enter_running, publish_closure. tracks_auto. Qed.
#[local] Hint Resolve advance_task_harmless mark_mission_status_harmless : tracks.

Lemma insert_closure_harmless c : tracks R (begin_nested (insert_closure c)).
Proof. apply harmless_obs, begin_nested_obs. unfold insert_closure. tracks_auto. Qed.

Lemma close_task_harmless tn actor sid o rc cb n : tracks R (close_task tn actor sid o rc cb n).
Proof.
  unfold close_task, lock_runtime_session, get_tenant_scoped, get_existing_closure, task_of_session, close_again,
    finish_close. tracks_auto.
  apply tracks_try; [apply _|apply tracks_bind; [apply _|apply insert_closure_harmless|intros; apply tracks_ret, _]|].
  intros e k Hk. case_match; simplify_eq. unfold after_integrity_error, get_existing_closure. tracks_auto.
Qed.
#[local] Hint Resolve close_task_harmless : tracks.

Lemma end_session_harmless tn actor sid o : tracks R (end_session tn actor sid o).
Proof.
  unfold end_session, lock_runtime_session, get_tenant_scoped, task_of_session, complete_mission_of. tracks_auto.
  apply tracks_try; [apply _|apply mark_mission_status_harmless|]. intros ? k Hk. case_match; simplify_eq. apply tracks_ret, _.
Qed.
#[local] Hint Resolve end_session_harmless : tracks.

Lemma reap_subagents_harmless rows n : tracks R (reap_subagents rows n).
Proof. revert n. induction rows as [|[sid tn] rows IH]; intros n; simpl; tracks_auto. Qed.

Lemma reap_sweep_harmless locked minutes : tracks R (run_agent_runtime_reap_sweep locked minutes).
Proof.
  unfold run_agent_runtime_reap_sweep, reap_stale_runtime_sessions, reap_batch. apply harmless_session.
  tracks_auto. apply reap_subagents_harmless.
Qed.
End sweeps.

(** ** An execution never touches the queue *)

Section execution.
Context `{Env}.

Abbreviation quiet := (tracks (same w_queue)).

Lemma commit_quiet : quiet commit.
Proof. intros w. unfold same, exec, commit. by destruct (commit_ok _). Qed.

Lemma publish_quiet ev : quiet (publish ev).
Proof. intros w. unfold same, exec, publish. simpl. by destruct (redis_ok _). Qed.
#[local] Hint Resolve commit_quiet publish_quiet : tracks.

Lemma sql_begin_quiet p tel : quiet (sql_begin_attempt p tel).
Proof. unfold sql_begin_attempt, insert_invocation. tracks_auto. Qed.

Lemma sql_finish_quiet p i tel : quiet (sql_finish_attempt p i tel).
Proof. unfold sql_finish_attempt. tracks_auto. Qed.
#[local] Hint Resolve sql_begin_quiet sql_finish_quiet : tracks.

Lemma generate_quiet p gw request policy usage r :
  quiet (generate gw request policy usage r (Some (sql_ledger p))).
Proof.
  apply (generate_tracks (sql_ledger p)); simpl; try by intros *; intros w.
  - apply _.
  - apply sql_begin_quiet.
  - apply sql_finish_quiet.
Qed.

Lemma save_quiet c : quiet (save c).
Proof. unfold save, insert_checkpoint. tracks_auto. Qed.
#[local] Hint Resolve save_quiet generate_quiet : tracks.

Lemma call_model_quiet gw p i c : quiet (call_model_and_checkpoint (sql_adapter gw p) i c).
Proof.
  unfold call_model_and_checkpoint, sql_adapter, sql_usage_port, sql_checkpoint_store, usage_for_task. simpl. tracks_auto.
Qed.
#[local] Hint Resolve call_model_quiet : tracks.

Lemma execute_quiet gw p h : quiet (execute (sql_adapter gw p) h).
Proof. unfold execute. change (checkpoint_store (sql_adapter gw p)) with sql_checkpoint_store.
  cbn [cs_latest_for_task cs_save sql_checkpoint_store]. unfold latest_for_task. tracks_auto. Qed.

Lemma resume_quiet gw p c : quiet (resume (sql_adapter gw p) c).
Proof. unfold resume. tracks_auto. Qed.
#[local] Hint Resolve execute_quiet resume_quiet : tracks.

Lemma publish_event_quiet l ty data : quiet (publish_event l ty data).
Proof. unfold publish_event. tracks_auto. Qed.
#[local] Hint Resolve publish_event_quiet : tracks.

Lemma fail_quiet l reason : quiet (fail l reason).
Proof. unfold fail, update_task, update_mission. tracks_auto. Qed.

Lemma mark_running_quiet l c : quiet (mark_running l c).
Proof. unfold mark_running, update_task. tracks_auto. Qed.
#[local] Hint Resolve fail_quiet mark_running_quiet : tracks.

Lemma first_run_quiet gw l t0 context c : quiet (first_run l (task_adapter gw l t0) context c).
Proof.
  unfold first_run, task_adapter. apply tracks_try; [apply _|unfold initialize_run; tracks_auto|].
  intros e k Hk. destruct e; simplify_eq/=; tracks_auto.
Qed.

Lemma commit_task_artifact_quiet l ty title content mime : quiet (commit_task_artifact l ty title content mime).
Proof.
  unfold commit_task_artifact, commit_artifact, find_committed. tracks_auto.
  - intros w. unfold same, exec, put_object. by destruct (object_put_ok _).
  - unfold insert_or_existing, insert_artifact. apply tracks_try; [apply _| |].
    + tracks_auto. apply begin_nested_same; [done|]. tracks_auto.
    + intros e k Hk. case_match; simplify_eq. unfold after_integrity_error, find_committed. tracks_auto.
Qed.
#[local] Hint Resolve first_run_quiet commit_task_artifact_quiet : tracks.

Lemma repair_quiet gw l t0 context error : quiet (repair l (task_adapter gw l t0) context error).
Proof.
  unfold repair, initialize_run, task_adapter, validate_output. tracks_auto.
  apply tracks_try; [apply _|tracks_auto|]. intros e k Hk. case_match; simplify_eq. tracks_auto.
Qed.

Lemma complete_quiet l text parsed : quiet (complete l text parsed).
Proof. unfold complete, update_task, update_mission. tracks_auto. Qed.
#[local] Hint Resolve repair_quiet complete_quiet : tracks.

Lemma execute_task_quiet gw tid : quiet (execute_task gw tid).
Proof.
  unfold execute_task, load_task, latest_for_task, finish_task, report_run, validate_output. tracks_auto.
Qed.

Lemma with_session_quiet {A} (m : M A) : quiet m → quiet (with_session m).
Proof.
  intros Hm w. specialize (Hm (set_db (w_committed w) w)). unfold same, exec, with_session in *.
  by destruct (m _) as [r w'].
Qed.

Lemma run_leased_quiet gw tid lost_at : quiet (run_leased gw tid lost_at).
Proof.
  destruct lost_at as [n|].
  - intros w. pose proof (execute_task_quiet gw tid w) as Hq. unfold same, exec, run_leased, cut_off in *. simpl.
    by destruct (_ !! n) as [[]|].
  - assert (quiet (_ ← execute_task gw tid; commit)) as Hc by (tracks_auto; apply execute_task_quiet). exact Hc.
Qed.

Lemma process_task_quiet gw tid acquired lost_at : quiet (process_task gw tid acquired lost_at).
Proof.
  unfold process_task. destruct (negb acquired); [apply tracks_ret, _|]. apply with_session_quiet. tracks_auto.
  apply tracks_try; [apply _|apply run_leased_quiet|by intros e k [= <-]].
Qed.
End execution.

(** ** The loop *)

Section loop.
Context `{Env}.

Lemma logged_spec R (m : M unit) w : tracks R m → wp (logged m) w (λ _, R w) (λ _ _, False).
Proof.
  intros Hm. apply wp_try. eapply wp_mono; [by apply tracks_wp|done|]. intros e w' Hw'. by apply wp_ret.
Qed.

Lemma sweep_if_due_spec R `{!Harmless R} interval l (sweep : M Z) w :
  tracks R sweep → wp (sweep_if_due interval l sweep) w (λ _, R w) (λ _ _, False).
Proof.
  intros Hs. assert (tracks R monotonic) as Hm by (by apply harmless_obs).
  unfold sweep_if_due. apply wp_bind. unfold wp at 1. cbn [monotonic]. pose proof (Hm w) as Hw.
  destruct (Py.ge _ _); [|by apply wp_ret].
  apply wp_bind. unfold wp at 1. cbn [monotonic]. apply wp_bind.
  eapply wp_mono; [apply (logged_spec R); tracks_auto| |done].
  intros [] w' Hw'. apply wp_ret. etrans; [exact Hw|]. etrans; [|exact Hw']. exact (Hm _).
Qed.

(** Both sweeps of an iteration, in front of the rest. *)
Lemma sweeps_spec R `{!Harmless R} settings t p w {A} (f : float → float → M A) Q :
  (∀ a b w', R w w' → wp (f a b) w' Q (λ _ _, False)) →
  wp (a ← sweep_if_due ORPHAN_SWEEP_INTERVAL_SECONDS (last_sweep t) (requeue_orphaned_running_tasks true (po_leased p));
      b ← sweep_if_due AGENT_RUNTIME_REAP_SWEEP_INTERVAL_SECONDS (last_reap_sweep t)
            (run_agent_runtime_reap_sweep (po_locked p) (agent_runtime_reap_window_minutes settings));
      f a b) w Q (λ _ _, False).
Proof.
  intros Hf. apply wp_bind. eapply wp_mono; [apply (sweep_if_due_spec R), orphan_sweep_harmless, _| |done].
  intros a w1 H1. apply wp_bind. eapply wp_mono; [apply (sweep_if_due_spec R), reap_sweep_harmless, _| |done].
  intros b w2 H2. apply Hf. exact (transitivity H1 H2).
Qed.

Lemma process_or_put_back_spec gw tid p w :
  wp (process_or_put_back gw tid p) w (λ _, pushes w) (λ _ _, False).
Proof.
  assert (tracks pushes (process_dequeued gw tid p)) as Hp.
  { unfold process_dequeued. tracks_auto. apply same_pushes, process_task_quiet. }
  unfold process_or_put_back. apply wp_try. eapply wp_mono; [by apply tracks_wp|done|]. intros e w1 H1.
  eapply wp_mono; [apply (logged_spec pushes), harmless_enqueue| |done]. intros [] w2 H2. exact (transitivity H1 H2).
Qed.

(** One iteration, whatever happens in it, returns; when Redis answers it takes the task
    that has waited longest, and what waits behind that task keeps its place. *)
Lemma poll_once_spec settings gw t p w :
  wp (poll_once settings gw t p) w
    (λ r w', ∀ q x, (∀ n, redis_ok n = true) → w_queue w = q ++ [x] → r.2 = Some x ∧ ∃ l, w_queue w' = l ++ q)
    (λ _ _, False).
Proof.
  apply (sweeps_spec pushes). intros a b w1 [l1 H1].
  apply wp_bind, wp_modify, wp_bind. set (w2 := set_queue _ w1).
  unfold poll_queue. apply wp_try. unfold wp at 1, dequeue_task. cbn [w_xadds set_xadds pred].
  destruct (redis_ok (w_xadds w2)) eqn:Hr; cycle 1.
  { apply wp_ret, wp_bind, wp_ret, wp_ret. intros q x Hok. congruence. }
  cbn [w_queue set_xadds]. destruct (last (w_queue w2)) as [y|] eqn:Hl.
  - apply wp_bind. eapply wp_mono; [apply process_or_put_back_spec| |done]. intros [] w3 [l3 H3].
    apply wp_ret. intros q x _ Hq. cbn [w_queue set_queue] in H3. unfold w2 in *. cbn [w_queue set_queue] in *.
    rewrite H1, Hq, !app_assoc in *. rewrite last_snoc in Hl. injection Hl as <-. split; [done|].
    eexists. rewrite H3, length_app, take_app_le by (simpl; lia). rewrite take_ge by (simpl; lia).
    by rewrite !app_assoc.
  - apply wp_bind, wp_ret, wp_ret. intros q x _ Hq. unfold w2 in Hl. cbn [w_queue set_queue] in Hl.
    rewrite H1, Hq, !app_assoc, last_snoc in Hl. done.
Qed.

(** C20: the worker neither stops nor starves a task. No failure of a sweep, of Redis, of a
    lease or of a task's execution ends the loop. While Redis answers, the tasks that wait
    are taken in the order they were enqueued, one per iteration, whatever the sweeps,
    failed executions and other services push behind them: a task with [k] tasks in front of
    it is taken in iteration [k + 1]. *)
Theorem queue_is_served_in_order settings gw t polls w :
  wp (poll_loop settings gw t polls) w
    (λ taken _, (∀ n, redis_ok n = true) → take (length polls) (reverse (w_queue w)) `prefix_of` taken)
    (λ _ _, False).
Proof.
  revert t w. induction polls as [|p polls IH]; intros t w; simpl; [by apply wp_ret|].
  apply wp_bind. eapply wp_mono; [apply poll_once_spec| |done]. intros [t' dequeued] w1 Hp.
  apply wp_bind. eapply wp_mono; [apply IH| |done]. intros taken w2 Ht. apply wp_ret. intros Hok.
  destruct (w_queue w) as [|x q _] eqn:Hq using rev_ind; [by apply prefix_nil|].
  destruct (Hp q x Hok eq_refl) as [-> [l Hl]]. rewrite reverse_snoc. simpl. apply prefix_cons.
  etrans; [|exact (Ht Hok)]. rewrite Hl, reverse_app, take_app. by eexists.
Qed.

Lemma logged_tracks R `{!PreOrder R} (m : M unit) : tracks R m → tracks R (logged m).
Proof. intros Hm. apply tracks_try; [apply _|done|]. intros e k [= <-]. apply tracks_ret, _. Qed.

Lemma sweep_if_due_wal interval l (sweep : M Z) :
  tracks (pres wal) sweep → tracks (pres wal) (sweep_if_due interval l sweep).
Proof. intros Hs w. pose proof (sweep_if_due_spec (pres wal) interval l sweep w Hs) as Hw. unfold wp, exec in *.
  by destruct (sweep_if_due _ _ _ w) as [[]].
Qed.

Lemma process_or_put_back_wal gw tid p : tracks (pres wal) (process_or_put_back gw tid p).
Proof.
  apply tracks_try; [apply _| |].
  - unfold process_dequeued. tracks_auto. intros w. exact (process_task_wal gw tid a (po_lost_at p) w).
  - intros e k [= <-]. apply logged_tracks; [apply _|]. apply harmless_enqueue.
Qed.

Lemma dequeue_wal : tracks (pres wal) dequeue_task.
Proof.
  apply tracks_obs_wal. intros w. unfold same, exec, dequeue_task. destruct (redis_ok _); [|done]. by destruct (last _).
Qed.

Lemma poll_queue_wal : tracks (pres wal) poll_queue.
Proof. apply tracks_try; [apply _|apply dequeue_wal|]. intros e k [= <-]. apply tracks_ret, _. Qed.

Lemma poll_loop_wal settings gw t polls : tracks (pres wal) (poll_loop settings gw t polls).
Proof.
  revert t. induction polls as [|p polls IH]; intros t; simpl; [apply tracks_ret, _|].
  apply tracks_bind; [apply _| |intros r; tracks_auto; apply IH].
  unfold poll_once. apply tracks_bind; [apply _|apply sweep_if_due_wal, orphan_sweep_harmless, _|]. intros a.
  apply tracks_bind; [apply _|apply sweep_if_due_wal, reap_sweep_harmless, _|]. intros b.
  apply tracks_bind; [apply _|by apply tracks_obs_wal|]. intros _.
  apply tracks_bind; [apply _|apply poll_queue_wal|]. intros [tid|]; tracks_auto. apply process_or_put_back_wal.
Qed.

Lemma run_forever_wal settings leased locked polls : tracks (pres wal) (run_forever settings leased locked polls).
Proof.
  unfold run_forever.
  apply tracks_bind; [apply _|apply lift_tracks, _|]. intros _.
  apply tracks_bind; [apply _|apply orphan_sweep_harmless, _|]. intros _.
  apply tracks_bind; [apply _|apply reap_sweep_harmless, _|]. intros _.
  do 2 (apply tracks_bind; [apply _|by apply tracks_obs_wal|]; intros ?). apply poll_loop_wal.
Qed.

(** The worker process as a whole is safe at every crash point: from startup to stop,
    through both sweeps, every task it processes and every failure on the way, no provider
    request is ever sent that is not already charged for in the committed database; and a
    production process that was left with a placeholder secret does nothing at all. *)
Theorem worker_write_ahead settings leased locked polls w :
  wal w →
  wal (exec (run_forever settings leased locked polls) w) ∧
  (is_production settings = true → secret_key settings = DEFAULT_SECRET_KEY →
   run_forever settings leased locked polls w = (Raise unsafe_secret_key, w)).
Proof.
  intros Hw. split.
  - by apply run_forever_wal.
  - intros Hp Hk. unfold run_forever, require_safe_for_production. rewrite Hp, Hk. done.
Qed.
End loop.

(** ** Witnesses *)

Definition quiet_poll : Poll := mkPoll (λ _, false) (λ _, false) [] (Ret true) None.

(** Two tasks wait; a third is pushed while the first is refused its lease by a failing Redis
    call and put back: they are taken in order. *)
Example sample_queue_order :
  result (poll_loop Settings_default sample_gateway (mkTimers 0 0)
    [mkPoll (λ _, false) (λ _, false) [9%positive] (Raise (OperationalError "redis")) None; quiet_poll; quiet_poll; quiet_poll])
    (set_queue [8%positive; 7%positive] sample_world) = Ret [7%positive; 8%positive; 9%positive; 7%positive].
Proof. vm_compute. reflexivity. Qed.

Lemma worker_write_ahead_witness :
  wal sample_world ∧
  wal (exec (run_forever Settings_default (λ _, false) (λ _, false) [quiet_poll; quiet_poll]) sample_world).
Proof.
  split; [apply wal_sample|].
  exact (proj1 (worker_write_ahead Settings_default (λ _, false) (λ _, false) [quiet_poll; quiet_poll] sample_world wal_sample)).
Defined.

(** The sample environment, in which the database refuses the first commit. *)
Definition first_commit_fails : Env := {|
  sha256_hex := sha256_hex;
  json_loads := json_loads;
  json_dumps := json_dumps;
  validation_errors := validation_errors;
  fmt_2f := fmt_2f;
  fmt_0f := fmt_0f;
  dump_request := dump_request;
  dump_tool_policy := dump_tool_policy;
  dump_budget_policy := dump_budget_policy;
  output_json_schema := output_json_schema;
  utc_now := utc_now;
  mono_now := mono_now;
  provider_generate := provider_generate;
  object_put_ok := object_put_ok;
  redis_ok := redis_ok;
  commit_ok := λ n, negb (Nat.eqb n 0);
  savepoint_recovers := savepoint_recovers;
  bucket := bucket;
|}.

