(* ===== verification/Agents.v ===== *)
(** * Agents and their versions
    (services/api/routes/agents.py)

    Registration, versions, activation and suspension. The room that comes with an active
    agent is [Rooms.ensure_assignment]; as there, [rivals] is what other sessions commit
    while this one looks for a free room. *)

From S2P Require Import Prelude Enums Contracts Breaker Database Scenario Api Rooms.
Local Open Scope Z_scope.

(** [AgentVersionCreateRequest] and [AgentCreateRequest] *)
Record AgentVersionCreateRequest := mkVersionRequest {
  vc_system_prompt : string;
  vc_runtime_adapter : string;
  vc_model_policy_id : EntityId;
  vc_autonomy_level : AutonomyLevel.t;
  vc_tool_policy : ToolPolicy;
  vc_memory_policy : list (string * json);
  vc_settings : list (string * json);
}.

Record AgentCreateRequest := mkAgentRequest {
  ac_agent_code : string;
  ac_display_name : string;
  ac_description : option string;
  ac_department : option string;
  ac_role_name : option string;
  ac_version : AgentVersionCreateRequest;
}.

Definition same_code (r a : Agent.t) : bool :=
  bool_decide (Agent.tenant_id a = Agent.tenant_id r) &&
  bool_decide (Agent.agent_code a = Agent.agent_code r).

(** [session.add(agent); flush] *)
Definition insert_agent (r : Agent.t) : M unit :=
  d ← asks_db id;
  _ ← integrity (negb (is_present (Agent.id r) (DB.agents d))) "agents_pkey";
  _ ← integrity (is_present (Agent.tenant_id r) (DB.tenants d)) "agents_tenant_id_fkey";
  _ ← integrity (opt_present (Agent.active_version_id r) (DB.agent_versions d))
        "agents_active_version_id_fkey";
  _ ← integrity (negb (exists_row (same_code r) (DB.agents d))) "uq_agents_tenant_code";
  modify_db (DB.upd_agents (<[Agent.id r := r]>)).

Definition same_version (r v : AgentVersion.t) : bool :=
  bool_decide (AgentVersion.agent_id v = AgentVersion.agent_id r) &&
  bool_decide (AgentVersion.version v = AgentVersion.version r).

(** [session.add(version); flush] *)
Definition insert_agent_version (r : AgentVersion.t) : M unit :=
  d ← asks_db id;
  _ ← integrity (negb (is_present (AgentVersion.id r) (DB.agent_versions d))) "agent_versions_pkey";
  _ ← integrity (is_present (AgentVersion.agent_id r) (DB.agents d)) "agent_versions_agent_id_fkey";
  _ ← integrity (is_present (AgentVersion.model_policy_id r) (DB.model_policies d))
        "agent_versions_model_policy_id_fkey";
  _ ← integrity (negb (exists_row (same_version r) (DB.agent_versions d)))
        "uq_agent_versions_agent_version";
  modify_db (DB.upd_agent_versions (<[AgentVersion.id r := r]>)).

(** [_require_tenant_model_policy(session, model_policy_id, tenant_id)] *)
Definition require_tenant_model_policy (model_policy_id tenant_id : EntityId) : M unit :=
  policy ← get_tenant_scoped DB.model_policies ModelPolicy.tenant_id model_policy_id tenant_id;
  match policy with
  | None => raise (HTTPException 400 "model_policy_id does not belong to this tenant.")
  | Some _ => mret tt
  end.

Definition agent_or_404 (agent_id : EntityId) (user : User.t) : M Agent.t :=
  tenant_scoped_or_404 DB.agents Agent.tenant_id "Agent" agent_id (User.tenant_id user).

(** The highest version number among the agent's versions, or 0. *)
Definition max_version (agent_id : EntityId) (d : DB.t) : Z :=
  foldr Z.max 0 (AgentVersion.version <$>
    select (λ v, bool_decide (AgentVersion.agent_id v = agent_id)) (DB.agent_versions d)).

(** The row after its lifecycle state and its active version were assigned: when neither
    changes there is no UPDATE, so that [onupdate=func.now()] leaves [updated_at] alone. *)
Definition assigned (state : AgentLifecycleState.t) (version_id : option EntityId) (now : Z) (a : Agent.t) : Agent.t :=
  let same := bool_decide (Agent.lifecycle_state a = state) && bool_decide (Agent.active_version_id a = version_id) in
  Agent.set_updated_at (if same then Agent.updated_at a else now)
    (Agent.set_lifecycle_state state (Agent.set_active_version_id version_id a)).

Definition activated (version_id : EntityId) : Z → Agent.t → Agent.t :=
  assigned AgentLifecycleState.active (Some version_id).

Definition suspended (now : Z) (a : Agent.t) : Agent.t :=
  assigned AgentLifecycleState.suspended (Agent.active_version_id a) now a.

Section agent_routes.
Context `{Env}.
(** [payload.model_dump_json()] *)
Context (dump_version : AgentVersionCreateRequest → string).

(** [_publish(publisher, session, event_type, tenant_id, actor, agent_id, data)] *)
Definition publish_agent (event_type : EventType.t) (user : User.t) (agent_id : EntityId)
    (data : list (string * json)) : M unit :=
  publish_api event_type (User.tenant_id user) (user_actor user) agent_id None None (Some agent_id) data.

(** [_version_checksum(payload)] *)
Definition version_checksum (payload : AgentVersionCreateRequest) : string :=
  sha256_hex (dump_version payload).

(** [_try_room_assignment(coro, agent_id=..)] *)
Definition try_room_assignment {A} (coro : M A) : M unit :=
  try_except (_ ← coro; mret tt) (λ _, Some (mret tt)).

Definition version_row (i agent_id : EntityId) (n : Z) (payload : AgentVersionCreateRequest) (user : User.t) (now : Z) :
    AgentVersion.t :=
  AgentVersion.mk i agent_id n (vc_system_prompt payload) (vc_runtime_adapter payload)
    (vc_model_policy_id payload) (vc_autonomy_level payload) (vc_tool_policy payload)
    (vc_memory_policy payload) (vc_settings payload)
    (version_checksum payload) (Some (User.id user)) now.

Definition version_data (v : AgentVersion.t) : list (string * json) :=
  [("version", JInt (AgentVersion.version v)); ("checksum", JStr (AgentVersion.checksum v))].

(** [create_agent(payload, user, ...)] *)
Definition create_agent (rivals : nat → DB.t → DB.t) (payload : AgentCreateRequest) (user : User.t) :
    M Agent.t :=
  _ ← require_tenant_model_policy (vc_model_policy_id (ac_version payload)) (User.tenant_id user);
  i ← new_id;
  now ← utc;
  let agent := Agent.mk i (User.tenant_id user) (ac_agent_code payload) (ac_display_name payload)
    (ac_description payload) (ac_department payload) (ac_role_name payload)
    AgentLifecycleState.draft None (Some (User.id user)) now now in
  _ ← insert_agent agent;
  v ← new_id;
  let version := version_row v i 1 (ac_version payload) user now in
  _ ← insert_agent_version version;
  _ ← modify_db (DB.upd_agents (alter (activated v now) i));
  _ ← publish_agent EventType.agent_created user i [];
  _ ← publish_agent EventType.agent_version_created user i (version_data version);
  _ ← try_room_assignment (ensure_assignment rivals (User.tenant_id user) i);
  mret (activated v now agent).

(** [list_agents(user, session)] *)
Definition list_agents (user : User.t) : M (list Agent.t) :=
  asks_db (λ d, select (λ a, bool_decide (Agent.tenant_id a = User.tenant_id user)) (DB.agents d)).

(** [get_agent(agent_id, user, session)] *)
Definition get_agent (agent_id : EntityId) (user : User.t) : M Agent.t := agent_or_404 agent_id user.

(** [create_agent_version(agent_id, payload, user, ...)] *)
Definition create_agent_version (agent_id : EntityId) (payload : AgentVersionCreateRequest) (user : User.t) :
    M AgentVersion.t :=
  agent ← agent_or_404 agent_id user;
  _ ← require_tenant_model_policy (vc_model_policy_id payload) (User.tenant_id user);
  n ← asks_db (max_version agent_id);
  i ← new_id;
  now ← utc;
  let version := version_row i (Agent.id agent) (n + 1) payload user now in
  _ ← insert_agent_version version;
  _ ← publish_agent EventType.agent_version_created user (Agent.id agent) (version_data version);
  mret version.

(** [activate_agent(agent_id, version_id, user, ...)] *)
Definition activate_agent (rivals : nat → DB.t → DB.t) (agent_id version_id : EntityId) (user : User.t) :
    M Agent.t :=
  agent ← agent_or_404 agent_id user;
  version ← get_row DB.agent_versions version_id;
  let refuse := raise (HTTPException 400 "Version does not belong to this agent.") in
  match version with
  | None => refuse
  | Some version =>
      if decide (AgentVersion.agent_id version ≠ Agent.id agent) then refuse
      else
        now ← utc;
        _ ← modify_db (DB.upd_agents (alter (activated (AgentVersion.id version) now) (Agent.id agent)));
        _ ← publish_agent EventType.agent_activated user (Agent.id agent)
              [("active_version_id", JStr (pretty (AgentVersion.id version)))];
        _ ← try_room_assignment (ensure_assignment rivals (User.tenant_id user) (Agent.id agent));
        mret (activated (AgentVersion.id version) now agent)
  end.

(** [suspend_agent(agent_id, user, ...)] *)
Definition suspend_agent (agent_id : EntityId) (user : User.t) : M Agent.t :=
  agent ← agent_or_404 agent_id user;
  now ← utc;
  _ ← modify_db (DB.upd_agents (alter (suspended now) (Agent.id agent)));
  _ ← try_room_assignment (release_assignment (User.tenant_id user) (Agent.id agent));
  _ ← publish_agent EventType.agent_suspended user (Agent.id agent) [];
  mret (suspended now agent).
End agent_routes.

(** ** Versions are immutable *)

(** The versions [v0] are there, uncommitted changes and committed state alike. *)
Definition versions_kept (v0 : gmap EntityId AgentVersion.t) (w : World) : Prop :=
  v0 ⊆ DB.agent_versions (w_db w) ∧ v0 ⊆ DB.agent_versions (w_committed w).

Section immutability.
Context `{Env}.
Context (dump_version : AgentVersionCreateRequest → string) (v0 : gmap EntityId AgentVersion.t).

Abbreviation kept := (pres (versions_kept v0)).

(** A step that does not write to the table. *)
Lemma kept_same {A} (m : M A) :
  tracks (same (λ w, (DB.agent_versions (w_db w), DB.agent_versions (w_committed w)))) m → tracks kept m.
Proof.
  apply tracks_impl. intros w w' E [H1 H2]. unfold same in E. injection E as E1 E2.
  split; [by rewrite <- E1|by rewrite <- E2].
Qed.

Lemma insert_agent_version_kept r : tracks kept (insert_agent_version r).
Proof.
  unfold insert_agent_version. intros w [H1 H2]. unfold exec, asks_db, asks, modify_db, modify, mbind, ST_bind,
    mret, ST_ret, raise, integrity, is_present, id. simpl.
  case_bool_decide as Hk; simpl; [by split|].
  repeat (case_bool_decide; simpl; [|by split]). destruct (exists_row _ _); simpl; [by split|]. split; [simpl|done].
  etrans; [exact H1|]. apply insert_subseteq, eq_None_not_Some. exact Hk.
Qed.

Lemma rollback_kept : tracks kept rollback.
Proof. intros w [H1 H2]. by split. Qed.

Lemma publish_agent_kept ty user i data : tracks kept (publish_agent ty user i data).
Proof.
  apply kept_same. unfold publish_agent, publish_api. tracks_auto.
  intros w. unfold same, exec, publish. simpl. by destruct (redis_ok _).
Qed.

Lemma ensure_assignment_kept rivals tn ag :
  (∀ n d, DB.agent_versions d ⊆ DB.agent_versions (rivals n d)) →
  tracks kept (ensure_assignment rivals tn ag).
Proof.
  intros Hr. apply (ensure_assignment_pres (λ d, v0 ⊆ DB.agent_versions d)); [|done].
  intros n d Hd. etrans; [exact Hd|apply Hr].
Qed.

Lemma try_room_kept {A} (m : M A) : tracks kept m → tracks kept (try_room_assignment m).
Proof.
  intros Hm. unfold try_room_assignment. apply tracks_try; [apply _| |by intros e k [= <-]; apply tracks_ret, _].
  apply tracks_bind; [apply _|done|]. intros. apply tracks_ret, _.
Qed.

Lemma release_assignment_kept tn ag : tracks kept (release_assignment tn ag).
Proof.
  unfold release_assignment, get_assignment.
  apply tracks_try; [apply _| |by intros e k [= <-]; apply tracks_ret, _].
  apply kept_same. tracks_auto.
Qed.

(** Closes the steps of a route. *)
Ltac kept_auto :=
  repeat first [ apply insert_agent_version_kept | apply publish_agent_kept
               | apply try_room_kept | by apply ensure_assignment_kept | apply release_assignment_kept
               | solve [apply kept_same; tracks_auto] | tracks_step ].

Lemma create_agent_kept rivals payload user :
  (∀ n d, DB.agent_versions d ⊆ DB.agent_versions (rivals n d)) →
  tracks kept (create_agent dump_version rivals payload user).
Proof.
  intros Hr. unfold create_agent, require_tenant_model_policy, get_tenant_scoped, insert_agent. kept_auto.
Qed.

Lemma create_agent_version_kept agent_id payload user :
  tracks kept (create_agent_version dump_version agent_id payload user).
Proof.
  unfold create_agent_version, agent_or_404, tenant_scoped_or_404, require_tenant_model_policy,
    get_tenant_scoped. kept_auto.
Qed.

Lemma activate_agent_kept rivals agent_id version_id user :
  (∀ n d, DB.agent_versions d ⊆ DB.agent_versions (rivals n d)) →
  tracks kept (activate_agent rivals agent_id version_id user).
Proof.
  intros Hr. unfold activate_agent, agent_or_404, tenant_scoped_or_404, get_tenant_scoped. kept_auto.
Qed.

Lemma suspend_agent_kept agent_id user : tracks kept (suspend_agent agent_id user).
Proof. unfold suspend_agent, agent_or_404, tenant_scoped_or_404, get_tenant_scoped. kept_auto. Qed.
End immutability.

(** A request keeps what its route keeps. *)
Lemma request_keeps_versions `{Env} {A} (route : M A) w :
  (∀ v0, tracks (pres (versions_kept v0)) route) →
  DB.agent_versions (w_committed w) ⊆ DB.agent_versions (w_committed (exec (request route) w)).
Proof.
  intros Hr. specialize (Hr (DB.agent_versions (w_committed w)) (set_db (w_committed w) w)).
  unfold exec, request, mbind, ST_bind, commit in *.
  destruct (route _) as [[r|e] w1]; simpl in *; (destruct Hr as [H1 H2]; [done|]); [|done].
  by destruct (commit_ok _).
Qed.

(** ** Registration *)

Section registration.
Context `{Env}.
Context (dump_version : AgentVersionCreateRequest → string).

Lemma insert_agent_ok r w :
  DB.agents (w_db w) !! Agent.id r = None → is_Some (DB.tenants (w_db w) !! Agent.tenant_id r) →
  Agent.active_version_id r = None →
  (∀ k a, DB.agents (w_db w) !! k = Some a → same_code r a = false) →
  insert_agent r w = (Ret tt, set_db (DB.upd_agents (<[Agent.id r := r]>) (w_db w)) w).
Proof.
  intros Hk Ht Hv Hc. unfold insert_agent, is_present, opt_present, asks_db, asks, modify_db, modify, mbind,
    ST_bind, mret, ST_ret, integrity, id. simpl.
  rewrite bool_decide_false by (rewrite Hk; by intros []). rewrite bool_decide_true by done. rewrite Hv. simpl.
  assert (exists_row (same_code r) (DB.agents (w_db w)) = false) as -> by (by apply exists_row_false). done.
Qed.

Lemma insert_agent_version_ok r w :
  DB.agent_versions (w_db w) !! AgentVersion.id r = None →
  is_Some (DB.agents (w_db w) !! AgentVersion.agent_id r) →
  is_Some (DB.model_policies (w_db w) !! AgentVersion.model_policy_id r) →
  (∀ k v, DB.agent_versions (w_db w) !! k = Some v → same_version r v = false) →
  insert_agent_version r w = (Ret tt, set_db (DB.upd_agent_versions (<[AgentVersion.id r := r]>) (w_db w)) w).
Proof.
  intros Hk Ha Hp Hv. unfold insert_agent_version, is_present, asks_db, asks, modify_db, modify, mbind, ST_bind,
    mret, ST_ret, integrity, id. simpl.
  rewrite bool_decide_false by (rewrite Hk; by intros []). rewrite !bool_decide_true by done. simpl.
  assert (exists_row (same_version r) (DB.agent_versions (w_db w)) = false) as -> by (by apply exists_row_false).
  done.
Qed.

(** The end of a registration: two events, then the room. *)
Lemma announce_and_room user i data tn a v row w :
  DB.agents (w_db w) !! i = Some a → DB.agent_versions (w_db w) !! v = Some row →
  is_Some (DB.tenants (w_db w) !! tn) → rooms_ok (w_db w) →
  fresh_above (w_next_id w) (DB.room_assignments (w_db w)) →
  wp (_ ← publish_agent EventType.agent_created user i [];
      _ ← publish_agent EventType.agent_version_created user i data;
      _ ← try_room_assignment (ensure_assignment no_rivals tn i);
      mret a) w
    (λ a' w', a' = a ∧ DB.agents (w_db w') !! i = Some a ∧ DB.agent_versions (w_db w') !! v = Some row ∧
       ∃ k room, DB.room_assignments (w_db w') !! k = Some room ∧ active_for tn i room = true)
    (λ _ _, False).
Proof.
  intros Ha Hv Ht Hok Hf. unfold publish_agent.
  do 2 (apply wp_bind; eapply wp_mono; [apply publish_api_calm| |done];
        let w' := fresh "w" in let C1 := fresh in let C2 := fresh in intros ? w' [C1 C2];
        pose proof (f_equal DB.agents C1) as EA; pose proof (f_equal DB.agent_versions C1) as EV;
        pose proof (f_equal DB.tenants C1) as ET; pose proof (f_equal DB.room_assignments C1) as ER;
        simpl in EA, EV, ET, ER; rewrite <- EA in Ha; rewrite <- EV in Hv; rewrite <- ET in Ht;
        apply (rooms_ok_table _ (w_db w')) in Hok; [|done]; rewrite <- ER in Hf;
        apply (fresh_above_le _ _ _ C2) in Hf; clear EA EV ET ER C1 C2; clear dependent w; rename w' into w).
  destruct (ensure_assignment_alone tn i w Hok Hf Ht ltac:(by eexists))
    as (room & w' & He & _ & Hact & [k Hk] & Hcase).
  apply wp_bind, wp_try, wp_bind. unfold wp at 1. rewrite He. do 2 apply wp_ret. split; [done|].
  split_and!; [| |eauto]; by destruct Hcase as [[-> _]|[_ ->]].
Qed.

(** Registering an agent works. For a tenant with the named model policy, an unused agent
    code and no concurrent registration, [create_agent] returns the agent it stored: active,
    on its version 1 (which belongs to it and names the policy), and with a room of its own. *)
Theorem create_agent_registers payload user p w :
  let tn := User.tenant_id user in
  is_Some (DB.tenants (w_db w) !! tn) →
  DB.model_policies (w_db w) !! vc_model_policy_id (ac_version payload) = Some p → ModelPolicy.tenant_id p = tn →
  (∀ k a, DB.agents (w_db w) !! k = Some a →
     ¬ (Agent.tenant_id a = tn ∧ Agent.agent_code a = ac_agent_code payload)) →
  (∀ k v, DB.agent_versions (w_db w) !! k = Some v → is_Some (DB.agents (w_db w) !! AgentVersion.agent_id v)) →
  fresh_above (w_next_id w) (DB.agents (w_db w)) → fresh_above (w_next_id w) (DB.agent_versions (w_db w)) →
  fresh_above (w_next_id w) (DB.room_assignments (w_db w)) → rooms_ok (w_db w) →
  wp (create_agent dump_version no_rivals payload user) w
    (λ a w', DB.agents (w_db w') !! Agent.id a = Some a ∧
       Agent.lifecycle_state a = AgentLifecycleState.active ∧ Agent.agent_code a = ac_agent_code payload ∧
       (∃ v row, Agent.active_version_id a = Some v ∧ DB.agent_versions (w_db w') !! v = Some row ∧
          AgentVersion.agent_id row = Agent.id a ∧ AgentVersion.version row = 1 ∧
          AgentVersion.model_policy_id row = vc_model_policy_id (ac_version payload)) ∧
       (∃ k room, DB.room_assignments (w_db w') !! k = Some room ∧ active_for tn (Agent.id a) room = true))
    (λ _ _, False).
Proof.
  intros tn Htn Hp Hptn Hcode Hver Hfa Hfv Hfr Hrooms. unfold create_agent. apply wp_bind.
  unfold wp at 1, require_tenant_model_policy, get_tenant_scoped, mbind at 1 2, ST_bind at 1 2, get_row, asks_db, asks.
  simpl. rewrite Hp. simpl. rewrite decide_True by done. simpl.
  apply wp_bind. unfold wp at 1, new_id. apply wp_bind. unfold wp at 1, utc. apply wp_bind. unfold wp at 1.
  set (i := w_next_id w). set (w1 := set_utc_ticks _ _).
  rewrite insert_agent_ok; simpl; [|by apply fresh_above_None|done|done|].
  2:{ intros k a Ha. destruct (same_code _ a) eqn:Hs; [|done]. apply andb_true_iff in Hs as [?%bool_decide_eq_true ?%bool_decide_eq_true].
      by destruct (Hcode k a Ha). }
  apply wp_bind. unfold wp at 1, new_id. apply wp_bind. unfold wp at 1.
  rewrite insert_agent_version_ok; simpl.
  2:{ by apply fresh_above_None, fresh_above_succ. }
  2:{ rewrite lookup_insert_eq. by eexists. }
  2:{ by eexists. }
  2:{ intros k v Hv. unfold same_version. simpl. rewrite bool_decide_false; [done|].
      intros E. destruct (Hver k v Hv) as [a Ha]. rewrite E in Ha.
      pose proof (fresh_above_None _ _ Hfa : DB.agents (w_db w) !! i = None). congruence. }
  apply wp_bind, wp_modify.
  eapply wp_mono; [apply announce_and_room with (v := Pos.succ i); simpl| |done].
  - by rewrite lookup_alter_eq, lookup_insert_eq.
  - by rewrite lookup_insert_eq.
  - done.
  - by apply (rooms_ok_table (w_db w)).
  - by do 2 apply fresh_above_succ.
  - intros a w' (-> & Ha & Hv & Hroom). split_and!; [done..| |done]. do 2 eexists. done.
Qed.
End registration.

(** ** Theorems over whole requests *)

Section request_theorems.
Context `{Env}.
Context (dump_version : AgentVersionCreateRequest → string).

(** C29: no in-place editing. Whatever agent request runs, to whatever end, every committed
    agent version is committed afterwards, unchanged (given that concurrent sessions keep
    them too). *)
Theorem agent_versions_are_immutable rivals create agent_id version version_id user w :
  (∀ n d, DB.agent_versions d ⊆ DB.agent_versions (rivals n d)) →
  let kept {A} (route : M A) :=
    DB.agent_versions (w_committed w) ⊆ DB.agent_versions (w_committed (exec (request route) w)) in
  kept (create_agent dump_version rivals create user) ∧
  kept (create_agent_version dump_version agent_id version user) ∧
  kept (activate_agent rivals agent_id version_id user) ∧
  kept (suspend_agent agent_id user).
Proof.
  intros Hr kept. split_and!; apply request_keeps_versions; intros v0.
  - by apply create_agent_kept.
  - apply create_agent_version_kept.
  - by apply activate_agent_kept.
  - apply suspend_agent_kept.
Qed.
End request_theorems.

(** ** Witnesses and a run of the sample installation *)

Definition sample_version_request : AgentVersionCreateRequest :=
  mkVersionRequest "Scout ahead." "custom_durable" 3 AutonomyLevel.a1 ToolPolicy_default [] [].

Definition sample_agent_request : AgentCreateRequest :=
  mkAgentRequest "scout" "Scout" None None None sample_version_request.

Definition acme_operator : User.t :=
  User.mk 2 1 "op@acme.test" "Op" UserRole.operator UserStatus.active "hash".

(** While the first attempt looks for a room, another session gives room 1 of floor 1 to
    agent 4. *)
Definition room_race (n : nat) (d : DB.t) : DB.t :=
  if decide (n = 15%nat) then
    DB.upd_room_assignments (<[200%positive := AgentRoomAssignment.mk 200 1 4 1 1 0 None]>) d
  else d.

Lemma create_agent_registers_witness :
  wp (create_agent vc_system_prompt no_rivals sample_agent_request acme_operator) sample_world
    (λ a w', DB.agents (w_db w') !! Agent.id a = Some a ∧ Agent.agent_code a = "scout") (λ _ _, False).
Proof.
  eapply wp_mono; [apply (create_agent_registers vc_system_prompt sample_agent_request acme_operator
    (ModelPolicy.mk 3 1 "std" "openai" "gpt-4o-mini" 0) sample_world)| |done].
  - by eexists.
  - reflexivity.
  - reflexivity.
  - intros k a Ha. simpl in Ha; apply lookup_singleton_Some in Ha as [_ <-]. by intros [_ ?].
  - intros k v Hv. simpl in Hv; apply lookup_singleton_Some in Hv as [_ <-]. by eexists.
  - intros k [a Ha]. simpl in Ha; by apply lookup_singleton_Some in Ha as [<- _].
  - intros k [a Ha]. simpl in Ha; by apply lookup_singleton_Some in Ha as [<- _].
  - intros k [a Ha]. simpl in Ha; by rewrite lookup_empty in Ha.
  - by apply rooms_ok_empty.
  - intros a w' (Ha & _ & Hc & _). split; [exact Ha|exact Hc].
Defined.

Lemma agent_versions_are_immutable_witness :
  DB.agent_versions (w_committed sample_world) ⊆
  DB.agent_versions (w_committed
    (exec (request (create_agent vc_system_prompt room_race sample_agent_request acme_operator)) sample_world)).
Proof.
  refine (proj1 (agent_versions_are_immutable vc_system_prompt room_race sample_agent_request 4
                   sample_version_request 5 acme_operator sample_world _)).
  intros n d. unfold room_race. by case_decide.
Defined.

(** A registration that loses the race for a room is lost. The collision's
    [session.rollback()] undoes the whole request, not only the room: the API answers with
    the new agent, yet no such agent is ever committed. *)
Theorem create_agent_lost_in_room_race :
  ∃ a w', request (create_agent vc_system_prompt room_race sample_agent_request acme_operator) sample_world =
            (Ret a, w') ∧
    Agent.lifecycle_state a = AgentLifecycleState.active ∧
    DB.agents (w_committed w') !! Agent.id a = None ∧ DB.agents (w_committed w') = DB.agents sample_db.
Proof. do 2 eexists. split; [vm_compute; reflexivity|]. vm_compute. done. Qed.
