(* ===== verification/Reads.v ===== *)
(** * The read-only routes
    (services/api/routes: missions.py, tasks.py, audit.py, artifacts.py, model_invocations.py,
    dashboard.py, tenant.py, health.py)

    Every GET of the API but the apartment's ([RoomsView]), and that none of them tells a user
    anything about another tenant. *)

From Stdlib Require Import Floats.
From stdpp Require Import sorting.
From S2P Require Import Prelude Enums Contracts Telemetry Breaker Database Scenario Api Gateway Config.
From S2P Require Import Rooms Routes Projects RoomsView Closure Agents.
Local Open Scope Z_scope.

(** ** Missions and tasks *)

(** [_project_ids_for_missions(session, mission_ids, tenant_id)] *)
Definition project_ids_for_missions (mission_ids : list EntityId) (tn : EntityId) : M (gmap EntityId EntityId) :=
  match mission_ids with
  | [] => mret ∅
  | _ => asks_db (λ d, list_to_map ((λ l, (MissionProject.mission_id l, MissionProject.project_id l)) <$>
           select (λ l, bool_decide (MissionProject.mission_id l ∈ mission_ids) &&
                        bool_decide (MissionProject.tenant_id l = tn)) (DB.mission_projects d)))
  end.

(** The sessions query of [list_missions]. *)
Definition runtime_missions (mission_ids : list EntityId) : M (list EntityId) :=
  match mission_ids with
  | [] => mret []
  | _ => asks_db (λ d, omap AgentRuntimeSession.mission_id
           (select (λ s, match AgentRuntimeSession.mission_id s with
                         | Some m => bool_decide (m ∈ mission_ids)
                         | None => false
                         end) (DB.runtime_sessions d)))
  end.

Definition mission_of_tenant (tn : EntityId) (m : Mission.t) : bool := bool_decide (Mission.tenant_id m = tn).

(** [list_missions(user, session)] *)
Definition list_missions (user : User.t) : M (list MissionResponse) :=
  let tn := User.tenant_id user in
  missions ← asks_db (λ d, select (mission_of_tenant tn) (DB.missions d));
  project_ids ← project_ids_for_missions (Mission.id <$> missions) tn;
  runtime_mission_ids ← runtime_missions (Mission.id <$> missions);
  mret ((λ m, mkMissionResponse m (project_ids !! Mission.id m) (bool_decide (Mission.id m ∈ runtime_mission_ids)))
          <$> missions).

(** [list_tasks_for_mission(mission_id, user, session)] *)
Definition list_tasks_for_mission (mission_id : EntityId) (user : User.t) : M (list Task.t) :=
  _ ← mission_or_404 mission_id user;
  asks_db (λ d, select (λ t, bool_decide (Task.mission_id t = mission_id)) (DB.tasks d)).

(** [get_task(task_id, user, session)] *)
Definition get_task (task_id : EntityId) (user : User.t) : M Task.t := task_or_404 task_id (User.tenant_id user).

(** ** Audit *)

Definition AUDIT_READERS : list UserRole.t := [UserRole.platform_admin; UserRole.tenant_admin; UserRole.auditor].

(** [timedelta(days=7)] *)
Definition DEFAULT_HOOK_LOSS_WINDOW : Z := 7 * 86400000000.

(** [ORDER BY occurred_at ASC] and [DESC] *)
Definition earlier (a b : AuditEvent.t) : Prop := AuditEvent.occurred_at a ≤ AuditEvent.occurred_at b.
Definition later (a b : AuditEvent.t) : Prop := AuditEvent.occurred_at b ≤ AuditEvent.occurred_at a.
#[export] Instance earlier_dec : RelDecision earlier.
Proof. intros a b. unfold earlier. apply _. Defined.
#[export] Instance later_dec : RelDecision later.
Proof. intros a b. unfold later. apply _. Defined.

(** [mission_timeline(mission_id, user, session)] *)
Definition mission_timeline (mission_id : EntityId) (user : User.t) : M (list AuditEvent.t) :=
  _ ← mission_or_404 mission_id user;
  asks_db (λ d, merge_sort earlier (filter (λ e, AuditEvent.mission_id e = Some mission_id) (DB.audit_events d))).

(** [list_audit_events(user, session, limit)]; SQL refuses a negative LIMIT. *)
Definition list_audit_events (limit : Z) (user : User.t) : M (list AuditEvent.t) :=
  if limit <? 0 then raise (OperationalError "LIMIT must not be negative")
  else asks_db (λ d, take (Z.to_nat limit)
         (merge_sort later (filter (λ e, AuditEvent.tenant_id e = User.tenant_id user) (DB.audit_events d)))).

Section audit.
Context `{Env}.

(** [agent_runtime_hook_loss_rate(user, session, since, until)] *)
Definition agent_runtime_hook_loss_rate (since until : option Z) (user : User.t) : M HookLossRate :=
  since ← match since with Some s => mret s | None => now ← utc; mret (now - DEFAULT_HOOK_LOSS_WINDOW) end;
  compute_hook_loss_rate (User.tenant_id user) since until.
End audit.

(** ** Artifacts *)

Definition artifact_or_404 (artifact_id : EntityId) (user : User.t) : M Artifact.t :=
  tenant_scoped_or_404 DB.artifacts Artifact.tenant_id "Artifact" artifact_id (User.tenant_id user).

(** [list_mission_artifacts(mission_id, user, session)] *)
Definition list_mission_artifacts (mission_id : EntityId) (user : User.t) : M (list Artifact.t) :=
  _ ← mission_or_404 mission_id user;
  asks_db (λ d, select (λ a, bool_decide (Artifact.mission_id a = mission_id)) (DB.artifacts d)).

(** [get_artifact(artifact_id, user, session)] *)
Definition get_artifact (artifact_id : EntityId) (user : User.t) : M Artifact.t := artifact_or_404 artifact_id user.

(** [s.removeprefix(prefix)] *)
Fixpoint removeprefix (prefix s : string) : option string :=
  match prefix, s with
  | EmptyString, _ => Some s
  | String a prefix, String b s => if decide (a = b) then removeprefix prefix s else None
  | _, EmptyString => None
  end.

Record ArtifactDownloadResponse := mkDownload { download_url : string; expires_in_seconds : Z }.

(** [download_artifact(artifact_id, user, ...)]; [presign] is
    [object_store.generate_presigned_download_url]. *)
Definition download_artifact (presign : string → string) (settings : Settings) (artifact_id : EntityId) (user : User.t) :
    M ArtifactDownloadResponse :=
  artifact ← artifact_or_404 artifact_id user;
  let bucket_prefix := "s3://" +:+ object_store_bucket settings +:+ "/" in
  let key := default (Artifact.storage_uri artifact) (removeprefix bucket_prefix (Artifact.storage_uri artifact)) in
  mret (mkDownload (presign key) (object_store_signed_url_ttl_seconds settings)).

(** ** Model invocations, the dashboard, the tenant and health *)

(** [ModelInvocationResponse] *)
Record ModelInvocationResponse := mkInvocationResponse {
  mi_id : EntityId;
  mi_task_id : EntityId;
  mi_provider : string;
  mi_model : string;
  mi_input_tokens : Z;
  mi_output_tokens : Z;
  mi_estimated_cost : Z;
  mi_latency_ms : Z;
  mi_status : string;
  mi_created_at : Z;
}.

Definition invocation_response (i : ModelInvocation.t) : ModelInvocationResponse :=
  mkInvocationResponse (ModelInvocation.id i) (ModelInvocation.task_id i) (ModelInvocation.provider i)
    (ModelInvocation.model i) (ModelInvocation.input_tokens i) (ModelInvocation.output_tokens i)
    (ModelInvocation.estimated_cost i) (ModelInvocation.latency_ms i) (value (ModelInvocation.status i))
    (ModelInvocation.created_at i).

(** [ORDER BY created_at] *)
Definition invoked_before (a b : ModelInvocation.t) : Prop := ModelInvocation.created_at a ≤ ModelInvocation.created_at b.
#[export] Instance invoked_before_dec : RelDecision invoked_before.
Proof. intros a b. unfold invoked_before. apply _. Defined.

(** [list_mission_model_invocations(mission_id, user, session)] *)
Definition list_mission_model_invocations (mission_id : EntityId) (user : User.t) : M (list ModelInvocationResponse) :=
  _ ← mission_or_404 mission_id user;
  asks_db (λ d, invocation_response <$> merge_sort invoked_before
    (select (λ i, bool_decide (ModelInvocation.mission_id i = mission_id)) (DB.model_invocations d))).

Record DashboardSummary := mkDashboard {
  total_agents : Z;
  active_missions : Z;
  failed_missions : Z;
  completed_missions : Z;
  model_calls : Z;
  current_cost_usd : float;
  system_status : string;
}.

Definition invocation_of_tenant (tn : EntityId) (i : ModelInvocation.t) : bool :=
  bool_decide (ModelInvocation.tenant_id i = tn).

(** [count_missions(status_value)] *)
Definition count_missions (tn : EntityId) (status : MissionStatus.t) : M Z :=
  asks_db (λ d, Z.of_nat (count_rows (λ m, mission_of_tenant tn m && bool_decide (Mission.status m = status)) (DB.missions d))).

(** [dashboard_summary(user, session)] *)
Definition dashboard_summary (user : User.t) : M DashboardSummary :=
  let tn := User.tenant_id user in
  total_agents ← asks_db (λ d, Z.of_nat (count_rows (λ a, bool_decide (Agent.tenant_id a = tn)) (DB.agents d)));
  model_calls ← asks_db (λ d, Z.of_nat (count_rows (invocation_of_tenant tn) (DB.model_invocations d)));
  total_cost ← asks_db (λ d, sumZ (ModelInvocation.estimated_cost <$> select (invocation_of_tenant tn) (DB.model_invocations d)));
  running ← count_missions tn MissionStatus.running;
  failed ← count_missions tn MissionStatus.failed;
  completed ← count_missions tn MissionStatus.completed;
  mret (mkDashboard total_agents running failed completed model_calls (Py.float_of_usd total_cost) "ok").

(** [get_current_tenant(user, session)] *)
Definition get_current_tenant (user : User.t) : M Tenant.t :=
  tenant ← get_row DB.tenants (User.tenant_id user);
  match tenant with None => raise (not_found "Tenant") | Some t => mret t end.

(** [ready()]: what the two probes found, and the overall status. *)
Definition ready (database_ok redis_ok : bool) : string * (string * string) :=
  let check (b : bool) := if b then "ok" else "error" in
  (if database_ok && redis_ok then "ready" else "degraded", (check database_ok, check redis_ok)).

(** ** The reads as one service *)

Inductive read_request :=
| RListMissions | RGetMission (i : EntityId) | RListTasks (i : EntityId) | RGetTask (i : EntityId)
| RTimeline (i : EntityId) | RAuditEvents (limit : Z) | RHookLoss (since until : option Z)
| RListArtifacts (i : EntityId) | RGetArtifact (i : EntityId) | RDownload (i : EntityId)
| RInvocations (i : EntityId) | RDashboard | RTenant
| RListAgents | RGetAgent (i : EntityId) | RListProjects | RListPolicies | RListExternalAgents.

Inductive answer :=
| AMissions (l : list MissionResponse) | AMission (m : MissionResponse) | ATasks (l : list Task.t) | ATask (t : Task.t)
| AEvents (l : list AuditEvent.t) | ALossRate (r : HookLossRate) | AArtifacts (l : list Artifact.t) | AArtifact (a : Artifact.t)
| ADownload (r : ArtifactDownloadResponse) | AInvocations (l : list ModelInvocationResponse)
| ADashboard (s : DashboardSummary) | ATenant (t : Tenant.t) | AAgents (l : list Agent.t) | AAgent (a : Agent.t)
| AProjects (l : list Project.t) | APolicies (l : list ModelPolicy.t) | AExternalAgents (l : list ExternalAgentStatus.t).

Definition answering {A} (c : A → answer) (m : M A) : M answer := a ← m; mret (c a).

Section reads.
Context `{Env} (presign : string → string) (settings : Settings).

(** The GET routes, each behind its own path; the dependency of the routers that refuses the
    hook credential ([forbid_agent_runtime]) comes before them and is left out here, so that
    the statement covers every user. *)
Definition serve (q : read_request) (user : User.t) : M answer :=
  match q with
  | RListMissions => answering AMissions (list_missions user)
  | RGetMission i => answering AMission (get_mission i user)
  | RListTasks i => answering ATasks (list_tasks_for_mission i user)
  | RGetTask i => answering ATask (get_task i user)
  | RTimeline i => answering AEvents (mission_timeline i user)
  | RAuditEvents limit => answering AEvents (list_audit_events limit user)
  | RHookLoss since until => answering ALossRate (agent_runtime_hook_loss_rate since until user)
  | RListArtifacts i => answering AArtifacts (list_mission_artifacts i user)
  | RGetArtifact i => answering AArtifact (get_artifact i user)
  | RDownload i => answering ADownload (download_artifact presign settings i user)
  | RInvocations i => answering AInvocations (list_mission_model_invocations i user)
  | RDashboard => answering ADashboard (dashboard_summary user)
  | RTenant => answering ATenant (get_current_tenant user)
  | RListAgents => answering AAgents (list_agents user)
  | RGetAgent i => answering AAgent (get_agent i user)
  | RListProjects => answering AProjects (list_projects user)
  | RListPolicies => answering APolicies (list_model_policies user)
  | RListExternalAgents => answering AExternalAgents (list_external_agent_statuses user)
  end.
End reads.

(** ** Two runs side by side

    [agrees I E m m']: from worlds related by [I], [m] and [m'] return values related by [E] or
    raise the same exception, and end in worlds related by [I]. *)
Definition agrees {A B} (I : World → World → Prop) (E : A → B → Prop) (m : M A) (m' : M B) : Prop :=
  ∀ w w', I w w' →
    match m w, m' w' with
    | (Ret a, v), (Ret b, v') => E a b ∧ I v v'
    | (Raise e, v), (Raise e', v') => e = e' ∧ I v v'
    | _, _ => False
    end.

Section agrees_rules.
Context (I : World → World → Prop).

Lemma agrees_ret {A B} (E : A → B → Prop) a b : E a b → agrees I E (mret a) (mret b).
Proof. by intros HE w w' HI. Qed.

Lemma agrees_raise {A B} (E : A → B → Prop) e : agrees I E (raise e) (raise e).
Proof. by intros w w' HI. Qed.

Lemma agrees_bind {A B C D} (E : A → B → Prop) (F : C → D → Prop) m m' (f : A → M C) (g : B → M D) :
  agrees I E m m' → (∀ a b, E a b → agrees I F (f a) (g b)) → agrees I F (m ≫= f) (m' ≫= g).
Proof.
  intros Hm Hf w w' HI. specialize (Hm w w' HI). unfold mbind, ST_bind.
  destruct (m w) as [[a|e] v], (m' w') as [[b|e'] v']; [|done..]. destruct Hm as [HE HI']. by apply Hf.
Qed.

Lemma agrees_asks {A B} (E : A → B → Prop) (f : DB.t → A) (g : DB.t → B) :
  (∀ w w', I w w' → E (f (w_db w)) (g (w_db w'))) → agrees I E (asks_db f) (asks_db g).
Proof. intros Hf w w' HI. split; [by apply Hf|done]. Qed.

Lemma agrees_mono {A B} (E F : A → B → Prop) m m' : agrees I E m m' → (∀ a b, E a b → F a b) → agrees I F m m'.
Proof.
  intros Hm HF w w' HI. specialize (Hm w w' HI). destruct (m w) as [[a|e] v], (m' w') as [[b|e'] v']; naive_solver.
Qed.
End agrees_rules.

(** ** What concerns a tenant *)

Definition in_tenant (tn : EntityId) (d : DB.t) (mission_id : EntityId) : bool :=
  match DB.missions d !! mission_id with Some m => mission_of_tenant tn m | None => false end.

Definition visible_event (tn : EntityId) (d : DB.t) (e : AuditEvent.t) : Prop :=
  AuditEvent.tenant_id e = tn ∨ ∃ m, AuditEvent.mission_id e = Some m ∧ in_tenant tn d m = true.

#[export] Instance visible_event_dec tn d e : Decision (visible_event tn d e).
Proof.
  unfold visible_event. destruct (AuditEvent.mission_id e) as [m|].
  - destruct (decide (AuditEvent.tenant_id e = tn)); [left; by left|]. destruct (in_tenant tn d m) eqn:Hm.
    + left. right. by exists m.
    + right. intros [?|(m' & [= <-] & ?)]; congruence.
  - destruct (decide (AuditEvent.tenant_id e = tn)); [left; by left|]. right. by intros [?|(? & ? & _)].
Defined.

(** The same rows satisfy [P]. *)
Definition same_rows {V} (P : V → Prop) (m m' : gmap EntityId V) : Prop :=
  ∀ k v, P v → m !! k = Some v ↔ m' !! k = Some v.

(** Two databases that hold the same about tenant [tn]: its own rows, and the rows that hang
    on its missions. Everything else may differ. *)
Record same_view (tn : EntityId) (d d' : DB.t) : Prop := {
  sv_tenant : DB.tenants d !! tn = DB.tenants d' !! tn;
  sv_missions : same_rows (λ m, Mission.tenant_id m = tn) (DB.missions d) (DB.missions d');
  sv_tasks : same_rows (λ t, in_tenant tn d (Task.mission_id t) = true) (DB.tasks d) (DB.tasks d');
  sv_artifacts : same_rows (λ a, Artifact.tenant_id a = tn ∨ in_tenant tn d (Artifact.mission_id a) = true)
    (DB.artifacts d) (DB.artifacts d');
  sv_invocations : same_rows (λ i, ModelInvocation.tenant_id i = tn ∨ in_tenant tn d (ModelInvocation.mission_id i) = true)
    (DB.model_invocations d) (DB.model_invocations d');
  sv_links : same_rows (λ l, MissionProject.tenant_id l = tn) (DB.mission_projects d) (DB.mission_projects d');
  sv_sessions : same_rows (λ s, ∃ m, AgentRuntimeSession.mission_id s = Some m ∧ in_tenant tn d m = true)
    (DB.runtime_sessions d) (DB.runtime_sessions d');
  sv_closures : same_rows (λ c, AgentRuntimeClosure.tenant_id c = tn) (DB.closures d) (DB.closures d');
  sv_agents : same_rows (λ a, Agent.tenant_id a = tn) (DB.agents d) (DB.agents d');
  sv_projects : same_rows (λ p, Project.tenant_id p = tn) (DB.projects d) (DB.projects d');
  sv_policies : same_rows (λ p, ModelPolicy.tenant_id p = tn) (DB.model_policies d) (DB.model_policies d');
  sv_external : same_rows (λ s, ExternalAgentStatus.tenant_id s = tn) (DB.external_agent_statuses d) (DB.external_agent_statuses d');
  sv_events : filter (visible_event tn d) (DB.audit_events d) = filter (visible_event tn d) (DB.audit_events d');
}.

(** Missions and links are stored under their primary keys. *)
Record reads_keyed (d : DB.t) : Prop := {
  rk_missions : ∀ k m, DB.missions d !! k = Some m → Mission.id m = k;
  rk_links : ∀ k l, DB.mission_projects d !! k = Some l → MissionProject.mission_id l = k;
}.

(** ** Lemmas *)

Lemma select_filter {V} (P : V → bool) (m : gmap EntityId V) :
  select P m ≡ₚ select P (filter (λ kv, P kv.2 = true) m).
Proof.
  induction m as [|k v m Hk IH] using map_ind; [by rewrite map_filter_empty|].
  rewrite select_insert_fresh by done. destruct (P v) eqn:HP.
  - rewrite map_filter_insert_True, select_insert_fresh, HP by (done || (apply map_lookup_filter_None; auto)). by rewrite IH.
  - rewrite map_filter_insert_False by (simpl; congruence). rewrite delete_id by done. done.
Qed.

Lemma select_ids_nodup {V} (P : V → bool) (f : V → EntityId) (m : gmap EntityId V) :
  (∀ k v, m !! k = Some v → f v = k) → NoDup (f <$> select P m).
Proof.
  induction m as [|k v m Hk IH] using map_ind; intros Hf; [constructor|].
  assert (NoDup (f <$> select P m)) as Hm.
  { apply IH. intros j u Hj. apply Hf. rewrite lookup_insert_ne by congruence. done. }
  rewrite select_insert_fresh by done. destruct (P v); [|done]. simpl. constructor; [|done].
  intros (u & Hu & [_ [j Hj]]%elem_of_select)%list_elem_of_fmap.
  assert (f v = k) as Hv by (apply Hf, lookup_insert_eq).
  assert (f u = j) as Hu' by (apply Hf; rewrite lookup_insert_ne; congruence). congruence.
Qed.

Lemma select_agree {V} (P : V → bool) (m m' : gmap EntityId V) :
  same_rows (λ v, P v = true) m m' → select P m ≡ₚ select P m'.
Proof.
  intros Hs. rewrite (select_filter P m), (select_filter P m').
  erewrite (map_eq (filter _ m) (filter _ m')); [done|]. intros k. apply option_eq. intros v.
  rewrite !map_lookup_filter_Some. simpl. specialize (Hs k v). naive_solver.
Qed.

(** *** Missions in bulk *)

(** What [_mission_response] reads from a database. *)
Definition response_of (d : DB.t) (m : Mission.t) : MissionResponse :=
  mkMissionResponse m
    (match DB.mission_projects d !! Mission.id m with
     | Some l => if decide (MissionProject.tenant_id l = Mission.tenant_id m) then Some (MissionProject.project_id l) else None
     | None => None
     end)
    (exists_row (λ s, bool_decide (AgentRuntimeSession.mission_id s = Some (Mission.id m))) (DB.runtime_sessions d)).

Lemma mission_response_value m w : mission_response m w = (Ret (response_of (w_db w) m), w).
Proof. done. Qed.

Lemma links_lookup P d i :
  reads_keyed d →
  (list_to_map ((λ l, (MissionProject.mission_id l, MissionProject.project_id l)) <$> select P (DB.mission_projects d))
     : gmap EntityId EntityId) !! i =
  (l ← DB.mission_projects d !! i; if P l : bool then Some (MissionProject.project_id l) else None).
Proof.
  intros [_ Hk]. set (f := λ l, _). set (rows := f <$> _).
  assert (∀ p, (i, p) ∈ rows ↔ ∃ l, DB.mission_projects d !! i = Some l ∧ P l = true ∧ MissionProject.project_id l = p) as Hin.
  { intros p. unfold rows. rewrite list_elem_of_fmap. split.
    - intros (l & [= -> ->] & [HP [k Hl]]%elem_of_select). pose proof (Hk k l Hl) as ->. by exists l.
    - intros (l & Hl & HP & <-). exists l. split; [unfold f; by rewrite (Hk i l Hl)|]. apply elem_of_select. eauto. }
  destruct (DB.mission_projects d !! i) as [l|] eqn:Hl; simpl; [destruct (P l) eqn:HP|].
  - apply elem_of_list_to_map_1'; [|apply Hin; eauto]. intros p Hp. apply Hin in Hp. naive_solver.
  - apply not_elem_of_list_to_map_1. intros ([j p] & Hj & Hp)%list_elem_of_fmap. simpl in Hj. subst j.
    apply Hin in Hp as (l' & Hl' & HP' & _). congruence.
  - apply not_elem_of_list_to_map_1. intros ([j p] & Hj & Hp)%list_elem_of_fmap. simpl in Hj. subst j.
    apply Hin in Hp as (l' & Hl' & HP' & _). congruence.
Qed.

Lemma runtime_lookup (ids : list EntityId) d i :
  i ∈ ids →
  bool_decide (i ∈ omap AgentRuntimeSession.mission_id
    (select (λ s, match AgentRuntimeSession.mission_id s with Some m => bool_decide (m ∈ ids) | None => false end)
       (DB.runtime_sessions d))) =
  exists_row (λ s, bool_decide (AgentRuntimeSession.mission_id s = Some i)) (DB.runtime_sessions d).
Proof.
  intros Hi. apply eq_bool_prop_intro. rewrite !Is_true_true, bool_decide_eq_true, list_elem_of_omap, exists_row_true.
  split.
  - intros (s & [_ [k Hs]]%elem_of_select & Hm). exists k, s. by rewrite bool_decide_true.
  - intros (k & s & Hs & Hm%bool_decide_eq_true). exists s. split; [|done]. apply elem_of_select.
    rewrite Hm. split; [by apply bool_decide_eq_true|eauto].
Qed.

Lemma list_missions_value user w :
  reads_keyed (w_db w) →
  list_missions user w =
  (Ret (response_of (w_db w) <$> select (mission_of_tenant (User.tenant_id user)) (DB.missions (w_db w))), w).
Proof.
  intros Hk. unfold list_missions, mbind, ST_bind. cbn [asks_db asks].
  set (ms := select _ _). unfold project_ids_for_missions, runtime_missions.
  assert (∀ m, m ∈ ms → Mission.tenant_id m = User.tenant_id user) as Htn.
  { intros m [Hm _]%elem_of_select. by apply bool_decide_eq_true in Hm. }
  destruct ms as [|m0 ms]; [done|]. change (Mission.id <$> m0 :: ms) with (Mission.id m0 :: (Mission.id <$> ms)).
  cbn [asks_db asks mret ST_ret]. unfold mret, ST_ret. f_equal. f_equal. apply list_fmap_ext. intros j m Hj%list_elem_of_lookup_2.
  assert (Mission.id m ∈ Mission.id m0 :: (Mission.id <$> ms)) as Hin by exact (list_elem_of_fmap_2 Mission.id (m0 :: ms) m Hj).
  unfold response_of. f_equal; [|by apply runtime_lookup].
  rewrite links_lookup by done. destruct (DB.mission_projects (w_db w) !! Mission.id m) as [l|] eqn:Hl; [|done]. simpl.
  rewrite (rk_links _ Hk _ _ Hl), (bool_decide_true (Mission.id m ∈ _)) by done. simpl. rewrite (Htn m Hj).
  case_bool_decide; by case_decide.
Qed.

(** The listing of missions, which reads all links and sessions in two queries, says of
    every mission exactly what a request for that mission alone says, and lists all of the
    tenant's missions and no other, once each. *)
Theorem list_missions_agrees_with_get user w :
  reads_keyed (w_db w) →
  ∃ l, list_missions user w = (Ret l, w) ∧
    (∀ r, r ∈ l → get_mission (Mission.id (mr_mission r)) user w = (Ret r, w)) ∧
    mr_mission <$> l ≡ₚ select (mission_of_tenant (User.tenant_id user)) (DB.missions (w_db w)) ∧
    NoDup ((λ r, Mission.id (mr_mission r)) <$> l).
Proof.
  intros Hk. eexists. split; [by apply list_missions_value|]. split_and!.
  - intros r (m & -> & [Hm [k Hl]]%elem_of_select)%list_elem_of_fmap. simpl. apply bool_decide_eq_true in Hm.
    pose proof (rk_missions _ Hk _ _ Hl). subst k.
    unfold get_mission, mission_or_404, tenant_scoped_or_404, get_tenant_scoped, get_row, mbind, ST_bind. cbn [asks_db asks].
    rewrite Hl. cbn [mret ST_ret]. by rewrite decide_True.
  - rewrite <- list_fmap_compose. by rewrite (list_fmap_ext _ id), list_fmap_id.
  - rewrite <- list_fmap_compose. change (NoDup (Mission.id <$> select (mission_of_tenant (User.tenant_id user)) (DB.missions (w_db w)))).
    apply select_ids_nodup, rk_missions, Hk.
Qed.

(** *** Isolation *)

(** Answers may list rows in another order where the query does not fix it. *)
Definition same_answer (a b : answer) : Prop :=
  match a, b with
  | AMissions l, AMissions l' => l ≡ₚ l'
  | ATasks l, ATasks l' => l ≡ₚ l'
  | AArtifacts l, AArtifacts l' => l ≡ₚ l'
  | AInvocations l, AInvocations l' => l ≡ₚ l'
  | AAgents l, AAgents l' => l ≡ₚ l'
  | AProjects l, AProjects l' => l ≡ₚ l'
  | APolicies l, APolicies l' => l ≡ₚ l'
  | AExternalAgents l, AExternalAgents l' => l ≡ₚ l'
  | _, _ => a = b
  end.

Section isolation.
Context `{Env} (user : User.t) (d d' : DB.t).
Abbreviation tn := (User.tenant_id user).
Context (Hv : same_view tn d d') (Hk : reads_keyed d) (Hk' : reads_keyed d').

Definition twin_worlds (w w' : World) : Prop := w_db w = d ∧ w_db w' = d' ∧ w_utc_ticks w = w_utc_ticks w'.

Abbreviation twins := (agrees twin_worlds).

Lemma twins_asks {A B} (E : A → B → Prop) (f : DB.t → A) (g : DB.t → B) : E (f d) (g d') → twins E (asks_db f) (asks_db g).
Proof. intros HE. apply agrees_asks. by intros w w' (-> & -> & _). Qed.

Lemma twins_utc : twins eq utc utc.
Proof. intros w w' (E1 & E2 & E3). unfold utc. rewrite E3. split; [done|]. split_and!; simpl; congruence. Qed.

Lemma in_tenant_agree i : in_tenant tn d i = in_tenant tn d' i.
Proof.
  unfold in_tenant, mission_of_tenant. pose proof (sv_missions _ _ _ Hv i) as Hm.
  destruct (DB.missions d !! i) as [m|], (DB.missions d' !! i) as [m'|]; repeat case_bool_decide; naive_solver.
Qed.

(** A tenant-scoped lookup. *)
Lemma scoped_agrees {V} (table : DB.t → gmap EntityId V) tenant_of what i :
  same_rows (λ v, tenant_of v = tn) (table d) (table d') →
  twins (λ v v', v = v' ∧ table d !! i = Some v ∧ tenant_of v = tn)
    (tenant_scoped_or_404 table tenant_of what i tn) (tenant_scoped_or_404 table tenant_of what i tn).
Proof.
  intros Hs w w' HI. pose proof HI as (E1 & E2 & _).
  unfold tenant_scoped_or_404, get_tenant_scoped, get_row, mbind, ST_bind. cbn [asks_db asks]. rewrite E1, E2. specialize (Hs i).
  destruct (table d !! i) as [v|] eqn:Hd, (table d' !! i) as [v'|] eqn:Hd'; cbn [mret ST_ret];
    repeat case_decide; simpl; naive_solver.
Qed.

(** The mission in front of a listing: afterwards it is known to be the tenant's. *)
Lemma mission_first {A B} (F : A → B → Prop) i (m : M A) (m' : M B) :
  (in_tenant tn d i = true → twins F m m') →
  twins F (_ ← mission_or_404 i user; m) (_ ← mission_or_404 i user; m').
Proof.
  intros Hm. unfold mission_or_404. eapply agrees_bind; [apply scoped_agrees, (sv_missions _ _ _ Hv)|].
  intros x y (-> & Hx & Ht). apply Hm. unfold in_tenant. rewrite Hx. by apply bool_decide_eq_true.
Qed.

Lemma select_tenant {V} (P : V → bool) (Q : V → Prop) (m m' : gmap EntityId V) :
  same_rows Q m m' → (∀ v, P v = true → Q v) → select P m ≡ₚ select P m'.
Proof. intros Hs HP. apply select_agree. intros k v Hv'. apply Hs, HP, Hv'. Qed.

Lemma count_tenant {V} (P : V → bool) (Q : V → Prop) (m m' : gmap EntityId V) :
  same_rows Q m m' → (∀ v, P v = true → Q v) → count_rows P m = count_rows P m'.
Proof. intros Hs HP. unfold count_rows. by rewrite (select_tenant P Q m m' Hs HP). Qed.

(** Filters of the audit trail that only select visible events. *)
Lemma events_agree (P : AuditEvent.t → Prop) `{!∀ e, Decision (P e)} :
  (∀ e, P e → visible_event tn d e) → filter P (DB.audit_events d) = filter P (DB.audit_events d').
Proof.
  intros HP. pose proof (sv_events _ _ _ Hv) as He.
  assert (∀ l : list AuditEvent.t, filter P l = filter P (filter (visible_event tn d) l)) as Hf.
  { intros l. by rewrite list_filter_filter_l. }
  by rewrite (Hf (DB.audit_events d)), (Hf (DB.audit_events d')), He.
Qed.

Lemma response_agrees m : Mission.tenant_id m = tn → in_tenant tn d (Mission.id m) = true → response_of d m = response_of d' m.
Proof.
  intros Ht Hm. unfold response_of. f_equal.
  - pose proof (sv_links _ _ _ Hv (Mission.id m)) as Hl. rewrite Ht.
    destruct (DB.mission_projects d !! Mission.id m) as [l|] eqn:E1, (DB.mission_projects d' !! Mission.id m) as [l'|] eqn:E2;
      repeat case_decide; naive_solver.
  - apply eq_bool_prop_intro. rewrite !Is_true_true, !exists_row_true.
    assert (∀ k s, bool_decide (AgentRuntimeSession.mission_id s = Some (Mission.id m)) = true →
      DB.runtime_sessions d !! k = Some s ↔ DB.runtime_sessions d' !! k = Some s) as Hs.
    { intros k s He%bool_decide_eq_true. apply (sv_sessions _ _ _ Hv). eauto. }
    naive_solver.
Qed.

(** *** Route by route *)

Lemma list_missions_agrees : twins (≡ₚ) (list_missions user) (list_missions user).
Proof.
  intros w w' HI. pose proof HI as (E1 & E2 & _). rewrite !list_missions_value by (rewrite ?E1, ?E2; done). rewrite E1, E2. split; [|done].
  rewrite <- (select_tenant (mission_of_tenant tn) _ _ _ (sv_missions _ _ _ Hv)) by (intros m; apply bool_decide_eq_true).
  erewrite list_fmap_ext; [done|]. intros j m Hj%list_elem_of_lookup_2. apply elem_of_select in Hj as [Ht [k Hm]].
  apply bool_decide_eq_true in Ht as Ht'. apply response_agrees; [done|]. unfold in_tenant.
  pose proof (rk_missions _ Hk _ _ Hm) as Hid. by rewrite Hid, Hm.
Qed.

Lemma get_mission_agrees i : twins eq (get_mission i user) (get_mission i user).
Proof.
  unfold get_mission, mission_or_404. eapply agrees_bind; [apply scoped_agrees, (sv_missions _ _ _ Hv)|].
  intros m m' (<- & Hm & Ht) w w' HI. pose proof HI as (E1 & E2 & _). rewrite !mission_response_value, E1, E2. split; [|done].
  apply response_agrees; [done|]. pose proof (rk_missions _ Hk _ _ Hm) as Hid. unfold in_tenant. rewrite Hid, Hm.
  by apply bool_decide_eq_true.
Qed.

(** The task a request finds. *)
Definition visible_task (db : DB.t) (i : EntityId) : option Task.t :=
  t ← DB.tasks db !! i; if in_tenant tn db (Task.mission_id t) then Some t else None.

Lemma get_task_value i w :
  get_task i user w = (match visible_task (w_db w) i with Some t => Ret t | None => Raise (not_found "Task") end, w).
Proof.
  unfold get_task, task_or_404, visible_task, in_tenant, mission_of_tenant, get_row, mbind, ST_bind, option_bind.
  cbn [asks_db asks].
  destruct (DB.tasks (w_db w) !! i) as [t|]; [|done]. cbn. destruct (DB.missions (w_db w) !! Task.mission_id t) as [m|]; [|done].
  case_decide; by case_bool_decide.
Qed.

Lemma get_task_agrees i : twins eq (get_task i user) (get_task i user).
Proof.
  intros w w' HI. pose proof HI as (E1 & E2 & _). rewrite !get_task_value, E1, E2.
  assert (visible_task d i = visible_task d' i) as ->; [|by destruct (visible_task d' i)].
  apply option_eq. intros t. unfold visible_task. rewrite !bind_Some.
  pose proof (sv_tasks _ _ _ Hv i) as Ht. pose proof in_tenant_agree as Hin.
  split; intros (t' & Hl & Hif); exists t'; (destruct (in_tenant _ _ (Task.mission_id t')) eqn:Hi; [|done]).
  - rewrite <- (Hin (Task.mission_id t')), Hi. split; [by apply Ht|done].
  - rewrite (Hin (Task.mission_id t')), Hi. split; [apply Ht; [by rewrite Hin|done]|done].
Qed.

Lemma loss_rate_agrees since until :
  twins eq (agent_runtime_hook_loss_rate since until user) (agent_runtime_hook_loss_rate since until user).
Proof.
  assert (∀ s u c, closed_in tn s u c = true → AgentRuntimeClosure.tenant_id c = tn) as Hc.
  { intros s u c. unfold closed_in. rewrite !andb_true_iff, bool_decide_eq_true. tauto. }
  unfold agent_runtime_hook_loss_rate, compute_hook_loss_rate. apply (agrees_bind _ eq).
  { destruct since; [by apply agrees_ret|]. eapply agrees_bind; [apply twins_utc|]. intros a ? <-. by apply agrees_ret. }
  intros s ? <-. apply (agrees_bind _ eq); [destruct until; [by apply agrees_ret|apply twins_utc]|]. intros u ? <-.
  do 2 (apply (agrees_bind _ eq); [apply twins_asks; f_equal;
    eapply count_tenant; [exact (sv_closures _ _ _ Hv)|]; intros c ?; eapply (Hc s u); by destruct (closed_in tn s u c)|
    intros ? ? <-]).
  by apply agrees_ret.
Qed.

Lemma dashboard_agrees : twins eq (dashboard_summary user) (dashboard_summary user).
Proof.
  assert (∀ status, twins eq (count_missions tn status) (count_missions tn status)) as Hm.
  { intros st. apply twins_asks. f_equal. eapply count_tenant; [exact (sv_missions _ _ _ Hv)|].
    intros m [Ht _]%andb_true_iff. by apply bool_decide_eq_true in Ht. }
  assert (∀ i, invocation_of_tenant tn i = true →
    ModelInvocation.tenant_id i = tn ∨ in_tenant tn d (ModelInvocation.mission_id i) = true) as Hi.
  { intros i Ht%bool_decide_eq_true. by left. }
  unfold dashboard_summary.
  apply (agrees_bind _ eq); [apply twins_asks; f_equal; eapply count_tenant; [exact (sv_agents _ _ _ Hv)|];
    intros a; apply bool_decide_eq_true|intros ? ? <-].
  apply (agrees_bind _ eq); [apply twins_asks; f_equal; eapply count_tenant; [exact (sv_invocations _ _ _ Hv)|done]|intros ? ? <-].
  apply (agrees_bind _ eq); [apply twins_asks; by rewrite (select_tenant _ _ _ _ (sv_invocations _ _ _ Hv) Hi)|intros ? ? <-].
  do 3 (apply (agrees_bind _ eq); [apply Hm|intros ? ? <-]). by apply agrees_ret.
Qed.

Lemma artifact_agrees i : twins eq (artifact_or_404 i user) (artifact_or_404 i user).
Proof.
  eapply agrees_mono; [apply scoped_agrees|by intros a b (-> & _)].
  intros k a Ha. apply (sv_artifacts _ _ _ Hv). by left.
Qed.

Lemma tenant_agrees : twins eq (get_current_tenant user) (get_current_tenant user).
Proof.
  unfold get_current_tenant, get_row. apply (agrees_bind _ eq); [apply twins_asks, (sv_tenant _ _ _ Hv)|].
  intros t ? <-. destruct t; [by apply agrees_ret|apply agrees_raise].
Qed.

Lemma answering_agrees {A} (E : A → A → Prop) (c : A → answer) (m m' : M A) :
  twins E m m' → (∀ a b, E a b → same_answer (c a) (c b)) → twins same_answer (answering c m) (answering c m').
Proof. intros Hm Hc. eapply agrees_bind; [exact Hm|]. intros a b HE. by apply agrees_ret, Hc. Qed.

(** A listing of tenant rows. *)
Lemma listing_agrees {V} (P : V → bool) (Q : V → Prop) (table : DB.t → gmap EntityId V) :
  same_rows Q (table d) (table d') → (∀ v, P v = true → Q v) →
  twins (≡ₚ) (asks_db (λ db, select P (table db))) (asks_db (λ db, select P (table db))).
Proof. intros Hs HP. apply twins_asks. by eapply select_tenant. Qed.

Lemma serve_agrees presign settings q :
  twins same_answer (serve presign settings q user) (serve presign settings q user).
Proof.
  destruct q; simpl.
  - eapply answering_agrees; [apply list_missions_agrees|done].
  - eapply answering_agrees; [apply get_mission_agrees|by intros ? ? <-].
  - eapply answering_agrees; [apply mission_first; intros Hm|done].
    eapply listing_agrees; [exact (sv_tasks _ _ _ Hv)|]. intros t Ht%bool_decide_eq_true. simpl. by rewrite Ht.
  - eapply answering_agrees; [apply get_task_agrees|by intros ? ? <-].
  - eapply (answering_agrees eq); [apply mission_first; intros Hm|by intros ? ? <-]. apply twins_asks.
    rewrite events_agree; [done|]. intros e He. right. eauto.
  - eapply (answering_agrees eq); [|by intros ? ? <-]. unfold list_audit_events. destruct (limit <? 0); [apply agrees_raise|].
    apply twins_asks. rewrite events_agree; [done|]. intros e He. by left.
  - eapply answering_agrees; [apply loss_rate_agrees|by intros ? ? <-].
  - eapply answering_agrees; [apply mission_first; intros Hm|done].
    eapply listing_agrees; [exact (sv_artifacts _ _ _ Hv)|]. intros a Ha%bool_decide_eq_true. right. by rewrite Ha.
  - eapply answering_agrees; [apply artifact_agrees|by intros ? ? <-].
  - eapply (answering_agrees eq); [|by intros ? ? <-]. unfold download_artifact. eapply agrees_bind; [apply artifact_agrees|].
    intros a ? <-. by apply agrees_ret.
  - eapply (answering_agrees (≡ₚ)); [apply mission_first; intros Hm|done]. apply twins_asks, fmap_Permutation.
    rewrite !merge_sort_Permutation. eapply select_tenant; [exact (sv_invocations _ _ _ Hv)|]. intros i' Hi%bool_decide_eq_true. right. by rewrite Hi.
  - eapply answering_agrees; [apply dashboard_agrees|by intros ? ? <-].
  - eapply answering_agrees; [apply tenant_agrees|by intros ? ? <-].
  - eapply answering_agrees; [eapply listing_agrees; [exact (sv_agents _ _ _ Hv)|]|done]. intros a; apply bool_decide_eq_true.
  - eapply (answering_agrees eq); [|by intros ? ? <-]. eapply agrees_mono; [apply scoped_agrees, (sv_agents _ _ _ Hv)|].
    by intros a b (-> & _).
  - eapply answering_agrees; [eapply listing_agrees; [exact (sv_projects _ _ _ Hv)|]|done]. intros a; apply bool_decide_eq_true.
  - eapply answering_agrees; [eapply listing_agrees; [exact (sv_policies _ _ _ Hv)|]|done]. intros a; apply bool_decide_eq_true.
  - eapply answering_agrees; [eapply listing_agrees; [exact (sv_external _ _ _ Hv)|]|done]. intros a; apply bool_decide_eq_true.
Qed.
End isolation.


(** ** Witnesses *)

(** The sample installation, to which another tenant moves in with a mission and a task. *)
Definition crowded_db : DB.t :=
  DB.upd_tenants (<[9%positive := Tenant.mk 9 "globex" "Globex" TenantStatus.active]>)
  (DB.upd_missions (<[70%positive := Mission.mk 70 9 "M-70" "Theirs" "Theirs." None MissionStatus.running
      MissionPriority.normal RiskLevel.low BudgetPolicy_default None 0 None None]>)
  (DB.upd_tasks (<[71%positive := Task.mk 71 70 4 "Theirs" "Theirs." TaskStatus.queued 0 "70:task:1"
      BudgetPolicy_default [] None None None 0]>) sample_db)).

Lemma same_rows_refl {V} (P : V → Prop) (m : gmap EntityId V) : same_rows P m m.
Proof. done. Qed.

(** A new row that is none of the tenant's. *)
Lemma same_rows_insert {V} (P : V → Prop) (m : gmap EntityId V) k v :
  m !! k = None → ¬ P v → same_rows P m (<[k := v]> m).
Proof.
  intros Hk HP j u Hu. destruct (decide (j = k)) as [->|Hne]; [|by rewrite lookup_insert_ne by done].
  rewrite Hk, lookup_insert_eq. split; [done|]. intros [= <-]. done.
Qed.

Lemma crowded_view : same_view 1 sample_db crowded_db.
Proof.
  split; try apply same_rows_refl; try done.
  - by apply same_rows_insert.
  - apply same_rows_insert; [done|]. by vm_compute.
Qed.

Definition tenant_one_user : User.t := User.mk 2 1 "op@acme.test" "Op" UserRole.operator UserStatus.active "hash".

Lemma sample_reads_keyed : reads_keyed sample_db.
Proof.
  split; intros k m Hm; simpl in Hm; [by apply lookup_singleton_Some in Hm as [<- <-]|by rewrite lookup_empty in Hm].
Qed.

Lemma crowded_reads_keyed : reads_keyed crowded_db.
Proof.
  split; intros k m Hm; simpl in Hm; [|by rewrite lookup_empty in Hm].
  apply lookup_insert_Some in Hm as [[<- <-]|[_ Hm]]; [done|]. by apply lookup_singleton_Some in Hm as [<- <-].
Qed.


Lemma list_missions_agrees_with_get_witness :
  ∃ l, list_missions tenant_one_user (world_of crowded_db) = (Ret l, world_of crowded_db) ∧
    (∀ r, r ∈ l → get_mission (Mission.id (mr_mission r)) tenant_one_user (world_of crowded_db) = (Ret r, world_of crowded_db)) ∧
    mr_mission <$> l ≡ₚ select (mission_of_tenant 1) (DB.missions crowded_db) ∧
    NoDup ((λ r, Mission.id (mr_mission r)) <$> l).
Proof. exact (list_missions_agrees_with_get tenant_one_user (world_of crowded_db) crowded_reads_keyed). Defined.

(** The other tenant's mission and task are not found, and not counted. *)
Example crowded_reads :
  let ask q := result (serve (λ k, k) Settings_default q tenant_one_user) (world_of crowded_db) in
  ask (RGetMission 70) = Raise (not_found "Mission") ∧ ask (RGetTask 71) = Raise (not_found "Task") ∧
  ask (RListTasks 70) = Raise (not_found "Mission") ∧
  ask RDashboard = Ret (ADashboard (mkDashboard 1 1 0 0 0 0%float "ok")).
Proof. vm_compute. done. Qed.
