(* ===== verification/Responses.v ===== *)
(** * Response bodies
    (services/api/schemas, and the response models that routes declare themselves)

    What of a row a response shows: every [response_model] with the fields it declares, as
    FastAPI builds it from the row a route returns ([from_attributes=True]). At the end, that
    the bodies of the reads show nothing of the columns the schemas leave out. *)

From Stdlib Require Import Floats.
From stdpp Require Import sorting.
From S2P Require Import Prelude Enums Contracts Telemetry Breaker Database Scenario Api Gateway Config.
From S2P Require Import Rooms Routes Projects RoomsView Closure Agents Reads.
Local Open Scope Z_scope.

(** ** The response models *)

(** schemas/missions.py: [MissionResponse] *)
Record MissionBody := mkMissionBody {
  mb_id : EntityId;
  mb_mission_code : string;
  mb_title : string;
  mb_objective : string;
  mb_status : string;
  mb_priority : string;
  mb_risk_level : string;
  mb_assigned_agent_id : option EntityId;
  mb_budget_policy : BudgetPolicy;
  mb_created_at : Z;
  mb_started_at : option Z;
  mb_completed_at : option Z;
  mb_project_id : option EntityId;
  mb_is_agent_runtime : bool;
}.

Definition mission_body (r : MissionResponse) : MissionBody :=
  let m := mr_mission r in
  mkMissionBody (Mission.id m) (Mission.mission_code m) (Mission.title m) (Mission.objective m) (value (Mission.status m))
    (value (Mission.priority m)) (value (Mission.risk_level m)) (Mission.assigned_agent_id m) (Mission.budget_policy m)
    (Mission.created_at m) (Mission.started_at m) (Mission.completed_at m) (mr_project_id r) (mr_is_agent_runtime r).

(** schemas/tasks.py *)
Record TaskResponse := mkTaskResponse {
  tr_id : EntityId;
  tr_mission_id : EntityId;
  tr_assigned_agent_id : EntityId;
  tr_title : string;
  tr_status : string;
  tr_retry_count : Z;
  tr_output_artifact_id : option EntityId;
  tr_started_at : option Z;
  tr_completed_at : option Z;
  tr_created_at : Z;
}.

Definition task_response (t : Task.t) : TaskResponse :=
  mkTaskResponse (Task.id t) (Task.mission_id t) (Task.assigned_agent_id t) (Task.title t) (value (Task.status t))
    (Task.retry_count t) (Task.output_artifact_id t) (Task.started_at t) (Task.completed_at t) (Task.created_at t).

(** schemas/agents.py *)
Record AgentVersionResponse := mkAgentVersionResponse {
  avr_id : EntityId;
  avr_version : Z;
  avr_runtime_adapter : string;
  avr_autonomy_level : string;
  avr_tool_policy : ToolPolicy;
  avr_checksum : string;
  avr_created_at : Z;
}.

Definition agent_version_response (v : AgentVersion.t) : AgentVersionResponse :=
  mkAgentVersionResponse (AgentVersion.id v) (AgentVersion.version v) (AgentVersion.runtime_adapter v)
    (value (AgentVersion.autonomy_level v)) (AgentVersion.tool_policy v) (AgentVersion.checksum v) (AgentVersion.created_at v).

Record AgentResponse := mkAgentResponse {
  agr_id : EntityId;
  agr_agent_code : string;
  agr_display_name : string;
  agr_description : option string;
  agr_department : option string;
  agr_role_name : option string;
  agr_lifecycle_state : string;
  agr_active_version_id : option EntityId;
  agr_created_at : Z;
  agr_updated_at : Z;
}.

Definition agent_response (a : Agent.t) : AgentResponse :=
  mkAgentResponse (Agent.id a) (Agent.agent_code a) (Agent.display_name a) (Agent.description a) (Agent.department a)
    (Agent.role_name a) (value (Agent.lifecycle_state a)) (Agent.active_version_id a) (Agent.created_at a) (Agent.updated_at a).

(** schemas/audit.py *)
Record AuditEventResponse := mkAuditEventResponse {
  aer_id : EntityId;
  aer_event_type : string;
  aer_actor_type : string;
  aer_actor_id : option EntityId;
  aer_mission_id : option EntityId;
  aer_task_id : option EntityId;
  aer_agent_id : option EntityId;
  aer_correlation_id : EntityId;
  aer_causation_id : option EntityId;
  aer_payload : EventEnvelope;
  aer_occurred_at : Z;
}.

Definition audit_event_response (e : AuditEvent.t) : AuditEventResponse :=
  mkAuditEventResponse (AuditEvent.id e) (value (AuditEvent.event_type e)) (value (AuditEvent.actor_type e))
    (AuditEvent.actor_id e) (AuditEvent.mission_id e) (AuditEvent.task_id e) (AuditEvent.agent_id e)
    (AuditEvent.correlation_id e) (AuditEvent.causation_id e) (AuditEvent.payload e) (AuditEvent.occurred_at e).

(** schemas/artifacts.py *)
Record ArtifactResponse := mkArtifactResponse {
  arr_id : EntityId;
  arr_mission_id : EntityId;
  arr_task_id : EntityId;
  arr_agent_id : EntityId;
  arr_agent_version_id : EntityId;
  arr_artifact_type : string;
  arr_title : string;
  arr_content_hash : string;
  arr_mime_type : string;
  arr_version : Z;
  arr_created_at : Z;
}.

Definition artifact_response (a : Artifact.t) : ArtifactResponse :=
  mkArtifactResponse (Artifact.id a) (Artifact.mission_id a) (Artifact.task_id a) (Artifact.agent_id a)
    (Artifact.agent_version_id a) (value (Artifact.artifact_type a)) (Artifact.title a) (Artifact.content_hash a)
    (Artifact.mime_type a) (Artifact.version a) (Artifact.created_at a).

(** schemas/projects.py, schemas/model_policies.py, schemas/external_agents.py, routes/tenant.py *)
Record ProjectResponse := mkProjectResponse {
  pjr_id : EntityId;
  pjr_code : string;
  pjr_name : string;
  pjr_status : string;
  pjr_created_at : Z;
}.

Definition project_response (p : Project.t) : ProjectResponse :=
  mkProjectResponse (Project.id p) (Project.code p) (Project.name p) (value (Project.status p)) (Project.created_at p).

Record ModelPolicyResponse := mkModelPolicyResponse {
  mpr_id : EntityId;
  mpr_name : string;
  mpr_primary_provider : string;
  mpr_primary_model : string;
  mpr_created_at : Z;
}.

Definition model_policy_response (p : ModelPolicy.t) : ModelPolicyResponse :=
  mkModelPolicyResponse (ModelPolicy.id p) (ModelPolicy.name p) (ModelPolicy.primary_provider p)
    (ModelPolicy.primary_model p) (ModelPolicy.created_at p).

Record ExternalAgentStatusOut := mkExternalAgentStatusOut {
  eso_name : string;
  eso_status : string;
  eso_job_description : option string;
  eso_updated_at : Z;
}.

Definition external_agent_status_out (s : ExternalAgentStatus.t) : ExternalAgentStatusOut :=
  mkExternalAgentStatusOut (ExternalAgentStatus.name s) (ExternalAgentStatus.status s)
    (ExternalAgentStatus.job_description s) (ExternalAgentStatus.updated_at s).

Record TenantResponse := mkTenantResponse { ter_id : EntityId; ter_code : string; ter_name : string; ter_status : string }.

Definition tenant_response (t : Tenant.t) : TenantResponse :=
  mkTenantResponse (Tenant.id t) (Tenant.code t) (Tenant.name t) (value (Tenant.status t)).

(** schemas/agent_runtime.py *)
Record AgentRuntimeSessionResponse := mkSessionResponse {
  rsr_id : EntityId;
  rsr_kind : string;
  rsr_agent_id : option EntityId;
  rsr_mission_id : option EntityId;
  rsr_task_id : option EntityId;
  rsr_external_session_ref : string;
  rsr_external_instance_ref : option string;
  rsr_parent_session_id : option EntityId;
  rsr_started_at : Z;
  rsr_last_heartbeat_at : option Z;
  rsr_ended_at : option Z;
  rsr_outcome : option string;
}.

Definition session_response (s : AgentRuntimeSession.t) : AgentRuntimeSessionResponse :=
  mkSessionResponse (AgentRuntimeSession.id s) (value (AgentRuntimeSession.kind s)) (AgentRuntimeSession.agent_id s)
    (AgentRuntimeSession.mission_id s) (AgentRuntimeSession.task_id s) (AgentRuntimeSession.external_session_ref s)
    (AgentRuntimeSession.external_instance_ref s) (AgentRuntimeSession.parent_session_id s) (AgentRuntimeSession.started_at s)
    (AgentRuntimeSession.last_heartbeat_at s) (AgentRuntimeSession.ended_at s) (value <$> AgentRuntimeSession.outcome s).

Record AgentRuntimeClosureResponse := mkClosureResponse {
  clr_id : EntityId;
  clr_tenant_id : EntityId;
  clr_runtime_session_id : EntityId;
  clr_task_id : EntityId;
  clr_closed_by : AgentRuntimeClosedBy.t;
  clr_outcome : AgentRuntimeCloseOutcome.t;
  clr_reason_code : string;
  clr_tool_call_count : option Z;
  clr_artifact_id : option EntityId;
  clr_closed_at : Z;
  clr_late_close_at : option Z;
}.

Record HookLossRateResponse := mkHookLossRateResponse {
  hlr_since : Z;
  hlr_until : Z;
  hlr_lost : Z;
  hlr_total : Z;
  hlr_rate : float;
}.

Definition hook_loss_rate_response (r : HookLossRate) : HookLossRateResponse :=
  mkHookLossRateResponse (hl_since r) (hl_until r) (lost r) (total r) (rate r).

(** [task_id] is required: a row without one is refused by the response model. *)
Definition closure_response (c : AgentRuntimeClosure.t) : outcome exn AgentRuntimeClosureResponse :=
  match AgentRuntimeClosure.task_id c with
  | None => Raise (ValueError "ResponseValidationError: task_id")
  | Some task_id =>
      Ret (mkClosureResponse (AgentRuntimeClosure.id c) (AgentRuntimeClosure.tenant_id c)
             (AgentRuntimeClosure.runtime_session_id c) task_id (AgentRuntimeClosure.closed_by c)
             (AgentRuntimeClosure.outcome c) (value (AgentRuntimeClosure.reason_code c))
             (AgentRuntimeClosure.tool_call_count c) (AgentRuntimeClosure.artifact_id c)
             (AgentRuntimeClosure.closed_at c) (AgentRuntimeClosure.late_close_at c))
  end.

(** ** Bodies *)

Inductive body :=
| BMission (m : MissionBody) | BMissions (l : list MissionBody) | BTask (t : TaskResponse) | BTasks (l : list TaskResponse)
| BEvents (l : list AuditEventResponse) | BLossRate (r : HookLossRateResponse)
| BArtifact (a : ArtifactResponse) | BArtifacts (l : list ArtifactResponse) | BDownload (r : ArtifactDownloadResponse)
| BInvocations (l : list ModelInvocationResponse) | BDashboard (s : DashboardSummary) | BTenant (t : TenantResponse)
| BAgent (a : AgentResponse) | BAgents (l : list AgentResponse) | BVersion (v : AgentVersionResponse)
| BProject (p : ProjectResponse) | BProjects (l : list ProjectResponse)
| BPolicy (p : ModelPolicyResponse) | BPolicies (l : list ModelPolicyResponse)
| BExternalAgent (s : ExternalAgentStatusOut) | BExternalAgents (l : list ExternalAgentStatusOut)
| BRooms (r : AgentRoomsResponse) | BSession (s : AgentRuntimeSessionResponse) | BClosure (c : AgentRuntimeClosureResponse).

(** The body of a read. *)
Definition respond (a : answer) : body :=
  match a with
  | AMissions l => BMissions (mission_body <$> l)
  | AMission m => BMission (mission_body m)
  | ATasks l => BTasks (task_response <$> l)
  | ATask t => BTask (task_response t)
  | AEvents l => BEvents (audit_event_response <$> l)
  | ALossRate r => BLossRate (hook_loss_rate_response r)
  | AArtifacts l => BArtifacts (artifact_response <$> l)
  | AArtifact a => BArtifact (artifact_response a)
  | ADownload r => BDownload r
  | AInvocations l => BInvocations l
  | ADashboard s => BDashboard s
  | ATenant t => BTenant (tenant_response t)
  | AAgents l => BAgents (agent_response <$> l)
  | AAgent a => BAgent (agent_response a)
  | AProjects l => BProjects (project_response <$> l)
  | APolicies l => BPolicies (model_policy_response <$> l)
  | AExternalAgents l => BExternalAgents (external_agent_status_out <$> l)
  end.

(** ** What the schemas leave out *)

(** Each row without the columns that no response model declares. *)
Definition public_agent (a : Agent.t) : Agent.t :=
  Agent.mk (Agent.id a) (Agent.tenant_id a) (Agent.agent_code a) (Agent.display_name a) (Agent.description a)
    (Agent.department a) (Agent.role_name a) (Agent.lifecycle_state a) (Agent.active_version_id a) None
    (Agent.created_at a) (Agent.updated_at a).

Definition public_mission (m : Mission.t) : Mission.t :=
  Mission.mk (Mission.id m) (Mission.tenant_id m) (Mission.mission_code m) (Mission.title m) (Mission.objective m) None
    (Mission.status m) (Mission.priority m) (Mission.risk_level m) (Mission.budget_policy m) (Mission.assigned_agent_id m)
    (Mission.created_at m) (Mission.started_at m) (Mission.completed_at m).

Definition public_project (p : Project.t) : Project.t :=
  Project.mk (Project.id p) (Project.tenant_id p) (Project.code p) (Project.name p) (Project.status p) (Project.created_at p) None.

Definition public_task (t : Task.t) : Task.t :=
  Task.mk (Task.id t) (Task.mission_id t) (Task.assigned_agent_id t) (Task.title t) "" (Task.status t) (Task.retry_count t)
    "" BudgetPolicy_default [] (Task.output_artifact_id t) (Task.started_at t) (Task.completed_at t) (Task.created_at t).

Definition public_artifact (a : Artifact.t) : Artifact.t :=
  Artifact.mk (Artifact.id a) (Artifact.tenant_id a) (Artifact.mission_id a) (Artifact.task_id a) (Artifact.agent_id a)
    (Artifact.agent_version_id a) (Artifact.artifact_type a) "" (Artifact.title a) "" (Artifact.content_hash a)
    (Artifact.mime_type a) (Artifact.version a) [] (Artifact.created_at a).

Definition public_invocation (i : ModelInvocation.t) : ModelInvocation.t :=
  ModelInvocation.mk (ModelInvocation.id i) (ModelInvocation.tenant_id i) (ModelInvocation.mission_id i)
    (ModelInvocation.task_id i) 1 (ModelInvocation.provider i) (ModelInvocation.model i)
    (ModelInvocation.input_tokens i) (ModelInvocation.output_tokens i) (ModelInvocation.estimated_cost i)
    (ModelInvocation.latency_ms i) (ModelInvocation.status i) "" None (ModelInvocation.created_at i).

Definition public_session (s : AgentRuntimeSession.t) : AgentRuntimeSession.t :=
  AgentRuntimeSession.mk (AgentRuntimeSession.id s) (AgentRuntimeSession.tenant_id s) (AgentRuntimeSession.kind s)
    (AgentRuntimeSession.agent_id s) (AgentRuntimeSession.mission_id s) (AgentRuntimeSession.task_id s) "" None
    (AgentRuntimeSession.parent_session_id s) (AgentRuntimeSession.started_at s) (AgentRuntimeSession.last_heartbeat_at s)
    (AgentRuntimeSession.ended_at s) (AgentRuntimeSession.outcome s).

(** The database without them, and without the tables that no read shows: users with their
    password hashes, keys with their hashes, agent versions with their prompts, checkpoints. *)
Definition public (d : DB.t) : DB.t :=
  DB.mk (DB.tenants d) ∅ (DB.model_policies d) (public_agent <$> DB.agents d) ∅ (public_mission <$> DB.missions d)
    (public_project <$> DB.projects d) (DB.mission_projects d) (public_task <$> DB.tasks d) ∅
    (public_artifact <$> DB.artifacts d) (public_invocation <$> DB.model_invocations d) (DB.external_agent_statuses d)
    ∅ (public_session <$> DB.runtime_sessions d) ∅ ∅ (DB.closures d) (DB.audit_events d).

(** Bodies may list rows in another order where the query does not fix it. *)
Definition same_body (b b' : body) : Prop :=
  match b, b' with
  | BMissions l, BMissions l' => l ≡ₚ l'
  | BTasks l, BTasks l' => l ≡ₚ l'
  | BArtifacts l, BArtifacts l' => l ≡ₚ l'
  | BInvocations l, BInvocations l' => l ≡ₚ l'
  | BAgents l, BAgents l' => l ≡ₚ l'
  | BProjects l, BProjects l' => l ≡ₚ l'
  | _, _ => b = b'
  end.

(** ** Lemmas *)

(** A projection of rows under which two tables are equal, and a filter that respects it. *)
Section projection.
Context {V W : Type} (f : V → W) (m m' : gmap EntityId V) (Hm : f <$> m = f <$> m').

Lemma project_lookup i : f <$> m !! i = f <$> m' !! i.
Proof. by rewrite <- !lookup_fmap, Hm. Qed.

Lemma project_filter (P : V → bool) (l l' : list V) :
  (∀ v v', f v = f v' → P v = P v') → f <$> l = f <$> l' →
  f <$> filter (λ v, P v = true) l = f <$> filter (λ v, P v = true) l'.
Proof.
  intros HP. revert l'. induction l as [|v l IH]; intros [|v' l'] E; try done. simpl in E. injection E as Ev El.
  rewrite !filter_cons, (HP v v' Ev). case_decide; [|by apply IH]. cbn. rewrite Ev. f_equal. by apply IH.
Qed.

Lemma project_rows (n : gmap EntityId V) : f <$> (snd <$> map_to_list n) ≡ₚ snd <$> map_to_list (f <$> n).
Proof. rewrite map_to_list_fmap, <- !list_fmap_compose. done. Qed.

Lemma project_select (P : V → bool) :
  (∀ v v', f v = f v' → P v = P v') → f <$> select P m ≡ₚ f <$> select P m'.
Proof.
  intros HP. assert (f <$> (snd <$> map_to_list m) ≡ₚ f <$> (snd <$> map_to_list m')) as E by (by rewrite !project_rows, Hm).
  apply Permutation_map_inv in E as (l & E & Hl).
  unfold select. rewrite (project_filter P _ l HP E). by rewrite <- Hl.
Qed.

(** What is shown of the rows, if it respects the projection. *)
Lemma project_shown {U} (P : V → bool) (g h : V → U) :
  (∀ v v', f v = f v' → P v = P v') → (∀ v v', f v = f v' → g v = h v') → g <$> select P m ≡ₚ h <$> select P m'.
Proof.
  intros HP Hg. pose proof (project_select P HP) as E.
  apply Permutation_map_inv in E as (l & E & Hl). rewrite Hl. clear Hl. revert E. generalize (select P m).
  induction l as [|v' l IH]; intros [|v l'] E; try done. injection E as Ev El. simpl. by rewrite (Hg v v' Ev), (IH l' El).
Qed.

Lemma project_count (P : V → bool) : (∀ v v', f v = f v' → P v = P v') → count_rows P m = count_rows P m'.
Proof. intros HP. unfold count_rows. by rewrite <- (length_fmap f), (project_select P HP), length_fmap. Qed.

Lemma project_exists (P : V → bool) : (∀ v v', f v = f v' → P v = P v') → exists_row P m = exists_row P m'.
Proof.
  intros HP. pose proof (project_count P HP) as E. unfold count_rows, exists_row in *.
  by destruct (select P m), (select P m').
Qed.
End projection.

Create HintDb columns.
#[local] Hint Unfold task_response agent_response artifact_response project_response invocation_response
  mission_of_tenant invocation_of_tenant project_of_tenant : columns.

(** Closes [g v = g v'] when [g] reads columns on which the projections of [v] and [v'] agree. *)
Ltac by_columns :=
  intros ? ? Ecol; injection Ecol; clear Ecol; intros; autounfold with columns; cbn;
  repeat match goal with Ecol : _ = _ |- _ => rewrite Ecol; clear Ecol | Ecol : _ = _ |- _ => clear Ecol end;
  try reflexivity.

Section hiding.
Context `{Env} (user : User.t) (d d' : DB.t) (Hp : public d = public d') (Hk : reads_keyed d).
Abbreviation tn := (User.tenant_id user).
Abbreviation twins := (agrees (twin_worlds d d')).

Lemma pub_agents : public_agent <$> DB.agents d = public_agent <$> DB.agents d'.
Proof. exact (f_equal DB.agents Hp). Qed.
Lemma pub_missions : public_mission <$> DB.missions d = public_mission <$> DB.missions d'.
Proof. exact (f_equal DB.missions Hp). Qed.
Lemma pub_projects : public_project <$> DB.projects d = public_project <$> DB.projects d'.
Proof. exact (f_equal DB.projects Hp). Qed.
Lemma pub_tasks : public_task <$> DB.tasks d = public_task <$> DB.tasks d'.
Proof. exact (f_equal DB.tasks Hp). Qed.
Lemma pub_artifacts : public_artifact <$> DB.artifacts d = public_artifact <$> DB.artifacts d'.
Proof. exact (f_equal DB.artifacts Hp). Qed.
Lemma pub_invocations : public_invocation <$> DB.model_invocations d = public_invocation <$> DB.model_invocations d'.
Proof. exact (f_equal DB.model_invocations Hp). Qed.
Lemma pub_sessions : public_session <$> DB.runtime_sessions d = public_session <$> DB.runtime_sessions d'.
Proof. exact (f_equal DB.runtime_sessions Hp). Qed.
Lemma pub_links : DB.mission_projects d = DB.mission_projects d'.
Proof. exact (f_equal DB.mission_projects Hp). Qed.

Lemma pub_closures : DB.closures d = DB.closures d'.
Proof. exact (f_equal DB.closures Hp). Qed.
Lemma pub_events : DB.audit_events d = DB.audit_events d'.
Proof. exact (f_equal DB.audit_events Hp). Qed.
Lemma pub_tenants : DB.tenants d = DB.tenants d'.
Proof. exact (f_equal DB.tenants Hp). Qed.
Lemma pub_policies : DB.model_policies d = DB.model_policies d'.
Proof. exact (f_equal DB.model_policies Hp). Qed.
Lemma pub_external : DB.external_agent_statuses d = DB.external_agent_statuses d'.
Proof. exact (f_equal DB.external_agent_statuses Hp). Qed.

Lemma keyed_too : reads_keyed d'.
Proof.
  destruct Hk as [H1 H2]. split; [|rewrite <- pub_links; done]. intros k m' Hm.
  pose proof (project_lookup _ _ _ pub_missions k) as E. rewrite Hm in E.
  destruct (DB.missions d !! k) as [m|] eqn:Hd; [|done]. injection E as E _. rewrite <- E. by apply H1.
Qed.

(** A tenant-scoped lookup in a table with private columns. *)
Lemma scoped_hides {V} (f : V → V) (table : DB.t → gmap EntityId V) tenant_of what i :
  f <$> table d = f <$> table d' → (∀ v v', f v = f v' → tenant_of v = tenant_of v') →
  twins (λ v v', f v = f v') (tenant_scoped_or_404 table tenant_of what i tn) (tenant_scoped_or_404 table tenant_of what i tn).
Proof.
  intros Ht Hof w w' HI. pose proof HI as (E1 & E2 & _). pose proof (project_lookup f _ _ Ht i) as E.
  unfold tenant_scoped_or_404, get_tenant_scoped, get_row, mbind, ST_bind. cbn [asks_db asks]. rewrite E1, E2.
  destruct (table d !! i) as [v|], (table d' !! i) as [v'|]; try done; cbn [mret ST_ret]. injection E as E.
  rewrite (Hof v v' E). by case_decide.
Qed.

Lemma mission_hides i : twins (λ m m', public_mission m = public_mission m') (mission_or_404 i user) (mission_or_404 i user).
Proof. apply scoped_hides; [apply pub_missions|by_columns]. Qed.

Lemma response_hides m m' :
  public_mission m = public_mission m' → mission_body (response_of d m) = mission_body (response_of d' m').
Proof.
  intros E. assert (Mission.id m = Mission.id m' ∧ Mission.tenant_id m = Mission.tenant_id m') as [Ei Et] by (by injection E).
  transitivity (mission_body (mkMissionResponse m' (mr_project_id (response_of d m)) (mr_is_agent_runtime (response_of d m)))).
  { unfold mission_body; simpl. by injection E as -> _ -> -> -> -> -> -> -> -> -> -> ->. }
  f_equal. unfold response_of. simpl. rewrite Ei, Et, pub_links. f_equal.
  apply (project_exists _ _ _ pub_sessions). by_columns.
Qed.
(** A listing of a table with private columns, shown through [g]. *)
Lemma listing_hides {V W} (f : V → V) (g : V → W) (P : V → bool) (table : DB.t → gmap EntityId V) :
  f <$> table d = f <$> table d' → (∀ v v', f v = f v' → P v = P v') → (∀ v v', f v = f v' → g v = g v') →
  twins (λ l l', g <$> l ≡ₚ g <$> l') (asks_db (λ db, select P (table db))) (asks_db (λ db, select P (table db))).
Proof.
  intros Ht HP Hg. apply twins_asks. by apply (project_shown f).
Qed.

Lemma answering_hides {A} (E : A → A → Prop) (c : A → answer) (m m' : M A) :
  twins E m m' → (∀ a b, E a b → same_body (respond (c a)) (respond (c b))) →
  twins (λ a b, same_body (respond a) (respond b)) (answering c m) (answering c m').
Proof. intros Hm Hc. eapply agrees_bind; [exact Hm|]. intros a b HE. by apply agrees_ret, Hc. Qed.

Lemma get_mission_hides i :
  twins (λ a b, mission_body a = mission_body b) (get_mission i user) (get_mission i user).
Proof.
  unfold get_mission. eapply agrees_bind; [apply mission_hides|]. intros m m' E w w' HI. pose proof HI as (E1 & E2 & _).
  rewrite !mission_response_value, E1, E2. split; [by apply response_hides|done].
Qed.

Lemma list_missions_hides :
  twins (λ a b, mission_body <$> a ≡ₚ mission_body <$> b) (list_missions user) (list_missions user).
Proof.
  intros w w' HI. pose proof HI as (E1 & E2 & _). pose proof keyed_too as Hk'.
  rewrite !list_missions_value by (rewrite ?E1, ?E2; done). rewrite E1, E2. split; [|done].
  rewrite <- !list_fmap_compose. apply (project_shown _ _ _ pub_missions); [|apply response_hides].
  unfold mission_of_tenant. by_columns.
Qed.

Lemma get_task_hides i : twins (λ t t', public_task t = public_task t') (get_task i user) (get_task i user).
Proof.
  intros w w' HI. pose proof HI as (E1 & E2 & _). rewrite !get_task_value, E1, E2. unfold visible_task, in_tenant.
  pose proof (project_lookup _ _ _ pub_tasks i) as Et.
  destruct (DB.tasks d !! i) as [t|], (DB.tasks d' !! i) as [t'|]; try done. apply (inj Some) in Et. simpl.
  assert (Task.mission_id t = Task.mission_id t') as -> by (by injection Et).
  pose proof (project_lookup _ _ _ pub_missions (Task.mission_id t')) as Em.
  destruct (DB.missions d !! _) as [m|], (DB.missions d' !! _) as [m'|]; try done. apply (inj Some) in Em.
  assert (Mission.tenant_id m = Mission.tenant_id m') as Em' by (by injection Em).
  unfold mission_of_tenant. rewrite Em'. by case_bool_decide.
Qed.

Lemma dashboard_hides : twins eq (dashboard_summary user) (dashboard_summary user).
Proof.
  assert (∀ status, twins eq (count_missions tn status) (count_missions tn status)) as Hm.
  { intros st. apply twins_asks. f_equal. apply (project_count _ _ _ pub_missions). unfold mission_of_tenant. by_columns. }
  unfold dashboard_summary, invocation_of_tenant.
  apply (agrees_bind _ eq); [apply twins_asks; f_equal; apply (project_count _ _ _ pub_agents); by_columns|intros ? ? <-].
  apply (agrees_bind _ eq); [apply twins_asks; f_equal; apply (project_count _ _ _ pub_invocations); by_columns|intros ? ? <-].
  apply (agrees_bind _ eq); [apply twins_asks, sumZ_perm, (project_shown _ _ _ pub_invocations); by_columns|intros ? ? <-].
  do 3 (apply (agrees_bind _ eq); [apply Hm|intros ? ? <-]). by apply agrees_ret.
Qed.

Lemma loss_rate_hides since until :
  twins eq (agent_runtime_hook_loss_rate since until user) (agent_runtime_hook_loss_rate since until user).
Proof.
  unfold agent_runtime_hook_loss_rate, compute_hook_loss_rate. apply (agrees_bind _ eq).
  { destruct since; [by apply agrees_ret|]. eapply agrees_bind; [apply twins_utc|]. intros a ? <-. by apply agrees_ret. }
  intros s ? <-. apply (agrees_bind _ eq); [destruct until; [by apply agrees_ret|apply twins_utc]|]. intros u ? <-.
  do 2 (apply (agrees_bind _ eq); [apply twins_asks; by rewrite pub_closures|intros ? ? <-]).
  by apply agrees_ret.
Qed.

(** A listing behind a mission that is found in both databases or in neither. *)
Lemma behind_mission {A} (F : A → A → Prop) i (m : M A) :
  twins F m m → twins F (_ ← mission_or_404 i user; m) (_ ← mission_or_404 i user; m).
Proof. intros Hm. eapply agrees_bind; [apply mission_hides|done]. Qed.

Lemma serve_hides presign settings q :
  (∀ i, q ≠ RDownload i) →
  twins (λ a b, same_body (respond a) (respond b)) (serve presign settings q user) (serve presign settings q user).
Proof.
  intros Hq. destruct q; simpl.
  - eapply answering_hides; [apply list_missions_hides|done].
  - eapply answering_hides; [apply get_mission_hides|]. intros a b E. simpl. by rewrite E.
  - eapply answering_hides; [apply behind_mission, (listing_hides _ task_response _ _ pub_tasks); by_columns|done].
  - eapply answering_hides; [apply get_task_hides|]. intros a b E. simpl. f_equal. revert a b E. by_columns.
  - eapply (answering_hides eq); [apply behind_mission, twins_asks; by rewrite pub_events|by intros ? ? <-].
  - eapply (answering_hides eq); [|by intros ? ? <-]. unfold list_audit_events. destruct (limit <? 0); [apply agrees_raise|].
    apply twins_asks; by rewrite pub_events.
  - eapply answering_hides; [apply loss_rate_hides|by intros ? ? <-].
  - eapply answering_hides; [apply behind_mission, (listing_hides _ artifact_response _ _ pub_artifacts); by_columns|done].
  - eapply answering_hides; [apply scoped_hides; [apply pub_artifacts|by_columns]|]. intros a b E. simpl. f_equal. revert a b E. by_columns.
  - by destruct (Hq i).
  - eapply (answering_hides (≡ₚ)); [apply behind_mission, twins_asks|done]. rewrite !merge_sort_Permutation.
    apply (project_shown _ _ _ pub_invocations); by_columns.
  - eapply answering_hides; [apply dashboard_hides|by intros ? ? <-].
  - eapply (answering_hides eq); [|by intros ? ? <-]. unfold get_current_tenant, get_row.
    apply (agrees_bind _ eq); [apply twins_asks; by rewrite pub_tenants|].
    intros t ? <-. destruct t; [by apply agrees_ret|apply agrees_raise].
  - eapply answering_hides; [apply (listing_hides _ agent_response _ _ pub_agents); by_columns|done].
  - eapply answering_hides; [apply scoped_hides; [apply pub_agents|by_columns]|]. intros a b E. simpl. f_equal. revert a b E. by_columns.
  - eapply answering_hides; [apply (listing_hides _ project_response _ _ pub_projects); by_columns|done].
  - eapply (answering_hides eq); [apply twins_asks; by rewrite pub_policies|by intros ? ? <-].
  - eapply (answering_hides eq); [apply twins_asks; by rewrite pub_external|by intros ? ? <-].
Qed.
End hiding.


(** The sample installation with other passwords, prompts and instructions. *)
Definition other_secrets : DB.t :=
  DB.upd_users (fmap (λ u, User.mk (User.id u) (User.tenant_id u) (User.email u) (User.display_name u) (User.role u)
                             (User.status u) "other"))
  (DB.upd_agent_versions (λ _, ∅)
  (DB.upd_tasks (fmap (λ t, Task.mk (Task.id t) (Task.mission_id t) (Task.assigned_agent_id t) (Task.title t) "Other."
                              (Task.status t) (Task.retry_count t) "other" (Task.budget_policy t) [] (Task.output_artifact_id t)
                              (Task.started_at t) (Task.completed_at t) (Task.created_at t))) sample_db)).

