(* ===== verification/Personas.v ===== *)
(** * Personas of external subagents
    (services/api/persona_registry.py and services/api/services/persona_slots.py)

    A hook reports an agent type; the server's registry alone decides which persona, with
    which powers, that is. A persona gets an agent of its own the first time it is seen, and
    a tenant has at most 25 of them. As in [Rooms], [rivals] is what other sessions commit
    while this one claims a slot. *)

From S2P Require Import Prelude Enums Contracts Permissions Breaker Database Scenario Api Rooms Agents.
Local Open Scope Z_scope.

(** ** The registry *)

Definition PERSONA_SLOT_CAP : Z := 25.
Definition GENERAL_PERSONA_CODE : string := "AGT-CC-GENERAL".

Record PersonaDefinition := mkPersona {
  pd_agent_code : string;
  pd_display_name : string;
  pd_autonomy_level : AutonomyLevel.t;
  pd_tool_policy : ToolPolicy;
}.

Definition DENY_ALL : ToolPolicy := allow_only [].

Definition REGISTRY : gmap string PersonaDefinition :=
  list_to_map
    [("planner", mkPersona "AGT-CC-PLANNER" "Planner" AutonomyLevel.a1 DENY_ALL);
     ("architect", mkPersona "AGT-CC-ARCHITECT" "Architect" AutonomyLevel.a1 DENY_ALL);
     ("code-reviewer", mkPersona "AGT-CC-CODE-REVIEWER" "Code Reviewer" AutonomyLevel.a1 DENY_ALL);
     ("tdd-guide", mkPersona "AGT-CC-TDD-GUIDE" "TDD Guide" AutonomyLevel.a1 DENY_ALL);
     ("security-reviewer",
      mkPersona "AGT-CC-SECURITY-REVIEWER" "Security Reviewer" AutonomyLevel.a1 DENY_ALL)].

Definition GENERAL_PERSONA : PersonaDefinition :=
  mkPersona GENERAL_PERSONA_CODE "Claude Code (general)" AutonomyLevel.a1 DENY_ALL.

(** [resolve_persona(agent_type)] *)
Definition resolve_persona (agent_type : option string) : PersonaDefinition :=
  match agent_type with
  | None => GENERAL_PERSONA
  | Some k => default GENERAL_PERSONA (REGISTRY !! k)
  end.

(** ** Slots *)

Definition CLAUDE_CODE_EXTERNAL_MODEL_POLICY_NAME : string := "claude-code-external".
Definition PERSONA_CAP_EXCEEDED : exn := HTTPException 409 "persona_slot_cap_exceeded".
Definition MAX_CLAIM_ATTEMPTS : nat := 26.

Definition slot_of_tenant (tenant_id : EntityId) (s : AgentRuntimePersonaSlot.t) : bool :=
  bool_decide (AgentRuntimePersonaSlot.tenant_id s = tenant_id).

(** [_occupied_slots(session, tenant_id)] *)
Definition occupied_persona_slots (tenant_id : EntityId) : M (gset Z) :=
  asks_db (λ d, list_to_set (AgentRuntimePersonaSlot.slot <$>
    select (slot_of_tenant tenant_id) (DB.persona_slots d))).

(** [_get_agent_by_code(session, tenant_id, agent_code)] *)
Definition get_agent_by_code (tenant_id : EntityId) (agent_code : string) : M (option Agent.t) :=
  rows ← asks_db (λ d, select (λ a, bool_decide (Agent.tenant_id a = tenant_id) &&
                                    bool_decide (Agent.agent_code a = agent_code)) (DB.agents d));
  scalar_one_or_none rows.

(** [resolve_claude_code_external_policy(session, tenant_id)] *)
Definition resolve_claude_code_external_policy (tenant_id : EntityId) : M ModelPolicy.t :=
  rows ← asks_db (λ d, select (λ p, bool_decide (ModelPolicy.tenant_id p = tenant_id) &&
           bool_decide (ModelPolicy.name p = CLAUDE_CODE_EXTERNAL_MODEL_POLICY_NAME)) (DB.model_policies d));
  policy ← scalar_one_or_none rows;
  match policy with
  | None => raise (HTTPException 409
      ("No 'claude-code-external' model policy exists for this tenant yet -- run "
       +:+ "infrastructure/scripts/seed.py before registering Claude Code personas."))
  | Some p => mret p
  end.

Definition slot_taken (r s : AgentRuntimePersonaSlot.t) : bool :=
  slot_of_tenant (AgentRuntimePersonaSlot.tenant_id r) s &&
  (bool_decide (AgentRuntimePersonaSlot.slot s = AgentRuntimePersonaSlot.slot r) ||
   bool_decide (AgentRuntimePersonaSlot.agent_code s = AgentRuntimePersonaSlot.agent_code r)).

(** [session.add(slot_row); flush]: the check and the two unique constraints. *)
Definition insert_persona_slot (r : AgentRuntimePersonaSlot.t) : M unit :=
  d ← asks_db id;
  _ ← integrity (negb (is_present (AgentRuntimePersonaSlot.id r) (DB.persona_slots d)))
        "agent_runtime_persona_slots_pkey";
  _ ← integrity (is_present (AgentRuntimePersonaSlot.tenant_id r) (DB.tenants d))
        "agent_runtime_persona_slots_tenant_id_fkey";
  _ ← integrity ((0 <=? AgentRuntimePersonaSlot.slot r) && (AgentRuntimePersonaSlot.slot r <? 25))
        "ck_agent_runtime_persona_slots_slot";
  _ ← integrity (negb (exists_row (slot_taken r) (DB.persona_slots d)))
        "uq_agent_runtime_persona_slots_tenant";
  modify_db (DB.upd_persona_slots (<[AgentRuntimePersonaSlot.id r := r]>)).

(** [[s for s in range(PERSONA_SLOT_CAP) if s not in occupied]] *)
Definition free_slots (occupied : gset Z) : list Z :=
  filter (λ s, s ∉ occupied) (seqZ 0 PERSONA_SLOT_CAP).

Section personas.
Context `{Env}.
(** [str(version_payload)], the text the checksum is taken of. *)
Context (str_persona : PersonaDefinition → string).

(** The loop of [_claim_slot]. [None]: the slot is claimed; [Some a]: someone else created the
    persona meanwhile. *)
Fixpoint claim_loop (rivals : nat → DB.t → DB.t) (attempts : nat) (tenant_id : EntityId)
    (agent_code : string) (occupied : gset Z) : M (option Agent.t) :=
  match attempts with
  | O => raise PERSONA_CAP_EXCEEDED
  | S attempts =>
      match free_slots occupied with
      | [] => raise PERSONA_CAP_EXCEEDED
      | slot :: _ =>
          i ← new_id;
          _ ← interfere (rivals attempts);
          claimed ← try_except
            (_ ← begin_nested (insert_persona_slot (AgentRuntimePersonaSlot.mk i tenant_id slot agent_code));
             mret true)
            (λ e, if is_integrity_error e then Some (_ ← rollback; mret false) else None);
          if claimed : bool then mret None
          else
            existing ← get_agent_by_code tenant_id agent_code;
            match existing with
            | Some a => mret (Some a)
            | None =>
                occupied ← occupied_persona_slots tenant_id;
                claim_loop rivals attempts tenant_id agent_code occupied
            end
      end
  end.

(** [_claim_slot(session, tenant_id, agent_code)] *)
Definition claim_slot (rivals : nat → DB.t → DB.t) (tenant_id : EntityId) (agent_code : string) :
    M (option Agent.t) :=
  occupied ← occupied_persona_slots tenant_id;
  claim_loop rivals MAX_CLAIM_ATTEMPTS tenant_id agent_code occupied.

(** [ensure_persona(session, tenant_id=.., persona=.., created_by=..)] *)
Definition ensure_persona (rivals : nat → DB.t → DB.t) (tenant_id : EntityId) (persona : PersonaDefinition)
    (created_by : option EntityId) : M Agent.t :=
  existing ← get_agent_by_code tenant_id (pd_agent_code persona);
  match existing with
  | Some a => mret a
  | None =>
      model_policy ← resolve_claude_code_external_policy tenant_id;
      winner ← claim_slot rivals tenant_id (pd_agent_code persona);
      match winner with
      | Some a => mret a
      | None =>
          i ← new_id;
          now ← utc;
          let description := "Claude Code subagent persona: " +:+ pd_display_name persona +:+ "." in
          let agent := Agent.mk i tenant_id (pd_agent_code persona) (pd_display_name persona)
            (Some description) None None AgentLifecycleState.active None created_by now now in
          _ ← insert_agent agent;
          v ← new_id;
          _ ← insert_agent_version (AgentVersion.mk v i 1 description "external_manual"
                (ModelPolicy.id model_policy) (pd_autonomy_level persona) (pd_tool_policy persona)
                [] [] (sha256_hex (str_persona persona)) created_by now);
          _ ← modify_db (DB.upd_agents (alter (Agent.set_active_version_id (Some v)) i));
          mret (Agent.set_active_version_id (Some v) agent)
      end
  end.
End personas.

(** ** The registry is the only source of powers *)

Definition persona_codes : list string :=
  ["AGT-CC-GENERAL"; "AGT-CC-PLANNER"; "AGT-CC-ARCHITECT"; "AGT-CC-CODE-REVIEWER"; "AGT-CC-TDD-GUIDE";
   "AGT-CC-SECURITY-REVIEWER"].

Lemma resolve_persona_cases agent_type :
  let p := resolve_persona agent_type in
  pd_agent_code p ∈ persona_codes ∧ pd_autonomy_level p = AutonomyLevel.a1 ∧ pd_tool_policy p = DENY_ALL.
Proof.
  destruct agent_type as [k|]; simpl; [|split_and!; [by left|done|done]].
  destruct (REGISTRY !! k) as [p|] eqn:Hk; simpl; [|split_and!; [by left|done|done]].
  apply elem_of_list_to_map_2 in Hk.
  repeat (apply elem_of_cons in Hk as [[= -> ->]|Hk]; [split_and!; [set_solver|done|done]|]).
  by apply elem_of_nil in Hk.
Qed.

(** Nothing a hook sends gives a persona powers. Whatever agent type is reported, the
    persona is one of six fixed agent codes, at the lowest autonomy level, and its policy
    denies it every tool, however permissive the platform, tenant and mission policies are. *)
Theorem personas_have_no_tools agent_type tool platform tenant mission universe :
  let p := resolve_persona agent_type in
  pd_agent_code p ∈ persona_codes ∧ pd_autonomy_level p = AutonomyLevel.a1 ∧
  dec_allowed (evaluate_tool_access tool platform tenant (pd_tool_policy p) mission universe) = false.
Proof.
  intros p. destruct (resolve_persona_cases agent_type) as (Hc & Ha & Ht). fold p in Hc, Ha, Ht.
  split_and!; [done..|]. apply not_true_is_false. rewrite evaluate_allowed_iff, Ht.
  intros (_ & _ & _ & [Hin _] & _). unfold DENY_ALL, allow_only in Hin. simpl in Hin.
  destruct Hin as [H|H]; by apply elem_of_nil in H.
Qed.

(** ** The cap *)

(** The check and the unique constraints of the slots table. *)
Record slots_ok (d : DB.t) : Prop := {
  so_range : ∀ k s, DB.persona_slots d !! k = Some s → 0 ≤ AgentRuntimePersonaSlot.slot s < 25;
  so_unique : ∀ k1 k2 s1 s2, DB.persona_slots d !! k1 = Some s1 → DB.persona_slots d !! k2 = Some s2 →
    slot_taken s1 s2 = true → k1 = k2;
}.

Definition tenant_slots (tn : EntityId) (m : gmap EntityId AgentRuntimePersonaSlot.t) : gset Z :=
  list_to_set (AgentRuntimePersonaSlot.slot <$> select (slot_of_tenant tn) m).

(** Slots are not shared, so there are as many rows as slots in use. *)
Lemma count_slots tn m :
  (∀ k1 k2 s1 s2, m !! k1 = Some s1 → m !! k2 = Some s2 → slot_taken s1 s2 = true → k1 = k2) →
  count_rows (slot_of_tenant tn) m = size (tenant_slots tn m).
Proof.
  induction m as [|k s m Hk IH] using map_ind; intros Hu; [done|].
  assert (∀ k1 k2 s1 s2, m !! k1 = Some s1 → m !! k2 = Some s2 → slot_taken s1 s2 = true → k1 = k2) as Hu'.
  { intros k1 k2 s1 s2 H1 H2. apply Hu; rewrite lookup_insert_ne; congruence. }
  rewrite count_insert_fresh by done. unfold tenant_slots.
  rewrite (select_insert_fresh (slot_of_tenant tn) m k s Hk). specialize (IH Hu'). unfold tenant_slots in IH.
  destruct (slot_of_tenant tn s) eqn:Hs; simpl; [|exact IH].
  rewrite size_union, size_singleton, IH; [done|].
  apply disjoint_singleton_l. intros (s2 & Hs2 & [Ht2 [k2 Hk2]]%elem_of_select)%elem_of_list_to_set%list_elem_of_fmap.
  assert (k = k2) as ->; [|congruence].
  apply (Hu k k2 s s2); [by rewrite lookup_insert_eq|rewrite lookup_insert_ne; congruence|].
  apply bool_decide_eq_true in Hs, Ht2. unfold slot_taken, slot_of_tenant.
  rewrite bool_decide_true by congruence. by rewrite (bool_decide_true (_ = _)) by done.
Qed.

Lemma slots_ok_cap tn d :
  slots_ok d → Z.of_nat (count_rows (slot_of_tenant tn) (DB.persona_slots d)) ≤ PERSONA_SLOT_CAP.
Proof.
  intros [Hr Hu]. rewrite count_slots by done.
  assert (tenant_slots tn (DB.persona_slots d) ⊆ list_to_set (seqZ 0 25)) as Hsub.
  { intros x (s & -> & [_ [k Hk]]%elem_of_select)%elem_of_list_to_set%list_elem_of_fmap.
    apply elem_of_list_to_set, elem_of_seqZ. specialize (Hr k s Hk). lia. }
  apply subseteq_size in Hsub. rewrite size_list_to_set in Hsub by apply NoDup_seqZ.
  rewrite length_seqZ in Hsub. unfold PERSONA_SLOT_CAP. lia.
Qed.

Lemma slot_taken_sym r s : slot_taken r s = slot_taken s r.
Proof.
  unfold slot_taken, slot_of_tenant. f_equal; [apply bool_decide_ext; split; congruence|].
  f_equal; apply bool_decide_ext; split; congruence.
Qed.

(** A slot insert keeps the constraints; a refused one changes nothing. *)
Lemma insert_persona_slot_spec r w :
  slots_ok (w_db w) →
  wp (insert_persona_slot r) w
    (λ _ w', w_committed w' = w_committed w ∧ slots_ok (w_db w') ∧
       w_db w' = DB.upd_persona_slots (<[AgentRuntimePersonaSlot.id r := r]>) (w_db w))
    (λ e w', w' = w ∧ is_integrity_error e = true).
Proof.
  intros [Hr Hu]. unfold insert_persona_slot, wp, integrity, is_present, asks_db, asks, modify_db, modify, mbind,
    ST_bind, mret, ST_ret, raise, id; simpl.
  case_bool_decide as Hk; simpl; [done|]. case_bool_decide; simpl; [|done].
  destruct (_ && _) eqn:Hrange; simpl; [|done].
  apply andb_true_iff in Hrange as [H0%Z.leb_le H25%Z.ltb_lt].
  destruct (exists_row _ _) eqn:He; simpl; [done|]. rewrite exists_row_false in He.
  split_and!; [done| |done]. constructor; simpl.
  - intros k s [[<- <-]|[_ Hs]]%lookup_insert_Some; [lia|by eapply Hr].
  - intros k1 k2 s1 s2 [[<- <-]|[_ H1]]%lookup_insert_Some [[<- <-]|[_ H2]]%lookup_insert_Some Ht; [done|..].
    + by rewrite (He _ _ H2) in Ht.
    + rewrite slot_taken_sym in Ht. by rewrite (He _ _ H1) in Ht.
    + by eapply Hu.
Qed.

Section cap.
Context `{Env}.
Context (str_persona : PersonaDefinition → string).

Abbreviation kept := (pres (λ w : World, slots_ok (w_db w) ∧ slots_ok (w_committed w))).

Lemma slots_same {A} (m : M A) :
  tracks (same (λ w, (DB.persona_slots (w_db w), DB.persona_slots (w_committed w)))) m → tracks kept m.
Proof.
  apply tracks_impl. intros w w' E [[R1 U1] [R2 U2]]. unfold same in E. injection E as E1 E2.
  split; constructor; first [rewrite <- E1|rewrite <- E2]; done.
Qed.

Lemma claim_insert_kept r : tracks kept (begin_nested (insert_persona_slot r)).
Proof.
  intros w [Hd Hc]. unfold exec, begin_nested. pose proof (insert_persona_slot_spec r w Hd) as Hi.
  unfold wp in Hi. destruct (insert_persona_slot r w) as [[[]|e] w']; simpl.
  - by destruct Hi as (-> & ? & _).
  - by destruct Hi as [-> _].
Qed.

(** An invariant of the database that rivals and the insert of a slot keep, the loop keeps. *)
Lemma claim_loop_pres (I : DB.t → Prop) rivals n tn code occupied :
  let J := pres (λ w : World, I (w_db w) ∧ I (w_committed w)) in
  (∀ i d, I d → I (rivals i d)) → (∀ r, tracks J (begin_nested (insert_persona_slot r))) →
  tracks J (claim_loop rivals n tn code occupied).
Proof.
  intros J Hr Hins. revert occupied. induction n as [|n IH]; intros occupied; simpl; [apply tracks_raise, _|].
  assert (∀ A (m : M A), tracks (same (λ w, (w_db w, w_committed w))) m → tracks J m) as Hsame.
  { intros A m. apply tracks_impl. intros w w' E. unfold same in E. injection E as E1 E2.
    intros H'. by rewrite <- E1, <- E2. }
  destruct (free_slots occupied); [apply tracks_raise, _|]. unfold get_agent_by_code, occupied_persona_slots.
  repeat first [ apply IH | solve [apply Hsame; tracks_auto] | tracks_step ].
  - intros w [Hd Hc]. split; simpl; auto.
  - apply tracks_try; [apply _| |].
    + apply tracks_bind; [apply _|apply Hins|]. intros. apply tracks_ret, _.
    + intros e k Hk. case_match; simplify_eq. apply tracks_bind; [apply _| |intros; apply tracks_ret, _].
      intros w [Hd Hc]. by split.
Qed.

Lemma ensure_persona_kept rivals tn persona user :
  (∀ i d, slots_ok d → slots_ok (rivals i d)) →
  tracks kept (ensure_persona str_persona rivals tn persona user).
Proof.
  intros Hr. unfold ensure_persona, get_agent_by_code, resolve_claude_code_external_policy, claim_slot,
    occupied_persona_slots, insert_agent, insert_agent_version.
  repeat first [ by apply (claim_loop_pres slots_ok); [|intros; apply claim_insert_kept]
               | solve [apply slots_same; tracks_auto] | tracks_step ].
Qed.

(** The cap holds under any race. Whatever other sessions commit while personas are
    created, and whether [ensure_persona] returns or raises, a tenant has at most 25 persona
    slots afterwards, no two of them alike, uncommitted and committed. *)
Theorem persona_cap_holds rivals tn persona user w :
  (∀ i d, slots_ok d → slots_ok (rivals i d)) → slots_ok (w_db w) → slots_ok (w_committed w) →
  let within (w' : World) := ∀ tenant, slots_ok (w_db w') ∧ slots_ok (w_committed w') ∧
    Z.of_nat (count_rows (slot_of_tenant tenant) (DB.persona_slots (w_db w'))) ≤ PERSONA_SLOT_CAP ∧
    Z.of_nat (count_rows (slot_of_tenant tenant) (DB.persona_slots (w_committed w'))) ≤ PERSONA_SLOT_CAP in
  wp (ensure_persona str_persona rivals tn persona user) w (λ _, within) (λ _, within).
Proof.
  intros Hr Hd Hc within.
  assert (∀ w', slots_ok (w_db w') ∧ slots_ok (w_committed w') → within w') as Hw.
  { intros w' [H1 H2] tenant. split_and!; [done|done|by apply slots_ok_cap|by apply slots_ok_cap]. }
  eapply wp_mono; [apply pres_wp; [by apply ensure_persona_kept|done]|..]; intros ? w'; apply Hw.
Qed.
End cap.

Lemma slots_ok_empty d : DB.persona_slots d = ∅ → slots_ok d.
Proof. intros E. by constructor; rewrite E. Qed.

Lemma persona_cap_holds_witness :
  wp (ensure_persona pd_display_name no_rivals 1 GENERAL_PERSONA None) sample_world
    (λ _ w', Z.of_nat (count_rows (slot_of_tenant 1) (DB.persona_slots (w_db w'))) ≤ PERSONA_SLOT_CAP)
    (λ _ w', Z.of_nat (count_rows (slot_of_tenant 1) (DB.persona_slots (w_db w'))) ≤ PERSONA_SLOT_CAP).
Proof.
  eapply wp_mono; [apply (persona_cap_holds pd_display_name no_rivals 1 GENERAL_PERSONA None sample_world)|..].
  - by intros i d.
  - by apply slots_ok_empty.
  - by apply slots_ok_empty.
  - intros a w' Hw. apply (Hw 1%positive).
  - intros e w' Hw. apply (Hw 1%positive).
Defined.
