(* ===== verification/AgentRuntime.v ===== *)
(** * The agent-runtime API
    (services/api/routes/agent_runtime.py, services/api/dependencies/agent_runtime_auth.py
    and services/api/schemas/agent_runtime.py)

    The hooks of an external agent runtime register sessions and subagents, send heartbeats
    and close what they opened, under a credential of their own. A route's [limit] is the
    answer of [RateLimit.enforce_rate_limit] on the caller's key, and [rivals] is what other
    sessions commit while a persona slot is claimed. *)

From Stdlib Require Import Ascii.
From S2P Require Import Prelude Enums Contracts Permissions Breaker Database Scenario Transitions Missions.
From S2P Require Import Api Rooms Closure Agents Personas.
Local Open Scope Z_scope.

(** ** The credential *)

Definition UNAUTHORIZED : exn :=
  HTTPException 401 "Invalid, expired or revoked agent-runtime API key.".

Record AgentRuntimePrincipal := mkPrincipal { pr_user : User.t; pr_key_id : EntityId }.

Definition underscore : ascii := "_".

(** The text before the first ["_"] and, if there is one, the text after it. *)
Fixpoint split_underscore (s : string) : string * option string :=
  match s with
  | EmptyString => (EmptyString, None)
  | String c s' =>
      if decide (c = underscore) then (EmptyString, Some s')
      else let '(h, r) := split_underscore s' in (String c h, r)
  end.

Section credential.
Context `{Env}.
(** [uuid.UUID(hex=..)]; ids are abstract here, so their text form is a parameter. *)
Context (parse_uuid : string → option EntityId).

(** [_parse_key(token)]: [token.split("_", 2)] in three parts, of which the first is ["dtk"]
    and the last is not empty. *)
Definition parse_key (token : string) : option (EntityId * string) :=
  match split_underscore token with
  | (prefix, Some rest) =>
      match split_underscore rest with
      | (key_id_hex, Some secret) =>
          if decide (prefix = "dtk" ∧ secret ≠ "")
          then key_id ← parse_uuid key_id_hex; Some (key_id, secret)
          else None
      | _ => None
      end
  | _ => None
  end.

(** [get_agent_runtime_principal(credentials, session)]; [credentials] is the bearer token, if
    the request has one. *)
Definition get_agent_runtime_principal (credentials : option string) : M AgentRuntimePrincipal :=
  match credentials ≫= parse_key with
  | None => raise UNAUTHORIZED
  | Some (key_id, secret) =>
      key_row ← get_row DB.api_keys key_id;
      match key_row with
      | None => raise UNAUTHORIZED
      | Some k =>
          if decide (sha256_hex secret ≠ AgentRuntimeApiKey.key_hash k) then raise UNAUTHORIZED
          else
            now ← utc;
            if decide (AgentRuntimeApiKey.revoked_at k ≠ None) then raise UNAUTHORIZED
            else if match AgentRuntimeApiKey.expires_at k with Some e => e <=? now | None => false end
            then raise UNAUTHORIZED
            else
              user ← get_row DB.users (AgentRuntimeApiKey.user_id k);
              match user with
              | None => raise UNAUTHORIZED
              | Some u =>
                  if decide (User.status u ≠ UserStatus.active ∨ User.role u ≠ UserRole.agent_runtime)
                  then raise UNAUTHORIZED
                  else
                    tenant ← get_row DB.tenants (User.tenant_id u);
                    match tenant with
                    | None => raise UNAUTHORIZED
                    | Some t => if decide (Tenant.status t ≠ TenantStatus.active) then raise UNAUTHORIZED
                                else mret (mkPrincipal u key_id)
                    end
              end
      end
  end.
End credential.

(** [forbid_agent_runtime(user)], wired onto every other router. *)
Definition forbid_agent_runtime (sub : option EntityId) : M User.t :=
  user ← get_current_user sub;
  if decide (User.role user = UserRole.agent_runtime) then
    raise (HTTPException 403 "The agent-runtime credential cannot access this route.")
  else mret user.

(** ** Requests *)

Record AgentRuntimeSessionCreateRequest := mkSessionRequest {
  sr_kind : AgentRuntimeKind.t;
  sr_agent_type : option string;
  sr_external_session_ref : option string;
  sr_external_instance_ref : option string;
  sr_parent_external_session_ref : option string;
}.

Record AgentRuntimeCloseRequest := mkCloseRequest {
  cl_outcome : AgentRuntimeCloseOutcome.t;
  cl_reason_code : AgentRuntimeReasonCode.t;
  cl_tool_call_count : option Z;
}.

Definition in_range (lo hi c : ascii) : bool :=
  (nat_of_ascii lo <=? nat_of_ascii c)%nat && (nat_of_ascii c <=? nat_of_ascii hi)%nat.

(** [[A-Za-z0-9._-]] *)
Definition ref_char (c : ascii) : bool :=
  in_range "A" "Z" c || in_range "a" "z" c || in_range "0" "9" c ||
  bool_decide (c ∈ ["."; "_"; "-"]%char).

(** [re.match(r"^[A-Za-z0-9._-]{1,64}$", value)]: Python's [$] also matches just before a
    newline at the end of the text. [n] is the number of characters matched so far. *)
Fixpoint ref_matches (n : nat) (s : string) : bool :=
  match s with
  | EmptyString => (1 <=? n)%nat
  | String c s' =>
      if ref_char c then (n <? 64)%nat && ref_matches (S n) s'
      else (1 <=? n)%nat && bool_decide (s = String "010" EmptyString)
  end.

(** [_validate_ref_shape(value)] *)
Definition validate_ref_shape (value : option string) : outcome exn unit :=
  match value with
  | Some v => if ref_matches 0 v then Ret tt
              else Raise (ValueError "must be 1-64 characters of letters, digits, '.', '_' or '-'.")
  | None => Ret tt
  end.

Definition is_empty_ref (v : option string) : bool :=
  match v with Some s => bool_decide (s = "") | None => true end.

(** [_validate_kind_specific_fields(self)]; [canonical_uuid] is [str(UUID(..))]. *)
Definition validate_kind_specific_fields (canonical_uuid : string → option string)
    (r : AgentRuntimeSessionCreateRequest) : outcome exn AgentRuntimeSessionCreateRequest :=
  match sr_kind r with
  | AgentRuntimeKind.session =>
      if is_empty_ref (sr_external_session_ref r) then
        Raise (ValueError "external_session_ref is required for kind='session'.")
      else
        match sr_external_session_ref r ≫= canonical_uuid with
        | Some u => Ret (mkSessionRequest AgentRuntimeKind.session (sr_agent_type r) (Some u)
                           (sr_external_instance_ref r) (sr_parent_external_session_ref r))
        | None => Raise (ValueError "external_session_ref must be a UUID for kind='session'.")
        end
  | AgentRuntimeKind.subagent =>
      if is_empty_ref (sr_external_instance_ref r) then
        Raise (ValueError "external_instance_ref is required for kind='subagent'.")
      else if is_empty_ref (sr_parent_external_session_ref r) then
        Raise (ValueError "parent_external_session_ref is required for kind='subagent'.")
      else Ret r
  end.

(** ** Registration *)

Definition matches_opt (want have : option string) : bool :=
  match want with Some _ => bool_decide (have = want) | None => true end.

Definition session_matches (tenant_id : EntityId) (kind : AgentRuntimeKind.t)
    (session_ref instance_ref : option string) (s : AgentRuntimeSession.t) : bool :=
  bool_decide (AgentRuntimeSession.tenant_id s = tenant_id) &&
  bool_decide (AgentRuntimeSession.kind s = kind) &&
  matches_opt session_ref (Some (AgentRuntimeSession.external_session_ref s)) &&
  matches_opt instance_ref (AgentRuntimeSession.external_instance_ref s).

(** [_get_runtime_session(session, tenant_id, kind=.., ...)] *)
Definition get_runtime_session (tenant_id : EntityId) (kind : AgentRuntimeKind.t)
    (session_ref instance_ref : option string) : M (option AgentRuntimeSession.t) :=
  rows ← asks_db (λ d, select (session_matches tenant_id kind session_ref instance_ref)
                         (DB.runtime_sessions d));
  scalar_one_or_none rows.

(** The partial unique index that covers a row of [r]'s kind. *)
Definition same_ref (r s : AgentRuntimeSession.t) : bool :=
  bool_decide (AgentRuntimeSession.tenant_id s = AgentRuntimeSession.tenant_id r) &&
  bool_decide (AgentRuntimeSession.kind s = AgentRuntimeSession.kind r) &&
  match AgentRuntimeSession.kind r with
  | AgentRuntimeKind.session =>
      bool_decide (AgentRuntimeSession.external_session_ref s = AgentRuntimeSession.external_session_ref r)
  | AgentRuntimeKind.subagent =>
      match AgentRuntimeSession.external_instance_ref r with
      | Some i => bool_decide (AgentRuntimeSession.external_instance_ref s = Some i)
      | None => false
      end
  end.

(** [session.add(runtime_session); flush] *)
Definition insert_runtime_session (r : AgentRuntimeSession.t) : M unit :=
  d ← asks_db id;
  _ ← integrity (negb (is_present (AgentRuntimeSession.id r) (DB.runtime_sessions d)))
        "agent_runtime_sessions_pkey";
  _ ← integrity (is_present (AgentRuntimeSession.tenant_id r) (DB.tenants d) &&
                 opt_present (AgentRuntimeSession.agent_id r) (DB.agents d) &&
                 opt_present (AgentRuntimeSession.mission_id r) (DB.missions d) &&
                 opt_present (AgentRuntimeSession.task_id r) (DB.tasks d) &&
                 opt_present (AgentRuntimeSession.parent_session_id r) (DB.runtime_sessions d))
        "agent_runtime_sessions_fkey";
  _ ← integrity (negb (exists_row (same_ref r) (DB.runtime_sessions d)))
        "uq_agent_runtime_sessions_ref";
  modify_db (DB.upd_runtime_sessions (<[AgentRuntimeSession.id r := r]>)).

Section routes.
Context `{Env}.
Context (str_persona : PersonaDefinition → string).

(** The savepoint of [_register_session]: the mission, started, and its session row. *)
Definition create_session_rows (user : User.t) (agent_id : EntityId) (ref : string) :
    M (AgentRuntimeSession.t * StartMissionResult) :=
  mission ← create_mission (User.tenant_id user) ref ("Claude Code session " +:+ ref) "Claude Code session."
              (Some (User.id user)) agent_id MissionPriority.normal RiskLevel.low (Some BudgetPolicy_default);
  _ ← mark_mission_status mission MissionStatus.ready;
  start_result ← start_mission (Mission.id mission);
  i ← new_id;
  now ← utc;
  let s := AgentRuntimeSession.mk i (User.tenant_id user) AgentRuntimeKind.session (Some agent_id)
    (Some (Mission.id mission)) (Some (Task.id (sm_task start_result))) ref None None now None None None in
  _ ← insert_runtime_session s;
  mret (s, start_result).

(** [except IntegrityError] of both registrations: start over and look for the row of the
    session that won. *)
Definition existing_or_raise {A} (tenant_id : EntityId) (kind : AgentRuntimeKind.t)
    (session_ref instance_ref : option string) (e : exn) :
    option (M (AgentRuntimeSession.t + A)) :=
  if is_integrity_error e then
    Some (_ ← rollback;
          existing ← get_runtime_session tenant_id kind session_ref instance_ref;
          match existing with None => raise e | Some s => mret (inl s) end)
  else None.

(** [_register_session(session, publisher, user, payload)]; [race] is what other sessions
    commit between the lookup and the inserts. *)
Definition register_session_row (race : DB.t → DB.t) (user : User.t) (ref : string) :
    M AgentRuntimeSession.t :=
  let tn := User.tenant_id user in
  existing ← get_runtime_session tn AgentRuntimeKind.session (Some ref) None;
  match existing with
  | Some s => mret s
  | None =>
      claude_code ← get_agent_by_code tn "AGT-CLAUDE-CODE";
      match claude_code with
      | None => raise (HTTPException 409
          "AGT-CLAUDE-CODE is not seeded for this tenant -- run infrastructure/scripts/seed.py first.")
      | Some cc =>
          _ ← interfere race;
          r ← try_except (x ← begin_nested (create_session_rows user (Agent.id cc) ref); mret (inr x))
                (existing_or_raise tn AgentRuntimeKind.session (Some ref) None);
          match r with
          | inl s => mret s
          | inr (s, start_result) =>
              let m := Mission.id (sm_mission start_result) in
              let t := sm_task start_result in
              let say ty task agent := publish_api ty tn (user_actor user) m (Some m) task (Some agent) [] in
              _ ← say EventType.mission_created None (Agent.id cc);
              _ ← say EventType.mission_started None (Agent.id cc);
              _ ← say EventType.task_created (Some (Task.id t)) (Task.assigned_agent_id t);
              _ ← say EventType.task_assigned (Some (Task.id t)) (Task.assigned_agent_id t);
              mret s
          end
      end
  end.

(** The savepoint of [_register_subagent]: the task and its session row. *)
Definition create_subagent_rows (tn mission_id : EntityId) (persona : Agent.t) (parent_id : EntityId)
    (parent_ref instance_ref : string) : M (AgentRuntimeSession.t * Task.t) :=
  t ← new_id;
  created ← utc;
  let task := Task.mk t mission_id (Agent.id persona)
    (Agent.display_name persona +:+ " (" +:+ instance_ref +:+ ")")
    "Claude Code subagent spawn; see agent_runtime_sessions for correlation." TaskStatus.queued 0
    (pretty mission_id +:+ ":ar:" +:+ instance_ref) BudgetPolicy_default [] None None None created in
  _ ← insert_task task;
  i ← new_id;
  now ← utc;
  let s := AgentRuntimeSession.mk i tn AgentRuntimeKind.subagent (Some (Agent.id persona)) (Some mission_id)
    (Some t) parent_ref (Some instance_ref) (Some parent_id) now None None None in
  _ ← insert_runtime_session s;
  mret (s, task).

(** [_register_subagent(session, publisher, user, payload)]; [rivals] is what other sessions
    commit while the persona's slot is claimed, [race] what they commit after that. *)
Definition register_subagent_row (rivals : nat → DB.t → DB.t) (race : DB.t → DB.t) (user : User.t) (agent_type : option string)
    (instance_ref parent_ref : string) : M AgentRuntimeSession.t :=
  let tn := User.tenant_id user in
  existing ← get_runtime_session tn AgentRuntimeKind.subagent None (Some instance_ref);
  match existing with
  | Some s => mret s
  | None =>
      parent ← get_runtime_session tn AgentRuntimeKind.session (Some parent_ref) None;
      match parent with
      | None => raise (HTTPException 404 "Parent session is not registered.")
      | Some parent =>
          match AgentRuntimeSession.mission_id parent with
          | None => raise (HTTPException 404 "Parent session is not registered.")
          | Some mission_id =>
              if decide (AgentRuntimeSession.ended_at parent ≠ None) then
                raise (HTTPException 409 "parent_session_ended")
              else
                persona ← ensure_persona str_persona rivals tn (resolve_persona agent_type) (Some (User.id user));
                if decide (Agent.lifecycle_state persona = AgentLifecycleState.suspended) then
                  raise (HTTPException 409 "This persona is suspended.")
                else
                  _ ← interfere race;
                  r ← try_except
                        (x ← begin_nested (create_subagent_rows tn mission_id persona
                                             (AgentRuntimeSession.id parent) parent_ref instance_ref);
                         mret (inr x))
                        (existing_or_raise tn AgentRuntimeKind.subagent None (Some instance_ref));
                  match r with
                  | inl s => mret s
                  | inr (s, task) =>
                      let say ty := publish_api ty tn (user_actor user) mission_id (Some mission_id)
                                      (Some (Task.id task)) (Some (Agent.id persona)) [] in
                      _ ← say EventType.task_created;
                      _ ← say EventType.task_assigned;
                      mret s
                  end
          end
      end
  end.

(** [register_session(payload, principal, ...)], for a validated payload. *)
Definition register_session (limit : outcome exn unit) (rivals : nat → DB.t → DB.t) (race : DB.t → DB.t)
    (payload : AgentRuntimeSessionCreateRequest) (principal : AgentRuntimePrincipal) :
    M AgentRuntimeSession.t :=
  _ ← lift limit;
  match sr_kind payload with
  | AgentRuntimeKind.session =>
      register_session_row race (pr_user principal) (default "" (sr_external_session_ref payload))
  | AgentRuntimeKind.subagent =>
      register_subagent_row rivals race (pr_user principal) (sr_agent_type payload)
        (default "" (sr_external_instance_ref payload)) (default "" (sr_parent_external_session_ref payload))
  end.

(** ** Heartbeat, end and close *)

Definition runtime_session_or_404 (session_id tenant_id : EntityId) : M AgentRuntimeSession.t :=
  tenant_scoped_or_404 DB.runtime_sessions AgentRuntimeSession.tenant_id "Runtime session" session_id tenant_id.

(** [update_session(session_id, payload, principal, ...)] *)
Definition update_session (limit : outcome exn unit) (session_id : EntityId)
    (outcome : option AgentRuntimeOutcome.t) (principal : AgentRuntimePrincipal) : M AgentRuntimeSession.t :=
  let user := pr_user principal in
  _ ← lift limit;
  s ← runtime_session_or_404 session_id (User.tenant_id user);
  match outcome with
  | None =>
      now ← utc;
      _ ← modify_db (DB.upd_runtime_sessions
            (alter (AgentRuntimeSession.set_last_heartbeat_at (Some now)) (AgentRuntimeSession.id s)));
      mret (AgentRuntimeSession.set_last_heartbeat_at (Some now) s)
  | Some outcome =>
      if decide (AgentRuntimeSession.kind s = AgentRuntimeKind.subagent) then
        raise (HTTPException 409 ("This is a subagent session; use POST .../subagents/{ref}/close or " +:+
                 "POST .../sessions/{id}/close instead."))
      else
        _ ← end_session (User.tenant_id user) (user_actor user) (AgentRuntimeSession.id s) outcome;
        refreshed ← get_row DB.runtime_sessions (AgentRuntimeSession.id s);
        mret (default s refreshed)
  end.

(** [_resolve_subagent_for_close(session, tenant_id, session_id=.., external_instance_ref=..)] *)
Definition resolve_subagent_for_close (tenant_id : EntityId) (key : EntityId + string) :
    M AgentRuntimeSession.t :=
  rows ← asks_db (λ d, select (λ s, bool_decide (AgentRuntimeSession.tenant_id s = tenant_id) &&
           match key with
           | inl i => bool_decide (AgentRuntimeSession.id s = i)
           | inr ref => bool_decide (AgentRuntimeSession.external_instance_ref s = Some ref)
           end) (DB.runtime_sessions d));
  s ← scalar_one_or_none rows;
  match s with
  | None => raise (not_found "Runtime session")
  | Some s =>
      if decide (AgentRuntimeSession.kind s ≠ AgentRuntimeKind.subagent) then
        raise (HTTPException 409 "This is a session, not a subagent; use PATCH .../sessions/{id} to end it.")
      else mret s
  end.

(** [_close_subagent(session, publisher, principal, runtime_session, payload)] *)
Definition close_subagent (principal : AgentRuntimePrincipal) (s : AgentRuntimeSession.t)
    (payload : AgentRuntimeCloseRequest) : M AgentRuntimeClosure.t :=
  let user := pr_user principal in
  r ← close_task (User.tenant_id user) (user_actor user) (AgentRuntimeSession.id s) (cl_outcome payload)
        (cl_reason_code payload) AgentRuntimeClosedBy.hook (cl_tool_call_count payload);
  match r.1 with
  | None => raise (not_found "Runtime session")
  | Some closure => mret closure
  end.

(** [close_subagent_by_ref] and [close_subagent_by_id], by the key they resolve. *)
Definition close_subagent_by (limit : outcome exn unit) (key : EntityId + string)
    (payload : AgentRuntimeCloseRequest) (principal : AgentRuntimePrincipal) : M AgentRuntimeClosure.t :=
  _ ← lift limit;
  s ← resolve_subagent_for_close (User.tenant_id (pr_user principal)) key;
  close_subagent principal s payload.
End routes.

(** ** Hook retries *)

(** The two partial unique indexes on references. *)
Definition refs_unique (d : DB.t) : Prop :=
  ∀ k1 k2 s1 s2, DB.runtime_sessions d !! k1 = Some s1 → DB.runtime_sessions d !! k2 = Some s2 →
    same_ref s1 s2 = true → k1 = k2.

(** ... in what this session sees and in what is committed. *)
Definition refs_ok (w : World) : Prop := refs_unique (w_db w) ∧ refs_unique (w_committed w).

(** What a registration is looked up by: a session's reference, or a subagent's. *)
Definition lookup_of (tn : EntityId) (key : string + string) : AgentRuntimeSession.t → bool :=
  match key with
  | inl ref => session_matches tn AgentRuntimeKind.session (Some ref) None
  | inr ref => session_matches tn AgentRuntimeKind.subagent None (Some ref)
  end.

Definition registered (tn : EntityId) (key : string + string) (s : AgentRuntimeSession.t) (w : World) : Prop :=
  lookup_of tn key s = true ∧ ∃ k, rs w !! k = Some s.

Lemma lookup_same_ref tn key s1 s2 :
  lookup_of tn key s1 = true → lookup_of tn key s2 = true → same_ref s1 s2 = true.
Proof.
  destruct key as [ref|ref]; simpl; unfold session_matches, same_ref, matches_opt; intros H1 H2;
    rewrite !andb_true_iff, !bool_decide_eq_true in H1, H2;
    destruct H1 as [[[T1 K1] S1] I1], H2 as [[[T2 K2] S2] I2]; rewrite K1.
  - injection S1 as S1. injection S2 as S2. rewrite !bool_decide_true by congruence. done.
  - rewrite I1. rewrite !bool_decide_true by congruence. done.
Qed.

Definition get_registered (tn : EntityId) (key : string + string) : M (option AgentRuntimeSession.t) :=
  match key with
  | inl ref => get_runtime_session tn AgentRuntimeKind.session (Some ref) None
  | inr ref => get_runtime_session tn AgentRuntimeKind.subagent None (Some ref)
  end.

Lemma get_registered_spec tn key w :
  refs_unique (w_db w) →
  wp (get_registered tn key) w
    (λ r w', w' = w ∧ match r with
                      | Some s => registered tn key s w
                      | None => ∀ k s, rs w !! k = Some s → lookup_of tn key s = false
                      end) (λ _ _, False).
Proof.
  intros Hu.
  assert (get_registered tn key = (rows ← asks_db (λ d, select (lookup_of tn key) (DB.runtime_sessions d));
                                   scalar_one_or_none rows)) as -> by (by destruct key).
  apply wp_bind, wp_asks.
  assert (∀ k1 k2 s1 s2, rs w !! k1 = Some s1 → rs w !! k2 = Some s2 →
    lookup_of tn key s1 = true → lookup_of tn key s2 = true → k1 = k2) as Hu'.
  { intros k1 k2 s1 s2 H1 H2 P1 P2. eapply Hu; [done..|]. by eapply lookup_same_ref. }
  pose proof (select_at_most_one (lookup_of tn key) _ Hu') as Hsel.
  unfold scalar_one_or_none. by destruct (select _ _) as [|a [|]].
Qed.

(** A registered row is what the lookup finds. *)
Lemma get_registered_found tn key s w :
  refs_unique (w_db w) → registered tn key s w → get_registered tn key w = (Ret (Some s), w).
Proof.
  intros Hu [Hm [k Hk]]. pose proof (get_registered_spec tn key w Hu) as Hg. unfold wp in Hg.
  destruct (get_registered tn key w) as [[[s'|]|] w']; [|..|done]; destruct Hg as [-> Hg].
  - destruct Hg as [Hm' [k' Hk']]. do 3 f_equal.
    assert (k' = k) as -> by (eapply Hu; [done..|]; by eapply lookup_same_ref). congruence.
  - by rewrite (Hg k s Hk) in Hm.
Qed.

Section retries.
Context `{Env}.
Context (str_persona : PersonaDefinition → string).

Abbreviation kept := (pres refs_ok).

Lemma refs_same {A} (m : M A) :
  tracks (same (λ w, (DB.runtime_sessions (w_db w), DB.runtime_sessions (w_committed w)))) m → tracks kept m.
Proof.
  apply tracks_impl. intros w w' E [H1 H2]. unfold same in E. injection E as E1 E2.
  split; unfold refs_unique; [by rewrite <- E1|by rewrite <- E2].
Qed.

Lemma same_ref_sym a b : same_ref a b = true → same_ref b a = true.
Proof.
  unfold same_ref. rewrite !andb_true_iff, !bool_decide_eq_true. intros [[E1 E2] E3].
  rewrite E2. split_and!; [done..|]. destruct (AgentRuntimeSession.kind a).
  - apply bool_decide_eq_true in E3. by apply bool_decide_eq_true.
  - destruct (AgentRuntimeSession.external_instance_ref a) eqn:Ha; [|done].
    apply bool_decide_eq_true in E3. rewrite E3. by apply bool_decide_eq_true.
Qed.

Lemma refs_unique_insert r d :
  exists_row (same_ref r) (DB.runtime_sessions d) = false → refs_unique d →
  refs_unique (DB.upd_runtime_sessions (<[AgentRuntimeSession.id r := r]>) d).
Proof.
  rewrite exists_row_false. intros He Hd k1 k2 s1 s2; simpl.
  intros [[<- <-]|[_ H1]]%lookup_insert_Some [[<- <-]|[_ H2]]%lookup_insert_Some Ht; [done|..].
  - by rewrite (He _ _ H2) in Ht.
  - apply same_ref_sym in Ht. by rewrite (He _ _ H1) in Ht.
  - by eapply Hd.
Qed.

(** The insert of a session row: it is there afterwards, and the indexes hold. *)
Lemma insert_runtime_session_spec r w :
  refs_ok w →
  wp (insert_runtime_session r) w (λ _ w', refs_ok w' ∧ rs w' !! AgentRuntimeSession.id r = Some r)
    (λ _, refs_ok).
Proof.
  intros [Hd Hc]. unfold insert_runtime_session, wp, integrity, is_present, asks_db, asks, modify_db, modify, mbind,
    ST_bind, mret, ST_ret, raise, id; simpl.
  case_bool_decide as Hk; simpl; [done|]. destruct (_ && _); simpl; [|done].
  destruct (exists_row _ _) eqn:He; simpl; [done|].
  rewrite lookup_insert_eq. split; [|done]. split; [by apply refs_unique_insert|done].
Qed.

Lemma start_mission_sessions mid :
  tracks (same (λ w, (DB.runtime_sessions (w_db w), DB.runtime_sessions (w_committed w)))) (start_mission mid).
Proof.
  unfold start_mission, update_mission, insert_first_task, insert_task. tracks_auto.
  apply tracks_try; [apply _| |].
  - tracks_auto. apply begin_nested_table. tracks_auto.
  - intros e k Hk. case_match; simplify_eq. unfold existing_first_task, after_integrity_error. tracks_auto.
Qed.

(** A step that keeps the indexes, in front of another. *)
Lemma wp_bind_refs {A B} (m : M A) (f : A → M B) w Q :
  tracks (same (λ w, (DB.runtime_sessions (w_db w), DB.runtime_sessions (w_committed w)))) m → refs_ok w →
  (∀ a w', refs_ok w' → wp (f a) w' Q (λ _, refs_ok)) → wp (m ≫= f) w Q (λ _, refs_ok).
Proof. intros Hm Hw Hf. eapply (wp_bind_pres refs_ok); [by apply refs_same|done|done|done]. Qed.

Lemma create_session_rows_spec user ag ref w :
  refs_ok w →
  wp (create_session_rows user ag ref) w
    (λ r w', refs_ok w' ∧ registered (User.tenant_id user) (inl ref) r.1 w') (λ _, refs_ok).
Proof.
  intros Hw. unfold create_session_rows.
  apply wp_bind_refs; [unfold create_mission, insert_mission; tracks_auto|done|]. clear dependent w. intros m w Hw.
  apply wp_bind_refs; [unfold mark_mission_status, update_mission; tracks_auto|done|]. clear dependent w. intros ? w Hw.
  apply wp_bind_refs; [apply start_mission_sessions|done|]. clear dependent w. intros st w Hw.
  do 2 (apply wp_bind_refs; [tracks_auto|done|]; clear dependent w; intros ? w Hw).
  apply wp_bind. eapply wp_mono; [by apply insert_runtime_session_spec| |done].
  intros ? w' [Hw' Hs]. apply wp_ret. split; [done|]. split; [|by eexists].
  simpl. unfold session_matches. simpl. by rewrite !bool_decide_true.
Qed.

Lemma create_subagent_rows_spec tn mid persona pid pref ref w :
  refs_ok w →
  wp (create_subagent_rows tn mid persona pid pref ref) w
    (λ r w', refs_ok w' ∧ registered tn (inr ref) r.1 w') (λ _, refs_ok).
Proof.
  intros Hw. unfold create_subagent_rows.
  do 2 (apply wp_bind_refs; [tracks_auto|done|]; clear dependent w; intros ? w Hw).
  apply wp_bind_refs; [unfold insert_task; tracks_auto|done|]. clear dependent w. intros ? w Hw.
  do 2 (apply wp_bind_refs; [tracks_auto|done|]; clear dependent w; intros ? w Hw).
  apply wp_bind. eapply wp_mono; [by apply insert_runtime_session_spec| |done].
  intros ? w' [Hw' Hs]. apply wp_ret. split; [done|]. split; [|by eexists].
  simpl. unfold session_matches. simpl. by rewrite !bool_decide_true.
Qed.

(** The savepoint with its fallback leaves a registered row, its own or the winner's. *)
Lemma savepoint_registers {A} tn key (rows : M (AgentRuntimeSession.t * A)) w :
  refs_ok w →
  wp rows w (λ r w', refs_ok w' ∧ registered tn key r.1 w') (λ _, refs_ok) →
  let '(k, sref, iref) := match key with
                          | inl ref => (AgentRuntimeKind.session, Some ref, None)
                          | inr ref => (AgentRuntimeKind.subagent, None, Some ref)
                          end in
  wp (try_except (x ← begin_nested rows; mret (inr x)) (existing_or_raise tn k sref iref)) w
    (λ r w', refs_ok w' ∧ registered tn key (match r with inl s => s | inr x => x.1 end) w') (λ _ _, True).
Proof.
  intros Hw Hrows. destruct (match key with inl _ => _ | inr _ => _ end) as [[k sref] iref] eqn:Hkey.
  assert (get_runtime_session tn k sref iref = get_registered tn key) as Hget
    by (destruct key; simpl in *; congruence).
  apply wp_try, wp_bind. unfold wp in *. unfold begin_nested at 1.
  destruct (rows w) as [[r|e] w1]; [by apply wp_ret|]. unfold existing_or_raise.
  destruct (is_integrity_error e); [|done].
  assert (refs_ok (set_db (w_committed w1) (set_db (w_db w) w1))) as Hw2 by (by destruct Hrows).
  change (wp (_ ← rollback; existing ← get_runtime_session tn k sref iref;
              match existing with None => raise e | Some s => mret (inl s) end) (set_db (w_db w) w1)
    (λ (r : AgentRuntimeSession.t + AgentRuntimeSession.t * A) w',
       refs_ok w' ∧ registered tn key (match r with inl s => s | inr x => x.1 end) w') (λ _ _, True)).
  apply wp_bind, wp_modify, wp_bind. rewrite Hget.
  eapply wp_mono; [apply get_registered_spec; by destruct Hw2| |done].
  intros [s|] w2 [-> Hr]; [|done]. apply wp_ret. done.
Qed.

Lemma publish_api_sessions ty tn actor corr m t a data :
  tracks (same (λ w, (DB.runtime_sessions (w_db w), DB.runtime_sessions (w_committed w))))
    (publish_api ty tn actor corr m t a data).
Proof.
  unfold publish_api. tracks_auto. intros w. unfold same, exec, publish. simpl. by destruct (redis_ok _).
Qed.

(** Steps after which a registered row is still registered. *)
Lemma wp_bind_registered {A B} (m : M A) (f : A → M B) tn key s w Q R :
  tracks (same (λ w, (DB.runtime_sessions (w_db w), DB.runtime_sessions (w_committed w)))) m →
  refs_ok w → registered tn key s w → (∀ e w', R e w') →
  (∀ a w', refs_ok w' → registered tn key s w' → wp (f a) w' Q R) → wp (m ≫= f) w Q R.
Proof.
  intros Hm Hw Hs HR Hf. apply wp_bind. eapply wp_mono; [apply (tracks_wp _ _ w Hm)| |done].
  intros a w' E. pose proof (refs_same m Hm w Hw) as Hw'. unfold same in E. injection E as E1 E2.
  apply Hf; [|destruct Hs as [? Hs]; split; [done|by rewrite <- E1]].
  destruct Hw as [U1 U2]. split; unfold refs_unique; [by rewrite <- E1|by rewrite <- E2].
Qed.

Lemma ensure_persona_refs rivals tn persona user :
  (∀ i d, refs_unique d → refs_unique (rivals i d)) →
  tracks kept (ensure_persona str_persona rivals tn persona user).
Proof.
  intros Hr. unfold ensure_persona, get_agent_by_code, resolve_claude_code_external_policy, claim_slot,
    occupied_persona_slots, insert_agent, insert_agent_version.
  repeat first [ apply (claim_loop_pres refs_unique); [done|intros; apply refs_same, begin_nested_table;
                   unfold insert_persona_slot; tracks_auto]
               | solve [apply refs_same; tracks_auto] | tracks_step ].
Qed.

Lemma interfere_refs race : (∀ d, refs_unique d → refs_unique (race d)) → tracks kept (interfere race).
Proof. intros Hr w [Hd Hc]. split; simpl; auto. Qed.

(** A hook may retry a registration. When registering a session succeeds, the row it
    answers with is the tenant's row for that reference, and registering the same reference
    again answers the same row and changes nothing: no second mission, task or session. This
    holds whatever other sessions commit meanwhile, the same registration included. *)
Theorem register_session_idempotent race user ref w :
  (∀ d, refs_unique d → refs_unique (race d)) → refs_ok w →
  wp (register_session_row race user ref) w
    (λ s w1, registered (User.tenant_id user) (inl ref) s w1 ∧
       register_session_row race user ref w1 = (Ret s, w1))
    (λ _ _, True).
Proof.
  intros Hrace Hw. eapply (wp_mono _ _ (λ s w1, refs_ok w1 ∧ registered (User.tenant_id user) (inl ref) s w1) _ (λ _ _, True));
    [..|done].
  2: { intros s w1 [Hok Hs]. split; [done|]. unfold register_session_row.
       pose proof (get_registered_found _ (inl ref) _ _ (proj1 Hok) Hs) as Hg. simpl in Hg.
       unfold mbind, ST_bind. by rewrite Hg. }
  unfold register_session_row. apply wp_bind.
  eapply wp_mono; [apply (get_registered_spec (User.tenant_id user) (inl ref)); apply Hw| |done].
  intros [s|] w' [-> Hs]; [by apply wp_ret|]. clear Hs.
  eapply (wp_bind_pres refs_ok); [apply refs_same; unfold get_agent_by_code; tracks_auto|done| |done].
  clear dependent w. intros [cc|] w Hw; [|done].
  eapply (wp_bind_pres refs_ok); [by apply interfere_refs|done| |done]. clear dependent w. intros ? w Hw.
  apply wp_bind. eapply wp_mono; [|..|done].
  { exact (savepoint_registers (User.tenant_id user) (inl ref) _ w Hw (create_session_rows_spec user _ ref w Hw)). }
  clear dependent w. intros [s|[s st]] w [Hw Hs]; [by apply wp_ret|].
  do 4 (eapply wp_bind_registered; [apply publish_api_sessions|done|exact Hs|done|]; clear dependent w; intros ? w Hw Hs).
  by apply wp_ret.
Qed.

(** C19: ... and a hook may retry the registration of a subagent, whatever other sessions
    commit while its persona's slot is claimed and before its rows are inserted: the second call answers the row of the first
    and changes nothing. *)
Theorem register_subagent_idempotent rivals race user agent_type ref parent_ref w :
  (∀ i d, refs_unique d → refs_unique (rivals i d)) → (∀ d, refs_unique d → refs_unique (race d)) → refs_ok w →
  wp (register_subagent_row str_persona rivals race user agent_type ref parent_ref) w
    (λ s w1, registered (User.tenant_id user) (inr ref) s w1 ∧
       register_subagent_row str_persona rivals race user agent_type ref parent_ref w1 = (Ret s, w1))
    (λ _ _, True).
Proof.
  intros Hr Hrace Hw.
  eapply (wp_mono _ _ (λ s w1, refs_ok w1 ∧ registered (User.tenant_id user) (inr ref) s w1) _ (λ _ _, True));
    [..|done].
  2: { intros s w1 [Hok Hs]. split; [done|]. unfold register_subagent_row.
       pose proof (get_registered_found _ (inr ref) _ _ (proj1 Hok) Hs) as Hg. simpl in Hg.
       unfold mbind, ST_bind. by rewrite Hg. }
  unfold register_subagent_row. apply wp_bind.
  eapply wp_mono; [apply (get_registered_spec (User.tenant_id user) (inr ref)); apply Hw| |done].
  intros [s|] w' [-> Hs]; [by apply wp_ret|]. clear Hs.
  eapply (wp_bind_pres refs_ok); [apply refs_same; unfold get_runtime_session; tracks_auto|done| |done].
  clear dependent w. intros [parent|] w Hw; [|done].
  destruct (AgentRuntimeSession.mission_id parent) as [mid|]; [|done]. case_decide; [done|].
  eapply (wp_bind_pres refs_ok); [by apply ensure_persona_refs|done| |done].
  clear dependent w. intros persona w Hw. case_decide; [done|].
  eapply (wp_bind_pres refs_ok); [by apply interfere_refs|done| |done]. clear dependent w. intros ? w Hw.
  apply wp_bind. eapply wp_mono; [|..|done].
  { exact (savepoint_registers (User.tenant_id user) (inr ref) _ w Hw
             (create_subagent_rows_spec _ mid persona _ parent_ref ref w Hw)). }
  clear dependent w. intros [s|[s t]] w [Hw Hs]; [by apply wp_ret|].
  do 2 (eapply wp_bind_registered; [apply publish_api_sessions|done|exact Hs|done|]; clear dependent w; intros ? w Hw Hs).
  by apply wp_ret.
Qed.

(** An ended session takes no new subagents. Once the parent row has an end time, the
    registration of a new subagent under it is refused with 409 before a persona, a task or a
    session row is created: the request changes nothing. *)
Theorem ended_parent_takes_no_subagents rivals race user agent_type ref parent_ref parent w :
  refs_unique (w_db w) →
  registered (User.tenant_id user) (inl parent_ref) parent w →
  AgentRuntimeSession.mission_id parent ≠ None → AgentRuntimeSession.ended_at parent ≠ None →
  (∀ k s, rs w !! k = Some s → lookup_of (User.tenant_id user) (inr ref) s = false) →
  register_subagent_row str_persona rivals race user agent_type ref parent_ref w =
    (Raise (HTTPException 409 "parent_session_ended"), w).
Proof.
  intros Hu Hp Hm He Hnew. unfold register_subagent_row, mbind, ST_bind.
  pose proof (get_registered_spec (User.tenant_id user) (inr ref) w Hu) as Hg. unfold wp in Hg.
  change (get_runtime_session (User.tenant_id user) AgentRuntimeKind.subagent None (Some ref))
    with (get_registered (User.tenant_id user) (inr ref)).
  change (get_runtime_session (User.tenant_id user) AgentRuntimeKind.session (Some parent_ref) None)
    with (get_registered (User.tenant_id user) (inl parent_ref)).
  destruct (get_registered _ (inr ref) w) as [[[s|]|] w']; [|..|done]; destruct Hg as [-> Hg].
  { destruct Hg as [Hl [k Hk]]. by rewrite (Hnew k s Hk) in Hl. }
  rewrite (get_registered_found _ _ _ _ Hu Hp).
  destruct (AgentRuntimeSession.mission_id parent); [|done]. by rewrite decide_True.
Qed.
End retries.

(** ** Who is let in *)

(** What a usable credential is, at the time the request is served. *)
Definition valid_key `{Env} (parse_uuid : string → option EntityId) (token : string) (p : AgentRuntimePrincipal)
    (w : World) : Prop :=
  ∃ secret k t,
    parse_key parse_uuid token = Some (pr_key_id p, secret) ∧
    DB.api_keys (w_db w) !! pr_key_id p = Some k ∧
    sha256_hex secret = AgentRuntimeApiKey.key_hash k ∧
    AgentRuntimeApiKey.revoked_at k = None ∧
    (∀ e, AgentRuntimeApiKey.expires_at k = Some e → utc_now (w_utc_ticks w) < e) ∧
    DB.users (w_db w) !! AgentRuntimeApiKey.user_id k = Some (pr_user p) ∧
    User.status (pr_user p) = UserStatus.active ∧ User.role (pr_user p) = UserRole.agent_runtime ∧
    DB.tenants (w_db w) !! User.tenant_id (pr_user p) = Some t ∧ Tenant.status t = TenantStatus.active.

Lemma wp_utc `{Env} w Q (R : exn → World → Prop) :
  Q (utc_now (w_utc_ticks w)) (set_utc_ticks (S (w_utc_ticks w)) w) → wp utc w Q R.
Proof. done. Qed.

Section admission.
Context `{Env} (parse_uuid : string → option EntityId).

Lemma admitted_key_valid credentials p w :
  result (get_agent_runtime_principal parse_uuid credentials) w = Ret p →
  ∃ token, credentials = Some token ∧ valid_key parse_uuid token p w.
Proof.
  set (m := get_agent_runtime_principal parse_uuid credentials). intros Hp.
  assert (wp m w (λ p _, ∃ token, credentials = Some token ∧ valid_key parse_uuid token p w) (λ _ _, True)) as Hwp;
    [|unfold wp, result in *; by destruct (m w) as [[?|?] ?]; simplify_eq/=].
  clear Hp. unfold m, get_agent_runtime_principal, valid_key.
  destruct credentials as [token|]; [|done]. cbn [mbind option_bind].
  destruct (parse_key parse_uuid token) as [[kid secret]|] eqn:Hparse; [|done].
  apply wp_bind, wp_asks. destruct (DB.api_keys (w_db w) !! kid) as [k|] eqn:Hk; [|done].
  case_decide; [done|]. apply wp_bind, wp_utc.
  case_decide; [done|]. destruct (match AgentRuntimeApiKey.expires_at k with Some _ => _ | None => _ end) eqn:He; [done|].
  apply wp_bind, wp_asks. simpl. destruct (DB.users _ !! _) as [u|] eqn:Hu; [|done].
  case_decide; [done|]. apply wp_bind, wp_asks. simpl. destruct (DB.tenants _ !! _) as [t|] eqn:Ht; [|done].
  case_decide; [done|]. apply wp_ret. exists token. split; [done|]. exists secret, k, t. simpl.
  split_and!; [done..| |done|apply dec_stable; tauto|apply dec_stable; tauto|done|done].
  intros e Hexp. rewrite Hexp in He. lia.
Qed.

Lemma valid_key_admitted token p w :
  valid_key parse_uuid token p w → result (get_agent_runtime_principal parse_uuid (Some token)) w = Ret p.
Proof.
  intros (secret & k & t & Hparse & Hk & Hh & Hr & Hf & Hu & Hs & Hrole & Ht & Ha).
  set (m := get_agent_runtime_principal parse_uuid (Some token)).
  assert (wp m w (λ p' _, p' = p) (λ _ _, False)) as Hwp;
    [|unfold wp, result in *; by destruct (m w) as [[?|?] ?]; simplify_eq/=].
  unfold m, get_agent_runtime_principal. cbn [mbind option_bind]. rewrite Hparse.
  apply wp_bind, wp_asks. rewrite Hk, decide_False by naive_solver. apply wp_bind, wp_utc.
  rewrite decide_False by naive_solver.
  destruct (match AgentRuntimeApiKey.expires_at k with Some _ => _ | None => _ end) eqn:He.
  { destruct (AgentRuntimeApiKey.expires_at k) as [e|]; [|done]. specialize (Hf e eq_refl). lia. }
  apply wp_bind, wp_asks. simpl. rewrite Hu, decide_False by naive_solver.
  apply wp_bind, wp_asks. simpl. rewrite Ht, decide_False by naive_solver. apply wp_ret. by destruct p.
Qed.

Lemma principal_raises credentials :
  raises (λ e, e = UNAUTHORIZED) (get_agent_runtime_principal parse_uuid credentials).
Proof.
  unfold get_agent_runtime_principal.
  repeat first [ case_match | by apply raises_raise | apply raises_bind; [by intros ? ?|intros ?]
               | apply raises_ret ].
Qed.
End admission.

(** The hook credential opens the router to exactly the right callers. A request is given
    a principal when, and only when, its bearer token is [dtk_<key id>_<secret>] for a stored
    key whose hash is that of the secret, neither revoked nor expired at this moment, held by
    an active service account of an active tenant; every other request is refused with the
    same 401, whichever check it failed. *)
Theorem agent_runtime_key_checked `{Env} parse_uuid credentials w :
  let m := get_agent_runtime_principal parse_uuid credentials in
  (∀ p, result m w = Ret p ↔ ∃ token, credentials = Some token ∧ valid_key parse_uuid token p w) ∧
  (∀ e, result m w = Raise e → e = UNAUTHORIZED).
Proof.
  intros m. split; [|intros e; apply principal_raises]. intros p. split; [apply admitted_key_valid|].
  intros (token & -> & Hv). by apply valid_key_admitted.
Qed.

(** ** Witnesses *)

(** The twin's installation, with the model policy personas run under; [ended] is when the
    registered session ended. *)
Definition hook_db (ended : option Z) : DB.t :=
  DB.upd_model_policies (<[9%positive := ModelPolicy.mk 9 1 CLAUDE_CODE_EXTERNAL_MODEL_POLICY_NAME
                             "openai" "gpt-4o-mini" 0]>)
  (DB.upd_runtime_sessions (λ _, {[20%positive := AgentRuntimeSession.set_ended_at ended twin_session]})
     (twin_db None ∅)).

Lemma hook_refs_ok ended : refs_ok (world_of (hook_db ended)).
Proof.
  split; intros k1 k2 s1 s2 H1 H2 _; simpl in H1, H2;
    apply lookup_singleton_Some in H1 as [<- _], H2 as [<- _]; done.
Qed.

(** Another request registers the reference first. *)
Definition stolen : AgentRuntimeSession.t :=
  AgentRuntimeSession.mk 60 1 AgentRuntimeKind.session (Some 10%positive) None None "t" None None 0 None None None.

Definition steal_ref (d : DB.t) : DB.t :=
  if exists_row (same_ref stolen) (DB.runtime_sessions d) then d
  else DB.upd_runtime_sessions (<[AgentRuntimeSession.id stolen := stolen]>) d.

Lemma steal_ref_unique d : refs_unique d → refs_unique (steal_ref d).
Proof. unfold steal_ref. destruct (exists_row _ _) eqn:He; [done|]. by apply refs_unique_insert. Qed.

Lemma register_session_idempotent_witness :
  result (register_session_row steal_ref acme_operator "t") (world_of (hook_db None)) = Ret stolen ∧
  (∃ s, result (register_session_row id acme_operator "t") (world_of (hook_db None)) = Ret s) ∧
  wp (register_session_row steal_ref acme_operator "t") (world_of (hook_db None))
    (λ s w1, register_session_row steal_ref acme_operator "t" w1 = (Ret s, w1)) (λ _ _, True).
Proof.
  split; [vm_compute; reflexivity|]. split; [eexists; vm_compute; reflexivity|].
  eapply wp_mono; [apply (register_session_idempotent steal_ref acme_operator "t" _ steal_ref_unique
    (hook_refs_ok None))| |done].
  by intros s w1 [_ ?].
Defined.

Lemma register_subagent_idempotent_witness :
  (∃ s, result (register_subagent_row pd_display_name no_rivals id acme_operator (Some "planner") "i-1" "s")
          (world_of (hook_db None)) = Ret s) ∧
  wp (register_subagent_row pd_display_name no_rivals id acme_operator (Some "planner") "i-1" "s")
    (world_of (hook_db None))
    (λ s w1, register_subagent_row pd_display_name no_rivals id acme_operator (Some "planner") "i-1" "s" w1 =
             (Ret s, w1)) (λ _ _, True).
Proof.
  split; [eexists; vm_compute; reflexivity|].
  eapply wp_mono; [apply (register_subagent_idempotent pd_display_name no_rivals id acme_operator (Some "planner")
    "i-1" "s" _); [by intros i d|done|apply (hook_refs_ok None)]| |done].
  by intros s w1 [_ ?].
Defined.

Lemma ended_parent_takes_no_subagents_witness :
  register_subagent_row pd_display_name no_rivals id acme_operator (Some "planner") "i-1" "s"
    (world_of (hook_db (Some 5))) =
  (Raise (HTTPException 409 "parent_session_ended"), world_of (hook_db (Some 5))).
Proof.
  apply (ended_parent_takes_no_subagents pd_display_name no_rivals id acme_operator (Some "planner") "i-1" "s"
    (AgentRuntimeSession.set_ended_at (Some 5) twin_session) (world_of (hook_db (Some 5)))).
  - apply (hook_refs_ok (Some 5)).
  - split; [reflexivity|by exists 20%positive].
  - discriminate.
  - discriminate.
  - intros k s Hs. simpl in Hs. by apply lookup_singleton_Some in Hs as [_ <-].
Defined.

(** A second tenant, with its own service account and its own seeded twin. *)
Definition globex_hook : User.t :=
  User.mk 41 40 "hook@globex.test" "Hook" UserRole.agent_runtime UserStatus.active "hash".

Definition two_tenants : DB.t :=
  DB.upd_tenants (<[40%positive := Tenant.mk 40 "globex" "Globex" TenantStatus.active]>)
  (DB.upd_users (<[41%positive := globex_hook]>)
  (DB.upd_agents (<[42%positive := Agent.mk 42 40 "AGT-CLAUDE-CODE" "Claude Code" None None None AgentLifecycleState.active
                      (Some 43%positive) None 0 0]>)
  (DB.upd_agent_versions (<[43%positive := AgentVersion.mk 43 42 1 "Twin." "external_manual" 3
                              AutonomyLevel.a1 ToolPolicy_default [] [] "sum" None 0]>) (hook_db None)))).

(** Session references are not scoped by tenant. A session is looked up per tenant, but
    its reference is also the code of its mission, and mission codes are unique over all
    tenants: when one tenant has registered a reference, the same registration by another
    tenant fails with an unhandled integrity error. *)
Theorem session_ref_collides_across_tenants :
  (∃ s, result (register_session_row id globex_hook "t") (world_of two_tenants) = Ret s) ∧
  (∃ e, result (register_session_row id globex_hook "s") (world_of two_tenants) = Raise e ∧
        is_integrity_error e = true).
Proof. split; [eexists; vm_compute; reflexivity|eexists; split; vm_compute; reflexivity]. Qed.
