(* ===== verification/Scripts.v ===== *)
(** * Operator scripts
    (infrastructure/scripts/issue_agent_runtime_key.py and infrastructure/scripts/seed.py)

    Issuing and revoking the hook credential that [AgentRuntime] checks, and seeding an
    installation. Random values the scripts draw (the key's secret, a discarded password, the
    salt of its hash) are arguments; [hex] is a UUID's 32-digit text. *)

From Stdlib Require Import Ascii.
From S2P Require Import Prelude Enums Contracts Telemetry Breaker Database Scenario Gateway Config Auth.
From S2P Require Import Projects Closure Agents AgentRuntime.
Local Open Scope Z_scope.

(** ** Inserts *)

Definition tenant_coded (code : string) (t : Tenant.t) : bool := bool_decide (Tenant.code t = code).

Definition user_named (tn : EntityId) (email : string) (u : User.t) : bool :=
  bool_decide (User.tenant_id u = tn) && bool_decide (User.email u = email).

Definition agent_coded (tn : EntityId) (code : string) (a : Agent.t) : bool :=
  bool_decide (Agent.tenant_id a = tn) && bool_decide (Agent.agent_code a = code).

Definition insert_tenant (r : Tenant.t) : M unit :=
  d ← asks_db id;
  _ ← integrity (negb (is_present (Tenant.id r) (DB.tenants d))) "tenants_pkey";
  _ ← integrity (negb (exists_row (tenant_coded (Tenant.code r)) (DB.tenants d))) "tenants_code_key";
  modify_db (DB.upd_tenants (<[Tenant.id r := r]>)).

Definition insert_user (r : User.t) : M unit :=
  d ← asks_db id;
  _ ← integrity (negb (is_present (User.id r) (DB.users d))) "users_pkey";
  _ ← integrity (is_present (User.tenant_id r) (DB.tenants d)) "users_tenant_id_fkey";
  _ ← integrity (negb (exists_row (user_named (User.tenant_id r) (User.email r)) (DB.users d))) "uq_users_tenant_email";
  modify_db (DB.upd_users (<[User.id r := r]>)).

Definition hashed_as (h : string) (k : AgentRuntimeApiKey.t) : bool := bool_decide (AgentRuntimeApiKey.key_hash k = h).

Definition insert_api_key (r : AgentRuntimeApiKey.t) : M unit :=
  d ← asks_db id;
  _ ← integrity (negb (is_present (AgentRuntimeApiKey.id r) (DB.api_keys d))) "agent_runtime_api_keys_pkey";
  _ ← integrity (is_present (AgentRuntimeApiKey.user_id r) (DB.users d)) "agent_runtime_api_keys_user_id_fkey";
  _ ← integrity (negb (exists_row (hashed_as (AgentRuntimeApiKey.key_hash r)) (DB.api_keys d)))
        "uq_agent_runtime_api_keys_key_hash";
  modify_db (DB.upd_api_keys (<[AgentRuntimeApiKey.id r := r]>)).

(** [(await session.execute(select(...).where(P))).scalar_one_or_none()] *)
Definition find_one {V} (table : DB.t → gmap EntityId V) (P : V → bool) : M (option V) :=
  rows ← asks_db (λ d, select P (table d));
  scalar_one_or_none rows.

(** ** The agent-runtime key *)

Definition MAX_EXPIRES_IN_DAYS : Z := 3650.

(** [marker in url] *)
Definition contains (marker url : string) : bool := match String.index 0 marker url with Some _ => true | None => false end.

(** [_is_local_database_url(url)] *)
Definition is_local_database_url (url : string) : bool := contains "localhost" url || contains "127.0.0.1" url.

(** [_service_email(tenant_code)] *)
Definition service_email (tenant_code : string) : string := "agent-runtime+" +:+ tenant_code +:+ "@daythree.local".

Section keys.
Context `{Env} (hashpw : string → string → string).
Context (hex : EntityId → string) (parse_uuid : string → option EntityId).

(** [_get_tenant(session, tenant_code)] *)
Definition get_tenant (tenant_code : string) : M Tenant.t :=
  tenant ← find_one DB.tenants (tenant_coded tenant_code);
  match tenant with
  | None => raise (SystemExit ("No tenant with code '" +:+ tenant_code +:+ "' exists."))
  | Some t => mret t
  end.

(** [_ensure_service_user(session, tenant)] *)
Definition ensure_service_user (salt unusable_password : string) (tenant : Tenant.t) : M User.t :=
  let email := service_email (Tenant.code tenant) in
  user ← find_one DB.users (user_named (Tenant.id tenant) email);
  match user with
  | Some u => mret u
  | None =>
      i ← new_id;
      let user := User.mk i (Tenant.id tenant) email ("Agent Runtime (" +:+ Tenant.code tenant +:+ ")")
                    UserRole.agent_runtime UserStatus.active (hash_password hashpw salt unusable_password) in
      _ ← insert_user user;
      mret user
  end.

(** [_issue_key(session, user, label, expires_in_days)] *)
Definition issue_key (secret : string) (user : User.t) (label : string) (expires_in_days : option Z) : M string :=
  expires_at ← match expires_in_days with
               | None => mret None
               | Some days => now ← utc; mret (Some (now + days * 86400000000))
               end;
  i ← new_id;
  _ ← insert_api_key (AgentRuntimeApiKey.mk i (User.id user) (sha256_hex secret) label expires_at None);
  mret ("dtk_" +:+ hex i +:+ "_" +:+ secret).

(** [issue(tenant_code, label=.., expires_in_days=..)] *)
Definition issue (salt unusable_password secret tenant_code label : string) (expires_in_days : option Z) : M string :=
  with_session
    (tenant ← get_tenant tenant_code;
     user ← ensure_service_user salt unusable_password tenant;
     token ← issue_key secret user label expires_in_days;
     _ ← commit;
     mret token).

(** [revoke(tenant_code, key_id)] *)
Definition revoke (salt unusable_password tenant_code key_id : string) : M unit :=
  with_session
    (tenant ← get_tenant tenant_code;
     user ← ensure_service_user salt unusable_password tenant;
     match parse_uuid key_id with
     | None => raise (SystemExit ("'" +:+ key_id +:+ "' is not a valid key id."))
     | Some parsed_key_id =>
         key ← get_row DB.api_keys parsed_key_id;
         let missing := SystemExit ("No key '" +:+ key_id +:+ "' exists for tenant '" +:+ tenant_code +:+ "'.") in
         match key with
         | None => raise missing
         | Some key =>
             if decide (AgentRuntimeApiKey.user_id key ≠ User.id user) then raise missing
             else when (bool_decide (AgentRuntimeApiKey.revoked_at key = None))
               (now ← utc;
                _ ← modify_db (DB.upd_api_keys (alter (AgentRuntimeApiKey.set_revoked_at (Some now)) parsed_key_id));
                commit)
         end
     end).

(** The parsed arguments of [main]. *)
Record IssueArgs := mkIssueArgs {
  arg_tenant_code : string;
  arg_label : string;
  arg_expires_in_days : option Z;
  arg_revoke : option string;
  arg_allow_remote : bool;
}.

(** [main()]; returns what it prints. *)
Definition issue_main (settings : Settings) (salt unusable_password secret : string) (args : IssueArgs) : M string :=
  if match arg_expires_in_days args with
     | Some n => negb ((1 <=? n) && (n <=? MAX_EXPIRES_IN_DAYS))
     | None => false
     end
  then raise (SystemExit ("--expires-in-days must be between 1 and " +:+ pretty MAX_EXPIRES_IN_DAYS +:+ "."))
  else if negb (arg_allow_remote args) && negb (is_local_database_url (database_url settings))
  then raise (SystemExit "2")
  else match arg_revoke args with
       | Some key_id =>
           _ ← revoke salt unusable_password (arg_tenant_code args) key_id;
           mret ("Revoked key " +:+ key_id +:+ " for tenant " +:+ arg_tenant_code args +:+ ".")
       | None => issue salt unusable_password secret (arg_tenant_code args) (arg_label args) (arg_expires_in_days args)
       end.
End keys.

(** ** Seeding *)

Definition ATLAS_SYSTEM_PROMPT : string :=
  "You are Atlas, a Daythree AI Labs Research Analyst. Your job is to analyze the " +:+
  "assigned requirement using only the information and tools provided. Separate " +:+
  "verified facts, assumptions, risks, and recommendations. Never invent evidence. " +:+
  "If required information is unavailable, clearly identify the gap. Produce a " +:+
  "concise, structured artifact suitable for management review.".

Definition CLAUDE_CODE_DESCRIPTION : string :=
  "Runs outside Daythree's process boundary (a Claude Code session) — missions " +:+
  "assigned here are never picked up by the internal worker; the agent itself " +:+
  "reports completion via POST /api/v1/tasks/{id}/complete-external, reusing the " +:+
  "same output validator, artifact storage, and audit trail as an internally-" +:+
  "executed agent. Its tool_policy and budget_policy are NOT runtime-enforced " +:+
  "(Daythree has no visibility into a Claude Code session's real tool calls or " +:+
  "model usage) — advisory documentation only, not governance.".

Definition SEED_TOOL_POLICY : ToolPolicy :=
  allow_only [ToolName.artifact_write; ToolName.artifact_read; ToolName.knowledge_read].

Section seeding.
Context `{Env} (hashpw : string → string → string).
(** [str(version_payload)] *)
Context (str_payload : string → string → EntityId → AutonomyLevel.t → ToolPolicy → string).

(** The tenant's part of [seed]. *)
Definition seed_tenant (settings : Settings) : M Tenant.t :=
  tenant ← find_one DB.tenants (tenant_coded (seed_tenant_code settings));
  match tenant with
  | Some t => mret t
  | None =>
      i ← new_id;
      let tenant := Tenant.mk i (seed_tenant_code settings) "Daythree HQ" TenantStatus.active in
      _ ← insert_tenant tenant;
      mret tenant
  end.

(** The administrator's part. *)
Definition seed_admin (settings : Settings) (salt : string) (tn : EntityId) : M User.t :=
  admin ← find_one DB.users (user_named tn (seed_admin_email settings));
  match admin with
  | Some u => mret u
  | None =>
      i ← new_id;
      let admin := User.mk i tn (seed_admin_email settings) "Platform Admin" UserRole.platform_admin UserStatus.active
                     (hash_password hashpw salt (seed_admin_password settings)) in
      _ ← insert_user admin;
      mret admin
  end.

(** A model policy's part; [seed] does this for two policies. *)
Definition seed_policy (tn : EntityId) (name provider model : string) : M ModelPolicy.t :=
  policy ← find_one DB.model_policies (policy_named tn name);
  match policy with
  | Some p => mret p
  | None =>
      i ← new_id;
      now ← utc;
      let policy := ModelPolicy.mk i tn name provider model now in
      _ ← insert_model_policy policy;
      mret policy
  end.

(** An agent's part, with its first version; [seed] does this for two agents. *)
Definition seed_agent (tn admin policy : EntityId) (code display_name description department role_name prompt runtime_adapter : string)
    (autonomy : AutonomyLevel.t) : M unit :=
  agent ← find_one DB.agents (agent_coded tn code);
  match agent with
  | Some _ => mret tt
  | None =>
      i ← new_id;
      now ← utc;
      _ ← insert_agent (Agent.mk i tn code display_name (Some description) (Some department) (Some role_name) AgentLifecycleState.active None
            (Some admin) now now);
      v ← new_id;
      _ ← insert_agent_version (AgentVersion.mk v i 1 prompt runtime_adapter policy autonomy SEED_TOOL_POLICY [] []
            (sha256_hex (str_payload prompt runtime_adapter policy autonomy SEED_TOOL_POLICY)) (Some admin) now);
      modify_db (DB.upd_agents (alter (Agent.set_active_version_id (Some v)) i))
  end.

(** [seed()] *)
Definition seed (settings : Settings) (salt : string) : M unit :=
  with_session
    (tenant ← seed_tenant settings;
     let tn := Tenant.id tenant in
     admin ← seed_admin settings salt tn;
     model_policy ← seed_policy tn "phase0-default" (default_model_provider settings) (default_model_name settings);
     _ ← seed_agent tn (User.id admin) (ModelPolicy.id model_policy) "AGT-000001" "Atlas" "Research Analyst" "Research"
           "Research Analyst" ATLAS_SYSTEM_PROMPT "custom_durable" AutonomyLevel.a1;
     claude_code_policy ← seed_policy tn "claude-code-external" "claude-code" "claude-code-session";
     _ ← seed_agent tn (User.id admin) (ModelPolicy.id claude_code_policy) "AGT-CLAUDE-CODE" "Claude Code"
           CLAUDE_CODE_DESCRIPTION "Engineering" "External AI Agent" CLAUDE_CODE_DESCRIPTION "external_manual" AutonomyLevel.a3;
     commit).
End seeding.

(** ** Lemmas *)

Lemma wp_integrity ok c w (Q : unit → World → Prop) (R : exn → World → Prop) :
  (ok = true → Q tt w) → (ok = false → R (IntegrityError c) w) → wp (integrity ok c) w Q R.
Proof. intros HQ HR. destruct ok; [apply HQ|apply HR]; done. Qed.

(** Every check of an insert, down to the write. *)
Ltac insert_checks :=
  apply wp_bind, wp_asks; repeat (apply wp_bind, wp_integrity; [intros ?|done]); apply wp_modify.

Lemma not_present {V} k (m : gmap EntityId V) : negb (is_present k m) = true → m !! k = None.
Proof. unfold is_present. rewrite negb_true_iff, bool_decide_eq_false. apply eq_None_not_Some. Qed.

Lemma find_one_spec {V} (table : DB.t → gmap EntityId V) P w Q (R : exn → World → Prop) :
  (∀ v, select P (table (w_db w)) = [v] → Q (Some v) w) →
  (select P (table (w_db w)) = [] → Q None w) →
  R MultipleResultsFound w →
  wp (find_one table P) w Q R.
Proof.
  intros HS HN HR. unfold find_one. apply wp_bind, wp_asks. destruct (select P _) as [|v [|]]; [apply HN|apply HS|]; done.
Qed.

Lemma find_one_again {V} (table : DB.t → gmap EntityId V) P w Q (R : exn → World → Prop) :
  count_rows P (table (w_db w)) = 1%nat → (∀ v, v ∈ select P (table (w_db w)) → Q (Some v) w) → wp (find_one table P) w Q R.
Proof.
  intros Hc HQ. unfold find_one, count_rows in *. apply wp_bind, wp_asks.
  destruct (select P _) as [|v [|]]; [done| |done]. apply wp_ret, HQ. by left.
Qed.

Lemma wp_commit `{Env} w (Q : unit → World → Prop) (R : exn → World → Prop) :
  (∀ w', w_committed w' = w_db w → w_db w' = w_db w → w_utc_ticks w' = w_utc_ticks w → Q tt w') →
  (∀ w', w_committed w' = w_committed w → R (OperationalError "commit") w') → wp commit w Q R.
Proof. intros HQ HR. unfold wp, commit. cbn [w_commits set_commits pred]. destruct (commit_ok _); [by apply HQ|by apply HR]. Qed.

Lemma insert_user_spec r w :
  wp (insert_user r) w
    (λ _ w', DB.users (w_db w) !! User.id r = None ∧ w' = set_db (DB.upd_users (<[User.id r := r]>) (w_db w)) w)
    (λ _ w', w' = w).
Proof. unfold insert_user. insert_checks. split; [by apply not_present|done]. Qed.

Lemma insert_tenant_spec r w :
  wp (insert_tenant r) w
    (λ _ w', DB.tenants (w_db w) !! Tenant.id r = None ∧ w' = set_db (DB.upd_tenants (<[Tenant.id r := r]>) (w_db w)) w)
    (λ _ w', w' = w).
Proof. unfold insert_tenant. insert_checks. split; [by apply not_present|done]. Qed.

Lemma insert_api_key_spec r w :
  wp (insert_api_key r) w
    (λ _ w', DB.api_keys (w_db w) !! AgentRuntimeApiKey.id r = None ∧
       w' = set_db (DB.upd_api_keys (<[AgentRuntimeApiKey.id r := r]>) (w_db w)) w)
    (λ _ w', w' = w).
Proof. unfold insert_api_key. insert_checks. split; [by apply not_present|done]. Qed.

Lemma insert_policy_spec r w :
  wp (insert_model_policy r) w
    (λ _ w', DB.model_policies (w_db w) !! ModelPolicy.id r = None ∧
       w' = set_db (DB.upd_model_policies (<[ModelPolicy.id r := r]>) (w_db w)) w)
    (λ _ w', w' = w).
Proof. unfold insert_model_policy. insert_checks. split; [by apply not_present|done]. Qed.

Lemma insert_agent_spec r w :
  wp (insert_agent r) w
    (λ _ w', DB.agents (w_db w) !! Agent.id r = None ∧ w' = set_db (DB.upd_agents (<[Agent.id r := r]>) (w_db w)) w)
    (λ _ w', w' = w).
Proof. unfold insert_agent. insert_checks. split; [by apply not_present|done]. Qed.

Lemma insert_version_spec r w :
  wp (insert_agent_version r) w
    (λ _ w', w' = set_db (DB.upd_agent_versions (<[AgentVersion.id r := r]>) (w_db w)) w)
    (λ _ w', w' = w).
Proof. unfold insert_agent_version. insert_checks. done. Qed.

(** ** Seeding twice *)

(** What is there after a run: one row for every lookup. *)
Record seeded (settings : Settings) (tenant : Tenant.t) (d : DB.t) : Prop := {
  sd_tenant : select (tenant_coded (seed_tenant_code settings)) (DB.tenants d) = [tenant];
  sd_admin : count_rows (user_named (Tenant.id tenant) (seed_admin_email settings)) (DB.users d) = 1%nat;
  sd_policies : ∀ n, n ∈ ["phase0-default"; "claude-code-external"] →
    count_rows (policy_named (Tenant.id tenant) n) (DB.model_policies d) = 1%nat;
  sd_agents : ∀ c, c ∈ ["AGT-000001"; "AGT-CLAUDE-CODE"] →
    count_rows (agent_coded (Tenant.id tenant) c) (DB.agents d) = 1%nat;
}.

Section seed_lemmas.
Context `{Env} (hashpw : string → string → string).
Context (str_payload : string → string → EntityId → AutonomyLevel.t → ToolPolicy → string).

(** A step that has not committed. *)
Abbreviation uncommitted w := (λ (_ : exn) (w' : World), w_committed w' = w_committed w).

Lemma seed_tenant_spec settings w :
  wp (seed_tenant settings) w
    (λ t w', select (tenant_coded (seed_tenant_code settings)) (DB.tenants (w_db w')) = [t] ∧
       w_committed w' = w_committed w)
    (uncommitted w).
Proof.
  unfold seed_tenant. apply wp_bind, find_one_spec; [by intros t Ht; apply wp_ret| |done].
  intros Hn. apply wp_bind. unfold wp at 1; cbn [new_id]. apply wp_bind.
  eapply wp_mono; [apply insert_tenant_spec| |by intros ? ? ->]. intros [] w1 [Hf ->]. apply wp_ret. split; [|done]. simpl.
  apply Permutation_singleton_r. rewrite select_insert_fresh by done. simpl in Hn. rewrite Hn.
  unfold tenant_coded at 1. simpl. by rewrite bool_decide_true.
Qed.

Lemma seed_admin_spec settings salt tn w :
  wp (seed_admin hashpw settings salt tn) w
    (λ _ w', count_rows (user_named tn (seed_admin_email settings)) (DB.users (w_db w')) = 1%nat ∧
       DB.tenants (w_db w') = DB.tenants (w_db w) ∧ w_committed w' = w_committed w)
    (uncommitted w).
Proof.
  unfold seed_admin. apply wp_bind, find_one_spec; [|intros Hn|done].
  - intros u Hu. apply wp_ret. unfold count_rows. by rewrite Hu.
  - apply wp_bind. unfold wp at 1; cbn [new_id]. apply wp_bind.
    eapply wp_mono; [apply insert_user_spec| |by intros ? ? ->]. intros [] w1 [Hf ->]. apply wp_ret. split; [|done]. simpl.
    rewrite count_insert_fresh by done. unfold count_rows. simpl in Hn. rewrite Hn.
    unfold user_named. simpl. by rewrite !bool_decide_true.
Qed.

Lemma seed_policy_spec tn name provider model w :
  wp (seed_policy tn name provider model) w
    (λ _ w', count_rows (policy_named tn name) (DB.model_policies (w_db w')) = 1%nat ∧
       (∀ n, n ≠ name → count_rows (policy_named tn n) (DB.model_policies (w_db w')) =
                        count_rows (policy_named tn n) (DB.model_policies (w_db w))) ∧
       (DB.tenants (w_db w'), DB.users (w_db w'), DB.agents (w_db w')) =
         (DB.tenants (w_db w), DB.users (w_db w), DB.agents (w_db w)) ∧ w_committed w' = w_committed w)
    (uncommitted w).
Proof.
  unfold seed_policy. apply wp_bind, find_one_spec; [|intros Hn|done].
  - intros p Hp. apply wp_ret. unfold count_rows. by rewrite Hp.
  - apply wp_bind. unfold wp at 1; cbn [new_id]. apply wp_bind. unfold wp at 1; cbn [utc]. apply wp_bind.
    eapply wp_mono; [apply insert_policy_spec| |by intros ? ? ->]. intros [] w1 [Hf ->]. apply wp_ret. simpl in *.
    split_and!; [| |done..].
    + rewrite count_insert_fresh by done. unfold count_rows. rewrite Hn.
      unfold policy_named. simpl. by rewrite !bool_decide_true.
    + intros n Hne. rewrite count_insert_fresh by done. unfold policy_named at 1. simpl.
      by rewrite (bool_decide_false (name = n)), andb_false_r.
Qed.

Lemma seed_agent_spec tn admin policy code display descr dept role prompt ra autonomy w :
  wp (seed_agent str_payload tn admin policy code display descr dept role prompt ra autonomy) w
    (λ _ w', count_rows (agent_coded tn code) (DB.agents (w_db w')) = 1%nat ∧
       (∀ c, c ≠ code → count_rows (agent_coded tn c) (DB.agents (w_db w')) =
                        count_rows (agent_coded tn c) (DB.agents (w_db w))) ∧
       (DB.tenants (w_db w'), DB.users (w_db w'), DB.model_policies (w_db w')) =
         (DB.tenants (w_db w), DB.users (w_db w), DB.model_policies (w_db w)) ∧ w_committed w' = w_committed w)
    (uncommitted w).
Proof.
  unfold seed_agent. apply wp_bind, find_one_spec; [|intros Hn|done].
  - intros a Ha. apply wp_ret. unfold count_rows. by rewrite Ha.
  - apply wp_bind. unfold wp at 1; cbn [new_id]. apply wp_bind. unfold wp at 1; cbn [utc]. apply wp_bind.
    eapply wp_mono; [apply insert_agent_spec| |by intros ? ? ->]. intros [] w1 [Hf ->].
    apply wp_bind. unfold wp at 1; cbn [new_id]. apply wp_bind.
    eapply wp_mono; [apply insert_version_spec| |by intros ? ? ->]. intros [] w1 ->. apply wp_modify. simpl in *.
    split_and!; [| |done..]; [|intros c Hne]; rewrite count_alter, count_insert_fresh by done.
    + unfold count_rows. rewrite Hn. unfold agent_coded. simpl. by rewrite !bool_decide_true.
    + unfold agent_coded at 1. simpl. by rewrite (bool_decide_false (code = c)), andb_false_r.
Qed.
End seed_lemmas.

Section seed_theorems.
Context `{Env} (hashpw : string → string → string).
Context (str_payload : string → string → EntityId → AutonomyLevel.t → ToolPolicy → string).

(** A run on what a run left behind writes nothing. *)
Lemma seed_again settings tenant salt w :
  seeded settings tenant (w_committed w) →
  wp (seed hashpw str_payload settings salt) w
    (λ _ w', w_committed w' = w_committed w)
    (λ e w', w_committed w' = w_committed w ∧ e = OperationalError "commit").
Proof.
  intros [Ht Hu Hp Ha]. unfold seed. apply wp_with_session. set (w0 := set_db (w_committed w) w).
  apply wp_bind. unfold seed_tenant. apply wp_bind, find_one_again; [unfold count_rows; simpl; by rewrite Ht|].
  simpl. rewrite Ht. intros t ->%list_elem_of_singleton. apply wp_ret.
  apply wp_bind, wp_bind, find_one_again; [done|]. intros u _. apply wp_ret.
  apply wp_bind, wp_bind, find_one_again; [apply Hp; set_solver|]. intros p _. apply wp_ret.
  apply wp_bind, wp_bind, find_one_again; [apply Ha; set_solver|]. intros a _. apply wp_ret.
  apply wp_bind, wp_bind, find_one_again; [apply Hp; set_solver|]. intros p2 _. apply wp_ret.
  apply wp_bind, wp_bind, find_one_again; [apply Ha; set_solver|]. intros a2 _. apply wp_ret.
  apply wp_commit; [by intros w' ->|by intros w' ->].
Qed.

(** Seeding can be repeated. A run either fails and leaves the committed database as it
    was, or commits an installation that has exactly one row for everything the script
    seeds: the tenant, its administrator, two model policies and two agents. From there a
    second run adds and changes nothing, whatever was in the database before the first, and
    can fail only in its commit. *)
Theorem seed_is_idempotent settings salt salt' w :
  wp (seed hashpw str_payload settings salt) w
    (λ _ w1, (∃ tenant, seeded settings tenant (w_committed w1)) ∧
       wp (seed hashpw str_payload settings salt') w1
         (λ _ w2, w_committed w2 = w_committed w1)
         (λ e w2, w_committed w2 = w_committed w1 ∧ e = OperationalError "commit"))
    (λ _ w1, w_committed w1 = w_committed w).
Proof.
  assert (wp (seed hashpw str_payload settings salt) w (λ _ w1, ∃ tenant, seeded settings tenant (w_committed w1))
    (λ _ w1, w_committed w1 = w_committed w)) as Hs.
  { unfold seed. apply wp_with_session. set (w0 := set_db (w_committed w) w).
    apply wp_bind. eapply wp_mono; [apply seed_tenant_spec| |intros ? ? E; simpl in *; congruence]. intros tenant w1 [Ht C1].
    apply wp_bind. eapply wp_mono; [apply seed_admin_spec| |intros ? ? E; simpl in *; congruence]. intros admin w2 (Hu & T2 & C2).
    apply wp_bind. eapply wp_mono; [apply seed_policy_spec| |intros ? ? E; simpl in *; congruence].
    intros mp w3 (Hp & _ & [= T3 U3 A3] & C3).
    apply wp_bind. eapply wp_mono; [apply seed_agent_spec| |intros ? ? E; simpl in *; congruence].
    intros [] w4 (Ha & _ & [= T4 U4 P4] & C4).
    apply wp_bind. eapply wp_mono; [apply seed_policy_spec| |intros ? ? E; simpl in *; congruence].
    intros cp w5 (Hp' & Hpo & [= T5 U5 A5] & C5).
    apply wp_bind. eapply wp_mono; [apply seed_agent_spec| |intros ? ? E; simpl in *; congruence].
    intros [] w6 (Ha' & Hao & [= T6 U6 P6] & C6).
    apply wp_commit; [intros w7 C7 _ _|intros w7 C7; simpl in *; congruence].
    exists tenant. simpl. rewrite C7. split.
    - congruence.
    - congruence.
    - rewrite P6. intros n [->|[->|[]%elem_of_nil]%elem_of_cons]%elem_of_cons; [|done]. rewrite Hpo by done. congruence.
    - intros c [->|[->|[]%elem_of_nil]%elem_of_cons]%elem_of_cons; [|done]. rewrite Hao by done. congruence. }
  eapply wp_mono; [exact Hs| |done]. intros [] w1 [tenant Hw1]. split; [by exists tenant|]. by eapply seed_again.
Qed.
End seed_theorems.

(** ** Keys *)

Section key_theorems.
Context `{Env} (hashpw : string → string → string).
Context (hex : EntityId → string) (parse_uuid : string → option EntityId).

(** The text after an underscore-free prefix. *)
Lemma split_underscore_app s t :
  split_underscore s = (s, None) → split_underscore (s +:+ "_" +:+ t) = (s, Some t).
Proof.
  induction s as [|c s IH]; simpl; [done|]. case_decide; [done|].
  destruct (split_underscore s) as [h r]. intros [= -> ->]. by rewrite IH.
Qed.

Lemma parse_issued i secret :
  parse_uuid (hex i) = Some i → split_underscore (hex i) = (hex i, None) → secret ≠ "" →
  parse_key parse_uuid ("dtk_" +:+ hex i +:+ "_" +:+ secret) = Some (i, secret).
Proof.
  intros Hp Hu Hs. unfold parse_key.
  change ("dtk_" +:+ hex i +:+ "_" +:+ secret) with ("dtk" +:+ "_" +:+ (hex i +:+ "_" +:+ secret)).
  rewrite split_underscore_app by done. rewrite split_underscore_app by done. rewrite decide_True by done. simpl. by rewrite Hp.
Qed.

(** The service account, found or created. *)
Lemma ensure_service_user_spec salt pw tenant w :
  (∀ k u, DB.users (w_db w) !! k = Some u → User.id u = k) →
  wp (ensure_service_user hashpw salt pw tenant) w
    (λ u w', DB.users (w_db w') !! User.id u = Some u ∧ User.tenant_id u = Tenant.id tenant ∧
       (u ∈ select (user_named (Tenant.id tenant) (service_email (Tenant.code tenant))) (DB.users (w_db w)) ∨
        User.status u = UserStatus.active ∧ User.role u = UserRole.agent_runtime) ∧
       DB.tenants (w_db w') = DB.tenants (w_db w) ∧ DB.api_keys (w_db w') = DB.api_keys (w_db w) ∧
       w_committed w' = w_committed w ∧ w_utc_ticks w' = w_utc_ticks w)
    (λ _ w', w_committed w' = w_committed w).
Proof.
  intros Hk. unfold ensure_service_user. apply wp_bind, find_one_spec; [|intros Hn|done].
  - intros u Hu. apply wp_ret.
    assert (u ∈ select (user_named (Tenant.id tenant) (service_email (Tenant.code tenant))) (DB.users (w_db w))) as Hin
      by (rewrite Hu; by left).
    pose proof Hin as [Hm [k Hl]]%elem_of_select. pose proof (Hk k u Hl). subst k.
    apply andb_true_iff in Hm as [Ht%bool_decide_eq_true _]. split_and!; auto.
  - apply wp_bind. unfold wp at 1; cbn [new_id]. apply wp_bind.
    eapply wp_mono; [apply insert_user_spec| |by intros ? ? ->]. intros [] w1 [Hf ->]. apply wp_ret. simpl.
    rewrite lookup_insert_eq. split_and!; auto.
Qed.

(** C24: an issued key works. For an active tenant
    whose service account, if it has one, is in order, the token that [issue] prints is
    accepted by the agent-runtime API from the moment of the commit until it expires, as a
    service account of that tenant; all earlier keys stay as they were. A run that fails has
    committed nothing. *)
Theorem issued_key_is_admitted salt pw secret code label days tenant w :
  (∀ i, parse_uuid (hex i) = Some i) → (∀ i, split_underscore (hex i) = (hex i, None)) → secret ≠ "" →
  select (tenant_coded code) (DB.tenants (w_committed w)) = [tenant] →
  DB.tenants (w_committed w) !! Tenant.id tenant = Some tenant → Tenant.status tenant = TenantStatus.active →
  (∀ k u, DB.users (w_committed w) !! k = Some u → User.id u = k) →
  (∀ u, u ∈ select (user_named (Tenant.id tenant) (service_email (Tenant.code tenant))) (DB.users (w_committed w)) →
     User.status u = UserStatus.active ∧ User.role u = UserRole.agent_runtime) →
  wp (issue hashpw hex salt pw secret code label days) w
    (λ token w', DB.api_keys (w_committed w) ⊆ DB.api_keys (w_committed w') ∧
       ∀ w2, w_db w2 = w_committed w' →
       (∀ d, days = Some d → utc_now (w_utc_ticks w2) < utc_now (w_utc_ticks w) + d * 86400000000) →
       ∃ p, result (get_agent_runtime_principal parse_uuid (Some token)) w2 = Ret p ∧
         User.tenant_id (pr_user p) = Tenant.id tenant ∧ User.role (pr_user p) = UserRole.agent_runtime)
    (λ _ w', w_committed w' = w_committed w).
Proof.
  intros Hhex Hund Hsec Hsel Hten Hact Hkey Hsvc. unfold issue. apply wp_with_session. set (w0 := set_db (w_committed w) w).
  apply wp_bind. unfold get_tenant. apply wp_bind, find_one_spec; [|by intros ?; apply wp_raise|done].
  simpl. rewrite Hsel. intros t [= <-]. apply wp_ret.
  apply wp_bind. eapply wp_mono; [by apply ensure_service_user_spec| |done].
  intros u w1 (Hu & Htn & Hgood & T1 & K1 & C1 & N1). simpl in *.
  assert (User.status u = UserStatus.active ∧ User.role u = UserRole.agent_runtime) as [Hs Hr].
  { destruct Hgood as [Hin|]; [by apply Hsvc|done]. }
  apply wp_bind. unfold issue_key. apply wp_bind.
  assert (wp (match days with None => mret None | Some d => now ← utc; mret (Some (now + d * 86400000000)) end) w1
    (λ e w2, w_db w2 = w_db w1 ∧ w_committed w2 = w_committed w1 ∧
       ∀ x, e = Some x → ∃ d, days = Some d ∧ x = utc_now (w_utc_ticks w) + d * 86400000000) (λ _ _, False)) as Hd.
  { destruct days as [d|]; [|by apply wp_ret]. apply wp_bind. unfold wp at 1; cbn [utc]. apply wp_ret.
    split_and!; [done..|]. intros x [= <-]. exists d. by rewrite N1. }
  eapply wp_mono; [exact Hd| |done]. clear Hd. intros expires w2 (D2 & C2 & He).
  apply wp_bind. unfold wp at 1; cbn [new_id]. apply wp_bind.
  eapply wp_mono; [apply insert_api_key_spec| |intros ? ? ->; simpl; congruence]. intros [] w3 [Hf ->]. simpl in Hf.
  apply wp_ret, wp_bind, wp_commit; [|intros w4 C4; simpl in *; congruence].
  intros w4 C4 _ _. apply wp_ret. simpl in C4 |- *. rewrite C4. simpl. rewrite D2, K1 in *.
  split; [by apply insert_subseteq|]. intros w5 D5 Hexp. eexists (mkPrincipal u _). split; [|done].
  apply valid_key_admitted. eexists secret, _, tenant. simpl. rewrite D5. simpl. rewrite lookup_insert_eq.
  split_and!; [by apply parse_issued|done|done|done| |done|done|done|by rewrite T1, Htn|done].
  simpl. intros x Hx. destruct (He x Hx) as (d & Hday & ->). by apply Hexp.
Qed.

Definition keys_obs (w : World) := (DB.api_keys (w_db w), w_committed w).

Lemma ensure_service_user_keys salt pw tenant :
  tracks (same keys_obs) (ensure_service_user hashpw salt pw tenant).
Proof. unfold ensure_service_user, find_one, insert_user. tracks_auto. Qed.

Lemma revoked_refused kid k token secret w :
  DB.api_keys (w_db w) !! kid = Some k → AgentRuntimeApiKey.revoked_at k ≠ None →
  parse_key parse_uuid token = Some (kid, secret) →
  result (get_agent_runtime_principal parse_uuid (Some token)) w = Raise UNAUTHORIZED.
Proof.
  intros Hk Hr Hp. destruct (result _ w) as [p|e] eqn:Hres; [|by rewrite (principal_raises _ _ _ _ Hres)].
  apply admitted_key_valid in Hres as (t & [= <-] & secret' & k' & t' & Hp' & Hk' & _ & Hr' & _). congruence.
Qed.

End key_theorems.

(** ** Witnesses *)

Lemma toy_hex_no_underscore i : split_underscore (toy_str_id i) = (toy_str_id i, None).
Proof. unfold toy_str_id. induction (Pos.to_nat i) as [|n IH]; [done|]. simpl. by rewrite IH. Qed.

Definition acme : Tenant.t := Tenant.mk 1 "acme" "Acme" TenantStatus.active.

Lemma issued_key_is_admitted_witness :
  wp (issue (λ p _, p) toy_str_id "salt" "pw" "secret" "acme" "hooks" (Some 30)) sample_world
    (λ token w', ∃ p, result (get_agent_runtime_principal toy_parse_id (Some token)) (set_db (w_committed w') w') = Ret p ∧
       User.tenant_id (pr_user p) = 1%positive)
    (λ _ _, True).
Proof.
  assert (w_utc_ticks (exec (issue (λ p _, p) toy_str_id "salt" "pw" "secret" "acme" "hooks" (Some 30)) sample_world) = 1%nat)
    as Hn by (vm_compute; reflexivity).
  assert (wp (issue (λ p _, p) toy_str_id "salt" "pw" "secret" "acme" "hooks" (Some 30)) sample_world
    (λ _ w', w_utc_ticks w' = 1%nat) (λ _ w', w_utc_ticks w' = 1%nat)) as Ht.
  { unfold wp, exec in *. destruct (issue _ _ _ _ _ _ _ _ _) as [[] ?]; exact Hn. }
  eapply wp_mono; [apply (wp_conj _ _ _ _ _ _ Ht (issued_key_is_admitted (λ p _, p) toy_str_id toy_parse_id "salt" "pw"
    "secret" "acme" "hooks" (Some 30) acme sample_world toy_ids toy_hex_no_underscore ltac:(done) ltac:(vm_compute; reflexivity)
    ltac:(vm_compute; reflexivity) ltac:(reflexivity)
    ltac:(intros k u Hu; simpl in Hu; apply lookup_singleton_Some in Hu as [<- <-]; reflexivity)
    ltac:(intros u Hu; vm_compute in Hu; inversion Hu)))| |done].
  intros token w' [Hw (_ & Hadm)]. destruct (Hadm (set_db (w_committed w') w')) as (p & Hp & Htn & _); [done| |by exists p].
  intros d [= <-]. simpl. rewrite Hw. vm_compute. reflexivity.
Defined.

(** A key of the sample installation: printed once, admitted, revoked, refused. *)
Example sample_key :
  match issue (λ p _, p) toy_str_id "salt" "pw" "secret" "acme" "hooks" None sample_world with
  | (Ret token, w1) =>
      let principal w := match result (get_agent_runtime_principal toy_parse_id (Some token)) (set_db (w_committed w) w) with
                         | Ret p => Some (User.email (pr_user p)) | Raise _ => None end in
      principal w1 = Some "agent-runtime+acme@daythree.local" ∧
      principal (exec (revoke (λ p _, p) toy_parse_id "salt" "pw" "acme" (toy_str_id 101)) w1) = None
  | _ => False
  end.
Proof. vm_compute. done. Qed.

(** The guard against printing a secret of a shared database looks for its markers anywhere
    in the URL, the credentials and the query included. *)
Example remote_url_taken_for_local :
  is_local_database_url "postgresql://svc@db.prod.example.com/world?application_name=localhost-cron" = true ∧
  is_local_database_url "postgresql://svc@db.prod.example.com/world" = false.
Proof. vm_compute. done. Qed.

(** Seeding an empty database. *)
Example sample_seed :
  let w := exec (seed (λ p _, p) (λ p _ _ _ _, p) Settings_default "salt") (world_of DB.empty) in
  (size (DB.tenants (w_committed w)), size (DB.users (w_committed w)), size (DB.model_policies (w_committed w)),
   size (DB.agents (w_committed w)), size (DB.agent_versions (w_committed w))) = (1, 1, 2, 2, 2)%nat ∧
  (Agent.agent_code <$> select (λ a, bool_decide (runtime_adapter_of (w_committed w) (Agent.id a) = Some "custom_durable"))
     (DB.agents (w_committed w))) = ["AGT-000001"].
Proof. vm_compute. done. Qed.
