(* ===== verification/Demo.v ===== *)
(** * The demonstration script (infrastructure/scripts/run_demo_mission.py)

    The script that runs one mission through the whole platform: it creates and starts the
    mission, takes a task from the queue and executes it in its own process, or waits for a
    worker that was faster, and reads back the artifacts and the audit timeline. It composes
    the components the way the services do, so its run from an empty installation evaluates
    the platform end to end. *)

From stdpp Require Import sorting.
From S2P Require Import Prelude Enums Contracts Telemetry Breaker Database Scenario Missions Gateway Config Ledger.
From S2P Require Import Adapter Artifacts Executor Recovery Rooms Routes Worker Reads Scripts.
Local Open Scope Z_scope.

Definition DEMO_MISSION_CODE : string := "MSN-DEMO-PHASE0".
Definition DEMO_TITLE : string := "Research the requirements for an AI-powered repeated-interaction analysis capability".
Definition DEMO_OBJECTIVE : string :=
  "Produce a concise business and technical requirement note explaining what data, " +:+
  "integrations, controls, KPIs, and risks should be considered when analyzing " +:+
  "repeated customer interactions across voice and digital channels.".

Definition mission_coded (code : string) (m : Mission.t) : bool := bool_decide (Mission.mission_code m = code).

(** [mission.status in (completed, failed)] *)
Definition mission_over (m : Mission.t) : bool :=
  match Mission.status m with MissionStatus.completed | MissionStatus.failed => true | _ => false end.

(** [(await session.execute(select(...).where(P))).scalar_one()] *)
Definition find_exactly_one {V} (table : DB.t → gmap EntityId V) (P : V → bool) : M V :=
  row ← find_one table P;
  match row with Some r => mret r | None => raise NoResultFound end.

(** What [run_demo] prints: the mission, the artifacts with their bodies, the timeline. *)
Record DemoReport := mkReport {
  rp_mission : Mission.t;
  rp_artifacts : list (Artifact.t * string);
  rp_timeline : list AuditEvent.t;
}.

Section demo.
Context `{Env}.

(** [ObjectStore.get_object(key)] *)
Definition get_object (key : string) : M string := λ w,
  match w_objects w !! ("s3://" +:+ bucket +:+ "/" +:+ key) with
  | Some body => (Ret body, w)
  | None => (Raise (OperationalError "NoSuchKey"), w)
  end.

(** The first session: the mission, created and started if it has to be. *)
Definition start_demo (settings : Settings) : M Mission.t :=
  with_session
    (tenant ← find_exactly_one DB.tenants (tenant_coded (seed_tenant_code settings));
     atlas ← find_exactly_one DB.agents (agent_coded (Tenant.id tenant) "AGT-000001");
     found ← find_one DB.missions (mission_coded DEMO_MISSION_CODE);
     mission ← match found with
               | Some m => mret m
               | None =>
                   m ← create_mission (Tenant.id tenant) DEMO_MISSION_CODE DEMO_TITLE DEMO_OBJECTIVE None
                         (Agent.id atlas) MissionPriority.normal RiskLevel.low (Some BudgetPolicy_default);
                   _ ← commit;
                   mret m
               end;
     _ ← when (startable mission)
           (result ← start_mission (Mission.id mission);
            _ ← commit;
            when (newly_started result) (enqueue_task (Task.id (sm_task result))));
     mret mission).

(** The task is executed in this process: no lease is taken and its status is not looked at. *)
Definition run_inline (gw : ModelGateway) (task_id : EntityId) : M unit :=
  with_session (_ ← execute_task gw task_id; commit).

(** [mission = await session.get(Mission, mission.id)] and the read of [attr] behind it. *)
Definition reload_mission (attr : string) (mission_id : EntityId) : M Mission.t :=
  found ← get_row DB.missions mission_id;
  match found with Some m => mret m | None => raise (AttributeError attr) end.

(** [for _ in range(60)], with [polls] left; [others] is what other sessions commit while the
    loop sleeps. *)
Fixpoint wait_for_mission (others : nat → DB.t → DB.t) (polls : nat) (mission_id : EntityId) : M unit :=
  match polls with
  | O => mret tt
  | S polls =>
      mission ← with_session (reload_mission "status" mission_id);
      if mission_over mission then mret tt
      else
        _ ← interfere (others polls);
        wait_for_mission others polls mission_id
  end.

(** The body of an artifact. *)
Definition read_body (settings : Settings) (artifact : Artifact.t) : M (Artifact.t * string) :=
  let uri := Artifact.storage_uri artifact in
  body ← get_object (default uri (removeprefix ("s3://" +:+ object_store_bucket settings +:+ "/") uri));
  mret (artifact, body).

Fixpoint read_bodies (settings : Settings) (artifacts : list Artifact.t) : M (list (Artifact.t * string)) :=
  match artifacts with
  | [] => mret []
  | a :: artifacts =>
      r ← read_body settings a;
      rest ← read_bodies settings artifacts;
      mret (r :: rest)
  end.

(** The last session. *)
Definition report_demo (settings : Settings) (mission_id : EntityId) : M DemoReport :=
  with_session
    (mission ← reload_mission "id" mission_id;
     artifacts ← asks_db (λ d, select (λ a, bool_decide (Artifact.mission_id a = mission_id)) (DB.artifacts d));
     timeline ← asks_db (λ d, merge_sort earlier
                   (filter (λ e, AuditEvent.mission_id e = Some mission_id) (DB.audit_events d)));
     bodies ← read_bodies settings artifacts;
     mret (mkReport mission bodies timeline)).

(** [run_demo()] *)
Definition run_demo (settings : Settings) (others : nat → DB.t → DB.t) : M DemoReport :=
  mission ← start_demo settings;
  task_id ← dequeue_task;
  let gw := build_model_gateway settings in
  _ ← match task_id with
      | Some task_id => run_inline gw task_id
      | None => wait_for_mission others 60 (Mission.id mission)
      end;
  report_demo settings (Mission.id mission).
End demo.

(** ** Lemmas *)

Section harmless_parts.
Context `{Env} (R : relation World) `{!Harmless R}.

Lemma create_mission_harmless tn code title obj rb ag pr rl bp : tracks R (create_mission tn code title obj rb ag pr rl bp).
Proof. unfold create_mission, insert_mission. tracks_auto. Qed.

Lemma insert_first_task_harmless i now m : tracks R (begin_nested (insert_first_task i now m)).
Proof. apply harmless_obs, begin_nested_obs. unfold insert_first_task, insert_task. tracks_auto. Qed.

Lemma start_mission_harmless mid : tracks R (start_mission mid).
Proof.
  unfold start_mission. tracks_auto.
  apply tracks_try; [apply _|apply tracks_bind; [apply _|apply insert_first_task_harmless|intros; apply tracks_ret, _]|].
  intros e k Hk. case_match; simplify_eq. unfold existing_first_task, after_integrity_error. tracks_auto.
Qed.

Lemma find_one_harmless {V} (table : DB.t → gmap EntityId V) P : tracks R (find_one table P).
Proof. unfold find_one, scalar_one_or_none. tracks_auto. Qed.
#[local] Hint Resolve find_one_harmless create_mission_harmless start_mission_harmless : tracks.

Lemma start_demo_harmless settings : tracks R (start_demo settings).
Proof. unfold start_demo, find_exactly_one, when. apply harmless_session. tracks_auto. Qed.

Lemma report_demo_harmless settings mid : tracks R (report_demo settings mid).
Proof.
  unfold report_demo, reload_mission. apply harmless_session. tracks_auto.
  match goal with |- tracks _ (read_bodies _ ?l) => induction l as [|x l IH] end; simpl; tracks_auto.
  unfold read_body. tracks_auto. apply harmless_obs. intros w. unfold same, exec, get_object. by case_match.
Qed.
End harmless_parts.

(** The other sessions keep the write-ahead invariant themselves, as the worker does. *)
Definition keep_wal (others : nat → DB.t → DB.t) : Prop := ∀ n, tracks (pres wal) (interfere (others n)).

Section demo_theorems.
Context `{Env}.

Lemma run_inline_wal gw tid : tracks (pres wal) (run_inline gw tid).
Proof.
  apply with_session_wal. exact (run_leased_wal gw tid None).
Qed.

Lemma wait_for_mission_wal others n mid : keep_wal others → tracks (pres wal) (wait_for_mission others n mid).
Proof.
  intros Ho. induction n as [|n IH]; simpl; [apply tracks_ret, _|].
  apply tracks_bind; [apply _| |].
  - apply with_session_wal, tracks_obs_wal. unfold reload_mission. tracks_auto.
  - intros m. destruct (mission_over m); [apply tracks_ret, _|].
    apply tracks_bind; [apply _|apply Ho|]. by intros _.
Qed.

(** The demonstration charges what it sends like the worker does: it keeps the write-ahead
    invariant at every durable point, whichever way it goes and wherever it fails. *)
Theorem demo_write_ahead settings others w :
  keep_wal others → wal w → wal (exec (run_demo settings others) w).
Proof.
  intros Ho. revert w. change (tracks (pres wal) (run_demo settings others)). unfold run_demo.
  apply tracks_bind; [apply _|apply start_demo_harmless, _|]. intros m.
  apply tracks_bind; [apply _|apply dequeue_wal|]. intros tid.
  apply tracks_bind; [apply _| |intros _; apply report_demo_harmless, _].
  destruct tid; [apply run_inline_wal|by apply wait_for_mission_wal].
Qed.

(** Running it again, once its mission is under way or over, starts nothing: the mission is
    found by its code, and neither the database nor the queue changes. *)
Theorem demo_starts_once settings tenant atlas m w :
  select (tenant_coded (seed_tenant_code settings)) (DB.tenants (w_committed w)) = [tenant] →
  select (agent_coded (Tenant.id tenant) "AGT-000001") (DB.agents (w_committed w)) = [atlas] →
  select (mission_coded DEMO_MISSION_CODE) (DB.missions (w_committed w)) = [m] →
  startable m = false →
  start_demo settings w = (Ret m, set_db (w_committed w) w).
Proof.
  intros Ht Ha Hm Hs. unfold start_demo, with_session, find_exactly_one, find_one, asks_db, asks, mbind, ST_bind.
  simpl. rewrite Ht. simpl. rewrite Ha. simpl. rewrite Hm. simpl. rewrite Hs. by destruct w.
Qed.
End demo_theorems.

(** ** From an empty database to a finished mission *)

(** The sample environment, with the object store of the default settings and a provider that
    answers at once. *)
Definition demo_env : Env := {|
  sha256_hex := sha256_hex;
  json_loads := json_loads;
  json_dumps := json_dumps;
  validation_errors := validation_errors;
  fmt_2f := fmt_2f;
  fmt_0f := fmt_0f;
  dump_request := dump_request;
  dump_tool_policy := dump_tool_policy;
  dump_budget_policy := dump_budget_policy;
  output_json_schema := output_json_schema;
  utc_now := utc_now;
  mono_now := mono_now;
  provider_generate := λ _ _ _, inr sample_response;
  object_put_ok := object_put_ok;
  redis_ok := redis_ok;
  commit_ok := commit_ok;
  savepoint_recovers := savepoint_recovers;
  bucket := object_store_bucket Settings_default;
|}.

Definition seeded_world : World := exec (seed (λ p _, p) (λ p _ _ _ _, p) Settings_default "salt") (world_of DB.empty).
Definition demo_run := @run_demo demo_env Settings_default (λ _, id).

Lemma demo_write_ahead_witness :
  keep_wal (λ _, id) ∧ wal sample_world ∧ wal (exec (run_demo Settings_default (λ _, id)) sample_world).
Proof.
  assert (keep_wal (λ _, id)) as Ho by (intros n [] Hw; exact Hw). split_and!; [done|apply wal_sample|].
  apply (demo_write_ahead Settings_default (λ _, id) sample_world Ho wal_sample).
Defined.

(** From an empty database: seeding and one run of the script complete the mission, with one
    request to the provider, its answer as the artifact, and the events in order. *)
Example demo_end_to_end :
  match result demo_run seeded_world with
  | Ret r =>
      (Mission.status (rp_mission r), (λ x, (Artifact.title x.1, x.2)) <$> rp_artifacts r) =
        (MissionStatus.completed, [("Report", "ok")]) ∧
      AuditEvent.event_type <$> rp_timeline r =
        [EventType.task_started; EventType.model_requested; EventType.model_completed;
         EventType.runtime_checkpoint_created; EventType.artifact_created; EventType.task_completed;
         EventType.mission_completed]
  | Raise _ => False
  end ∧
  length (w_sends (exec demo_run seeded_world)) = 1%nat ∧ w_queue (exec demo_run seeded_world) = [].
Proof. vm_compute. done. Qed.

(** The script does not look at the status of the task it takes from the queue. A duplicate
    entry, which the worker skips, makes it run a completed task again: the checkpoint saves
    the second request, but the task goes back to running and both completions are announced
    twice. *)
Example demo_reruns_finished_task :
  let w := exec demo_run seeded_world in
  let announced (w : World) := length (filter (λ e, AuditEvent.event_type e = EventType.mission_completed)
                                        (DB.audit_events (w_committed w))) in
  let gw := build_model_gateway Settings_default in
  let rerun := exec (@run_inline demo_env gw 109) w in
  let skipped := exec (@process_task demo_env gw 109 true None) w in
  (announced w, announced rerun, announced skipped) = (1, 2, 1)%nat ∧ length (w_sends rerun) = 1%nat.
Proof. vm_compute. done. Qed.
