(* ===== verification/Schema.v ===== *)
(** * The schema as data (packages/common/db/models.py)

    Every table with its rows, the constraints a row has to satisfy, the keys two rows must
    not share, and the tenant a row belongs to. [db_ok] says that a database satisfies all of
    it: the primary, foreign, unique and check constraints that models.py declares, on columns
    that are inserted and on columns that are updated later, and the links the services alone
    keep within one tenant. [confined] says that a database differs from another one in rows
    of a single tenant only. Both are kept by a change of one table under the conditions
    [insert_inv] and [alter_inv] state. *)

From S2P Require Import Prelude Enums Contracts Breaker Database Scenario Rooms AgentRuntime Closure.
Local Open Scope Z_scope.

(** ** Tables *)

Inductive table :=
| Tenants | Users | ModelPolicies | Agents | AgentVersions | Missions | Projects | MissionProjects
| Tasks | Checkpoints | Artifacts | ModelInvocations | ExternalAgentStatuses | RoomAssignments
| RuntimeSessions | PersonaSlots | ApiKeys | Closures.

Definition row (t : table) : Type :=
  match t with
  | Tenants => Tenant.t
  | Users => User.t
  | ModelPolicies => ModelPolicy.t
  | Agents => Agent.t
  | AgentVersions => AgentVersion.t
  | Missions => Mission.t
  | Projects => Project.t
  | MissionProjects => MissionProject.t
  | Tasks => Task.t
  | Checkpoints => RuntimeCheckpoint.t
  | Artifacts => Artifact.t
  | ModelInvocations => ModelInvocation.t
  | ExternalAgentStatuses => ExternalAgentStatus.t
  | RoomAssignments => AgentRoomAssignment.t
  | RuntimeSessions => AgentRuntimeSession.t
  | PersonaSlots => AgentRuntimePersonaSlot.t
  | ApiKeys => AgentRuntimeApiKey.t
  | Closures => AgentRuntimeClosure.t
  end.

Definition rows (t : table) (d : DB.t) : gmap EntityId (row t) :=
  match t with
  | Tenants => DB.tenants d
  | Users => DB.users d
  | ModelPolicies => DB.model_policies d
  | Agents => DB.agents d
  | AgentVersions => DB.agent_versions d
  | Missions => DB.missions d
  | Projects => DB.projects d
  | MissionProjects => DB.mission_projects d
  | Tasks => DB.tasks d
  | Checkpoints => DB.checkpoints d
  | Artifacts => DB.artifacts d
  | ModelInvocations => DB.model_invocations d
  | ExternalAgentStatuses => DB.external_agent_statuses d
  | RoomAssignments => DB.room_assignments d
  | RuntimeSessions => DB.runtime_sessions d
  | PersonaSlots => DB.persona_slots d
  | ApiKeys => DB.api_keys d
  | Closures => DB.closures d
  end.

(** A change of one table. *)
Definition put (t : table) : (gmap EntityId (row t) → gmap EntityId (row t)) → DB.t → DB.t :=
  match t with
  | Tenants => DB.upd_tenants
  | Users => DB.upd_users
  | ModelPolicies => DB.upd_model_policies
  | Agents => DB.upd_agents
  | AgentVersions => DB.upd_agent_versions
  | Missions => DB.upd_missions
  | Projects => DB.upd_projects
  | MissionProjects => DB.upd_mission_projects
  | Tasks => DB.upd_tasks
  | Checkpoints => DB.upd_checkpoints
  | Artifacts => DB.upd_artifacts
  | ModelInvocations => DB.upd_model_invocations
  | ExternalAgentStatuses => DB.upd_external_agent_statuses
  | RoomAssignments => DB.upd_room_assignments
  | RuntimeSessions => DB.upd_runtime_sessions
  | PersonaSlots => DB.upd_persona_slots
  | ApiKeys => DB.upd_api_keys
  | Closures => DB.upd_closures
  end.

(** ** Constraints *)

(** A reference to a row that exists and satisfies [P]. *)
Definition ref {V} (m : gmap EntityId V) (k : EntityId) (P : V → Prop) : Prop :=
  ∃ r, m !! k = Some r ∧ P r.

Lemma ref_any {V} (m : gmap EntityId V) k P : ref m k P → ref m k (λ _, True).
Proof. intros (r & Hr & _). by exists r. Qed.

(** A nullable reference. *)
Definition opt_ref {V} (m : gmap EntityId V) (k : option EntityId) (P : V → Prop) : Prop :=
  match k with Some k => ref m k P | None => True end.

Abbreviation any := (λ _, True).

(** The stages [execute] writes; [cancel] has no caller in the platform. *)
Definition engine_stage (state : CheckpointState) : Prop :=
  match state with
  | PromptAssembled _ _ _ _ _ _ _ | ModelResponded _ _ _ _ _ _ => True
  | Cancelled | OtherStage _ => False
  end.

(** What a row stored under [k] has to satisfy: its primary key, its foreign keys, its checks,
    and what the services keep beyond that: that the rows it refers to are of the same tenant,
    that a task's idempotency key begins with its mission, that a checkpoint can be resumed
    and that artifacts have their first version only. *)
Definition row_ok (t : table) (d : DB.t) (k : EntityId) : row t → Prop :=
  match t return row t → Prop with
  | Tenants => λ r, Tenant.id r = k
  | Users => λ r, User.id r = k ∧ ref (DB.tenants d) (User.tenant_id r) any
  | ModelPolicies => λ r, ModelPolicy.id r = k ∧ ref (DB.tenants d) (ModelPolicy.tenant_id r) any
  | Agents => λ r,
      Agent.id r = k ∧ ref (DB.tenants d) (Agent.tenant_id r) any ∧
      opt_ref (DB.agent_versions d) (Agent.active_version_id r) (λ v, AgentVersion.agent_id v = k)
  | AgentVersions => λ r,
      AgentVersion.id r = k ∧
      ref (DB.agents d) (AgentVersion.agent_id r) (λ a,
        ref (DB.model_policies d) (AgentVersion.model_policy_id r) (λ p,
          ModelPolicy.tenant_id p = Agent.tenant_id a))
  | Missions => λ r,
      Mission.id r = k ∧ ref (DB.tenants d) (Mission.tenant_id r) any ∧
      opt_ref (DB.agents d) (Mission.assigned_agent_id r) any
  | Projects => λ r, Project.id r = k ∧ ref (DB.tenants d) (Project.tenant_id r) any
  | MissionProjects => λ r,
      MissionProject.mission_id r = k ∧
      ref (DB.missions d) k (λ m, Mission.tenant_id m = MissionProject.tenant_id r) ∧
      ref (DB.projects d) (MissionProject.project_id r) (λ p,
        Project.tenant_id p = MissionProject.tenant_id r)
  | Tasks => λ r,
      Task.id r = k ∧ ref (DB.missions d) (Task.mission_id r) any ∧
      ref (DB.agents d) (Task.assigned_agent_id r) any ∧
      (∃ suffix, Task.idempotency_key r = pretty (Task.mission_id r) +:+ ":" +:+ suffix)
  | Checkpoints => λ r,
      RuntimeCheckpoint.id r = k ∧ ref (DB.missions d) (RuntimeCheckpoint.mission_id r) any ∧
      ref (DB.tasks d) (RuntimeCheckpoint.task_id r) any ∧
      ref (DB.agents d) (RuntimeCheckpoint.agent_id r) any ∧ engine_stage (RuntimeCheckpoint.state r)
  | Artifacts => λ r,
      Artifact.id r = k ∧ ref (DB.tenants d) (Artifact.tenant_id r) any ∧
      ref (DB.missions d) (Artifact.mission_id r) any ∧ ref (DB.tasks d) (Artifact.task_id r) any ∧
      ref (DB.agents d) (Artifact.agent_id r) any ∧
      ref (DB.agent_versions d) (Artifact.agent_version_id r) any ∧ Artifact.version r = 1
  | ModelInvocations => λ r,
      ModelInvocation.id r = k ∧ ref (DB.tenants d) (ModelInvocation.tenant_id r) any ∧
      ref (DB.missions d) (ModelInvocation.mission_id r) any ∧
      ref (DB.tasks d) (ModelInvocation.task_id r) any ∧
      ref (DB.agents d) (ModelInvocation.agent_id r) any
  | ExternalAgentStatuses => λ r,
      ExternalAgentStatus.id r = k ∧ ref (DB.tenants d) (ExternalAgentStatus.tenant_id r) any
  | RoomAssignments => λ r,
      AgentRoomAssignment.id r = k ∧ ref (DB.tenants d) (AgentRoomAssignment.tenant_id r) any ∧
      ref (DB.agents d) (AgentRoomAssignment.agent_id r) any ∧
      1 ≤ AgentRoomAssignment.room_index r ≤ 4 ∧ 1 ≤ AgentRoomAssignment.floor r
  | RuntimeSessions => λ r,
      AgentRuntimeSession.id r = k ∧ ref (DB.tenants d) (AgentRuntimeSession.tenant_id r) any ∧
      opt_ref (DB.agents d) (AgentRuntimeSession.agent_id r) any ∧
      opt_ref (DB.missions d) (AgentRuntimeSession.mission_id r)
        (λ m, Mission.tenant_id m = AgentRuntimeSession.tenant_id r) ∧
      opt_ref (DB.tasks d) (AgentRuntimeSession.task_id r) (λ t,
        ref (DB.missions d) (Task.mission_id t) (λ m,
          Mission.tenant_id m = AgentRuntimeSession.tenant_id r)) ∧
      opt_ref (DB.runtime_sessions d) (AgentRuntimeSession.parent_session_id r)
        (λ p, AgentRuntimeSession.tenant_id p = AgentRuntimeSession.tenant_id r)
  | PersonaSlots => λ r,
      AgentRuntimePersonaSlot.id r = k ∧ ref (DB.tenants d) (AgentRuntimePersonaSlot.tenant_id r) any ∧
      0 ≤ AgentRuntimePersonaSlot.slot r < 25
  | ApiKeys => λ r, AgentRuntimeApiKey.id r = k ∧ ref (DB.users d) (AgentRuntimeApiKey.user_id r) any
  | Closures => λ r,
      AgentRuntimeClosure.id r = k ∧ ref (DB.tenants d) (AgentRuntimeClosure.tenant_id r) any ∧
      ref (DB.runtime_sessions d) (AgentRuntimeClosure.runtime_session_id r) any ∧
      match AgentRuntimeClosure.task_id r with
      | Some task => ref (DB.tasks d) task any
      | None => False
      end
  end.

(** Two rows that a unique constraint or unique index keeps apart. *)
Definition clash (t : table) : row t → row t → Prop :=
  match t return row t → row t → Prop with
  | Tenants => λ r s, Tenant.code r = Tenant.code s
  | Users => λ r s, User.tenant_id r = User.tenant_id s ∧ User.email r = User.email s
  | Agents => λ r s, Agent.tenant_id r = Agent.tenant_id s ∧ Agent.agent_code r = Agent.agent_code s
  | AgentVersions => λ r s,
      AgentVersion.agent_id r = AgentVersion.agent_id s ∧ AgentVersion.version r = AgentVersion.version s
  | Missions => λ r s, Mission.mission_code r = Mission.mission_code s
  | Projects => λ r s, Project.tenant_id r = Project.tenant_id s ∧ Project.code r = Project.code s
  | Tasks => λ r s, Task.idempotency_key r = Task.idempotency_key s
  | Checkpoints => λ r s,
      RuntimeCheckpoint.task_id r = RuntimeCheckpoint.task_id s ∧
      RuntimeCheckpoint.checkpoint_sequence r = RuntimeCheckpoint.checkpoint_sequence s
  | Artifacts => λ r s, same_artifact_key r s = true
  | ExternalAgentStatuses => λ r s,
      ExternalAgentStatus.tenant_id r = ExternalAgentStatus.tenant_id s ∧
      ExternalAgentStatus.name r = ExternalAgentStatus.name s
  | RoomAssignments => λ r s,
      AgentRoomAssignment.released_at r = None ∧ AgentRoomAssignment.released_at s = None ∧
      AgentRoomAssignment.tenant_id r = AgentRoomAssignment.tenant_id s ∧
      (AgentRoomAssignment.agent_id r = AgentRoomAssignment.agent_id s ∨
       (AgentRoomAssignment.floor r = AgentRoomAssignment.floor s ∧
        AgentRoomAssignment.room_index r = AgentRoomAssignment.room_index s))
  | RuntimeSessions => λ r s, same_ref r s = true
  | PersonaSlots => λ r s,
      AgentRuntimePersonaSlot.tenant_id r = AgentRuntimePersonaSlot.tenant_id s ∧
      (AgentRuntimePersonaSlot.slot r = AgentRuntimePersonaSlot.slot s ∨
       AgentRuntimePersonaSlot.agent_code r = AgentRuntimePersonaSlot.agent_code s)
  | ApiKeys => λ r s, AgentRuntimeApiKey.key_hash r = AgentRuntimeApiKey.key_hash s
  | Closures => λ r s, AgentRuntimeClosure.runtime_session_id r = AgentRuntimeClosure.runtime_session_id s
  | ModelPolicies | MissionProjects | ModelInvocations => λ _ _, False
  end.

(** The database satisfies its schema. *)
Record db_ok (d : DB.t) : Prop := {
  ok_row : ∀ t k r, rows t d !! k = Some r → row_ok t d k r;
  ok_unique : ∀ t k1 k2 r1 r2,
    rows t d !! k1 = Some r1 → rows t d !! k2 = Some r2 → clash t r1 r2 → k1 = k2;
}.

(** ** Tenancy *)

(** The tenant a row belongs to. A version belongs to its agent's tenant, a task to its
    mission's, a closure to its session's. The tables no API request writes have no owner. *)
Definition owner (t : table) (tn : EntityId) (d : DB.t) : row t → Prop :=
  match t return row t → Prop with
  | ModelPolicies => λ r, ModelPolicy.tenant_id r = tn
  | Agents => λ r, Agent.tenant_id r = tn
  | AgentVersions => λ r, ref (DB.agents d) (AgentVersion.agent_id r) (λ a, Agent.tenant_id a = tn)
  | Missions => λ r, Mission.tenant_id r = tn
  | Projects => λ r, Project.tenant_id r = tn
  | MissionProjects => λ r, MissionProject.tenant_id r = tn
  | Tasks => λ r, ref (DB.missions d) (Task.mission_id r) (λ m, Mission.tenant_id m = tn)
  | Artifacts => λ r, Artifact.tenant_id r = tn
  | ExternalAgentStatuses => λ r, ExternalAgentStatus.tenant_id r = tn
  | RoomAssignments => λ r, AgentRoomAssignment.tenant_id r = tn
  | RuntimeSessions => λ r, AgentRuntimeSession.tenant_id r = tn
  | PersonaSlots => λ r, AgentRuntimePersonaSlot.tenant_id r = tn
  | Closures => λ r, ref (DB.runtime_sessions d) (AgentRuntimeClosure.runtime_session_id r)
                       (λ s, AgentRuntimeSession.tenant_id s = tn)
  | Tenants | Users | Checkpoints | ModelInvocations | ApiKeys => λ _, False
  end.

(** [d] differs from [d0] only in rows that belong to [tn], before and after, and in audit
    events of [tn] that were appended. *)
Record confined (tn : EntityId) (d0 d : DB.t) : Prop := {
  cf_rows : ∀ t k, rows t d !! k = rows t d0 !! k ∨
    (∀ r, rows t d0 !! k = Some r → owner t tn d0 r) ∧ (∀ r, rows t d !! k = Some r → owner t tn d r);
  cf_audit : ∃ l, DB.audit_events d = DB.audit_events d0 ++ l ∧ Forall (λ e, AuditEvent.tenant_id e = tn) l;
}.

(** ** Changes of one table *)

Lemma rows_put t f d : rows t (put t f d) = f (rows t d).
Proof. by destruct t. Qed.

Lemma rows_put_ne t t' f d : t ≠ t' → rows t' (put t f d) = rows t' d.
Proof. by destruct t, t'. Qed.

Lemma audit_put t f d : DB.audit_events (put t f d) = DB.audit_events d.
Proof. by destruct t. Qed.

#[global] Instance table_eq_dec : EqDecision table.
Proof. solve_decision. Defined.

(** The columns other tables' constraints look at. *)
Definition ident (t : table) : row t → list EntityId :=
  match t return row t → list EntityId with
  | ModelPolicies => λ r, [ModelPolicy.tenant_id r]
  | Agents => λ r, [Agent.tenant_id r]
  | AgentVersions => λ r, [AgentVersion.agent_id r]
  | Missions => λ r, [Mission.tenant_id r]
  | Projects => λ r, [Project.tenant_id r]
  | Tasks => λ r, [Task.mission_id r]
  | RuntimeSessions => λ r, [AgentRuntimeSession.tenant_id r]
  | _ => λ _, []
  end.

(** Every row that something may refer to is still there. *)
Definition extends (d d' : DB.t) : Prop :=
  ∀ t k r, t ≠ MissionProjects → rows t d !! k = Some r →
    ∃ r', rows t d' !! k = Some r' ∧ ident t r' = ident t r.

Lemma ref_extends t d d' k (P P' : row t → Prop) :
  extends d d' → t ≠ MissionProjects → (∀ r r', ident t r' = ident t r → P r → P' r') →
  ref (rows t d) k P → ref (rows t d') k P'.
Proof. intros He Ht HP (r & Hr & Hp). destruct (He t k r Ht Hr) as (r' & Hr' & Hi). exists r'. eauto. Qed.

(** Carries a reference over to an extension. *)
Ltac ref_extend He :=
  match goal with
  | |- ref (?T ?d') ?k _ =>
      let t := match T with
               | DB.tenants => Tenants | DB.users => Users | DB.model_policies => ModelPolicies
               | DB.agents => Agents | DB.agent_versions => AgentVersions | DB.missions => Missions
               | DB.projects => Projects | DB.tasks => Tasks | DB.runtime_sessions => RuntimeSessions
               end in
      refine (ref_extends t _ d' k _ _ He _ _ _); [done| |eassumption];
      let Hi := fresh "Hi" in intros ? ? Hi; try injection Hi as Hi; simpl in *
  end.

Lemma row_ok_extends t d d' k r : extends d d' → row_ok t d k r → row_ok t d' k r.
Proof.
  intros He. destruct t; simpl; intros Hr; destruct_and?; split_and?; try done;
    repeat match goal with
    | H : opt_ref _ ?o _ |- opt_ref _ ?o _ => destruct o; simpl in *; [|done]
    | |- match ?o with Some _ => _ | None => _ end => destruct o; [|done]
    end; try (by ref_extend He; congruence).
  - ref_extend He. intros (p & Hp & E). destruct (He ModelPolicies _ _ ltac:(done) Hp) as (p' & Hp' & [= Ep]).
    exists p'. split; [done|]. congruence.
  - ref_extend He. intros (m & Hm & E). destruct (He Missions _ _ ltac:(done) Hm) as (m' & Hm' & [= Em]).
    exists m'. rewrite Hi. split; [done|]. congruence.
Qed.

Lemma owner_extends t tn d d' r : extends d d' → owner t tn d r → owner t tn d' r.
Proof. intros He. destruct t; simpl; try done; intros Hr; ref_extend He; congruence. Qed.

Lemma clash_sym t r s : clash t r s → clash t s r.
Proof.
  destruct t; simpl; try (intuition congruence).
  - unfold same_artifact_key. rewrite !andb_true_iff, !bool_decide_eq_true. intuition congruence.
  - unfold same_ref. rewrite !andb_true_iff, !bool_decide_eq_true. intros [[Ht Hk] Hr]. split; [split; congruence|].
    rewrite Hk. destruct (AgentRuntimeSession.kind r); [by rewrite bool_decide_eq_true in *|].
    destruct (AgentRuntimeSession.external_instance_ref r); [|done]. rewrite bool_decide_eq_true in Hr.
    rewrite Hr. by apply bool_decide_eq_true.
Qed.

Lemma insert_extends t k r d : rows t d !! k = None → extends d (put t (<[k := r]>) d).
Proof.
  intros Hk t' k' r' _ Hr'. destruct (decide (t = t')) as [<-|Hne].
  - exists r'. rewrite rows_put, lookup_insert_ne by congruence. done.
  - exists r'. by rewrite rows_put_ne.
Qed.

Lemma alter_extends t k f d :
  (∀ r, rows t d !! k = Some r → ident t (f r) = ident t r) → extends d (put t (alter f k) d).
Proof.
  intros Hf t' k' r' _ Hr'. destruct (decide (t = t')) as [<-|Hne].
  - rewrite rows_put. destruct (decide (k = k')) as [<-|].
    + exists (f r'). rewrite lookup_alter_eq, Hr'. auto.
    + exists r'. by rewrite lookup_alter_ne.
  - exists r'. by rewrite rows_put_ne.
Qed.

(** A table that has changed under [k] only, to what [new] holds there. *)
Lemma put_ok t k f d (new : option (row t)) :
  db_ok d → extends d (put t f d) →
  (∀ k', f (rows t d) !! k' = if decide (k' = k) then new else rows t d !! k') →
  (∀ r, new = Some r → row_ok t d k r) →
  (∀ r k' s, new = Some r → rows t d !! k' = Some s → clash t r s → k' = k) →
  db_ok (put t f d).
Proof.
  intros [Hrow Huniq] He Hf Hnew Hclash. split.
  - intros t' k' r' Hr'. apply (row_ok_extends _ d); [done|]. destruct (decide (t = t')) as [<-|Hne].
    + rewrite rows_put, Hf in Hr'. case_decide; subst; auto.
    + rewrite rows_put_ne in Hr' by done. auto.
  - intros t' k1 k2 r1 r2 H1 H2 Hc. destruct (decide (t = t')) as [<-|Hne].
    + rewrite rows_put, Hf in H1, H2. case_decide; case_decide; subst; [done|..].
      * symmetry. by eapply Hclash.
      * by eapply Hclash, clash_sym.
      * by eapply Huniq.
    + rewrite rows_put_ne in H1, H2 by done. by eapply Huniq.
Qed.

Lemma insert_ok t k r d :
  db_ok d → rows t d !! k = None → row_ok t d k r →
  (∀ k' s, rows t d !! k' = Some s → ¬ clash t r s) →
  db_ok (put t (<[k := r]>) d).
Proof.
  intros Hd Hk Hr Hc. apply (put_ok t k _ d (Some r)); [done|by apply insert_extends|..].
  - intros k'. case_decide; subst; [apply lookup_insert_eq|by apply lookup_insert_ne].
  - by intros ? [= <-].
  - intros ? k' s [= <-] Hs Hcl. by destruct (Hc k' s).
Qed.

(** A change of columns that no constraint looks at, or that still satisfies them. *)
Record steady (t : table) (k : EntityId) (f : row t → row t) (d : DB.t) : Prop := {
  steady_ident : ∀ r, rows t d !! k = Some r → ident t (f r) = ident t r;
  steady_row : ∀ r, rows t d !! k = Some r → row_ok t d k r → row_ok t d k (f r);
  steady_clash : ∀ r s, rows t d !! k = Some r → clash t (f r) s → clash t r s;
  steady_owner : ∀ r tn, rows t d !! k = Some r → owner t tn d r → owner t tn d (f r);
}.

Lemma alter_ok t k f d : db_ok d → steady t k f d → db_ok (put t (alter f k) d).
Proof.
  intros Hd [Hi Hr Hc _]. apply (put_ok t k _ d (f <$> rows t d !! k)); [done|by apply alter_extends|..].
  - intros k'. case_decide; subst; [apply lookup_alter_eq|by apply lookup_alter_ne].
  - intros r (r0 & Hr0 & ->)%fmap_Some. apply Hr; [done|]. by apply (ok_row _ Hd).
  - intros r k' s (r0 & Hr0 & ->)%fmap_Some Hs Hcl. apply Hc in Hcl; [|done]. symmetry. by apply (ok_unique _ Hd t k k' r0 s).
Qed.

(** ** The invariant of a run

    [scope = Some tn]: a run on behalf of the tenant [tn], which started from [d0] and has
    changed nothing of any other tenant. [scope = None]: a run of the platform itself. *)

Section invariant.
Context (scope : option EntityId) (d0 : DB.t).

Definition in_scope (d : DB.t) : Prop :=
  match scope with Some tn => db_ok d0 ∧ confined tn d0 d | None => True end.

Definition inv (d : DB.t) : Prop := db_ok d ∧ in_scope d.

(** The row under [k] was the tenant's in the first place, or is new. *)
Definition mine (t : table) (k : EntityId) : Prop :=
  ∀ tn r, scope = Some tn → rows t d0 !! k = Some r → owner t tn d0 r.

(** A value that may be stored in a tenant column. *)
Definition ours (tenant_id : EntityId) : Prop := ∀ tn, scope = Some tn → tenant_id = tn.

(** A reference from the tenant's row leads to the tenant's row before and after. *)
Lemma confined_ref {t tn d k} (P : row t → Prop) :
  confined tn d0 d → (∀ r, owner t tn d r → P r) →
  ref (rows t d0) k P → ref (rows t d) k any → ref (rows t d) k P.
Proof.
  intros Hc HP (r0 & Hr0 & Hp) (r & Hr & _). exists r. split; [done|].
  destruct (cf_rows _ _ _ Hc t k) as [E|[_ Hn]]; [|by apply HP, Hn].
  rewrite Hr0, Hr in E. by injection E as ->.
Qed.

Lemma confined_ref_back {t tn d k} (P : row t → Prop) :
  confined tn d0 d → (∀ r, owner t tn d0 r → P r) →
  ref (rows t d) k P → ref (rows t d0) k any → ref (rows t d0) k P.
Proof.
  intros Hc HP (r & Hr & Hp) (r0 & Hr0 & _). exists r0. split; [done|].
  destruct (cf_rows _ _ _ Hc t k) as [E|[Ho _]]; [|by apply HP, Ho].
  rewrite Hr0, Hr in E. by injection E as ->.
Qed.

(** What was the tenant's is the tenant's now. *)
Lemma mine_now t k r d tn : inv d → scope = Some tn → mine t k → rows t d !! k = Some r → owner t tn d r.
Proof.
  intros [Hok Hs] E Hm Hr. unfold in_scope in Hs. rewrite E in Hs. destruct Hs as [Hok0 Hc].
  destruct (cf_rows _ _ _ Hc t k) as [Heq|[_ Hn]]; [|by apply Hn].
  rewrite Hr in Heq. specialize (Hm tn r E (eq_sym Heq)). pose proof (ok_row _ Hok t k r Hr) as Hrow.
  destruct t; simpl in *; try done; destruct_and?.
  - apply (confined_ref (t := Agents) _ Hc); [done..|]. by eapply ref_any.
  - apply (confined_ref (t := Missions) _ Hc); [done..|]. by eapply ref_any.
  - apply (confined_ref (t := RuntimeSessions) _ Hc); [done..|]. by eapply ref_any.
Qed.

(** A row that is the tenant's now is the tenant's to change. *)
Lemma mine_loaded t k r d :
  inv d → rows t d !! k = Some r → (∀ tn, scope = Some tn → owner t tn d r) → mine t k.
Proof.
  intros [Hok Hs] Hr Ho tn r0 E Hr0. specialize (Ho tn E). unfold in_scope in Hs. rewrite E in Hs. destruct Hs as [Hok0 Hc].
  destruct (cf_rows _ _ _ Hc t k) as [Heq|[Hold _]]; [|by apply Hold].
  rewrite Hr, Hr0 in Heq. injection Heq as ->. pose proof (ok_row _ Hok0 t k r0 Hr0) as Hrow.
  destruct t; simpl in *; try done; destruct_and?.
  - apply (confined_ref_back (t := Agents) _ Hc); [done..|]. by eapply ref_any.
  - apply (confined_ref_back (t := Missions) _ Hc); [done..|]. by eapply ref_any.
  - apply (confined_ref_back (t := RuntimeSessions) _ Hc); [done..|]. by eapply ref_any.
Qed.

Lemma mine_absent t k d : inv d → rows t d !! k = None → mine t k.
Proof.
  intros [_ Hs] Hk tn r0 E Hr0. unfold in_scope in Hs. rewrite E in Hs. destruct Hs as [_ Hc].
  destruct (cf_rows _ _ _ Hc t k) as [Heq|[Hold _]]; [congruence|by apply Hold].
Qed.

Lemma confined_put t k f d (new : option (row t)) tn :
  confined tn d0 d → extends d (put t f d) →
  (∀ k', f (rows t d) !! k' = if decide (k' = k) then new else rows t d !! k') →
  (∀ r, new = Some r → owner t tn d r) → (∀ r, rows t d0 !! k = Some r → owner t tn d0 r) →
  confined tn d0 (put t f d).
Proof.
  intros Hc He Hf Hnew Hold. split.
  - intros t' k'. destruct (decide (t = t')) as [<-|Hne].
    + rewrite rows_put, Hf. case_decide; subst.
      * right. split; [done|]. intros r Hr. eapply owner_extends; [done|]. auto.
      * destruct (cf_rows _ _ _ Hc t k') as [?|[H1 H2]]; [by left|right; split; [done|]].
        intros r Hr. eapply owner_extends; [done|]. auto.
    + rewrite rows_put_ne by done. destruct (cf_rows _ _ _ Hc t' k') as [?|[H1 H2]]; [by left|right; split; [done|]].
      intros r Hr. eapply owner_extends; [done|]. auto.
  - rewrite audit_put. apply Hc.
Qed.

(** An insert that passed the table's checks, of a row of the tenant. *)
Lemma insert_inv t k r d :
  inv d → rows t d !! k = None → row_ok t d k r → (∀ k' s, rows t d !! k' = Some s → ¬ clash t r s) →
  (∀ tn, scope = Some tn → owner t tn d r) → inv (put t (<[k := r]>) d).
Proof.
  intros Hi Hk Hr Hcl Ho. pose proof (mine_absent t k d Hi Hk) as Hm. destruct Hi as [Hok Hs].
  split; [by apply insert_ok|]. unfold in_scope in *. destruct scope as [tn|] eqn:E; [|done].
  destruct Hs as [Hok0 Hc]. split; [done|].
  apply (confined_put t k _ d (Some r)); [done|by apply insert_extends|..].
  - intros k'. case_decide; subst; [apply lookup_insert_eq|by apply lookup_insert_ne].
  - intros ? [= <-]. auto.
  - intros r0 Hr0. by apply Hm.
Qed.

(** A change of a row that is the tenant's. *)
Lemma alter_inv t k f d : inv d → steady t k f d → mine t k → inv (put t (alter f k) d).
Proof.
  intros Hi Hst Hm. pose proof (λ r tn, mine_now t k r d tn Hi) as Hnow. destruct Hi as [Hok Hs].
  split; [by apply alter_ok|]. unfold in_scope in *. destruct scope as [tn|] eqn:E; [|done].
  destruct Hs as [Hok0 Hc]. split; [done|].
  apply (confined_put t k _ d (f <$> rows t d !! k)); [done|by apply alter_extends, Hst|..].
  - intros k'. case_decide; subst; [apply lookup_alter_eq|by apply lookup_alter_ne].
  - intros r (r0 & Hr0 & ->)%fmap_Some. apply Hst; [done|]. by eapply Hnow.
  - intros r0 Hr0. by apply Hm.
Qed.
End invariant.

(** ** The sample installation *)

(** Every table of the sample database holds one row or none. *)
Lemma sample_rows t : rows t sample_db = ∅ ∨ ∃ k r, rows t sample_db = {[ k := r ]} ∧ row_ok t sample_db k r.
Proof.
  destruct t; try (by left); right; do 2 eexists; (split; [reflexivity|]); simpl; unfold ref, opt_ref; simpl; split_and?;
    repeat match goal with |- ∃ _, _ !! _ = Some _ ∧ _ => eexists; split; [reflexivity|] end; try done.
  by exists "task:1".
Qed.

Lemma sample_db_ok : db_ok sample_db.
Proof.
  split.
  - intros t k r Hr. destruct (sample_rows t) as [E|(k' & r' & E & Hok)]; rewrite E in Hr; [done|].
    by apply lookup_singleton_Some in Hr as [<- <-].
  - intros t k1 k2 r1 r2 H1 H2 _. destruct (sample_rows t) as [E|(k' & r' & E & _)]; rewrite E in H1, H2; [done|].
    apply lookup_singleton_Some in H1 as [<- _]. by apply lookup_singleton_Some in H2 as [<- _].
Qed.
