(* ===== verification/Progress.v ===== *)
(** * An execution that is left alone comes to an end

    [Executor] says what is true when [execute_task] returns. Here is when it does: with a
    database that accepts commits, an object store that takes uploads and charges that fit
    their column, nothing the provider answers and nothing an earlier run left behind makes
    it raise. Every insert is shown to satisfy the constraints it meets, and every exception
    the gateway can raise to be one that a handler of the executor turns into a failed task. *)

From Stdlib Require Import Floats.
From S2P Require Import Prelude Enums Contracts Budgets Telemetry Breaker Database Scenario Gateway Ledger.
From S2P Require Import Checkpoints Adapter Artifacts Executor Recovery Schema.
Local Open Scope Z_scope.

(** ** The judgement *)

(** From a world in [I], [m] returns a value in [Q] or raises an exception in [X], and in both
    cases [I] holds again. *)
Definition works (I : World → Prop) (X : exn → Prop) {A} (m : M A) (Q : A → Prop) : Prop :=
  ∀ w, I w → wp m w (λ a w', I w' ∧ Q a) (λ e w', I w' ∧ X e).

(** What no exception satisfies: [works I never m Q] says that [m] returns. *)
Abbreviation never := (λ _ : exn, False).
Abbreviation expected := (λ e : exn, is_expected_error e = true).

Section works_rules.
Context (I : World → Prop) (X : exn → Prop).
Abbreviation works := (works I X).

Lemma works_ret {A} (a : A) (Q : A → Prop) : Q a → works (mret a) Q.
Proof. by intros HQ w Hw. Qed.

Lemma works_raise {A} e (Q : A → Prop) : X e → works (raise e) Q.
Proof. by intros HX w Hw. Qed.

Lemma works_bind {A B} (m : M A) (f : A → M B) P Q :
  works m P → (∀ a, P a → works (f a) Q) → works (m ≫= f) Q.
Proof.
  intros Hm Hf w Hw. apply wp_bind. eapply wp_mono; [by apply Hm| |done]. intros a w' [Hw' Ha]. by apply Hf.
Qed.

Lemma works_when b (m : M unit) : works m any → works (when b m) any.
Proof. intros Hm. destruct b; [done|by apply works_ret]. Qed.

Lemma works_lift {A} (o : outcome exn A) (Q : A → Prop) :
  (∀ a, o = Ret a → Q a) → (∀ e, o = Raise e → X e) → works (lift o) Q.
Proof. intros HQ HX w Hw. unfold wp, lift. destruct o; auto. Qed.

Lemma works_tracks {A} (m : M A) : tracks (pres I) m → raises X m → works m any.
Proof.
  intros Hm Hr w Hw. specialize (Hm w Hw). specialize (Hr w). unfold wp, exec, result in *.
  destruct (m w) as [[a|e] w']; [done|]. split; [done|]. by apply Hr.
Qed.

(** What is known of the result in any case. *)
Lemma works_post {A} (m : M A) (P Q : A → Prop) :
  works m P → (∀ w, wp m w (λ a _, Q a) (λ _ _, True)) → works m (λ a, P a ∧ Q a).
Proof.
  intros Hm HQ w Hw. eapply wp_mono; [apply wp_conj; [by apply Hm|apply HQ]|..]; simpl; [|tauto].
  by intros a w' [[Hw' HP] Ha].
Qed.
End works_rules.

Lemma works_mono {A} I (X Y : exn → Prop) (m : M A) (P Q : A → Prop) :
  works I X m P → (∀ e, X e → Y e) → (∀ a, P a → Q a) → works I Y m Q.
Proof.
  intros Hm HXY HPQ w Hw. eapply wp_mono; [by apply Hm|..]; simpl; [intros a w' []|intros e w' []]; auto.
Qed.

Lemma works_never {A} I X (m : M A) Q : works I never m Q → works I X m Q.
Proof. intros Hm. by eapply works_mono. Qed.

(** A step that returns, in front of a continuation. *)
Lemma works_then {A B} I (m : M A) (f : A → M B) P w Q R :
  works I never m P → I w → (∀ a w', I w' → P a → wp (f a) w' Q R) → wp (m ≫= f) w Q R.
Proof. intros Hm Hw Hf. apply wp_bind. eapply wp_mono; [by apply Hm| |by intros e w' []]. intros a w' []. by apply Hf. Qed.

(** ** The gateway on a ledger that does not fail *)

(** A charge the column of [model_invocations] can hold. *)
Abbreviation fits cost := (numeric_10_6_fits cost = true).

Lemma numeric_10_6_rounded c : numeric_10_6 (numeric_10_6 c) = numeric_10_6 c.
Proof.
  assert (∀ k, 0 ≤ k → (k * 100 + 50) / 100 = k) as Hk.
  { intros k Hk. rewrite Z.add_comm, Z.div_add by lia. by replace (50 / 100) with 0 by done. }
  unfold numeric_10_6. destruct (Z.leb_spec 0 c) as [Hc|Hc].
  - assert (0 ≤ (c + 50) / 100) by (apply Z.div_pos; lia).
    replace (0 <=? _) with true by (symmetry; apply Z.leb_le; lia). by rewrite Hk.
  - assert (0 ≤ (- c + 50) / 100) by (apply Z.div_pos; lia). set (k := (- c + 50) / 100) in *.
    destruct (Z.leb_spec 0 (- (k * 100))); [|by rewrite Z.opp_involutive, Hk].
    by replace k with 0 by lia.
Qed.

(** The worst case of a request fits. *)
Definition charge_fits (request : ModelRequest) : Prop :=
  ∀ wc, estimate_worst_case_attempt (req_provider request) (req_model request) (req_system_prompt request)
          (req_user_prompt request) (req_max_output_tokens request) = Ret wc → fits wc.2.

(** What the gateway needs of a ledger to be sure of it: an invariant of the database under
    which charging and settling an amount that fits does not raise. *)
Class ReliableLedger (L : AttemptLedger) (I : World → Prop) : Prop := {
  reliable_view : ∀ w w', w_db w = w_db w' → w_next_id w = w_next_id w' → I w → I w';
  begin_reliable : ∀ tel, fits (tel_estimated_cost tel) → works I never (begin_attempt L tel) any;
  finish_reliable : ∀ i tel, fits (tel_estimated_cost tel) → works I never (finish_attempt L i tel) any;
}.

Section gateway_works.
Context `{Env} (L : AttemptLedger) (I : World → Prop) `{!ReliableLedger L I}.

(** Whatever a provider answers, its bill fits. *)
Definition bills_fit : Prop :=
  ∀ provider n request response cost, provider_generate provider n request = inr response →
    estimate_cost_usd provider (req_model request) (resp_input_tokens response) (resp_output_tokens response) = Ret cost →
    fits cost.

Context (Hbills : bills_fit).

Lemma view_works {A} X (m : M A) :
  tracks (same (λ w, (w_db w, w_next_id w))) m → raises X m → works I X m any.
Proof.
  intros Hm Hr. apply works_tracks; [|done]. intros w Hw. specialize (Hm w). unfold same in Hm.
  injection Hm as E1 E2. by apply (reliable_view (L := L) w).
Qed.

Lemma price_expected provider model e : e = UnpricedModelError provider model → is_expected_error e = true.
Proof. by intros ->. Qed.

Lemma check_circuit_works call : works I expected (check_circuit call) any.
Proof.
  apply view_works; [unfold check_circuit; tracks_auto|]. unfold check_circuit. raises_auto; try done;
    match goal with Hb : before_call _ _ _ = _ |- _ => by apply before_call_raises in Hb end.
Qed.

Lemma finish_works call i tel :
  call_ledger call = Some L → fits (tel_estimated_cost tel) → works I expected (finish call i tel) any.
Proof.
  intros HL Hf. unfold finish. rewrite HL. destruct i; [|by apply works_ret].
  by apply works_never, finish_reliable.
Qed.

Lemma write_ahead_works call :
  call_ledger call = Some L → charge_fits (call_request call) → works I expected (write_ahead call) any.
Proof.
  intros HL Hf. unfold write_ahead. rewrite HL. eapply works_bind.
  { apply works_lift; [exact Hf|]. eauto using price_expected, estimate_worst_case_raises. }
  intros wc Hwc. eapply works_bind; [by apply works_never, begin_reliable|]. intros i _. by apply works_ret.
Qed.

Lemma send_works X r : works I X (send r) (λ answer, ∃ n, answer = provider_generate (req_provider r) n r).
Proof. intros w Hw. split; [by apply (reliable_view (L := L) w)|]. by eexists. Qed.

Lemma failed_attempt_works call status t :
  charge_fits (call_request call) →
  works I expected (failed_attempt_telemetry call status t) (λ tel, fits (tel_estimated_cost tel)).
Proof.
  intros Hf. unfold failed_attempt_telemetry, estimate_failed_attempt. eapply works_bind.
  - apply (works_lift _ _ _ (λ f, fits f.2)); destruct (is_provably_unbilled status); try done.
    + by intros a [= <-].
    + eauto using price_expected, estimate_worst_case_raises.
  - intros f Hft. by apply works_ret.
Qed.

Lemma after_send_works call i t0 answer :
  call_ledger call = Some L → charge_fits (call_request call) →
  works I expected (after_send call i t0 answer) (attempt_matches call answer).
Proof.
  intros HL Hf. apply (works_mono _ expected _ _ (λ r, any r ∧ attempt_matches call answer r)); [|done|by intros r [_ ?]].
  apply works_post; [|apply after_send_result].
  destruct answer as [[status msg]|response]; simpl.
  - eapply works_bind; [apply works_when, view_works; [tracks_auto|raises_auto]|]. intros _ _.
    eapply works_bind; [by apply view_works|]. intros now _.
    eapply works_bind; [by apply failed_attempt_works|]. intros tel Htel.
    eapply works_bind; [by apply finish_works|]. intros _ _. by apply works_ret.
  - eapply works_bind; [by apply view_works|]. intros _ _. by apply works_ret.
Qed.

Lemma attempt_once_works call :
  call_ledger call = Some L → charge_fits (call_request call) →
  works I expected (attempt_once call)
    (λ r, ∃ n, attempt_matches call (provider_generate (req_provider (call_request call)) n (call_request call)) r).
Proof.
  intros HL Hf. unfold attempt_once. eapply works_bind; [by apply write_ahead_works|]. intros i _.
  eapply works_bind; [by apply view_works|]. intros t0 _.
  eapply works_bind; [apply send_works|]. intros answer [n ->].
  eapply works_mono; [by apply after_send_works|done|by eauto].
Qed.

Lemma succeed_works call i response n k :
  call_ledger call = Some L →
  provider_generate (req_provider (call_request call)) k (call_request call) = inr response →
  works I expected (succeed call i response n) any.
Proof.
  intros HL Hp. unfold succeed. eapply works_bind.
  { apply works_lift; [intros cost Hc; exact (Hbills _ _ _ _ _ Hp Hc)|].
    eauto using price_expected, estimate_cost_usd_raises. }
  intros cost Hc. eapply works_bind; [by apply finish_works|]. intros _ _. by apply works_ret.
Qed.

Lemma attempt_loop_works gw policy usage k n err call :
  call_ledger call = Some L → charge_fits (call_request call) →
  works I expected (attempt_loop gw policy usage k n err call) any.
Proof.
  revert n err call. induction k as [|k IH]; intros n err call HL Hf; simpl; [by apply works_raise|].
  eapply works_bind; [apply check_circuit_works|]. intros _ _.
  eapply works_bind; [by apply attempt_once_works|]. intros [att call'] (j & Hreq & HL' & Hm). simpl in *.
  rewrite HL in HL'. rewrite <- Hreq in Hf. destruct (provider_generate _ _ _) as [[status msg]|resp] eqn:Hp.
  - destruct Hm as [-> _]. simpl. destruct (is_permanent_rejection status); [by apply works_raise|].
    eapply works_bind; [|intros _ _; by apply IH].
    apply works_when, view_works; unfold require_retry_budget; [tracks_auto|by raises_auto].
  - destruct Hm as (-> & -> & ->). by eapply succeed_works.
Qed.

Lemma generate_works gw request policy usage is_retry :
  charge_fits request → works I expected (generate gw request policy usage is_retry (Some L)) any.
Proof.
  intros Hf. unfold generate.
  eapply works_bind; [apply (works_post _ _ _ any (λ c, call_request c = request ∧ call_ledger c = Some L))|].
  - apply view_works; unfold admit_call; [tracks_auto|]. raises_auto; try done.
    apply lift_raises. eauto using price_expected, estimate_worst_case_raises.
  - intros w. eapply wp_mono; [apply admit_spec| |done]. by intros call w' (_ & ? & ? & _).
  - intros call [_ [<- HL]]. by apply attempt_loop_works.
Qed.
End gateway_works.

(** ** The rows an execution works on *)

(** The loaded rows are there, with what they refer to, and new ids are new. *)
Record ready (l : Loaded) (w : World) : Prop := {
  rd_loaded : loaded_in l w;
  rd_tenant : is_Some (DB.tenants (w_db w) !! Mission.tenant_id (ld_mission l));
  rd_agent : is_Some (DB.agents (w_db w) !! Agent.id (ld_agent l));
  rd_version : is_Some (DB.agent_versions (w_db w) !! AgentVersion.id (ld_version l));
  rd_checkpoints : checkpoints_fresh w;
  rd_invocations : fresh_above (w_next_id w) (DB.model_invocations (w_db w));
  rd_artifacts : fresh_above (w_next_id w) (DB.artifacts (w_db w));
}.

(** The same during a call from the prompt checkpoint [c], whose answer takes the next
    sequence. *)
Definition calling (l : Loaded) (c : Checkpoint) (w : World) : Prop :=
  ready l w ∧ sequence_free (cp_task_id c) (cp_sequence c + 1) (w_db w) ∧ cp_refs c (w_db w).

(** The usage provider of an execution. *)
Abbreviation task_usage l t0 :=
  (mkUsageProvider (Mission.tenant_id (ld_mission l)) (ld_mission_id l) (ld_task_id l) (Agent.id (ld_agent l)) t0).

(** A step that inserts nothing: statuses, events, ids and commits. *)
Record bookkeeping (w w' : World) : Prop := {
  bk_safe : safe_step w w';
  bk_next : (w_next_id w ≤ w_next_id w')%positive;
  bk_rows : ∀ (A : Type) (f : DB.t → A), (∀ d x, f (DB.upd_tasks x d) = f d) → (∀ d x, f (DB.upd_missions x d) = f d) →
    (∀ d x, f (DB.upd_audit_events x d) = f d) → f (w_db w') = f (w_db w);
}.

#[global] Instance bookkeeping_preorder : PreOrder bookkeeping.
Proof.
  split.
  - intros w. constructor; [reflexivity|lia|done].
  - intros w1 w2 w3 [A1 B1 C1] [A2 B2 C2]. constructor; [by etrans|lia|]. intros A f F1 F2 F3.
    rewrite (C2 A f), (C1 A f); done.
Qed.

Lemma bookkeeping_ready l w w' : bookkeeping w w' → ready l w → ready l w'.
Proof.
  intros [Hs Hn Hr] [H1 H2 H3 H4 H5 H6 H7]. unfold checkpoints_fresh in *.
  constructor; [by eapply loaded_in_safe|..]; unfold checkpoints_fresh.
  - by rewrite (Hr _ DB.tenants).
  - by rewrite (Hr _ DB.agents).
  - by rewrite (Hr _ DB.agent_versions).
  - rewrite (Hr _ DB.checkpoints); [|done..]. by eapply fresh_above_le.
  - rewrite (Hr _ DB.model_invocations); [|done..]. by eapply fresh_above_le.
  - rewrite (Hr _ DB.artifacts); [|done..]. by eapply fresh_above_le.
Qed.

Lemma cp_refs_safe c w w' : bookkeeping w w' → cp_refs c (w_db w) → cp_refs c (w_db w').
Proof.
  intros [[_ _ Ht Hm] _ Hr] (H1 & H2 & H3). split_and!; [|by apply Hm|by rewrite (Hr _ DB.agents)].
  destruct H1 as [t H1]. destruct (Ht _ _ H1) as (t' & -> & _). eauto.
Qed.

Lemma sequence_free_books t s w w' : bookkeeping w w' → sequence_free t s (w_db w) → sequence_free t s (w_db w').
Proof. intros [_ _ Hr] Hf. unfold sequence_free. by rewrite (Hr _ DB.checkpoints). Qed.

Section books.
Context `{Env}.

Lemma new_id_books : tracks bookkeeping new_id.
Proof. intros w. constructor; [apply new_id_safe|simpl; lia|done]. Qed.

Lemma utc_books : tracks bookkeeping utc.
Proof. intros w. constructor; [apply utc_safe|simpl; lia|done]. Qed.

Lemma commit_books : tracks bookkeeping commit.
Proof.
  intros w. assert (w_db (exec commit w) = w_db w ∧ w_next_id (exec commit w) = w_next_id w) as [Hd Hn].
  { unfold exec, commit. by destruct (commit_ok _). }
  constructor; [apply commit_safe|rewrite Hn; lia|by rewrite Hd].
Qed.

Lemma publish_books ev : tracks bookkeeping (publish ev).
Proof.
  intros w. constructor; [apply publish_safe|..]; unfold exec, publish; simpl; destruct (redis_ok _); simpl; try lia;
    intros A f _ _ Hf; apply Hf.
Qed.

Lemma update_task_books k f :
  (∀ t, Task.id (f t) = Task.id t ∧ Task.mission_id (f t) = Task.mission_id t) → tracks bookkeeping (update_task k f).
Proof. intros Hf w. constructor; [by apply update_task_safe|simpl; lia|]. intros A g Hg _ _. apply Hg. Qed.

Lemma update_mission_books k f : tracks bookkeeping (update_mission k f).
Proof. intros w. constructor; [apply update_mission_safe|simpl; lia|]. intros A g _ Hg _. apply Hg. Qed.
End books.
#[export] Hint Resolve new_id_books utc_books commit_books publish_books update_mission_books : tracks.
#[export] Hint Extern 1 (tracks bookkeeping (update_task _ _)) =>
  (apply update_task_books; intros; split; reflexivity) : tracks.

Section executor_books.
Context `{Env}.

Lemma publish_event_books l ty data : tracks bookkeeping (publish_event l ty data).
Proof. unfold publish_event. tracks_auto. Qed.
#[local] Hint Resolve publish_event_books : tracks.

Lemma fail_books l reason : tracks bookkeeping (fail l reason).
Proof. unfold fail. tracks_auto. Qed.

Lemma mark_running_books l c : tracks bookkeeping (mark_running l c).
Proof. unfold mark_running. tracks_auto. Qed.

Lemma mark_running_raises X l c : raises X (mark_running l c).
Proof. unfold mark_running, update_task. raises_auto; apply publish_event_raises. Qed.

Lemma report_run_books l r : tracks bookkeeping (report_run l r).
Proof. unfold report_run. tracks_auto. Qed.

Lemma initialize_run_books context : tracks bookkeeping (initialize_run context).
Proof. unfold initialize_run. tracks_auto. Qed.

Lemma books_works {A} l X (m : M A) : tracks bookkeeping m → raises X m → works (ready l) X m any.
Proof. intros Hm Hr. apply works_tracks; [|done]. intros w. exact (bookkeeping_ready l w _ (Hm w)). Qed.

Lemma calling_books {A} l c X (m : M A) : tracks bookkeeping m → raises X m → works (calling l c) X m any.
Proof.
  intros Hm Hr. apply works_tracks; [|done]. intros w (H1 & H2 & H3). specialize (Hm w).
  split_and!; eauto using bookkeeping_ready, sequence_free_books, cp_refs_safe.
Qed.
End executor_books.

(** ** Inserts that go through *)

(** An insert whose keys are free, with its references in place and a cost that fits. *)
Lemma insert_invocation_ok r w :
  fits (ModelInvocation.estimated_cost r) → DB.model_invocations (w_db w) !! ModelInvocation.id r = None →
  is_Some (DB.tenants (w_db w) !! ModelInvocation.tenant_id r) →
  is_Some (DB.missions (w_db w) !! ModelInvocation.mission_id r) →
  is_Some (DB.tasks (w_db w) !! ModelInvocation.task_id r) →
  is_Some (DB.agents (w_db w) !! ModelInvocation.agent_id r) →
  insert_invocation r w =
    (Ret tt, set_db (DB.upd_model_invocations (<[ModelInvocation.id r := r]>) (w_db w)) w).
Proof.
  intros Hf Hk Htn Hm Ht Ha. unfold insert_invocation, is_present, asks_db, asks, modify_db, modify, mbind, ST_bind,
    mret, ST_ret, integrity, id. simpl. rewrite Hf. simpl.
  rewrite bool_decide_false by (rewrite Hk; by intros []). simpl. by rewrite !bool_decide_true by done.
Qed.

Lemma insert_artifact_ok r w :
  DB.artifacts (w_db w) !! Artifact.id r = None → is_Some (DB.tenants (w_db w) !! Artifact.tenant_id r) →
  is_Some (DB.missions (w_db w) !! Artifact.mission_id r) → is_Some (DB.tasks (w_db w) !! Artifact.task_id r) →
  is_Some (DB.agents (w_db w) !! Artifact.agent_id r) →
  is_Some (DB.agent_versions (w_db w) !! Artifact.agent_version_id r) →
  (∀ k a, DB.artifacts (w_db w) !! k = Some a → same_artifact_key a r = false) →
  insert_artifact r w = (Ret tt, set_db (DB.upd_artifacts (<[Artifact.id r := r]>) (w_db w)) w).
Proof.
  intros Hk Htn Hm Ht Ha Hv Hu. unfold insert_artifact, is_present, asks_db, asks, modify_db, modify, mbind, ST_bind,
    mret, ST_ret, integrity, id. simpl.
  rewrite bool_decide_false by (rewrite Hk; by intros []). simpl. rewrite !bool_decide_true by done. simpl.
  match goal with |- context [exists_row ?P ?m] => assert (exists_row P m = false) as -> end; [|done].
  by apply exists_row_false.
Qed.

Section sure.
Context `{Env} (Hcommit : ∀ n, commit_ok n = true) (Hput : ∀ n, object_put_ok n = true).

Lemma commit_sure : raises never commit.
Proof. intros w e. unfold result, commit. by rewrite Hcommit. Qed.

Lemma begin_ready l t0 c tel :
  fits (tel_estimated_cost tel) →
  works (calling l c) never (sql_begin_attempt (task_usage l t0) tel) any.
Proof.
  intros Hf w Hw. unfold sql_begin_attempt. apply wp_bind. unfold wp at 1, new_id. apply wp_bind. unfold wp at 1, utc.
  pose proof Hw as ([(Hok & Hm & t & Ht & Hmid) H2 H3 H4 H5 H6 H7] & Hs & Hc).
  apply wp_bind. unfold wp at 1. rewrite insert_invocation_ok; simpl;
    [|unfold numeric_10_6_fits in *; by rewrite numeric_10_6_rounded|by apply fresh_above_None|done|done|by eexists|done].
  eapply (wp_bind_never (calling l c)); [|apply commit_sure| |].
  - intros w' (G1 & G2 & G3). pose proof (commit_books w') as Hb.
    split_and!; eauto using bookkeeping_ready, sequence_free_books, cp_refs_safe.
  - split_and!; try done. constructor; simpl; try done.
    + split_and!; eauto. by destruct Hok.
    + by apply fresh_above_succ.
    + by apply fresh_above_insert.
    + by apply fresh_above_succ.
  - intros ? w' Hw'. by apply wp_ret.
Qed.

Lemma finish_ready l p c i tel :
  fits (tel_estimated_cost tel) → works (calling l c) never (sql_finish_attempt p i tel) any.
Proof.
  intros Hf. unfold sql_finish_attempt. rewrite Hf. simpl.
  apply (works_bind _ _ _ _ any); [by apply works_ret|]. intros _ _. apply (works_bind _ _ _ _ any).
  - intros w ([(Hok & Hm & t & Ht & Hmid) H2 H3 H4 H5 H6 H7] & Hs & Hc). split; [|done]. split_and!; try done.
    constructor; simpl; try done.
    + split_and!; eauto. by destruct Hok.
    + intros j [v Hj]. apply H6. rewrite lookup_alter_Some in Hj. destruct Hj as [(<- & v0 & -> & _)|[_ ->]]; eauto.
  - intros _ _. apply calling_books; [apply commit_books|apply commit_sure].
Qed.

#[global] Instance task_ledger_reliable l t0 c :
  ReliableLedger (sql_ledger (task_usage l t0)) (calling l c).
Proof.
  constructor.
  - intros w w' Hd Hn ([G1 G2 G3 G4 G5 G6 G7] & Hs & Hc). unfold calling, loaded_in, checkpoints_fresh in *.
    rewrite <- Hd. split_and!; try done. constructor; unfold loaded_in, checkpoints_fresh; by rewrite <- ?Hd, <- ?Hn.
  - apply begin_ready.
  - apply finish_ready.
Qed.

(** ** Steps of an execution *)

(** [save] of a checkpoint with the next sequence, ready for the call behind it. *)
Lemma save_ready l c w :
  ready l w → cp_refs c (w_db w) → sequence_free (cp_task_id c) (cp_sequence c) (w_db w) →
  wp (save c) w (λ c' w', (∃ i, c' = with_checkpoint_id i c) ∧ calling l c' w') (λ _ _, False).
Proof.
  intros [(Hok & Hm & t & Ht & Hmid) H2 H3 H4 H5 H6 H7] Hc Hs. unfold save. apply wp_bind. unfold wp at 1, new_id.
  pose proof Hc as (R1 & R2 & R3). apply wp_bind. unfold wp at 1. rewrite insert_checkpoint_ok; simpl; try done.
  2:{ by apply fresh_above_None. }
  set (c' := with_checkpoint_id (w_next_id w) c).
  eapply (wp_bind_never (calling l c')); [|apply commit_sure| |].
  - intros w' (G1 & G2 & G3). pose proof (commit_books w') as Hb.
    split_and!; eauto using bookkeeping_ready, sequence_free_books, cp_refs_safe.
  - split_and!; [|..|done].
    + constructor; unfold checkpoints_fresh; simpl; try done; try by apply fresh_above_succ.
      * split_and!; eauto. by destruct Hok.
      * by apply fresh_above_insert.
    + intros k r Hk Hr. simpl in *. apply lookup_insert_Some in Hk as [[<- <-]|[_ Hk]]; simpl; [lia|].
      specialize (Hs k r Hk Hr). lia.
  - intros ? w' Hw'. apply wp_ret. split; [by eexists|done].
Qed.

Lemma commit_artifact_ready l ty title content mime :
  works (ready l) never (commit_task_artifact l ty title content mime) any.
Proof.
  intros w Hw. pose proof Hw as [(Hok & Hm & t & Ht & Hmid) H2 H3 H4 H5 H6 H7]. pose proof Hok as [Hu Hv].
  unfold commit_task_artifact, commit_artifact. apply wp_bind. eapply wp_mono; [by apply find_committed_spec| |by intros].
  intros [a|] w1 [-> Ha]; [by apply wp_ret|]. apply wp_bind. unfold wp at 1, put_object. simpl. rewrite Hput.
  apply wp_bind. unfold wp at 1, new_id. simpl. apply wp_bind. unfold wp at 1, utc. simpl.
  match goal with |- wp (insert_or_existing ?r) ?w2 _ _ => set (row := r); set (w3 := w2) end.
  assert (∀ k a, DB.artifacts (w_db w) !! k = Some a → same_artifact_key a row = false) as Hno.
  { intros k a Hk. specialize (Ha k a Hk). apply not_true_iff_false. intros (E1 & E2 & E3 & _)%same_artifact_key_spec.
    apply not_true_iff_false in Ha. apply Ha, at_slot_spec. by split_and!. }
  unfold insert_or_existing. apply wp_try, wp_bind. unfold wp at 1, begin_nested.
  rewrite insert_artifact_ok; simpl; [|by apply fresh_above_None|done|done|by eexists|done..].
  apply wp_ret. split; [|done]. constructor; simpl; try done; try by apply fresh_above_succ.
  - split_and!; eauto. pose proof (insert_artifact_spec row w3 Hok eq_refl) as Hi. unfold wp in Hi.
    rewrite insert_artifact_ok in Hi; simpl; [by destruct Hi|by apply fresh_above_None|done|done|by eexists|done..].
  - by apply fresh_above_insert.
Qed.

Context (Hbills : bills_fit) (gw : ModelGateway).

(** A checkpoint state from which a request can be made, whose worst case fits. *)
Definition state_fits (state : CheckpointState) : Prop :=
  match request_of_state state with Ret (request, _) => charge_fits request | Raise _ => False end.

(** A run that got its answer, or an error that the executor handles. *)
Abbreviation answers l := (λ (r : RunResult) w, ready l w ∧ is_Some (res_output_text r)).
Abbreviation handled l := (λ e w, ready l w ∧ is_expected_error e = true).

Lemma call_model_ready l t0 run c w :
  state_fits (cp_state c) → calling l c w →
  wp (call_model_and_checkpoint (task_adapter gw l t0) run c) w (answers l) (handled l).
Proof.
  intros Hst Hw. unfold call_model_and_checkpoint. apply wp_bind. unfold state_fits in Hst. unfold wp at 1, lift.
  destruct (request_of_state (cp_state c)) as [[request policy]|e]; [|done].
  eapply (works_then (calling l c)); [|done|].
  { apply (view_works (sql_ledger (task_usage l t0)) (calling l c)); simpl; unfold usage_for_task; [tracks_auto|raises_auto]. }
  intros usage w1 Hw1 _. apply wp_bind. eapply wp_mono; [by apply (generate_works _ (calling l c) Hbills)| |].
  2:{ by intros e w2 [[? _] ?]. }
  intros out w2 [(Hr & Hs & Hc) _]. apply wp_bind. eapply wp_mono; [by apply (save_ready l)| |by intros].
  intros c' w3 [_ [Hr3 _]]. apply wp_ret. split; [done|by eexists].
Qed.

(** The context is of the loaded rows. *)
Definition context_of (l : Loaded) (context : RunContext) : Prop :=
  ctx_task_id context = ld_task_id l ∧ ctx_mission_id context = ld_mission_id l ∧
  ctx_agent_id context = Agent.id (ld_agent l).

Lemma run_context_of l context : run_context l = Ret context → context_of l context.
Proof. unfold run_context. destruct (ld_policy l); [|done]. by intros [= <-]. Qed.

Lemma initialize_ready l context : works (ready l) never (initialize_run context) (λ h, handle_context h = context).
Proof.
  apply (works_mono _ never _ _ (λ h, any h ∧ handle_context h = context)); [|done|by intros h [_ ?]].
  apply works_post; [apply books_works; [apply initialize_run_books|unfold initialize_run; raises_auto]|].
  intros w. by unfold wp.
Qed.

Lemma execute_ready l t0 handle w :
  context_of l (handle_context handle) → state_fits (prompt_state (handle_context handle)) →
  ready l w → wp (execute (task_adapter gw l t0) handle) w (answers l) (handled l).
Proof.
  intros (Ht & Hm & Ha) Hf Hw. unfold execute. apply wp_bind. unfold wp at 1. simpl. apply wp_bind.
  eapply wp_mono; [apply (save_ready l _ _ Hw)| |by intros].
  - destruct Hw as [(_ & Hmi & t & Htk & _) _ Hag _ _ _ _]. split_and!; simpl; rewrite ?Ht, ?Hm, ?Ha; eauto.
  - apply next_sequence_free.
  - intros c w1 [[i ->] Hc]. by apply call_model_ready.
Qed.

(** A checkpoint that [resume] can take up. *)
Definition resumable (state : CheckpointState) : Prop :=
  match state with
  | ModelResponded _ _ _ _ _ _ => True
  | PromptAssembled _ _ _ _ _ _ _ => state_fits state
  | Cancelled | OtherStage _ => False
  end.

Lemma resume_ready l t0 c w :
  resumable (cp_state c) → calling l c w → wp (resume (task_adapter gw l t0) c) w (answers l) (handled l).
Proof.
  intros Hst Hw. unfold resume. destruct (cp_state c) eqn:E; try done.
  - apply call_model_ready; [|done]. by rewrite E.
  - apply wp_ret. split; [apply Hw|by eexists].
Qed.

(** A [try] block whose errors are all handled, and what it hands on. *)
Abbreviation settled l := (λ (r : option RunResult) w, ready l w ∧ ∀ x, r = Some x → is_Some (res_output_text x)).

Lemma publish_event_works l X ty data : works (ready l) X (publish_event l ty data) any.
Proof. apply books_works; [apply publish_event_books|apply publish_event_raises]. Qed.

Lemma fail_works {A} l reason w :
  ready l w → wp (_ ← fail l reason; mret None : M (option A)) w (λ r w', ready l w' ∧ r = None) (λ _ _, False).
Proof.
  intros Hw. eapply (works_then (ready l)); [apply books_works; [apply fail_books|apply fail_raises]|done|].
  intros ? w' Hw' _. by apply wp_ret.
Qed.

Lemma first_run_ready l t0 context existing w :
  run_context l = Ret context → state_fits (prompt_state context) →
  match existing with Some c => resumable (cp_state c) ∧ calling l c w | None => ready l w end →
  wp (first_run l (task_adapter gw l t0) context existing) w (settled l) (λ _ _, False).
Proof.
  intros Hctx Hf Hw. unfold first_run. apply wp_try.
  apply (wp_mono _ _ (settled l) _ (handled l)); [|done|].
  - apply wp_bind. apply (wp_mono _ _ (answers l) _ (handled l)); [|intros r w' [Hr Ht]; apply wp_ret; split; [done|]|done].
    2:{ by intros ? [= <-]. }
    destruct existing as [c|].
    + destruct Hw as [Hst Hw].
      assert (∀ ty data, works (calling l c) never (publish_event l ty data) any) as Hp.
      { intros. apply calling_books; [apply publish_event_books|apply publish_event_raises]. }
      eapply (works_then (calling l c)); [apply Hp|done|]. intros ? w1 Hw1 _.
      eapply (works_then (calling l c)); [apply works_when, Hp|done|]. intros ? w2 Hw2 _.
      by apply resume_ready.
    + eapply (works_then (ready l)); [apply initialize_ready|done|]. intros handle w1 Hw1 <-.
      eapply (works_then (ready l)); [apply publish_event_works|done|]. intros ? w2 Hw2 _.
      apply execute_ready; [by apply run_context_of|done..].
  - intros e w' [Hw' He].
    assert (∀ ty data reason,
      wp (_ ← publish_event l ty data; _ ← fail l reason; mret None) w' (settled l) (λ _ _, False)) as Hh.
    { intros. eapply (works_then (ready l)); [apply publish_event_works|done|]. intros ? w1 Hw1 _.
      eapply wp_mono; [by apply fail_works| |done]. by intros r w2 [Hw2 ->]. }
    destruct e; try discriminate He; cbv beta iota delta [is_gateway_error]; apply Hh.
Qed.

(** The repair prompts that a rejected output can lead to. *)
Definition repairs_fit (context : RunContext) : Prop :=
  ∀ text error, (validate_mission_output text).2 = Some error →
    state_fits (prompt_state (with_instructions (ctx_task_instructions context +:+ repair_instruction error) context)).

Lemma repair_ready l t0 context text error w :
  run_context l = Ret context → repairs_fit context → (validate_mission_output text).2 = Some error → ready l w →
  wp (repair l (task_adapter gw l t0) context error) w (λ _, ready l) (λ _ _, False).
Proof.
  intros Hctx Hf Hv Hw. unfold repair. specialize (Hf _ _ Hv).
  eapply (works_then (ready l)); [apply initialize_ready|done|]. intros handle w1 Hw1 Hh.
  eapply (works_then (ready l)); [apply publish_event_works|done|]. intros ? w2 Hw2 _.
  apply wp_bind. apply (wp_mono _ _ (settled l) _ (λ _ _, False)); [apply wp_try| |done].
  - apply (wp_mono _ _ (settled l) _ (handled l)); [|done|].
    + apply wp_bind. eapply wp_mono; [apply execute_ready, Hw2|..]; [..|done].
      * rewrite Hh. by apply (run_context_of l) in Hctx.
      * by rewrite Hh.
      * intros r w' [Hr Ht]. apply wp_ret. split; [done|]. by intros ? [= <-].
    + intros e w' [Hw' He]. rewrite He. eapply wp_mono; [by apply fail_works| |done]. by intros r w3 [Hw3 ->].
  - intros [r|] w3 [Hw3 Hr]; [|by apply wp_ret]. destruct (Hr r eq_refl) as [out Hout]. rewrite Hout.
    apply wp_bind. eapply (wp_mono _ _ (λ _, ready l) _ (λ _ _, False)); [| |done].
    { destruct (res_model_telemetry r); [|by apply wp_ret]. eapply (works_then (ready l)); [apply publish_event_works|done|]. intros ? w4 Hw4 _.
      eapply wp_mono; [apply (books_works l never), Hw4; [apply commit_books|apply commit_sure]| |]; by intros ? ? []. }
    intros ? w4 Hw4. simpl. apply wp_bind, wp_ret. destruct (validate_mission_output out) as [[parsed|] err]; simpl.
    + by apply wp_ret.
    + eapply (works_then (ready l)); [apply commit_artifact_ready|done|]. intros ? w5 Hw5 _.
      eapply wp_mono; [by apply fail_works| |done]. by intros ? w6 [? _].
Qed.

Lemma complete_ready l text parsed : works (ready l) never (complete l text parsed) any.
Proof.
  unfold complete. eapply works_bind; [apply commit_artifact_ready|]. intros r _. apply books_works.
  - tracks_auto; apply publish_event_books.
  - unfold update_task, update_mission. raises_auto; try apply publish_event_raises. apply commit_sure.
Qed.

Lemma finish_task_ready l t0 context result w :
  run_context l = Ret context → repairs_fit context → is_Some (res_output_text result) → ready l w →
  wp (finish_task l (task_adapter gw l t0) context result) w (λ _ _, True) (λ _ _, False).
Proof.
  intros Hctx Hf [out Hout] Hw. unfold finish_task.
  assert (∀ text parsed w', ready l w' → wp (complete l text parsed) w' (λ _ _, True) (λ _ _, False)) as Hc.
  { intros. eapply wp_mono; [by apply complete_ready|done|by intros ? ? []]. }
  eapply (works_then (ready l)); [apply books_works; [apply report_run_books|]|done|].
  { unfold report_run. raises_auto; try apply publish_event_raises. apply commit_sure. }
  intros ? w1 Hw1 _. rewrite Hout. simpl. apply wp_bind, wp_ret.
  pose proof (validate_mission_output_xor out) as Hx. pose proof (repair_ready l t0 context out) as Hr.
  destruct (validate_mission_output out) as [[parsed|] err]; simpl in *; [by apply Hc|].
  destruct Hx as [[[] _]|[_ [error ->]]]; [done|]. apply wp_bind. eapply wp_mono; [by apply Hr| |done].
  intros [[text parsed]|] w2 Hw2; [by apply Hc|by apply wp_ret].
Qed.

(** ** Where an execution starts *)

(** New ids are new in the tables an execution inserts into. *)
Definition ids_fresh (w : World) : Prop :=
  checkpoints_fresh w ∧ fresh_above (w_next_id w) (DB.model_invocations (w_db w)) ∧
  fresh_above (w_next_id w) (DB.artifacts (w_db w)).

Lemma db_ok_keyed d : db_ok d → keyed d.
Proof.
  intros [Hrow _]. split; [intros k t Hk; by destruct (Hrow Tasks k t Hk)|intros k m Hk; by destruct (Hrow Missions k m Hk)].
Qed.

Lemma db_ok_artifacts d : db_ok d → artifacts_ok d.
Proof.
  intros [Hrow Hu]. constructor; [exact (Hu Artifacts)|]. intros k a Hk.
  by destruct (Hrow Artifacts k a Hk) as (_ & _ & _ & _ & _ & _ & ?).
Qed.

(** The latest checkpoint is a row of the task that [resume] can take up, with its references. *)
Lemma db_ok_latest tid d r :
  db_ok d → latest_row tid d = Some r →
  (∀ request policy, request_of_state (RuntimeCheckpoint.state r) = Ret (request, policy) → charge_fits request) →
  resumable (RuntimeCheckpoint.state r) ∧ cp_refs (checkpoint_of_row r) d ∧
  sequence_free (RuntimeCheckpoint.task_id r) (RuntimeCheckpoint.checkpoint_sequence r + 1) d.
Proof.
  intros [Hrow _] Hl Hf. destruct (latest_row_spec _ _ _ Hl) as (Hrt & [k Hk] & Hmax).
  destruct (Hrow Checkpoints k r Hk) as (_ & (m & Hm & _) & (t & Ht & _) & (a & Ha & _) & Hst). split_and!.
  - unfold resumable, state_fits. destruct (RuntimeCheckpoint.state r); try done. by eapply Hf.
  - split_and!; simpl; by eexists.
  - intros k' r' Hk' Hr'. rewrite Hrt in Hr'. specialize (Hmax k' r' Hk' Hr'). lia.
Qed.

(** A task whose agent has an active version is loaded, with everything it refers to. *)
Lemma load_task_ready tid t w :
  db_ok (w_db w) → ids_fresh w → DB.tasks (w_db w) !! tid = Some t →
  is_Some (runtime_adapter_of (w_db w) (Task.assigned_agent_id t)) →
  ∃ l context, (∀ w', w_db w' = w_db w → load_task tid w' = (Ret l, w')) ∧ run_context l = Ret context ∧
    ready l w ∧ ld_task_id l = tid.
Proof.
  intros Hdb (F1 & F2 & F3) Ht [ad Had]. pose proof Hdb as [Hrow _]. pose proof (db_ok_artifacts _ Hdb).
  destruct (Hrow Tasks tid t Ht) as (Hid & (m & Hm & _) & (a & Ha & _) & _).
  destruct (Hrow Missions _ m Hm) as (Hmid & (tn & Htn & _) & _). destruct (Hrow Agents _ a Ha) as (Haid & _ & _).
  unfold runtime_adapter_of in Had. simpl in Ha. rewrite Ha in Had. simpl in Had.
  destruct (Agent.active_version_id a) as [v|] eqn:Hv; [|done]. simpl in Had.
  destruct (DB.agent_versions (w_db w) !! v) as [av|] eqn:Hav; [|done].
  destruct (Hrow AgentVersions v av Hav) as (Havid & ag & _ & mp & Hmp & _).
  eexists (mkLoaded t m a av (Some mp)), _. split; [|split; [reflexivity|split; [|exact Hid]]].
  - intros w' Hd. unfold load_task, get_row, asks_db, asks, mbind, ST_bind, mret, ST_ret. simpl in *.
    rewrite Hd, Ht, Hd, Hm, Ha, Hv, Hd, Hav. by rewrite Hd, Hmp.
  - constructor; unfold loaded_in, ld_task_id, ld_mission_id; simpl; rewrite ?Hid, ?Hmid, ?Haid, ?Havid; eauto.
Qed.

(** A task that an execution can take up. *)
Record startable (tid : EntityId) (t : Task.t) (w : World) : Prop := {
  st_schema : db_ok (w_db w);
  st_ids : ids_fresh w;
  st_task : DB.tasks (w_db w) !! tid = Some t;
  st_agent : is_Some (runtime_adapter_of (w_db w) (Task.assigned_agent_id t));
  st_checkpoint : ∀ r request policy, latest_row tid (w_db w) = Some r →
    request_of_state (RuntimeCheckpoint.state r) = Ret (request, policy) → charge_fits request;
  st_prompts : ∀ l context, result (load_task tid) w = Ret l → run_context l = Ret context →
    state_fits (prompt_state context) ∧ repairs_fit context;
}.

Lemma execute_task_returns tid t w :
  startable tid t w → wp (execute_task gw tid) w (λ _ _, True) (λ _ _, False).
Proof.
  intros [Hdb Hid Ht Had Hlat Hfit]. unfold execute_task. apply wp_bind. unfold wp at 1, utc.
  destruct (load_task_ready tid t w Hdb Hid Ht Had) as (l & context & Hl & Hctx & Hr & Htid).
  destruct (Hfit l context) as [Hf1 Hf2]; [unfold result; by rewrite Hl|done|].
  set (w1 := set_utc_ticks _ _). assert (ready l w1) as Hw1 by (eapply bookkeeping_ready, Hr; apply (utc_books w)).
  apply wp_bind. unfold wp at 1. rewrite Hl by done. apply wp_bind. unfold latest_for_task. apply wp_asks.
  apply wp_bind. unfold wp at 1.
  pose proof (mark_running_books l (checkpoint_of_row <$> latest_row tid (w_db w1)) w1) as Hb.
  pose proof (mark_running_raises never l (checkpoint_of_row <$> latest_row tid (w_db w1)) w1) as Hn.
  unfold exec, result in *. destruct (mark_running _ _ _) as [[[]|e] w2]; [|by destruct (Hn e)].
  apply wp_bind. unfold wp at 1, lift. rewrite Hctx. apply wp_bind.
  eapply wp_mono; [apply first_run_ready; [done..|]| |done].
  - destruct (latest_row tid (w_db w1)) as [r|] eqn:Hrow; simpl; [|by eapply bookkeeping_ready].
    destruct (db_ok_latest tid (w_db w1) r) as (Hst & Hrefs & Hfree); [done|done|by intros; eapply Hlat|].
    split; [done|]. split_and!; eauto using bookkeeping_ready, sequence_free_books, cp_refs_safe.
  - intros [x|] w3 [Hw3 Hx]; [|by apply wp_ret]. by apply finish_task_ready; [..|by apply Hx|].
Qed.
End sure.

(** What an execution relies on outside the platform. *)
Record infrastructure_works `{Env} : Prop := {
  commits_succeed : ∀ n, commit_ok n = true;
  uploads_succeed : ∀ n, object_put_ok n = true;
  bills_reasonable : bills_fit;
}.

(** An execution that is left alone comes to an end: the task and its mission are both failed
    or both completed. *)
Lemma execute_task_always_ends `{Env} gw tid t w :
  infrastructure_works → startable tid t w →
  wp (execute_task gw tid) w
    (λ _ w', ended_failed tid (w_db w') ∨ ended_completed tid (w_db w')) (λ _ _, False).
Proof.
  intros [Hc Hp Hb] Hst. pose proof Hst as [Hdb _ _ _ _ _].
  eapply wp_mono; [apply wp_conj; [by apply execute_task_outcome; [apply db_ok_keyed|apply db_ok_artifacts]
    |by eapply execute_task_returns]|by intros ? ? []|by intros ? ? []].
Qed.

(** ** Theorem *)


(** ** Charges that fit *)

(** The dearest prices of the table. *)
Lemma PRICING_bound k p : PRICING !! k = Some p → p.1 ≤ 1500 ∧ p.2 ≤ 7500.
Proof.
  intros Hk. assert (map_Forall (λ _ p, p.1 ≤ 1500 ∧ p.2 ≤ 7500) PRICING) as Hall
    by (apply (bool_decide_unpack _); vm_compute; exact I).
  exact (Hall k p Hk).
Qed.

Lemma cost_bound provider model i o cost :
  0 ≤ i → 0 ≤ o → estimate_cost_usd provider model i o = Ret cost → 0 ≤ cost ≤ 1500 * i + 7500 * o.
Proof.
  intros Hi Ho. unfold estimate_cost_usd. destruct (price_for provider model) as [[pi po]|] eqn:Hp; [|done].
  intros [= <-]. pose proof (price_for_nonneg _ _ _ Hp) as [??]. simpl in *.
  assert (pi ≤ 1500 ∧ po ≤ 7500) as [??]; [|nia].
  unfold price_for in Hp. repeat case_match; simplify_eq;
    match goal with HP : PRICING !! _ = Some _ |- _ => exact (PRICING_bound _ _ HP) end.
Qed.

Lemma fits_below cost : 0 ≤ cost < 9999 * Py.usd_unit → fits cost.
Proof.
  intros Hc. unfold numeric_10_6_fits. apply Z.ltb_lt. pose proof (numeric_10_6_close cost). unfold Py.usd_unit in *. lia.
Qed.

(** A prompt of at most a gigabyte, answered in at most ten million tokens, fits. *)
Lemma charge_fits_size request :
  Z.of_nat (String.length (req_system_prompt request +:+ req_user_prompt request)) ≤ 10 ^ 9 →
  0 ≤ req_max_output_tokens request ≤ 10 ^ 7 → charge_fits request.
Proof.
  intros Hs Ho wc. unfold estimate_worst_case_attempt.
  pose proof (estimate_input_tokens_bound (req_system_prompt request) (req_user_prompt request)) as Hb.
  destruct (estimate_cost_usd _ _ _ _) as [cost|] eqn:Hc; [|done]. intros [= <-]. simpl.
  apply cost_bound in Hc; [|lia..]. apply fits_below. unfold Py.usd_unit. lia.
Qed.

(** ** Witness: the sample task, whose provider fails the first request *)

Lemma sample_infrastructure : infrastructure_works.
Proof.
  constructor; [done..|]. intros provider n request response cost Hp Hc. simpl in Hp.
  destruct n; simplify_eq. apply cost_bound in Hc; [|done..]. apply fits_below. simpl in Hc. unfold Py.usd_unit. lia.
Qed.

Lemma sample_startable : startable 7 sample_task (set_db (w_committed sample_world) sample_world).
Proof.
  constructor.
  - apply sample_db_ok.
  - split_and!; intros i [v Hi]; by vm_compute in Hi.
  - reflexivity.
  - by eexists.
  - intros r request policy Hr. by vm_compute in Hr.
  - intros l context Hl Hctx. vm_compute in Hl. injection Hl as <-. vm_compute in Hctx. injection Hctx as <-. split.
    + apply charge_fits_size; vm_compute; intuition congruence.
    + intros text error Hv. unfold validate_mission_output in Hv. simpl in Hv.
      destruct (String.eqb text "ok"); [by vm_compute in Hv|]. injection Hv as <-.
      apply charge_fits_size; vm_compute; intuition congruence.
Qed.

