(* ===== verification/Integrity.v ===== *)
(** * The services keep the schema and the tenants apart

    [sound scope d0] is the invariant of a run: what the session sees and what is committed
    satisfy [inv], and every durable point of the ghost history satisfies the schema. Each
    operation of the platform keeps it, as a judgement [yields m P] that also says what the
    value returned is known to satisfy, whatever happens to the database afterwards. *)

From S2P Require Import Prelude Enums Contracts Breaker Telemetry Budgets Database Scenario Transitions Missions Api.
From S2P Require Import Gateway Config Auth Ledger Checkpoints Adapter Artifacts Executor Recovery.
From S2P Require Import Rooms Routes Projects RoomsView Closure Worker Personas AgentRuntime Scripts Demo Schema.
From S2P Require Agents.
Local Open Scope Z_scope.

(** ** Keys of tasks *)

(** A task's key names its mission. *)
Lemma task_key_inj (m m' : EntityId) s t :
  pretty m +:+ ":" +:+ s = pretty m' +:+ ":" +:+ t → m = m'.
Proof. intros E. apply (inj pretty). eapply before_colon, E; apply no_colon_pretty. Qed.

(** ** The judgement *)

Section judgement.
Context (scope : option EntityId) (d0 : DB.t).

Record sound (w : World) : Prop := {
  sound_view : inv scope d0 (w_db w);
  sound_committed : inv scope d0 (w_committed w);
  sound_log : Forall (λ e, db_ok e.1) (w_durable_log w);
}.

(** [m] keeps the invariant, and what it returns satisfies [P] from then on. *)
Definition yields {A} (m : M A) (P : A → Prop) : Prop :=
  ∀ w, sound w → wp m w (λ a w', sound w' ∧ P a) (λ _ w', sound w').

Lemma yields_exec {A} (m : M A) P w : yields m P → sound w → sound (exec m w).
Proof. intros Hm Hw. specialize (Hm w Hw). unfold wp, exec in *. destruct (m w) as [[] w']; [apply Hm|done]. Qed.

Lemma yields_ret {A} (a : A) (P : A → Prop) : P a → yields (mret a) P.
Proof. by intros HP w Hw. Qed.

Lemma yields_raise {A} e (P : A → Prop) : yields (raise e) P.
Proof. by intros w Hw. Qed.

Lemma yields_bind {A B} (m : M A) (f : A → M B) P Q :
  yields m P → (∀ a, P a → yields (f a) Q) → yields (m ≫= f) Q.
Proof.
  intros Hm Hf w Hw. apply wp_bind. eapply wp_mono; [by apply Hm| |done].
  intros a w' [Hw' Ha]. by apply Hf.
Qed.

Lemma yields_any {A} (m : M A) P : yields m P → yields m any.
Proof. intros Hm w Hw. eapply wp_mono; [by apply Hm| |done]. by intros a w' [Hw' _]. Qed.

Lemma yields_weaken {A} (m : M A) (P Q : A → Prop) : yields m P → (∀ a, P a → Q a) → yields m Q.
Proof. intros Hm HPQ w Hw. eapply wp_mono; [by apply Hm| |done]. intros a w' [Hw' Ha]. auto. Qed.

Lemma yields_try {A} (m : M A) h P :
  yields m P → (∀ e k, h e = Some k → yields k P) → yields (try_except m h) P.
Proof.
  intros Hm Hh w Hw. apply wp_try. eapply wp_mono; [by apply Hm|done|].
  intros e w' Hw'. destruct (h e) as [k|] eqn:Hk; [|done]. by eapply Hh.
Qed.

Lemma yields_when b (m : M unit) : yields m any → yields (when b m) any.
Proof. intros Hm. destruct b; [done|]. by apply yields_ret. Qed.

Lemma yields_for_each {A} (l : list A) (f : A → M unit) :
  (∀ x, x ∈ l → yields (f x) any) → yields (for_each l f) any.
Proof.
  induction l as [|x l IH]; intros Hf; simpl; [by apply yields_ret|].
  eapply yields_bind; [apply Hf; by left|]. intros _ _. apply IH. intros y Hy. apply Hf. by right.
Qed.

Lemma yields_lift {A} (o : outcome exn A) (P : A → Prop) : (∀ a, o = Ret a → P a) → yields (lift o) P.
Proof. intros HP w Hw. unfold wp, lift. destruct o; auto. Qed.

(** A query: what holds of every database that satisfies [inv]. *)
Lemma yields_asks_db {A} (f : DB.t → A) (P : A → Prop) : (∀ d, inv scope d0 d → P (f d)) → yields (asks_db f) P.
Proof. intros HP w Hw. split; [done|]. apply HP, Hw. Qed.

Lemma yields_scalar {V} (l : list V) (P : V → Prop) :
  (∀ r, l = [r] → P r) → yields (scalar_one_or_none l) (λ o, ∀ r, o = Some r → P r).
Proof.
  intros HP. destruct l as [|r []]; [by apply yields_ret| |apply yields_raise]. apply yields_ret.
  intros ? [= <-]. auto.
Qed.

(** [SELECT ... WHERE p] and [.scalar_one_or_none()] on a table. *)
Lemma yields_find t (p : row t → bool) (P : row t → Prop) :
  (∀ d k r, inv scope d0 d → rows t d !! k = Some r → p r = true → P r) →
  yields (l ← asks_db (λ d, select p (rows t d)); scalar_one_or_none l) (λ o, ∀ r, o = Some r → P r).
Proof.
  intros HP. eapply yields_bind; [apply (yields_asks_db _ (Forall P))|].
  - intros d Hd. apply Forall_forall. intros r [Hr [k Hk]]%elem_of_select. eauto.
  - intros l Hl. apply yields_scalar. intros r ->. by inversion Hl.
Qed.

(** A lookup by primary key. *)
Lemma yields_get t k (P : row t → Prop) :
  (∀ d r, inv scope d0 d → rows t d !! k = Some r → P r) →
  yields (get_row (rows t) k) (λ o, ∀ r, o = Some r → P r).
Proof. intros HP. apply yields_asks_db. intros d Hd r Hr. eauto. Qed.

(** Steps that leave the database alone. *)
Definition databases (w : World) := (w_db w, w_committed w, w_durable_log w).

Lemma yields_still {A} (m : M A) : tracks (same databases) m → yields m any.
Proof.
  intros Hm w [H1 H2 H3]. specialize (Hm w). unfold wp, same, exec, databases in *.
  destruct (m w) as [[a|e] w']; injection Hm as E1 E2 E3;
    [split; [|done]|]; constructor; by rewrite <- ?E1, <- ?E2, <- ?E3.
Qed.

Lemma yields_modify_db f : (∀ d, inv scope d0 d → inv scope d0 (f d)) → yields (modify_db f) any.
Proof. intros Hf w [H1 H2 H3]. split; [|done]. constructor; simpl; auto. Qed.

Lemma yields_begin_nested {A} (m : M A) P : yields m P → yields (begin_nested m) P.
Proof.
  intros Hm w Hw. specialize (Hm w Hw). unfold wp, begin_nested in *.
  destruct (m w) as [[a|e] w']; [done|]. destruct Hm as [H1 H2 H3]. constructor; simpl; [apply Hw|done..].
Qed.

Lemma yields_rollback : yields rollback any.
Proof. intros w [H1 H2 H3]. split; [|done]. by constructor. Qed.

Lemma yields_with_session {A} (m : M A) P : yields m P → yields (with_session m) P.
Proof.
  intros Hm w [H1 H2 H3]. apply wp_with_session. assert (sound (set_db (w_committed w) w)) as Hw by (by constructor).
  eapply wp_mono; [by apply Hm|..]; simpl.
  - intros a w' [[G1 G2 G3] Ha]. split; [|done]. by constructor.
  - intros e w' [G1 G2 G3]. by constructor.
Qed.

Lemma yields_interfere rival : (∀ d, inv scope d0 d → inv scope d0 (rival d)) → yields (interfere rival) any.
Proof. intros Hr w [H1 H2 H3]. split; [|done]. constructor; simpl; auto. Qed.

Context `{Env}.

Lemma yields_commit : yields commit any.
Proof.
  intros w [H1 H2 H3]. unfold wp, commit. cbn [w_commits set_commits pred].
  destruct (commit_ok _); [split; [|done]|]; constructor; simpl; try done.
  apply Forall_app_2; [done|]. apply Forall_singleton, H1.
Qed.

Lemma yields_request {A} (m : M A) P : yields m P → yields (request m) P.
Proof.
  intros Hm w [H1 H2 H3]. assert (sound (set_db (w_committed w) w)) as Hw by (by constructor).
  assert (yields (r ← m; _ ← commit; mret r) P) as Hr.
  { eapply yields_bind; [done|]. intros a Ha. eapply yields_bind; [apply yields_commit|].
    intros _ _. by apply yields_ret. }
  specialize (Hr _ Hw). unfold wp, request in *. destruct ((r ← m; _ ← commit; mret r) _) as [[a|e] w']; [done|].
  destruct Hr as [G1 G2 G3]. by constructor.
Qed.

Lemma yields_publish ev : ours scope (ev_tenant_id ev) → yields (publish ev) any.
Proof.
  intros Ho. unfold publish. eapply yields_bind.
  - apply yields_modify_db. intros d [[Hrow Huniq] Hs]. split.
    + split; [intros t k r; destruct t; apply Hrow|intros t; destruct t; apply Huniq].
    + unfold in_scope in *. destruct scope as [tn|] eqn:E; [|done]. destruct Hs as [Hok0 [Hr (l & Hl & Ht)]].
      split; [done|]. split; [intros t k; specialize (Hr t k); destruct t; exact Hr|].
      simpl. rewrite Hl, <- app_assoc. eexists. split; [done|]. apply Forall_app_2; [done|].
      apply Forall_singleton. simpl. by apply Ho.
  - intros _ _. apply yields_still. intros w. unfold same, exec, databases. simpl. by destruct (redis_ok _).
Qed.
End judgement.

(** ** Automation *)

Create HintDb sound.

Section easy.
Context (scope : option EntityId) (d0 : DB.t) `{Env}.

Lemma yields_asks_any {A} (f : DB.t → A) : yields scope d0 (asks_db f) any.
Proof. by apply yields_asks_db. Qed.
Lemma yields_get_any {V} (table : DB.t → gmap EntityId V) k : yields scope d0 (get_row table k) any.
Proof. by apply yields_asks_db. Qed.
Lemma yields_scalar_any {V} (l : list V) : yields scope d0 (scalar_one_or_none l) any.
Proof. eapply yields_any, (yields_scalar scope d0 l any). done. Qed.
Lemma yields_lift_any {A} (o : outcome exn A) : yields scope d0 (lift o) any.
Proof. by apply yields_lift. Qed.
Lemma yields_new_id : yields scope d0 new_id any.
Proof. by apply yields_still. Qed.
Lemma yields_utc : yields scope d0 utc any.
Proof. by apply yields_still. Qed.
Lemma yields_monotonic : yields scope d0 monotonic any.
Proof. by apply yields_still. Qed.
Lemma yields_enqueue i : yields scope d0 (enqueue_task i) any.
Proof. apply yields_still. intros w. unfold same, exec, enqueue_task. by destruct (redis_ok _). Qed.
Lemma yields_put_object k c : yields scope d0 (put_object k c) any.
Proof. apply yields_still. intros w. unfold same, exec, put_object. by destruct (object_put_ok _). Qed.

Lemma yields_publish_api ty tn actor corr m t ag data :
  ours scope tn → yields scope d0 (publish_api ty tn actor corr m t ag data) any.
Proof.
  intros Ho. unfold publish_api. eapply yields_bind; [apply yields_new_id|]. intros i _.
  eapply yields_bind; [apply yields_utc|]. intros now _. by apply yields_publish.
Qed.
End easy.

#[export] Hint Resolve yields_asks_any yields_get_any yields_scalar_any yields_lift_any yields_new_id yields_utc
  yields_monotonic yields_enqueue yields_put_object yields_publish_api yields_commit yields_rollback : sound.

(** Walks through a computation, one step at a time; atomic steps are closed by the hint
    database [sound] or left to the caller. *)
Ltac yields_step :=
  match goal with
  | |- ∀ _, _ => intros ?
  | |- True => exact I
  | |- yields _ _ (_ ≫= _) _ => eapply yields_bind
  | |- yields _ _ (mret _) _ => apply yields_ret
  | |- yields _ _ (raise _) _ => apply yields_raise
  | |- yields _ _ (when _ _) _ => apply yields_when
  | |- yields _ _ (begin_nested _) _ => apply yields_begin_nested
  | |- yields _ _ (match ?x with _ => _ end) _ => destruct x eqn:?
  | |- yields _ _ (let '(_, _) := ?x in _) _ => destruct x eqn:?
  end.

Ltac yields_auto := repeat (first [solve [eauto 3 with sound] | yields_step]).

(** ** Inserts *)

Section inserts.
Context (scope : option EntityId) (d0 : DB.t).
Implicit Types w : World.

Lemma present_ref {V} k (m : gmap EntityId V) : is_present k m = true → ref m k any.
Proof. intros [r Hr]%bool_decide_eq_true. by exists r. Qed.

Lemma opt_present_ref {V} k (m : gmap EntityId V) : opt_present k m = true → opt_ref m k any.
Proof. destruct k; [apply present_ref|done]. Qed.

Lemma no_row {V} (P : V → bool) (m : gmap EntityId V) k r :
  negb (exists_row P m) = true → m !! k = Some r → P r = true → False.
Proof. intros He%negb_true_iff Hk HP. rewrite exists_row_false in He. by rewrite (He k r Hk) in HP. Qed.

Lemma sound_insert t k r w (P : Prop) :
  sound scope d0 w → rows t (w_db w) !! k = None → row_ok t (w_db w) k r →
  (∀ k' s, rows t (w_db w) !! k' = Some s → clash t r s → False) →
  (∀ tn, scope = Some tn → owner t tn (w_db w) r) → (mine scope d0 t k → P) →
  sound scope d0 (set_db (put t (<[k := r]>) (w_db w)) w) ∧ P.
Proof.
  intros [H1 H2 H3] Hk Hr Hc Ho HP. split; [|apply HP; by apply (mine_absent _ _ t k (w_db w))].
  constructor; simpl; [|done..]. by apply insert_inv.
Qed.

(** The checks of an insert into [t] as facts, and the conditions of [sound_insert]. *)
Ltac insert_sound t :=
  let w := fresh "w" in let Hw := fresh "Hw" in
  intros w Hw; insert_checks; simpl in *;
  refine (sound_insert t _ _ w _ Hw _ _ _ _ _); simpl; [by apply not_present| | | |by intros].

(** The facts behind the checks that passed. *)
Ltac check_facts :=
  repeat match goal with
  | H : _ && _ = true |- _ => apply andb_true_iff in H as [? ?]
  | H : is_present _ _ = true |- _ => apply present_ref in H
  | H : opt_present _ _ = true |- _ => apply opt_present_ref in H
  | H : bool_decide _ = true |- _ => apply bool_decide_eq_true in H
  | H : (_ <=? _) = true |- _ => apply Z.leb_le in H
  | H : (_ <? _) = true |- _ => apply Z.ltb_lt in H
  end.

(** No row has the key of the new one. *)
Ltac no_clash :=
  let k := fresh "k" in let s := fresh "s" in let Hs := fresh "Hs" in
  intros k s Hs; intros; destruct_and?;
  eapply no_row; [eassumption|exact Hs|simpl; rewrite ?andb_true_iff, ?bool_decide_eq_true; naive_solver].

Lemma insert_mission_yields r :
  ours scope (Mission.tenant_id r) → yields scope d0 (insert_mission r) (λ _, mine scope d0 Missions (Mission.id r)).
Proof.
  intros Ho. unfold insert_mission. insert_sound Missions.
  - check_facts. done.
  - no_clash.
  - done.
Qed.

Lemma insert_task_yields r :
  mine scope d0 Missions (Task.mission_id r) →
  (∃ s, Task.idempotency_key r = pretty (Task.mission_id r) +:+ ":" +:+ s) →
  yields scope d0 (insert_task r) (λ _, mine scope d0 Tasks (Task.id r)).
Proof.
  intros Hm Hkey. unfold insert_task. insert_sound Tasks.
  - check_facts. done.
  - no_clash.
  - intros tn E. check_facts. destruct H0 as (m & Hr & _). exists m. split; [done|].
    exact (mine_now scope d0 Missions _ m _ tn (sound_view _ _ _ Hw) E Hm Hr).
Qed.

(** What a reference of the tenant's row leads to, in every database of the run. *)
Lemma mine_ref t k tn d (P : row t → Prop) :
  inv scope d0 d → scope = Some tn → mine scope d0 t k → ref (rows t d) k P → ref (rows t d) k (owner t tn d).
Proof. intros Hi E Hm (r & Hr & _). exists r. split; [done|]. by apply (mine_now scope d0 t k r d tn). Qed.

Lemma insert_checkpoint_yields r :
  scope = None → engine_stage (RuntimeCheckpoint.state r) → yields scope d0 (insert_checkpoint r) any.
Proof.
  intros E Hst. unfold insert_checkpoint. insert_sound Checkpoints.
  - check_facts. done.
  - no_clash.
  - intros tn. congruence.
Qed.

Lemma insert_artifact_yields r :
  ours scope (Artifact.tenant_id r) → Artifact.version r = 1 → yields scope d0 (insert_artifact r) any.
Proof.
  intros Ho Hv. unfold insert_artifact. insert_sound Artifacts.
  - check_facts. done.
  - intros k s Hs Hc%(clash_sym Artifacts). simpl in Hc. by eapply no_row.
  - done.
Qed.

Lemma insert_invocation_yields r : scope = None → yields scope d0 (insert_invocation r) any.
Proof.
  intros E. unfold insert_invocation. insert_sound ModelInvocations.
  - check_facts. done.
  - done.
  - intros tn. congruence.
Qed.

Lemma insert_mission_project_yields r :
  ours scope (MissionProject.tenant_id r) →
  (∀ d m, inv scope d0 d → DB.missions d !! MissionProject.mission_id r = Some m →
     Mission.tenant_id m = MissionProject.tenant_id r) →
  yields scope d0 (insert_mission_project r) any.
Proof.
  intros Ho Hm. unfold insert_mission_project. insert_sound MissionProjects.
  - check_facts. destruct H0 as (m & Hr & _). split_and!; [done|exists m; split; [done|]|].
    + exact (Hm _ m (sound_view _ _ _ Hw) Hr).
    + case_match; [|done]. check_facts. by eexists.
  - done.
  - done.
Qed.

Lemma insert_agent_yields r :
  ours scope (Agent.tenant_id r) → Agent.active_version_id r = None →
  yields scope d0 (Agents.insert_agent r) (λ _, mine scope d0 Agents (Agent.id r)).
Proof.
  intros Ho Hv. unfold Agents.insert_agent. insert_sound Schema.Agents.
  - check_facts. by rewrite Hv.
  - unfold Agents.same_code in *. no_clash.
  - done.
Qed.

(** The policy of a version is of the agent's tenant, in every database of the run. *)
Definition policy_fits (agent_id policy_id : EntityId) : Prop :=
  ∀ d a p, inv scope d0 d → DB.agents d !! agent_id = Some a → DB.model_policies d !! policy_id = Some p →
    ModelPolicy.tenant_id p = Agent.tenant_id a.

Lemma insert_agent_version_sound r w :
  mine scope d0 Agents (AgentVersion.agent_id r) →
  (∀ a p, DB.agents (w_db w) !! AgentVersion.agent_id r = Some a →
     DB.model_policies (w_db w) !! AgentVersion.model_policy_id r = Some p → ModelPolicy.tenant_id p = Agent.tenant_id a) →
  sound scope d0 w →
  wp (Agents.insert_agent_version r) w
    (λ _ w', sound scope d0 w' ∧ DB.agent_versions (w_db w') !! AgentVersion.id r = Some r)
    (λ _ w', sound scope d0 w').
Proof.
  intros Hm Hp Hw. unfold Agents.insert_agent_version. insert_checks. simpl in *. check_facts.
  refine (sound_insert AgentVersions _ _ w _ Hw _ _ _ _ _); simpl; [by apply not_present|..].
  - destruct H0 as (a & Ha & _), H1 as (p & Hp' & _). split; [done|]. exists a. split; [done|]. exists p. auto.
  - unfold Agents.same_version in *. no_clash.
  - intros tn E. exact (mine_ref Agents _ tn _ _ (sound_view _ _ _ Hw) E Hm H0).
  - intros _. apply lookup_insert_eq.
Qed.

Lemma insert_agent_version_yields r :
  mine scope d0 Agents (AgentVersion.agent_id r) →
  policy_fits (AgentVersion.agent_id r) (AgentVersion.model_policy_id r) →
  yields scope d0 (Agents.insert_agent_version r) any.
Proof.
  intros Hm Hp w Hw. eapply wp_mono; [apply insert_agent_version_sound; [done| |done]| |done].
  - intros a p. apply Hp, Hw.
  - by intros _ w' [Hw' _].
Qed.

Lemma insert_project_yields r : ours scope (Project.tenant_id r) → yields scope d0 (insert_project r) any.
Proof.
  intros Ho. unfold insert_project. insert_sound Schema.Projects.
  - check_facts. done.
  - unfold has_code, project_of_tenant in *. no_clash.
  - done.
Qed.

Lemma insert_model_policy_yields r :
  ours scope (ModelPolicy.tenant_id r) → yields scope d0 (insert_model_policy r) any.
Proof.
  intros Ho. unfold insert_model_policy. insert_sound ModelPolicies.
  - check_facts. done.
  - done.
  - done.
Qed.

Lemma insert_external_status_yields r :
  ours scope (ExternalAgentStatus.tenant_id r) → yields scope d0 (insert_external_status r) any.
Proof.
  intros Ho. unfold insert_external_status. insert_sound ExternalAgentStatuses.
  - check_facts. done.
  - unfold status_of in *. no_clash.
  - done.
Qed.

Lemma insert_room_yields r :
  ours scope (AgentRoomAssignment.tenant_id r) → yields scope d0 (insert_room_assignment r) any.
Proof.
  intros Ho. unfold insert_room_assignment. insert_sound RoomAssignments.
  - check_facts. done.
  - intros k s Hs (Hr & Hr' & Ht & Hor). unfold active_at, active_for, active_of in *.
    destruct Hor as [Ha|[Hf Hi]]; [eapply (no_row _ _ k s H5)|eapply (no_row _ _ k s H4)]; try done;
      rewrite !andb_true_iff, !bool_decide_eq_true; naive_solver.
  - done.
Qed.

Lemma insert_persona_slot_yields r :
  ours scope (AgentRuntimePersonaSlot.tenant_id r) → yields scope d0 (insert_persona_slot r) any.
Proof.
  intros Ho. unfold insert_persona_slot. insert_sound PersonaSlots.
  - check_facts. done.
  - unfold slot_taken, slot_of_tenant in *. intros k s Hs [Ht Hor]. eapply no_row; [done|exact Hs|].
    rewrite andb_true_iff, orb_true_iff, !bool_decide_eq_true. naive_solver.
  - done.
Qed.

Lemma insert_closure_yields c :
  mine scope d0 RuntimeSessions (AgentRuntimeClosure.runtime_session_id c) →
  yields scope d0 (insert_closure c) any.
Proof.
  intros Hm. unfold insert_closure. insert_sound Closures.
  - check_facts. split_and!; [done..|]. case_match; [by apply present_ref|done].
  - unfold of_session in *. no_clash.
  - intros tn E. check_facts. exact (mine_ref RuntimeSessions _ tn _ _ (sound_view _ _ _ Hw) E Hm H1).
Qed.

(** The rows a session refers to are of its tenant, in every database of the run. *)
Record session_fits (r : AgentRuntimeSession.t) : Prop := {
  sf_mission : ∀ d k m, inv scope d0 d → AgentRuntimeSession.mission_id r = Some k →
    DB.missions d !! k = Some m → Mission.tenant_id m = AgentRuntimeSession.tenant_id r;
  sf_task : ∀ d k t m, inv scope d0 d → AgentRuntimeSession.task_id r = Some k → DB.tasks d !! k = Some t →
    DB.missions d !! Task.mission_id t = Some m → Mission.tenant_id m = AgentRuntimeSession.tenant_id r;
  sf_parent : ∀ d k p, inv scope d0 d → AgentRuntimeSession.parent_session_id r = Some k →
    DB.runtime_sessions d !! k = Some p → AgentRuntimeSession.tenant_id p = AgentRuntimeSession.tenant_id r;
}.

Lemma opt_ref_strengthen {V} (m : gmap EntityId V) o (P : V → Prop) :
  opt_ref m o any → (∀ k r, o = Some k → m !! k = Some r → P r) → opt_ref m o P.
Proof. destruct o as [k|]; [|done]. intros (r & Hr & _) HP. exists r. eauto. Qed.

Lemma insert_runtime_session_yields r :
  ours scope (AgentRuntimeSession.tenant_id r) → session_fits r →
  yields scope d0 (insert_runtime_session r) any.
Proof.
  intros Ho [F1 F2 F3]. unfold insert_runtime_session. insert_sound RuntimeSessions.
  - check_facts. pose proof (sound_view _ _ _ Hw) as Hi. split_and!; try done.
    + apply opt_ref_strengthen; [done|]. intros k m. by apply F1.
    + apply opt_ref_strengthen; [done|]. intros k t E Ht. pose proof (ok_row _ (proj1 Hi) Tasks k t Ht) as Hrow.
      simpl in Hrow. destruct Hrow as (_ & (m & Hm & _) & _). exists m. split; [done|]. by eapply F2.
    + apply opt_ref_strengthen; [done|]. intros k p. by apply F3.
  - intros k s Hs Hc. by eapply no_row.
  - done.
Qed.

Lemma insert_tenant_yields r : scope = None → yields scope d0 (insert_tenant r) any.
Proof.
  intros E. unfold insert_tenant. insert_sound Tenants.
  - done.
  - unfold tenant_coded in *. no_clash.
  - intros tn. congruence.
Qed.

Lemma insert_user_yields r : scope = None → yields scope d0 (insert_user r) any.
Proof.
  intros E. unfold insert_user. insert_sound Users.
  - check_facts. done.
  - unfold user_named in *. no_clash.
  - intros tn. congruence.
Qed.

Lemma insert_api_key_yields r : scope = None → yields scope d0 (insert_api_key r) any.
Proof.
  intros E. unfold insert_api_key. insert_sound ApiKeys.
  - check_facts. done.
  - unfold hashed_as in *. no_clash.
  - intros tn. congruence.
Qed.
End inserts.

#[export] Hint Resolve insert_checkpoint_yields insert_artifact_yields insert_invocation_yields insert_project_yields
  insert_model_policy_yields insert_external_status_yields insert_room_yields insert_persona_slot_yields
  insert_closure_yields insert_tenant_yields insert_user_yields insert_api_key_yields : sound.

(** ** Updates *)

Section updates.
Context (scope : option EntityId) (d0 : DB.t).

Lemma yields_alter t k f :
  (∀ d, inv scope d0 d → steady t k f d) → mine scope d0 t k →
  yields scope d0 (modify_db (put t (alter f k))) any.
Proof. intros Hf Hm. apply yields_modify_db. intros d Hd. apply alter_inv; auto. Qed.

(** The columns of a table that constraints, keys and ownership look at. *)
Lemma update_task_yields k f :
  (∀ r, (Task.id (f r), Task.mission_id (f r), Task.assigned_agent_id (f r), Task.idempotency_key (f r)) =
        (Task.id r, Task.mission_id r, Task.assigned_agent_id r, Task.idempotency_key r)) →
  mine scope d0 Tasks k → yields scope d0 (update_task k f) any.
Proof.
  intros Hf. apply (yields_alter Tasks k f). intros d _. constructor; simpl; intros r.
  - intros _. by injection (Hf r) as _ ->.
  - intros _. by injection (Hf r) as -> -> -> ->.
  - intros s _. by injection (Hf r) as _ _ _ ->.
  - intros tn _. by injection (Hf r) as _ -> _ _.
Qed.

Lemma update_mission_yields k f :
  (∀ r, (Mission.id (f r), Mission.tenant_id (f r), Mission.assigned_agent_id (f r), Mission.mission_code (f r)) =
        (Mission.id r, Mission.tenant_id r, Mission.assigned_agent_id r, Mission.mission_code r)) →
  mine scope d0 Missions k → yields scope d0 (update_mission k f) any.
Proof.
  intros Hf. apply (yields_alter Missions k f). intros d _. constructor; simpl; intros r.
  - intros _. by injection (Hf r) as _ ->.
  - intros _. by injection (Hf r) as -> -> -> _.
  - intros s _. by injection (Hf r) as _ _ _ ->.
  - intros tn _. by injection (Hf r) as _ -> _ _.
Qed.

(** The columns of a session that identify it and lead elsewhere. *)
Definition session_key (r : AgentRuntimeSession.t) :=
  (AgentRuntimeSession.id r, AgentRuntimeSession.tenant_id r, AgentRuntimeSession.kind r, AgentRuntimeSession.agent_id r,
   AgentRuntimeSession.mission_id r, AgentRuntimeSession.task_id r,
   (AgentRuntimeSession.external_session_ref r, AgentRuntimeSession.external_instance_ref r,
    AgentRuntimeSession.parent_session_id r)).

Lemma update_runtime_session_yields k f :
  (∀ r, session_key (f r) = session_key r) → mine scope d0 RuntimeSessions k →
  yields scope d0 (modify_db (DB.upd_runtime_sessions (alter f k))) any.
Proof.
  intros Hf. apply (yields_alter RuntimeSessions k f). intros d _. constructor; simpl; intros r.
  - intros _. by injection (Hf r) as _ ->.
  - intros _. by injection (Hf r) as -> -> _ -> -> -> _ _ ->.
  - intros s _. unfold same_ref. by injection (Hf r) as _ -> -> _ _ _ -> -> _.
  - intros tn _. by injection (Hf r) as _ -> _ _ _ _ _ _ _.
Qed.

Lemma late_close_yields k v :
  mine scope d0 Closures k →
  yields scope d0 (modify_db (DB.upd_closures (alter (AgentRuntimeClosure.set_late_close_at v) k))) any.
Proof. intros Hm. apply (yields_alter Closures k); [|done]. intros d _. by constructor; simpl. Qed.

Lemma release_room_yields k now :
  mine scope d0 RoomAssignments k →
  yields scope d0 (modify_db (DB.upd_room_assignments (alter (AgentRoomAssignment.set_released_at (Some now)) k))) any.
Proof. intros Hm. apply (yields_alter RoomAssignments k); [|done]. intros d _. constructor; simpl; [done|done| |done]. by intros r s _ [??]. Qed.

Lemma update_project_yields k v :
  mine scope d0 Projects k →
  yields scope d0 (modify_db (DB.upd_projects (alter (Project.set_status v) k))) any.
Proof. intros Hm. apply (yields_alter Schema.Projects k); [|done]. intros d _. by constructor; simpl. Qed.

Lemma suspend_yields k f :
  (∀ r, (Agent.id (f r), Agent.tenant_id (f r), Agent.agent_code (f r), Agent.active_version_id (f r)) =
        (Agent.id r, Agent.tenant_id r, Agent.agent_code r, Agent.active_version_id r)) →
  mine scope d0 Agents k → yields scope d0 (modify_db (DB.upd_agents (alter f k))) any.
Proof.
  intros Hf Hm. apply (yields_alter Schema.Agents k); [|done]. intros d _. constructor; simpl; intros r.
  - intros _. by injection (Hf r) as _ -> _ _.
  - by injection (Hf r) as -> -> _ ->.
  - intros s _. by injection (Hf r) as _ -> -> _.
  - intros tn _. by injection (Hf r) as _ -> _ _.
Qed.

(** An agent's active version is one of its own. *)
Lemma activate_sound k v version f w :
  (∀ r, (Agent.id (f r), Agent.tenant_id (f r), Agent.agent_code (f r), Agent.active_version_id (f r)) =
        (Agent.id r, Agent.tenant_id r, Agent.agent_code r, Some v)) →
  mine scope d0 Agents k → DB.agent_versions (w_db w) !! v = Some version → AgentVersion.agent_id version = k →
  sound scope d0 w → sound scope d0 (set_db (DB.upd_agents (alter f k) (w_db w)) w).
Proof.
  intros Hf Hm Hv Hk [H1 H2 H3]. constructor; simpl; [|done..].
  apply (alter_inv scope d0 Schema.Agents k f (w_db w)); [done| |done]. constructor; simpl; intros r.
  - intros _. by injection (Hf r) as _ -> _ _.
  - intros _ (Hi & Ht & _). injection (Hf r) as -> -> _ ->. split_and!; [done..|]. by exists version.
  - intros s _. by injection (Hf r) as _ -> -> _.
  - intros tn _. by injection (Hf r) as _ -> _ _.
Qed.
End updates.

#[export] Hint Extern 1 (yields _ _ (update_task _ _) _) => (apply update_task_yields; [intros ?; reflexivity|]) : sound.
#[export] Hint Extern 1 (yields _ _ (update_mission _ _) _) => (apply update_mission_yields; [intros ?; reflexivity|]) : sound.
#[export] Hint Extern 1 (yields _ _ (modify_db (DB.upd_runtime_sessions (alter _ _))) _) =>
  (apply update_runtime_session_yields; [intros ?; reflexivity|]) : sound.
#[export] Hint Resolve late_close_yields release_room_yields update_project_yields : sound.

(** ** Missions and their tasks *)

Section missions.
Context (scope : option EntityId) (d0 : DB.t) `{Env}.
Abbreviation mine := (mine scope d0).
Abbreviation yields := (yields scope d0).
Abbreviation inv := (inv scope d0).

Lemma mission_key d k m : inv d → DB.missions d !! k = Some m → Mission.id m = k.
Proof. intros [Hok _] Hm. apply (ok_row _ Hok Missions k m Hm). Qed.

Lemma mission_tenant d k m : inv d → mine Missions k → DB.missions d !! k = Some m → ours scope (Mission.tenant_id m).
Proof. intros Hd Hk Hm tn E. exact (mine_now scope d0 Missions k m d tn Hd E Hk Hm). Qed.

(** A task of a mission of ours. *)
Definition our_task (t : Task.t) : Prop := mine Tasks (Task.id t) ∧ mine Missions (Task.mission_id t).

Lemma our_task_of_mission d k t :
  inv d → DB.tasks d !! k = Some t → mine Missions (Task.mission_id t) → our_task t ∧ Task.id t = k.
Proof.
  intros Hd Ht Hm. pose proof (ok_row _ (proj1 Hd) Tasks k t Ht) as Hrow. simpl in Hrow. destruct Hrow as (Hk & Hr & _).
  split; [split; [|done]|done]. rewrite Hk. eapply (mine_loaded scope d0 Tasks k t d); [done..|].
  intros tn E. exact (mine_ref scope d0 Missions _ tn d _ Hd E Hm Hr).
Qed.

Lemma our_task_loaded d k t : inv d → DB.tasks d !! k = Some t → mine Tasks k → our_task t ∧ Task.id t = k.
Proof.
  intros Hd Ht Hm. eapply our_task_of_mission; [done..|].
  pose proof (ok_row _ (proj1 Hd) Tasks k t Ht) as Hrow. simpl in Hrow. destruct Hrow as (_ & (m & Hr & _) & _).
  eapply (mine_loaded scope d0 Missions _ m d); [done..|]. intros tn E.
  destruct (mine_now scope d0 Tasks k t d tn Hd E Hm Ht) as (m' & Hm' & Htn). by simplify_eq.
Qed.

Lemma create_mission_yields tn code title obj rb ag pr rl bp :
  ours scope tn →
  yields (create_mission tn code title obj rb ag pr rl bp) (λ m, Mission.tenant_id m = tn ∧ mine Missions (Mission.id m)).
Proof.
  intros Ho. unfold create_mission. yields_auto. 
  - by apply insert_mission_yields.
  - done.
Qed.

Lemma mark_mission_status_yields m target : mine Missions (Mission.id m) → yields (mark_mission_status m target) any.
Proof. intros Hm. unfold mark_mission_status. yields_auto. Qed.

Lemma insert_first_task_yields i now m :
  mine Missions (Mission.id m) →
  yields (insert_first_task i now m) (λ t, our_task t ∧ Task.mission_id t = Mission.id m).
Proof.
  intros Hm. unfold insert_first_task. destruct (Mission.assigned_agent_id m); yields_auto.
  - apply insert_task_yields; [done|]. by eexists.
  - split; [by split|done].
Qed.

Lemma existing_first_task_yields mid m e :
  mine Missions mid →
  yields (existing_first_task mid m e) (λ r, sm_mission r = m ∧ our_task (sm_task r) ∧ Task.mission_id (sm_task r) = mid).
Proof.
  intros Hm. unfold existing_first_task, after_integrity_error. destruct savepoint_recovers; [|intros w Hw; exact Hw].
  eapply yields_bind.
  - apply (yields_find scope d0 Tasks _ (λ t, our_task t ∧ Task.mission_id t = mid)). intros d k t Hd Ht Hk.
    assert (Task.mission_id t = mid) as E.
    { apply bool_decide_eq_true in Hk. destruct (ok_row _ (proj1 Hd) Tasks k t Ht) as (_ & _ & _ & s & Hs).
      rewrite Hs in Hk. exact (task_key_inj (Task.mission_id t) mid s "task:1" Hk). }
    split; [|done]. refine (proj1 (our_task_of_mission d k t Hd Ht _)). by rewrite E.
  - intros [t|] Hr; [|apply yields_raise]. apply yields_ret. destruct (Hr t eq_refl). done.
Qed.

Lemma start_mission_yields mid :
  mine Missions mid →
  yields (start_mission mid) (λ r, Mission.id (sm_mission r) = mid ∧ our_task (sm_task r) ∧ Task.mission_id (sm_task r) = mid).
Proof.
  intros Hm. unfold start_mission. eapply yields_bind; [eauto with sound|]. intros now _.
  eapply yields_bind; [eauto with sound|]. intros before _. eapply yields_bind; [apply yields_when; eauto with sound|].
  intros _ _. eapply yields_bind.
  { apply (yields_get scope d0 Missions mid (λ m, Mission.id m = mid)). intros d m. apply mission_key. }
  intros [m|] Hk; [|apply yields_raise]. specialize (Hk m eq_refl). destruct (negb _).
  - eapply yields_bind; [apply (yields_asks_db scope d0 _ (λ o, ∀ t, o = Some t → our_task t ∧ Task.mission_id t = mid))|].
    + intros d Hd t Ht. apply head_Some_elem_of, elem_of_select in Ht as [Hmt%bool_decide_eq_true [k Hkt]].
      split; [|done]. refine (proj1 (our_task_of_mission d k t Hd Hkt _)). by rewrite Hmt.
    + intros [t|] Ht; [|apply yields_raise]. apply yields_ret. simpl. split; [done|]. by apply Ht.
  - eapply yields_bind; [eauto with sound|]. intros i _. eapply yields_bind; [eauto with sound|]. intros created _.
    apply yields_try.
    + eapply yields_bind; [apply yields_begin_nested, insert_first_task_yields; by rewrite Hk|].
      intros t [Ht Hmt]. apply yields_ret. simpl. by rewrite Hmt.
    + intros e k Hek. case_match; simplify_eq. eapply yields_weaken; [by apply existing_first_task_yields|].
      intros r (-> & Hr). done.
Qed.
End missions.

#[export] Hint Resolve mark_mission_status_yields : sound.

(** ** Loading rows *)

Section loading.
Context (scope : option EntityId) (d0 : DB.t) `{Env}.
Abbreviation mine := (mine scope d0).
Abbreviation yields := (yields scope d0).
Abbreviation inv := (inv scope d0).

(** [r] was found under [k]. *)
Definition loaded (t : table) (k : EntityId) (r : row t) : Prop := ∃ d, inv d ∧ rows t d !! k = Some r.

Lemma loaded_yields t k : yields (get_row (rows t) k) (λ o, ∀ r, o = Some r → loaded t k r).
Proof. apply yields_get. intros d r Hd Hr. by exists d. Qed.

Lemma found_yields t (p : row t → bool) :
  yields (l ← asks_db (λ d, select p (rows t d)); scalar_one_or_none l)
    (λ o, ∀ r, o = Some r → p r = true ∧ ∃ k, loaded t k r).
Proof. apply yields_find. intros d k r Hd Hr Hp. split; [done|]. by exists k, d. Qed.

Lemma loaded_ok t k r : loaded t k r → ∃ d, inv d ∧ row_ok t d k r.
Proof. intros (d & Hd & Hr). exists d. split; [done|]. by apply Hd. Qed.

(** A row of ours. *)
Lemma loaded_mine t k r : loaded t k r → (∀ d tn, scope = Some tn → owner t tn d r) → mine t k.
Proof. intros (d & Hd & Hr) Ho. apply (mine_loaded scope d0 t k r d); auto. Qed.

Lemma get_tenant_scoped_yields t tenant_of i tn :
  (∀ d r, ours scope (tenant_of r) → ∀ tn, scope = Some tn → owner t tn d r) → ours scope tn →
  yields (get_tenant_scoped (rows t) tenant_of i tn) (λ o, ∀ r, o = Some r → tenant_of r = tn ∧ loaded t i r ∧ mine t i).
Proof.
  intros Hown Ho. unfold get_tenant_scoped. eapply yields_bind; [apply loaded_yields|]. intros [r|] Hr.
  - apply yields_ret. intros r'. case_decide as Et; [|done]. intros [= <-]. specialize (Hr r eq_refl).
    split_and!; [done..|]. apply (loaded_mine t i r Hr). intros d tn'. apply Hown. by rewrite Et.
  - by apply yields_ret.
Qed.

Lemma tenant_scoped_yields t tenant_of what i tn :
  (∀ d r, ours scope (tenant_of r) → ∀ tn, scope = Some tn → owner t tn d r) → ours scope tn →
  yields (tenant_scoped_or_404 (rows t) tenant_of what i tn) (λ r, tenant_of r = tn ∧ loaded t i r ∧ mine t i).
Proof.
  intros Hown Ho. unfold tenant_scoped_or_404. eapply yields_bind; [by apply get_tenant_scoped_yields|].
  intros [r|] Hr; [|apply yields_raise]. apply yields_ret, (Hr r eq_refl).
Qed.

Lemma mission_or_404_yields mid user :
  ours scope (User.tenant_id user) →
  yields (mission_or_404 mid user)
    (λ m, Mission.tenant_id m = User.tenant_id user ∧ Mission.id m = mid ∧ mine Missions mid).
Proof.
  intros Ho. eapply yields_weaken; [apply (tenant_scoped_yields Missions); [intros d r Hr tn; apply Hr|done]|].
  intros m (Ht & (d & Hd & Hm) & Hk). split_and!; [done| |done]. by apply (mission_key scope d0 d).
Qed.

Lemma task_or_404_yields tid tn :
  ours scope tn → yields (task_or_404 tid tn) (λ t, our_task scope d0 t ∧ Task.id t = tid).
Proof.
  intros Ho. unfold task_or_404. eapply yields_bind; [apply (loaded_yields Tasks)|]. intros [t|] Ht; [|apply yields_raise].
  eapply yields_bind; [apply (loaded_yields Missions)|]. intros [m|] Hm; [|apply yields_raise].
  case_decide as E; [|apply yields_raise]. apply yields_ret. destruct (Ht t eq_refl) as (d & Hd & Hr).
  apply (our_task_of_mission scope d0 d); [done..|].
  apply (loaded_mine Missions _ m (Hm m eq_refl)). intros d' tn' E'. simpl. rewrite E. auto.
Qed.

Lemma mission_response_yields m : yields (mission_response m) any.
Proof. unfold mission_response, is_agent_runtime_mission. yields_auto. Qed.

Lemma resolve_project_link_yields p tn : yields (resolve_project_link p tn) any.
Proof. unfold resolve_project_link, tenant_scoped_or_404, get_tenant_scoped. yields_auto. Qed.

Lemma refuse_agent_runtime_yields mid verb : yields (refuse_agent_runtime mid verb) any.
Proof. unfold refuse_agent_runtime, is_agent_runtime_mission. yields_auto. Qed.

Lemma active_version_yields ag : yields (active_version ag) any.
Proof. unfold active_version. yields_auto. Qed.

Lemma transition_409_yields {A} (m : M A) P : yields m P → yields (try_except m transition_409) P.
Proof.
  intros Hm. apply yields_try; [done|]. intros e k He. unfold transition_409 in He.
  destruct e; simplify_eq. apply yields_raise.
Qed.

Lemma insert_or_existing_yields a :
  ours scope (Artifact.tenant_id a) → Artifact.version a = 1 → yields (insert_or_existing a) any.
Proof.
  intros Ho Hv. unfold insert_or_existing, find_committed. apply yields_try; [yields_auto|].
  intros e k Hk. case_match; simplify_eq. unfold after_integrity_error. destruct savepoint_recovers; yields_auto.
Qed.

Lemma commit_artifact_yields tn m t ag v ty title content mime slot meta :
  ours scope tn → yields (commit_artifact tn m t ag v ty title content mime slot meta) any.
Proof.
  intros Ho. unfold commit_artifact, find_committed. yields_auto. by apply insert_or_existing_yields.
Qed.
End loading.

#[export] Hint Resolve mission_response_yields resolve_project_link_yields refuse_agent_runtime_yields
  active_version_yields commit_artifact_yields : sound.

(** ** Closing external sessions *)

Section closing.
Context (scope : option EntityId) (d0 : DB.t) `{Env}.
Abbreviation mine := (mine scope d0).
Abbreviation yields := (yields scope d0).
Abbreviation inv := (inv scope d0).

(** A session of ours with the rows it leads to. *)
Record our_session (s : AgentRuntimeSession.t) : Prop := {
  os_mine : mine RuntimeSessions (AgentRuntimeSession.id s);
  os_mission : ∀ m, AgentRuntimeSession.mission_id s = Some m → mine Missions m;
  os_task : ∀ t, AgentRuntimeSession.task_id s = Some t → mine Tasks t;
}.

Lemma loaded_session k s :
  loaded scope d0 RuntimeSessions k s → mine RuntimeSessions k → our_session s ∧ AgentRuntimeSession.id s = k.
Proof.
  intros (d & Hd & Hs) Hk. destruct (ok_row _ (proj1 Hd) RuntimeSessions k s Hs) as (Hi & _ & _ & Hm & Ht & _).
  pose proof (λ tn E, mine_now scope d0 RuntimeSessions k s d tn Hd E Hk Hs) as Htn. simpl in Htn.
  split; [|done]. constructor; [by rewrite Hi|..].
  - intros m E. rewrite E in Hm. destruct Hm as (r & Hr & Er). apply (mine_loaded scope d0 Missions m r d); [done..|].
    intros tn Es. simpl. rewrite Er. auto.
  - intros t E. rewrite E in Ht. destruct Ht as (r & Hr & m & Hmr & Er).
    apply (mine_loaded scope d0 Tasks t r d); [done..|]. intros tn Es. exists m. split; [done|]. rewrite Er. auto.
Qed.

Lemma lock_runtime_session_yields tn sid :
  ours scope tn →
  yields (lock_runtime_session tn sid)
    (λ o, ∀ s, o = Some s → our_session s ∧ AgentRuntimeSession.id s = sid ∧ AgentRuntimeSession.tenant_id s = tn).
Proof.
  intros Ho. eapply yields_weaken.
  - apply (get_tenant_scoped_yields scope d0 RuntimeSessions); [intros d r Hr tn'; apply Hr|done].
  - intros o Hs s E. destruct (Hs s E) as (Ht & Hl & Hm). destruct (loaded_session sid s Hl Hm). done.
Qed.

Lemma task_of_session_yields s :
  our_session s → yields (task_of_session s) (λ o, ∀ t, o = Some t → our_task scope d0 t).
Proof.
  intros [_ _ Ht]. unfold task_of_session. destruct (AgentRuntimeSession.task_id s) as [k|]; [|by apply yields_ret].
  eapply yields_weaken; [apply (loaded_yields scope d0 Tasks)|]. intros o Ho t E. destruct (Ho t E) as (d & Hd & Hr).
  refine (proj1 (our_task_loaded scope d0 d k t Hd Hr _)). auto.
Qed.

Lemma get_existing_closure_yields sid :
  mine RuntimeSessions sid →
  yields (get_existing_closure sid) (λ o, ∀ c, o = Some c → mine Closures (AgentRuntimeClosure.id c)).
Proof.
  intros Hm. eapply yields_weaken; [apply (found_yields scope d0 Closures)|]. intros o Ho c E.
  destruct (Ho c E) as (Hp%bool_decide_eq_true & k & d & Hd & Hr).
  destruct (ok_row _ (proj1 Hd) Closures k c Hr) as (Hi & _ & Hs & _). rewrite Hi. rewrite Hp in Hs.
  apply (mine_loaded scope d0 Closures k c d); [done..|]. intros tn Es. simpl. rewrite Hp.
  exact (mine_ref scope d0 RuntimeSessions sid tn d _ Hd Es Hm Hs).
Qed.

Lemma publish_closure_yields ty tn actor mid t data :
  ours scope tn → yields (publish_closure ty tn actor mid t data) any.
Proof. intros Ho. unfold publish_closure. yields_auto. Qed.
Hint Resolve publish_closure_yields : sound.

Lemma advance_task_yields tn actor mid t target rc :
  ours scope tn → our_task scope d0 t → yields (advance_task tn actor mid t target rc) any.
Proof. intros Ho [Ht _]. unfold advance_task, enter_running. yields_auto. Qed.
Hint Resolve advance_task_yields : sound.

Lemma close_again_yields by_ c : mine Closures (AgentRuntimeClosure.id c) → yields (close_again by_ c) any.
Proof. intros Hm. unfold close_again. yields_auto. Qed.

Lemma finish_close_yields tn actor s t o rc :
  ours scope tn → our_session s → (∀ x, t = Some x → our_task scope d0 x) →
  yields (finish_close tn actor s t o rc) any.
Proof. intros Ho [Hs _ _] Ht. unfold finish_close. destruct t as [t|]; [specialize (Ht t eq_refl)|]; yields_auto. Qed.

Lemma close_task_yields tn actor sid o rc by_ n :
  ours scope tn → yields (close_task tn actor sid o rc by_ n) any.
Proof.
  intros Ho. unfold close_task. eapply yields_bind; [by apply lock_runtime_session_yields|].
  intros [s|] Hs; [|by apply yields_ret]. destruct (Hs s eq_refl) as (Hos & Hi & _). pose proof (os_mine _ Hos) as Hm.
  rewrite Hi in Hm. eapply yields_bind; [by apply get_existing_closure_yields|].
  intros [c|] Hc; [by apply close_again_yields, Hc|].
  eapply yields_bind; [by apply task_of_session_yields|]. intros t Ht.
  eapply yields_bind; [eauto with sound|]. intros i _. eapply yields_bind; [eauto with sound|]. intros now _.
  eapply yields_bind; [apply (yields_try _ _ _ _ any)|].
  - eapply yields_bind; [apply yields_begin_nested, insert_closure_yields; simpl; by rewrite Hi|]. intros; by apply yields_ret.
  - intros e k Hk. case_match; simplify_eq. unfold after_integrity_error. destruct savepoint_recovers; [|intros w Hw; exact Hw].
    eapply yields_bind; [by eapply yields_any, get_existing_closure_yields|]. intros [c|] _; yields_auto.
  - intros [c|] _; [by apply yields_ret|]. eapply yields_bind; [by apply finish_close_yields|]. intros; by apply yields_ret.
Qed.

Lemma complete_mission_of_yields s : our_session s → yields (complete_mission_of s) any.
Proof.
  intros [_ Hm _]. unfold complete_mission_of. destruct (AgentRuntimeSession.mission_id s) as [k|]; [|by apply yields_ret].
  specialize (Hm k eq_refl). eapply yields_bind; [apply (loaded_yields scope d0 Missions)|].
  intros [m|] Hl; [|by apply yields_ret]. destruct (Hl m eq_refl) as (d & Hd & Hr).
  rewrite <- (mission_key scope d0 d k m Hd Hr) in Hm. apply yields_when, yields_try; [eauto with sound|].
  intros e c He. destruct e; simplify_eq. by apply yields_ret.
Qed.

Lemma end_session_yields tn actor sid o : ours scope tn → yields (end_session tn actor sid o) any.
Proof.
  intros Ho. unfold end_session. eapply yields_bind; [by apply lock_runtime_session_yields|].
  intros [s|] Hs; [|by apply yields_ret]. destruct (Hs s eq_refl) as (Hos & Hi & _). pose proof (os_mine _ Hos) as Hm.
  destruct (AgentRuntimeSession.ended_at s); [by apply yields_ret|].
  eapply yields_bind; [by apply task_of_session_yields|]. intros t Ht.
  eapply yields_bind; [instantiate (1 := any); destruct t as [t|]; [specialize (Ht t eq_refl)|]; yields_auto|]. intros _ _.
  eapply yields_bind; [eauto with sound|]. intros subs _. eapply yields_bind.
  - apply yields_for_each. intros x _. eapply yields_bind; [by apply close_task_yields|]. intros; by apply yields_ret.
  - intros _ _. eapply yields_bind; [by apply complete_mission_of_yields|]. intros _ _. unfold ended. yields_auto.
Qed.
End closing.

#[export] Hint Resolve close_task_yields end_session_yields : sound.
