(* ===== verification/Isolation.v ===== *)
(** * No request writes across tenants

    Every API route that changes the database, run on behalf of a user, keeps the invariant
    [sound] of [Integrity] with the user's tenant as its scope: the schema holds after it, and
    every row it touched belongs to that tenant. *)

From S2P Require Import Prelude Enums Contracts Breaker Telemetry Budgets Database Scenario Transitions Missions Api.
From S2P Require Import Gateway Config Auth Ledger Checkpoints Adapter Artifacts Executor Recovery RateLimit.
From S2P Require Import Rooms Routes Projects RoomsView Closure Responses Personas AgentRuntime Scripts Demo Schema Integrity.
From S2P Require Agents.
Local Open Scope Z_scope.

(** ** The routes of missions and tasks *)

Section tenant_routes.
Context (tn : EntityId) (d0 : DB.t) `{Env}.
Abbreviation scope := (Some tn).
Abbreviation mine := (mine scope d0).
Abbreviation yields := (yields scope d0).
Abbreviation inv := (inv scope d0).
Context (user : User.t) (Huser : User.tenant_id user = tn).

Lemma user_ours : ours scope (User.tenant_id user).
Proof. intros t [= <-]. done. Qed.
Lemma scope_ours : ours scope tn.
Proof. by intros t [= <-]. Qed.
Hint Resolve user_ours scope_ours : sound.

Lemma ours_eq t : ours scope t → t = tn.
Proof. intros Ho. by apply Ho. Qed.

Lemma link_fits k p d m :
  mine Missions k → inv d → DB.missions d !! MissionProject.mission_id (MissionProject.mk k (User.tenant_id user) p) = Some m →
  Mission.tenant_id m = User.tenant_id user.
Proof. intros Hk Hd Hm. rewrite Huser. apply ours_eq, (mission_tenant scope d0 d k m Hd Hk Hm). Qed.

Lemma create_mission_route_yields payload : yields (create_mission_route payload user) any.
Proof.
  unfold create_mission_route. eapply yields_bind; [eauto with sound|]. intros _ _.
  eapply yields_bind; [eauto with sound|]. intros code _.
  eapply yields_bind; [apply create_mission_yields, user_ours|]. intros m [Ht Hk].
  eapply yields_bind; [|yields_auto].
  instantiate (1 := any). destruct (mc_project_id payload) as [p|]; [|yields_auto].
  apply insert_mission_project_yields; [apply user_ours|]. intros d m'. by apply link_fits.
Qed.

Lemma mine_link d k : inv d → mine Missions k → mine MissionProjects k.
Proof.
  intros Hd Hk. destruct (DB.mission_projects d !! k) as [l|] eqn:Hl; [|by apply (mine_absent scope d0 MissionProjects k d)].
  apply (mine_loaded scope d0 MissionProjects k l d); [done..|]. intros t [= <-].
  destruct (ok_row _ (proj1 Hd) MissionProjects k l Hl) as (_ & (m & Hm & E) & _). simpl. rewrite <- E.
  apply ours_eq, (mission_tenant scope d0 d k m Hd Hk Hm).
Qed.

Lemma unlink_inv d k : inv d → mine Missions k → inv (DB.upd_mission_projects (delete k) d).
Proof.
  intros Hd Hk. pose proof (mine_link d k Hd Hk) as Hl. destruct Hd as [Hok [Hok0 Hc]].
  assert (extends d (DB.upd_mission_projects (delete k) d)) as He.
  { intros t k' r Ht Hr. exists r. split; [|done]. by destruct t. }
  assert (∀ k' : EntityId, delete k (DB.mission_projects d) !! k' = if decide (k' = k) then None else DB.mission_projects d !! k') as Hf.
  { intros k'. case_decide; subst; [apply lookup_delete_eq|by apply lookup_delete_ne]. }
  split; [|split; [done|]].
  - by apply (put_ok MissionProjects k (delete k) d None).
  - apply (confined_put d0 MissionProjects k (delete k) d None tn); try done. intros r. by apply Hl.
Qed.

Lemma relink_inv d k p pr :
  inv d → mine Missions k → DB.projects d !! p = Some pr → Project.tenant_id pr = tn →
  inv (DB.upd_mission_projects (alter (MissionProject.set_project_id p) k) d).
Proof.
  intros Hd Hk Hp Ht. pose proof (mine_link d k Hd Hk) as Hl.
  apply (alter_inv scope d0 MissionProjects k (MissionProject.set_project_id p) d); [done| |done].
  constructor; simpl; [done| |done|done]. intros r Hr (E & Hm & _). split_and!; [done..|]. exists pr. split; [done|].
  rewrite Ht. symmetry. by apply (mine_now scope d0 MissionProjects k r d tn).
Qed.

Lemma resolve_project_link_spec p w :
  wp (resolve_project_link p (User.tenant_id user)) w
    (λ _ w', w' = w ∧ ∀ k, p = Some k → ∃ pr, DB.projects (w_db w) !! k = Some pr ∧ Project.tenant_id pr = tn)
    (λ _ w', w' = w).
Proof.
  destruct p as [p|]; [|by apply wp_ret]. simpl. apply wp_bind. eapply wp_mono; [apply tenant_scoped_spec| |by intros e w' [-> _]].
  intros pr w' (-> & Hp & Ht). case_decide; [by apply wp_raise|]. apply wp_ret. split; [done|]. intros k [= <-].
  exists pr. by rewrite <- Huser.
Qed.

(** What comes after the link is a read. *)
Lemma then_respond (c : M unit) m w :
  wp c w (λ _, sound scope d0) (λ _, sound scope d0) →
  wp (_ ← c; mission_response m) w (λ _ w', sound scope d0 w' ∧ True) (λ _ w', sound scope d0 w').
Proof. intros Hc. apply wp_bind. eapply wp_mono; [exact Hc| |done]. intros ? w' Hw'. by apply mission_response_yields. Qed.

Lemma update_mission_route_yields mid p : yields (update_mission_route mid p user) any.
Proof.
  unfold update_mission_route. eapply yields_bind; [apply mission_or_404_yields, user_ours|]. intros m (Ht & Hi & Hk).
  intros w Hw. apply wp_bind. eapply wp_mono; [apply resolve_project_link_spec| |by intros e w' ->]. intros ? w' [-> Hp].
  apply wp_bind, wp_asks. rewrite Hi. pose proof Hw as [H1 H2 H3].
  destruct p as [p|], (DB.mission_projects (w_db w) !! mid) as [l|]; apply then_respond.
  - apply wp_modify. constructor; simpl; [|done..]. destruct (Hp p eq_refl) as (pr & Hpr & Htp). by eapply relink_inv.
  - eapply wp_mono; [apply (insert_mission_project_yields scope d0); [apply user_ours| |done]|by intros ? ? [? _]|done].
    intros d m'. by apply link_fits.
  - apply wp_modify. constructor; simpl; [|done..]. by apply unlink_inv.
  - by apply wp_ret.
Qed.
Lemma announce_and_enqueue_yields mid r : yields (announce_and_enqueue mid user r) any.
Proof. unfold announce_and_enqueue. yields_auto. Qed.

Lemma start_mission_route_yields mid : yields (start_mission_route mid user) any.
Proof.
  unfold start_mission_route. eapply yields_bind; [apply mission_or_404_yields, user_ours|]. intros m (_ & _ & Hk).
  eapply yields_bind; [eauto with sound|]. intros _ _. eapply yields_bind.
  - apply yields_try; [by apply start_mission_yields|]. intros e k He. destruct e; simplify_eq. apply yields_raise.
  - intros r _. yields_auto. apply announce_and_enqueue_yields.
Qed.

Lemma cancel_mission_yields mid : yields (cancel_mission mid user) any.
Proof.
  unfold cancel_mission. eapply yields_bind; [apply mission_or_404_yields, user_ours|]. intros m (_ & Hi & Hk).
  rewrite <- Hi in Hk. yields_auto. apply transition_409_yields. eauto with sound.
Qed.

Lemma retry_task_yields tid : yields (retry_task tid user) any.
Proof.
  unfold retry_task. eapply yields_bind; [apply task_or_404_yields, user_ours|]. intros t [[Ht _] <-].
  yields_auto. apply transition_409_yields. eauto with sound.
Qed.

(** What the external routes load: a task of ours with its mission. *)
Lemma load_external_task_yields tid :
  yields (load_external_task tid (User.tenant_id user))
    (λ '(t, m, _, _), mine Tasks tid ∧ mine Missions (Mission.id m) ∧ Mission.tenant_id m = tn).
Proof.
  unfold load_external_task. eapply yields_bind; [apply task_or_404_yields, user_ours|]. intros t [[Ht Hm] <-].
  eapply yields_bind; [apply (loaded_yields scope d0 Missions)|]. intros [m|] Hl.
  - destruct (Hl m eq_refl) as (d & Hd & Hr). pose proof (mission_key scope d0 d _ _ Hd Hr) as Hi.
    assert (Mission.tenant_id m = tn) as Htn by exact (ours_eq _ (mission_tenant scope d0 d _ m Hd Hm Hr)).
    yields_auto. by rewrite Hi.
  - yields_auto.
Qed.

Lemma complete_task_external_yields tid text : yields (complete_task_external tid text user) any.
Proof.
  unfold complete_task_external, refreshed_task. eapply yields_bind; [apply load_external_task_yields|].
  intros [[[t m] a] v] (Ht & Hm & Htn). assert (ours scope (Mission.tenant_id m)) by (rewrite Htn; by intros ? [= <-]).
  yields_auto. apply transition_409_yields. yields_auto.
Qed.

Lemma fail_task_external_yields tid reason : yields (fail_task_external tid reason user) any.
Proof.
  unfold fail_task_external, refreshed_task. eapply yields_bind; [apply load_external_task_yields|].
  intros [[[t m] a] v] (Ht & Hm & Htn). yields_auto. apply transition_409_yields. yields_auto.
Qed.
(** ** Rooms and agents *)

(** Other sessions that leave other tenants alone as well. *)
Definition tame (rival : DB.t → DB.t) : Prop := ∀ d, inv d → inv (rival d).

Lemma get_assignment_yields ag :
  yields (get_assignment tn ag) (λ o, ∀ r, o = Some r → mine RoomAssignments (AgentRoomAssignment.id r)).
Proof.
  eapply yields_weaken; [apply (found_yields scope d0 RoomAssignments)|]. intros o Ho r Hr.
  destruct (Ho r Hr) as (Hp & k & Hl). destruct (loaded_ok scope d0 _ _ _ Hl) as (d & _ & Hi & _). rewrite Hi.
  apply (loaded_mine scope d0 _ _ _ Hl). intros d' ? [= <-]. simpl.
  unfold active_for, active_of in Hp. rewrite !andb_true_iff, !bool_decide_eq_true in Hp. tauto.
Qed.

Lemma ensure_assignment_yields rivals ag :
  (∀ n, tame (rivals n)) → yields (ensure_assignment rivals tn ag) any.
Proof.
  intros Hr. unfold ensure_assignment. apply yields_try; [|intros e k [= <-]; by apply yields_ret].
  induction MAX_ALLOCATION_ATTEMPTS as [|n IH]; simpl; [by apply yields_ret|].
  eapply yields_bind; [|intros []; [intros; by apply yields_ret|intros; exact IH]].
  instantiate (1 := any). unfold try_allocate.
  eapply yields_bind; [eapply yields_any, get_assignment_yields|]. intros [a|] _; [by apply yields_ret|].
  unfold list_assignments. eapply yields_bind; [eauto with sound|]. intros rows _.
  eapply yields_bind; [eauto with sound|]. intros room _. eapply yields_bind; [eauto with sound|]. intros i _.
  eapply yields_bind; [eauto with sound|]. intros now _. eapply yields_bind; [apply yields_interfere, Hr|]. intros _ _.
  apply yields_try.
  - eapply yields_bind; [apply yields_begin_nested, insert_room_yields; by intros ? [= <-]|]. intros; by apply yields_ret.
  - intros e k Hk. case_match; simplify_eq. yields_auto.
Qed.

Lemma release_assignment_yields ag : yields (release_assignment tn ag) any.
Proof.
  unfold release_assignment. apply yields_try; [|intros e k [= <-]; by apply yields_ret].
  eapply yields_bind; [apply get_assignment_yields|]. intros [a|] Ha; [|by apply yields_ret].
  specialize (Ha a eq_refl). yields_auto.
Qed.

Lemma try_room_yields {A} (m : M A) P : yields m P → yields (Agents.try_room_assignment m) any.
Proof.
  intros Hm. apply yields_try; [|intros e k [= <-]; by apply yields_ret].
  eapply yields_bind; [exact Hm|]. intros; by apply yields_ret.
Qed.

Lemma agent_or_404_yields ag :
  yields (Agents.agent_or_404 ag user) (λ a, Agent.id a = ag ∧ mine Agents ag).
Proof.
  eapply yields_weaken; [apply (tenant_scoped_yields scope d0 Schema.Agents); [intros d r Hr t; apply Hr|apply user_ours]|].
  intros a (_ & Hl & Hk). destruct (loaded_ok scope d0 _ _ _ Hl) as (d & _ & Hi & _). done.
Qed.

Lemma require_policy_yields p :
  yields (Agents.require_tenant_model_policy p (User.tenant_id user)) (λ _, mine ModelPolicies p).
Proof.
  unfold Agents.require_tenant_model_policy. eapply yields_bind.
  - apply (get_tenant_scoped_yields scope d0 ModelPolicies); [intros d r Hr t; apply Hr|apply user_ours].
  - intros [r|] Hr; [|apply yields_raise]. apply yields_ret, (Hr r eq_refl).
Qed.

Lemma our_policy_fits ag p : mine Agents ag → mine ModelPolicies p → policy_fits scope d0 ag p.
Proof.
  intros Ha Hp d a r Hd Har Hpr. transitivity tn.
  - exact (mine_now scope d0 ModelPolicies p r d tn Hd eq_refl Hp Hpr).
  - symmetry. exact (mine_now scope d0 Schema.Agents ag a d tn Hd eq_refl Ha Har).
Qed.

Lemma publish_agent_yields ty ag data : yields (Agents.publish_agent ty user ag data) any.
Proof. unfold Agents.publish_agent. eauto with sound. Qed.
Hint Resolve publish_agent_yields : sound.

(** A version and its activation, one after the other. *)
Lemma version_activated_yields {A} r f (k : M A) P :
  (∀ a, (Agent.id (f a), Agent.tenant_id (f a), Agent.agent_code (f a), Agent.active_version_id (f a)) =
        (Agent.id a, Agent.tenant_id a, Agent.agent_code a, Some (AgentVersion.id r))) →
  mine Agents (AgentVersion.agent_id r) → mine ModelPolicies (AgentVersion.model_policy_id r) → yields k P →
  yields (_ ← Agents.insert_agent_version r; _ ← modify_db (DB.upd_agents (alter f (AgentVersion.agent_id r))); k) P.
Proof.
  intros Hf Ha Hp Hk w Hw. apply wp_bind. eapply wp_mono; [apply (insert_agent_version_sound scope d0); [done| |done]| |done].
  - intros a p. apply our_policy_fits; [done..|]. apply Hw.
  - intros _ w' [Hw' Hv]. apply wp_bind, wp_modify, Hk. by eapply activate_sound.
Qed.

Context (dump_version : Agents.AgentVersionCreateRequest → string).

Lemma create_agent_yields rivals payload :
  (∀ n, tame (rivals n)) → yields (Agents.create_agent dump_version rivals payload user) any.
Proof.
  intros Hr. unfold Agents.create_agent. eapply yields_bind; [apply require_policy_yields|]. intros ? Hp.
  eapply yields_bind; [eauto with sound|]. intros i _. eapply yields_bind; [eauto with sound|]. intros now _.
  eapply yields_bind; [apply insert_agent_yields; [apply user_ours|done]|].
  intros ? Hi. eapply yields_bind; [eauto with sound|]. intros v _.
  apply (version_activated_yields (Agents.version_row dump_version v i 1 _ user now)); [done..|].
  yields_auto. rewrite Huser. eapply try_room_yields. by apply ensure_assignment_yields.
Qed.

Lemma create_agent_version_yields ag payload : yields (Agents.create_agent_version dump_version ag payload user) any.
Proof.
  unfold Agents.create_agent_version. eapply yields_bind; [apply agent_or_404_yields|]. intros a [Ha Hm].
  eapply yields_bind; [apply require_policy_yields|]. intros ? Hp. rewrite <- Ha in Hm. yields_auto.
  apply insert_agent_version_yields; [done|by apply our_policy_fits].
Qed.

Lemma activate_agent_yields rivals ag v :
  (∀ n, tame (rivals n)) → yields (Agents.activate_agent rivals ag v user) any.
Proof.
  intros Hr. unfold Agents.activate_agent. eapply yields_bind; [apply agent_or_404_yields|]. intros a [Ha Hm].
  intros w Hw. apply wp_bind, wp_asks. destruct (DB.agent_versions (w_db w) !! v) as [r|] eqn:Hv; [|by apply wp_raise].
  case_decide as Hne; [by apply wp_raise|].
  pose proof (ok_row _ (proj1 (sound_view _ _ _ Hw)) AgentVersions v r Hv) as [Hi _].
  apply wp_bind. unfold wp at 1, utc. set (now := utc_now _). set (w1 := set_utc_ticks _ w). assert (sound scope d0 w1) as Hw1 by (by destruct Hw).
  apply wp_bind, wp_modify.
  assert (sound scope d0 (set_db (DB.upd_agents (alter (Agents.activated (AgentVersion.id r) now) (Agent.id a)) (w_db w1)) w1)) as Hw'.
  { eapply (activate_sound scope d0); [done|by rewrite Ha|by rewrite Hi|done|done]. }
  revert Hw'. generalize (set_db (DB.upd_agents (alter (Agents.activated (AgentVersion.id r) now) (Agent.id a)) (w_db w1)) w1).
  match goal with |- ∀ w', _ → wp ?m w' _ _ => assert (yields m any) as Hy; [|exact Hy] end.
  yields_auto. rewrite Huser. eapply try_room_yields. by apply ensure_assignment_yields.
Qed.

Lemma suspend_agent_yields ag : yields (Agents.suspend_agent ag user) any.
Proof.
  unfold Agents.suspend_agent. eapply yields_bind; [apply agent_or_404_yields|]. intros a [Ha Hm].
  rewrite <- Ha in Hm. yields_auto; [by apply suspend_yields|]. rewrite Huser. eapply try_room_yields, release_assignment_yields.
Qed.

Lemma backfill_yields rivals l m :
  (∀ ag n, tame (rivals ag n)) → yields (backfill rivals tn l m) any.
Proof.
  intros Hr. revert m. induction l as [|ag l IH]; intros m; simpl; [by apply yields_ret|].
  destruct (m !! Agent.id ag); [apply IH|].
  eapply yields_bind; [by apply ensure_assignment_yields|]. intros b _. apply IH.
Qed.
Hint Resolve backfill_yields : sound.

Lemma list_agent_rooms_yields rivals :
  (∀ ag n, tame (rivals ag n)) → yields (list_agent_rooms rivals user) any.
Proof.
  intros Hr. unfold list_agent_rooms, list_assignments, latest_task_by_agent, project_id_by_mission, projects_summary.
  rewrite Huser. yields_auto.
Qed.
(** ** Projects, policies and external agents *)

Lemma create_project_yields limit rival payload : tame rival → yields (create_project limit rival payload user) any.
Proof.
  intros Hr. unfold create_project, publish_project. yields_auto.
  - by apply yields_interfere.
  - apply (yields_try _ _ _ _ any); [apply insert_project_yields, user_ours|]. intros e k Hk. case_match; simplify_eq.
    apply yields_raise.
Qed.

Lemma archive_project_yields limit p : yields (archive_project limit p user) any.
Proof.
  unfold archive_project, publish_project. eapply yields_bind; [eauto with sound|]. intros _ _. eapply yields_bind.
  - apply (tenant_scoped_yields scope d0 Schema.Projects); [intros d r Hr t; apply Hr|apply user_ours].
  - intros r (_ & Hl & Hk). destruct (loaded_ok scope d0 _ _ _ Hl) as (d & _ & Hi & _). rewrite <- Hi in Hk. yields_auto.
Qed.

Lemma create_model_policy_yields limit providers rival payload :
  tame rival → yields (create_model_policy limit providers rival payload user) any.
Proof.
  intros Hr. unfold create_model_policy. yields_auto. by apply yields_interfere.
Qed.

(** The upsert's update: the row found is replaced by one with the same key and name. *)
Lemma replace_status_inv d s s' :
  inv d → DB.external_agent_statuses d !! ExternalAgentStatus.id s = Some s → ExternalAgentStatus.tenant_id s = tn →
  ExternalAgentStatus.id s' = ExternalAgentStatus.id s → ExternalAgentStatus.tenant_id s' = tn →
  ExternalAgentStatus.name s' = ExternalAgentStatus.name s →
  inv (DB.upd_external_agent_statuses (alter (λ _, s') (ExternalAgentStatus.id s)) d).
Proof.
  intros Hd Hs Ht Hi' Ht' Hn'.
  apply (alter_inv scope d0 ExternalAgentStatuses (ExternalAgentStatus.id s) (λ _, s') d); [done| |].
  - constructor; simpl; [done|..]; intros r.
    + rewrite Hs. intros [= <-] [_ Hr]. split; [done|]. by rewrite Ht', <- Ht.
    + intros u. rewrite Hs. intros [= <-]. intuition congruence.
    + intros t. rewrite Hs. intros [= <-]. congruence.
  - apply (mine_loaded scope d0 ExternalAgentStatuses _ s d); [done..|]. by intros ? [= <-].
Qed.

Lemma set_external_agent_status_yields limit payload name :
  yields (set_external_agent_status limit payload name user) any.
Proof.
  unfold set_external_agent_status. eapply yields_bind; [eauto with sound|]. intros _ _.
  intros w Hw. apply wp_bind, wp_asks. apply wp_bind. pose proof Hw as [H1 H2 H3].
  destruct (select _ _) as [|s [|]] eqn:Hs; [|simpl|by apply wp_raise].
  - apply wp_ret. revert w Hw Hs H1 H2 H3. intros w Hw _ _ _ _. revert w Hw.
    match goal with |- ∀ w, _ → wp ?m w _ _ => assert (yields m any) as Hy; [|exact Hy] end. yields_auto.
  - assert (s ∈ select (status_of (User.tenant_id user) name) (DB.external_agent_statuses (w_db w))) as Hin
      by (rewrite Hs; by left).
    apply elem_of_select in Hin as [Hp [k Hk]]. unfold status_of in Hp.
    apply andb_true_iff in Hp as [Ht%bool_decide_eq_true Hn%bool_decide_eq_true].
    destruct (ok_row _ (proj1 H1) ExternalAgentStatuses k s Hk) as [Hi _]. simpl in Hi. subst k.
    apply wp_ret, wp_bind. unfold wp at 1, utc. apply wp_bind, wp_modify.
    match goal with |- wp ?m ?w' _ _ => assert (yields m any) as Hy by yields_auto; apply (Hy w') end.
    constructor; simpl; [|done..]. apply replace_status_inv; simpl; congruence.
Qed.
(** ** The agent-runtime API *)

Lemma our_session_fits r :
  AgentRuntimeSession.tenant_id r = tn →
  (∀ k, AgentRuntimeSession.mission_id r = Some k → mine Missions k) →
  (∀ k, AgentRuntimeSession.task_id r = Some k → mine Tasks k) →
  (∀ k, AgentRuntimeSession.parent_session_id r = Some k → mine RuntimeSessions k) →
  session_fits scope d0 r.
Proof.
  intros Ht Hm Htask Hp. constructor; rewrite Ht.
  - intros d k m Hd E Hr. exact (ours_eq _ (mission_tenant scope d0 d k m Hd (Hm k E) Hr)).
  - intros d k t m Hd E Hr Hmr.
    destruct (mine_now scope d0 Tasks k t d tn Hd eq_refl (Htask k E) Hr) as (m' & Hm' & E'). by simplify_eq.
  - intros d k p Hd E Hr. exact (mine_now scope d0 RuntimeSessions k p d tn Hd eq_refl (Hp k E) Hr).
Qed.

Lemma get_runtime_session_yields kind sref iref :
  yields (get_runtime_session tn kind sref iref) (λ o, ∀ s, o = Some s → our_session scope d0 s).
Proof.
  eapply yields_weaken; [apply (found_yields scope d0 RuntimeSessions)|]. intros o Ho s E.
  destruct (Ho s E) as (Hp & k & Hl). unfold session_matches in Hp. rewrite !andb_true_iff, !bool_decide_eq_true in Hp.
  refine (proj1 (loaded_session scope d0 k s Hl _)). apply (loaded_mine scope d0 _ _ _ Hl). intros d ? [= <-]. simpl. tauto.
Qed.

Lemma existing_or_raise_yields {A} kind sref iref e k (P : A → Prop) :
  existing_or_raise tn kind sref iref e = Some k →
  yields k (λ r, match r with inl _ => True | inr a => P a end).
Proof.
  unfold existing_or_raise. destruct (is_integrity_error e); [|done]. intros [= <-].
  eapply yields_bind; [eauto with sound|]. intros _ _. eapply yields_bind; [apply get_runtime_session_yields|].
  intros [s|] _; [by apply yields_ret|apply yields_raise].
Qed.

Lemma create_session_rows_yields ag ref : yields (create_session_rows user ag ref) any.
Proof.
  unfold create_session_rows. eapply yields_bind; [apply create_mission_yields, user_ours|]. intros m [Ht Hm].
  eapply yields_bind; [eauto with sound|]. intros _ _. eapply yields_bind; [by apply start_mission_yields|].
  intros r (_ & [Htask _] & _). yields_auto. apply insert_runtime_session_yields; [apply user_ours|].
  apply our_session_fits; simpl; [done|naive_solver..].
Qed.

Lemma register_session_row_yields race ref : tame race → yields (register_session_row race user ref) any.
Proof.
  intros Hr. unfold register_session_row, get_agent_by_code. rewrite Huser.
  eapply yields_bind; [apply get_runtime_session_yields|]. intros [s|] _; [by apply yields_ret|]. yields_auto.
  - by apply yields_interfere.
  - apply yields_try; [|intros e k; apply (existing_or_raise_yields _ _ _ _ _ any)].
    eapply yields_bind; [apply yields_begin_nested, create_session_rows_yields|]. intros x _. by apply yields_ret.
Qed.

Context (str_persona : PersonaDefinition → string).

Lemma claim_slot_yields rivals code :
  (∀ n, tame (rivals n)) →
  yields (claim_slot rivals tn code) any.
Proof.
  intros Hr. unfold claim_slot, occupied_persona_slots. eapply yields_bind; [eauto with sound|]. intros occupied _.
  revert occupied. induction MAX_CLAIM_ATTEMPTS as [|n IH]; intros occupied; simpl; [apply yields_raise|].
  destruct (free_slots occupied) as [|slot free]; [apply yields_raise|]. eapply yields_bind; [eauto with sound|]. intros i _.
  eapply yields_bind; [apply yields_interfere, Hr|]. intros _ _. eapply yields_bind.
  - apply (yields_try _ _ _ _ any).
    + eapply yields_bind; [apply yields_begin_nested, insert_persona_slot_yields; by intros ? [= <-]|].
      intros; by apply yields_ret.
    + intros e k Hk. case_match; simplify_eq. yields_auto.
  - intros [] _; [by apply yields_ret|]. unfold get_agent_by_code, occupied_persona_slots. yields_auto.
Qed.

Lemma resolve_policy_yields :
  yields (resolve_claude_code_external_policy tn) (λ p, mine ModelPolicies (ModelPolicy.id p)).
Proof.
  unfold resolve_claude_code_external_policy.
  eapply yields_bind; [apply (yields_asks_db scope d0 _ (Forall (λ p, mine ModelPolicies (ModelPolicy.id p))))|].
  - intros d Hd. apply Forall_forall. intros p [Hp [k Hk]]%elem_of_select.
    destruct (ok_row _ (proj1 Hd) ModelPolicies k p Hk) as [Hi _]. rewrite Hi.
    apply (mine_loaded scope d0 ModelPolicies k p d); [done..|]. intros ? [= <-]. simpl.
    by rewrite andb_true_iff, !bool_decide_eq_true in Hp; destruct Hp.
  - intros l Hl. eapply yields_bind; [apply (yields_scalar scope d0 l (λ p, mine ModelPolicies (ModelPolicy.id p)))|].
    + intros r ->. by inversion Hl.
    + intros [p|] Hp; [|apply yields_raise]. apply yields_ret. auto.
Qed.

Lemma ensure_persona_yields rivals p by_ :
  (∀ n, tame (rivals n)) → yields (ensure_persona str_persona rivals tn p by_) any.
Proof.
  intros Hr. unfold ensure_persona. eapply yields_bind; [apply (yields_any _ _ _ _ (found_yields scope d0 Schema.Agents _))|].
  intros [a|] _; [by apply yields_ret|].
  eapply yields_bind; [apply resolve_policy_yields|]. intros pol Hpol.
  eapply yields_bind; [by apply claim_slot_yields|]. intros [a|] _; [by apply yields_ret|].
  eapply yields_bind; [eauto with sound|]. intros i _. eapply yields_bind; [eauto with sound|]. intros now _.
  eapply yields_bind; [apply insert_agent_yields; [by intros ? [= <-]|done]|]. intros ? Hi.
  eapply yields_bind; [eauto with sound|]. intros v _.
  apply (version_activated_yields (AgentVersion.mk v i 1 _ _ _ _ _ _ _ _ _ _)); [done..|]. by apply yields_ret.
Qed.

Lemma create_subagent_rows_yields mid persona parent pref iref :
  mine Missions mid → mine RuntimeSessions parent → yields (create_subagent_rows tn mid persona parent pref iref) any.
Proof.
  intros Hm Hp. unfold create_subagent_rows. eapply yields_bind; [eauto with sound|]. intros t _.
  eapply yields_bind; [eauto with sound|]. intros created _.
  eapply yields_bind; [apply insert_task_yields; [done|by eexists]|]. intros ? Ht.
  yields_auto. apply insert_runtime_session_yields; [by intros ? [= <-]|].
  apply our_session_fits; simpl; [done|naive_solver..].
Qed.

Lemma register_subagent_row_yields rivals race ty iref pref :
  (∀ n, tame (rivals n)) → tame race → yields (register_subagent_row str_persona rivals race user ty iref pref) any.
Proof.
  intros Hr Hrace. unfold register_subagent_row. rewrite Huser.
  eapply yields_bind; [apply get_runtime_session_yields|]. intros [s|] _; [by apply yields_ret|].
  eapply yields_bind; [apply get_runtime_session_yields|]. intros [p|] Hp; [|apply yields_raise].
  destruct (Hp p eq_refl) as [Hpm Hpmis _]. destruct (AgentRuntimeSession.mission_id p) as [mid|]; [|apply yields_raise].
  specialize (Hpmis mid eq_refl). case_decide; [apply yields_raise|].
  eapply yields_bind; [by apply ensure_persona_yields|]. intros persona _. case_decide; [apply yields_raise|].
  eapply yields_bind; [by apply yields_interfere|]. intros _ _. eapply yields_bind.
  - apply yields_try; [|intros e k; apply (existing_or_raise_yields _ _ _ _ _ any)].
    eapply yields_bind; [by apply yields_begin_nested, create_subagent_rows_yields|]. intros x _. by apply yields_ret.
  - intros [s|[s t]] _; yields_auto.
Qed.
Lemma register_session_yields limit rivals race payload principal :
  pr_user principal = user → (∀ n, tame (rivals n)) → tame race →
  yields (register_session str_persona limit rivals race payload principal) any.
Proof.
  intros Hu Hr Hrace. unfold register_session. rewrite Hu. eapply yields_bind; [eauto with sound|]. intros _ _.
  destruct (sr_kind payload); [by apply register_session_row_yields|by apply register_subagent_row_yields].
Qed.

Lemma update_session_yields limit sid outcome principal :
  pr_user principal = user → yields (update_session limit sid outcome principal) any.
Proof.
  intros Hu. unfold update_session. rewrite Hu. eapply yields_bind; [eauto with sound|]. intros _ _. eapply yields_bind.
  - apply (tenant_scoped_yields scope d0 RuntimeSessions); [intros d r Hr t; apply Hr|apply user_ours].
  - intros s (_ & Hl & Hk). destruct (loaded_session scope d0 sid s Hl Hk) as [[Hs _ _] _]. yields_auto.
Qed.

Lemma close_subagent_by_yields limit key payload principal :
  pr_user principal = user → yields (close_subagent_by limit key payload principal) any.
Proof.
  intros Hu. unfold close_subagent_by, resolve_subagent_for_close, close_subagent. rewrite Hu. yields_auto.
Qed.
End tenant_routes.

(** ** All writing requests *)

Inductive write_request :=
| WCreateMission (payload : MissionCreateRequest)
| WUpdateMission (mission_id : EntityId) (project_id : option EntityId)
| WStartMission (mission_id : EntityId)
| WCancelMission (mission_id : EntityId)
| WRetryTask (task_id : EntityId)
| WCompleteTask (task_id : EntityId) (output : string)
| WFailTask (task_id : EntityId) (reason : string)
| WCreateAgent (payload : Agents.AgentCreateRequest)
| WCreateVersion (agent_id : EntityId) (payload : Agents.AgentVersionCreateRequest)
| WActivateAgent (agent_id version_id : EntityId)
| WSuspendAgent (agent_id : EntityId)
| WCreateProject (payload : ProjectCreateRequest)
| WArchiveProject (project_id : EntityId)
| WCreatePolicy (payload : ModelPolicyCreateRequest)
| WSetExternalStatus (payload : ExternalAgentStatusUpdate) (name : string)
| WAgentRooms
| WRegisterSession (key_id : EntityId) (payload : AgentRuntimeSessionCreateRequest)
| WUpdateSession (key_id session_id : EntityId) (outcome : option AgentRuntimeOutcome.t)
| WCloseSubagent (key_id : EntityId) (key : EntityId + string) (payload : AgentRuntimeCloseRequest).

Section writes.
Context `{Env} (dump_version : Agents.AgentVersionCreateRequest → string) (str_persona : PersonaDefinition → string).
(** The rate limiter's verdict on the request, and the providers of the deployment. *)
Context (limit : outcome exn unit) (providers : gset string).

(** The routes that write, each behind its own path and its role check, with the body of
    their response. [GET /agent-rooms] writes as well: it assigns the rooms that are missing. *)
Definition perform (q : write_request) (user : User.t) : M body :=
  let reply {A} (c : A → body) (m : M A) : M body := a ← m; mret (c a) in
  let mission := reply (λ m, BMission (mission_body m)) in
  let task := reply (λ t, BTask (task_response t)) in
  let agent := reply (λ a, BAgent (agent_response a)) in
  let project := reply (λ p, BProject (project_response p)) in
  let session := reply (λ s, BSession (session_response s)) in
  let alone (_ : nat) (d : DB.t) := d in
  match q with
  | WCreateMission payload => mission (create_mission_route payload user)
  | WUpdateMission m p => mission (update_mission_route m p user)
  | WStartMission m => mission (start_mission_route m user)
  | WCancelMission m => mission (cancel_mission m user)
  | WRetryTask t => task (retry_task t user)
  | WCompleteTask t output => task (complete_task_external t output user)
  | WFailTask t reason => task (fail_task_external t reason user)
  | WCreateAgent payload => agent (Agents.create_agent dump_version alone payload user)
  | WCreateVersion a payload =>
      reply (λ v, BVersion (agent_version_response v)) (Agents.create_agent_version dump_version a payload user)
  | WActivateAgent a v => agent (Agents.activate_agent alone a v user)
  | WSuspendAgent a => agent (Agents.suspend_agent a user)
  | WCreateProject payload => project (create_project limit id payload user)
  | WArchiveProject p => project (archive_project limit p user)
  | WCreatePolicy payload =>
      reply (λ p, BPolicy (model_policy_response p)) (create_model_policy limit providers id payload user)
  | WSetExternalStatus payload name =>
      reply (λ s, BExternalAgent (external_agent_status_out s)) (set_external_agent_status limit payload name user)
  | WAgentRooms => reply BRooms (list_agent_rooms (λ _, alone) user)
  | WRegisterSession k payload => session (register_session str_persona limit alone id payload (mkPrincipal user k))
  | WUpdateSession k s outcome => session (update_session limit s outcome (mkPrincipal user k))
  | WCloseSubagent k key payload =>
      closure ← close_subagent_by limit key payload (mkPrincipal user k);
      response ← lift (closure_response closure);
      mret (BClosure response)
  end.

Lemma perform_yields d0 q user : yields (Some (User.tenant_id user)) d0 (perform q user) any.
Proof.
  assert (∀ n : nat, tame (User.tenant_id user) d0 ((λ _ d, d) n)) as Hid by by intros n d.
  assert (tame (User.tenant_id user) d0 id) as Hid' by by intros d.
  destruct q; simpl; (eapply yields_bind; [|intros; first [by apply yields_ret|
    eapply yields_bind; [apply yields_lift_any|intros; by apply yields_ret]]]).
  - by apply create_mission_route_yields.
  - by apply update_mission_route_yields.
  - by apply start_mission_route_yields.
  - by apply cancel_mission_yields.
  - by apply retry_task_yields.
  - by apply complete_task_external_yields.
  - by apply fail_task_external_yields.
  - by apply create_agent_yields.
  - by apply create_agent_version_yields.
  - by apply activate_agent_yields.
  - by apply suspend_agent_yields.
  - by apply create_project_yields.
  - by apply archive_project_yields.
  - by apply create_model_policy_yields.
  - by apply set_external_agent_status_yields.
  - by apply list_agent_rooms_yields.
  - by eapply register_session_yields.
  - by eapply update_session_yields.
  - by eapply close_subagent_by_yields.
Qed.

(** A world whose committed database, now and at every durable point before, satisfies the
    schema. *)
Record platform_ok (w : World) : Prop := {
  po_committed : db_ok (w_committed w);
  po_history : Forall (λ e, db_ok e.1) (w_durable_log w);
}.

Lemma sound_platform_ok scope d0 w : sound scope d0 w → platform_ok w.
Proof. intros [_ [H2 _] H3]. by constructor. Qed.

Lemma sound_unscoped scope d0 w : sound scope d0 w → sound None DB.empty w.
Proof. intros [[H1 _] [H2 _] H3]. by constructor. Qed.

Lemma confined_refl tn d : confined tn d d.
Proof. split; [by left|]. exists []. by rewrite app_nil_r. Qed.

(** A request keeps to its tenant and to the schema. *)
Lemma request_sound q user w :
  platform_ok w →
  sound (Some (User.tenant_id user)) (w_committed w) (exec (request (perform q user)) w).
Proof.
  intros [Hok Hlog]. set (tn := User.tenant_id user).
  assert (sound (Some tn) (w_committed w) (set_db (w_committed w) w)) as Hw.
  { assert (inv (Some tn) (w_committed w) (w_committed w)) by (split; [done|split; [done|apply confined_refl]]).
    by constructor. }
  exact (yields_exec _ _ _ any _ (yields_request _ _ _ any (perform_yields (w_committed w) q user)) Hw).
Qed.

(** No request writes across tenants. Whatever a user asks of any of the API's writing
    routes, and however it ends, the committed database afterwards differs from the one
    before only in rows that belonged to the user's own tenant and still do, or are new rows
    of that tenant, and in audit events of that tenant that were appended: users, credentials,
    charges and checkpoints are untouched, and so is every row of another tenant. The schema
    holds again, at every durable point. *)
Theorem writes_stay_in_tenant q user w :
  platform_ok w →
  let w' := exec (request (perform q user)) w in
  confined (User.tenant_id user) (w_committed w) (w_committed w') ∧ platform_ok w'.
Proof. intros Hw w'. by destruct (request_sound q user w Hw) as [_ [Hok [_ Hc]] Hlog]. Qed.
End writes.

(** ** An instance *)

Lemma sample_platform_ok : platform_ok sample_world.
Proof. split; [apply sample_db_ok|]. by apply Forall_nil. Qed.

(** The operator of the sample tenant cancels the running mission: the request commits the
    cancellation, and the theorem applies to it. *)
Lemma writes_stay_in_tenant_witness :
  let user := User.mk 2 1 "op@acme.test" "Op" UserRole.operator UserStatus.active "hash" in
  let w' := exec (request (perform (H := sample_env) (λ _, "{}") (λ _, "{}") (Ret ()) ∅
                     (WCancelMission 6) user)) sample_world in
  Mission.status <$> DB.missions (w_committed w') !! 6%positive = Some MissionStatus.cancelled ∧
  confined 1 sample_db (w_committed w') ∧ platform_ok w'.
Proof.
  intros user. split; [vm_compute; reflexivity|].
  exact (writes_stay_in_tenant (H := sample_env) _ _ _ _ (WCancelMission 6) user sample_world sample_platform_ok).
Defined.
