(* ===== verification/App.v ===== *)
(** * The HTTP application
    (services/api/routes/__init__.py and the dependencies of every route)

    One request from its bearer token to its reply: the dependencies of the router and of the
    route decide who the caller is and whether they may pass, then the handler runs in the
    request's session. *)

From S2P Require Import Prelude Enums Contracts Breaker Telemetry Budgets Database Scenario Transitions Missions Api.
From S2P Require Import Gateway Config Auth Ledger Checkpoints Adapter Artifacts Executor Recovery RateLimit.
From S2P Require Import Rooms Routes Projects RoomsView Closure Personas AgentRuntime Reads Responses Scripts Demo Schema Integrity Isolation.
From S2P Require Agents.
Local Open Scope Z_scope.

(** ** Routers *)

Inductive router :=
| health | auth | agent_runtime | tenant | agents | agent_rooms | model_policies | missions
| projects | tasks | artifacts | audit | dashboard | model_invocations | external_agents.

#[global] Instance router_eq_dec : EqDecision router.
Proof. solve_decision. Defined.

(** [api_router]: the routers in the order they are included, and whether with
    [dependencies=_DENY_AGENT_RUNTIME]. *)
Definition api_router : list (router * bool) :=
  [(health, false); (auth, false); (agent_runtime, false);
   (tenant, true); (agents, true); (agent_rooms, true); (model_policies, true); (missions, true);
   (projects, true); (tasks, true); (artifacts, true); (audit, true); (dashboard, true);
   (model_invocations, true); (external_agents, true)].

(** Whether a router refuses the hook credential. *)
Definition denies (r : router) : bool :=
  match List.find (λ p, bool_decide (p.1 = r)) api_router with Some p => p.2 | None => false end.

(** ** Endpoints *)

Inductive endpoint :=
| Live | Ready (database_ok redis_ok : bool)
| Login (username password : string) | Me
| Read (q : read_request) | Write (q : write_request).

(** The router that declares a route. *)
Definition router_of (e : endpoint) : router :=
  match e with
  | Live | Ready _ _ => health
  | Login _ _ | Me => auth
  | Read q =>
      match q with
      | RListMissions | RGetMission _ => missions
      | RListTasks _ | RGetTask _ => tasks
      | RTimeline _ | RAuditEvents _ | RHookLoss _ _ => audit
      | RListArtifacts _ | RGetArtifact _ | RDownload _ => artifacts
      | RInvocations _ => model_invocations
      | RDashboard => dashboard
      | RTenant => tenant
      | RListAgents | RGetAgent _ => agents
      | RListProjects => projects
      | RListPolicies => model_policies
      | RListExternalAgents => external_agents
      end
  | Write q =>
      match q with
      | WCreateMission _ | WUpdateMission _ _ | WStartMission _ | WCancelMission _ => missions
      | WRetryTask _ | WCompleteTask _ _ | WFailTask _ _ => tasks
      | WCreateAgent _ | WCreateVersion _ _ | WActivateAgent _ _ | WSuspendAgent _ => agents
      | WCreateProject _ | WArchiveProject _ => projects
      | WCreatePolicy _ => model_policies
      | WSetExternalStatus _ _ => external_agents
      | WAgentRooms => agent_rooms
      | WRegisterSession _ _ | WUpdateSession _ _ _ | WCloseSubagent _ _ _ => agent_runtime
      end
  end.

(** What a route depends on: nothing, [get_current_user], [require_role(...)] or
    [get_agent_runtime_principal]. *)
Inductive guard := Open | AnyUser | Roles (allowed : list UserRole.t) | Hook.

(** The [MUTATORS] of model_policies.py. *)
Definition POLICY_MUTATORS : list UserRole.t := [UserRole.platform_admin; UserRole.tenant_admin].

Definition guard_of (e : endpoint) : guard :=
  match e with
  | Live | Ready _ _ | Login _ _ => Open
  | Me => AnyUser
  | Read (RAuditEvents _ | RHookLoss _ _) => Roles AUDIT_READERS
  | Read _ => AnyUser
  | Write (WRegisterSession _ _ | WUpdateSession _ _ _ | WCloseSubagent _ _ _) => Hook
  | Write WAgentRooms => AnyUser
  | Write (WCreatePolicy _) => Roles POLICY_MUTATORS
  | Write _ => Roles MUTATORS
  end.

(** A hook request is made with the key it was authenticated with. *)
Definition with_key (key_id : EntityId) (q : write_request) : write_request :=
  match q with
  | WRegisterSession _ payload => WRegisterSession key_id payload
  | WUpdateSession _ s outcome => WUpdateSession key_id s outcome
  | WCloseSubagent _ key payload => WCloseSubagent key_id key payload
  | q => q
  end.

Inductive reply :=
| Status (s : string) | Checks (c : string * (string * string)) | Token (t : TokenResponse)
| CurrentUser (u : CurrentUserResponse) | Body (b : body).

Definition not_authenticated : exn := HTTPException 401 "Not authenticated".

Section app.
Context `{Env} (settings : Settings).
Context (hashpw : string → string → string) (checkpw : string → string → outcome exn bool).
Context (jwt_encode : Payload → string → string → string) (jwt_decode : Z → string → string → string → option Payload).
Context (str_id : EntityId → string) (parse_id : string → option EntityId) (parse_uuid : string → option EntityId).
Context (import_salt : string) (presign : string → string).
Context (dump_version : Agents.AgentVersionCreateRequest → string) (str_persona : PersonaDefinition → string).
Context (limit : outcome exn unit) (providers : gset string).

(** [OAuth2PasswordBearer] and the decoding of the token. *)
Definition subject (bearer : option string) : M (option EntityId) :=
  match bearer with
  | None => raise not_authenticated
  | Some token => token_subject jwt_decode parse_id settings token
  end.

(** The dependencies of a route that wants a user: the router's, then its own. *)
Definition admitted (e : endpoint) (allowed : option (list UserRole.t)) (bearer : option string) : M User.t :=
  sub ← subject bearer;
  _ ← when (denies (router_of e)) (_ ← forbid_agent_runtime sub; mret tt);
  match allowed with
  | None => get_current_user sub
  | Some roles => require_role roles sub
  end.

(** What the caller has to get past, and who they are: the user, with the key of a hook. *)
Definition caller (e : endpoint) (bearer : option string) : M (option (User.t * option EntityId)) :=
  match guard_of e with
  | Open => mret None
  | AnyUser => u ← admitted e None bearer; mret (Some (u, None))
  | Roles allowed => u ← admitted e (Some allowed) bearer; mret (Some (u, None))
  | Hook => p ← get_agent_runtime_principal parse_uuid bearer; mret (Some (pr_user p, Some (pr_key_id p)))
  end.

Definition user_response (u : User.t) : CurrentUserResponse :=
  mkCurrentUser (User.id u) (User.tenant_id u) (User.email u) (User.display_name u) (value (User.role u)).

(** The handler of the route. *)
Definition handle (e : endpoint) (who : option (User.t * option EntityId)) : M reply :=
  match e, who with
  | Live, _ => mret (Status "live")
  | Ready database_ok redis_ok, _ => mret (Checks (ready database_ok redis_ok))
  | Login username password, _ =>
      t ← login hashpw checkpw jwt_encode str_id import_salt settings username password;
      mret (Token t)
  | Me, Some (u, _) => mret (CurrentUser (user_response u))
  | Read q, Some (u, _) => a ← serve presign settings q u; mret (Body (respond a))
  | Write q, Some (u, key) =>
      b ← perform dump_version str_persona limit providers (match key with Some k => with_key k q | None => q end) u;
      mret (Body b)
  | _, None => raise (TypeError "user")
  end.

(** A request: the dependencies and the handler share the session of [get_db_session]; the
    probes open none. *)
Definition answer_request (e : endpoint) (bearer : option string) : M reply :=
  match e with
  | Live | Ready _ _ => handle e None
  | e => request (who ← caller e bearer; handle e who)
  end.

(** ** Who is let in *)

(** The user a token stands for: the subject it verifies to, an active row of the database. *)
Definition token_user (bearer : option string) (u : User.t) (w : World) : Prop :=
  ∃ token payload sub, bearer = Some token ∧
    jwt_decode (utc_now (w_utc_ticks w)) token (secret_key settings) (jwt_algorithm settings) = Some payload ∧
    pl_sub payload ≫= parse_id = Some sub ∧
    DB.users (w_committed w) !! sub = Some u ∧ User.status u = UserStatus.active.

(** The service user a hook key stands for, with a tenant that is active. *)
Definition key_user (bearer : option string) (u : User.t) (key_id : EntityId) (w : World) : Prop :=
  ∃ token secret k t, bearer = Some token ∧ parse_key parse_uuid token = Some (key_id, secret) ∧
    DB.api_keys (w_committed w) !! key_id = Some k ∧ AgentRuntimeApiKey.key_hash k = sha256_hex secret ∧
    AgentRuntimeApiKey.revoked_at k = None ∧
    (∀ x, AgentRuntimeApiKey.expires_at k = Some x → utc_now (w_utc_ticks w) < x) ∧
    DB.users (w_committed w) !! AgentRuntimeApiKey.user_id k = Some u ∧
    User.status u = UserStatus.active ∧ User.role u = UserRole.agent_runtime ∧
    DB.tenants (w_committed w) !! User.tenant_id u = Some t ∧ Tenant.status t = TenantStatus.active.

Definition granted (e : endpoint) (bearer : option string) (who : option (User.t * option EntityId)) (w : World) : Prop :=
  match guard_of e, who with
  | Open, None => True
  | AnyUser, Some (u, None) =>
      token_user bearer u w ∧ (e ≠ Me → User.role u ≠ UserRole.agent_runtime)
  | Roles allowed, Some (u, None) =>
      token_user bearer u w ∧ User.role u ∈ allowed ∧ User.role u ≠ UserRole.agent_runtime
  | Hook, Some (u, Some k) => key_user bearer u k w
  | _, _ => False
  end.

(** ** Lemmas *)

(** The databases of a request that has not written anything. *)
Definition idle (w w' : World) : Prop := databases w' = databases w.

Lemma get_current_user_spec sub w Q (R : exn → World → Prop) :
  (∀ i u, sub = Some i → DB.users (w_db w) !! i = Some u → User.status u = UserStatus.active → Q u w) →
  (∀ e, R e w) → wp (get_current_user sub) w Q R.
Proof.
  intros HQ HR. destruct sub as [i|]; [|apply HR]. apply wp_bind, wp_asks.
  destruct (DB.users (w_db w) !! i) as [u|] eqn:Hu; [|apply HR]. case_decide as Hs; [apply HR|].
  apply wp_ret. by eapply HQ.
Qed.

Lemma subject_spec bearer w Q (R : exn → World → Prop) :
  (∀ token, bearer = Some token → Q
     (payload ← jwt_decode (utc_now (w_utc_ticks w)) token (secret_key settings) (jwt_algorithm settings);
      sub ← pl_sub payload; parse_id sub) (set_utc_ticks (S (w_utc_ticks w)) w)) →
  (∀ e, R e w) → wp (subject bearer) w Q R.
Proof. intros HQ HR. destruct bearer as [token|]; [|apply HR]. by apply (HQ token). Qed.

(** What [admitted] has checked of the user it returns. *)
Definition entitled (e : endpoint) (allowed : option (list UserRole.t)) (bearer : option string) (w : World) (u : User.t) : Prop :=
  token_user bearer u w ∧ (denies (router_of e) = true → User.role u ≠ UserRole.agent_runtime) ∧
  match allowed with Some roles => User.role u ∈ roles | None => True end.

(** The route's own dependency, on a user of whom [P] is known. *)
Lemma own_dependency_spec allowed sub w (P : User.t → Prop) :
  (∀ i u, sub = Some i → DB.users (w_db w) !! i = Some u → User.status u = UserStatus.active → P u) →
  wp (match allowed with None => get_current_user sub | Some roles => require_role roles sub end) w
    (λ u w', w' = w ∧ P u ∧ match allowed with Some roles => User.role u ∈ roles | None => True end) (λ _ w', w' = w).
Proof.
  intros HP. destruct allowed as [roles|].
  - apply wp_bind, get_current_user_spec; [|done]. intros i u Hs Hiu Ha. case_decide as Hr; [done|].
    apply wp_ret. split_and!; eauto.
  - apply get_current_user_spec; [|done]. intros i u Hs Hiu Ha. split_and!; eauto.
Qed.

Lemma admitted_spec e allowed bearer w :
  w_db w = w_committed w →
  wp (admitted e allowed bearer) w (λ u w', idle w w' ∧ entitled e allowed bearer w u) (λ _, idle w).
Proof.
  intros Hw. unfold admitted. apply wp_bind, subject_spec; [|done]. intros token Ht.
  set (sub := jwt_decode _ _ _ _ ≫= _). set (w1 := set_utc_ticks _ w).
  assert (∀ i u, sub = Some i → DB.users (w_db w1) !! i = Some u → User.status u = UserStatus.active →
    token_user bearer u w) as Hu.
  { intros i u Hs Hiu Ha. unfold sub in Hs. destruct (jwt_decode _ _ _ _) as [payload|] eqn:Hd; [|done].
    exists token, payload, i. split_and!; try done. by rewrite <- Hw. }
  apply wp_bind, wp_when. destruct (denies (router_of e)) eqn:Hd.
  - apply wp_bind, wp_bind, get_current_user_spec; [|done]. intros i u Hs Hiu Ha. case_decide as Hr; [done|].
    apply wp_ret, wp_ret. eapply wp_mono; [apply (own_dependency_spec allowed sub w1 (λ u', u' = u ∧ token_user bearer u' w))| |].
    + intros i' u' Hs' Hiu' Ha'. split; [congruence|eauto].
    + intros u' w' (-> & [-> Htu] & Hall). split; [done|]. by split_and!.
    + by intros err w' ->.
  - eapply wp_mono; [apply (own_dependency_spec allowed sub w1 (λ u', token_user bearer u' w))| |]; [done| |].
    + intros u' w' (-> & Htu & Hall). split; [done|]. split_and!; [done| |done]. by rewrite Hd.
    + by intros err w' ->.
Qed.

Lemma principal_spec bearer w :
  w_db w = w_committed w →
  wp (get_agent_runtime_principal parse_uuid bearer) w
    (λ p w', idle w w' ∧ key_user bearer (pr_user p) (pr_key_id p) w) (λ _, idle w).
Proof.
  intros Hw. unfold get_agent_runtime_principal. destruct (bearer ≫= _) as [[key_id secret]|] eqn:Hb; [|done].
  destruct bearer as [token|]; [|done]. apply wp_bind, wp_asks. rewrite Hw.
  destruct (DB.api_keys (w_committed w) !! key_id) as [k|] eqn:Hk; [|done]. case_decide as Hh; [done|].
  apply wp_bind. unfold wp at 1. cbn [utc]. set (w1 := set_utc_ticks _ w). case_decide as Hr; [done|].
  destruct (match AgentRuntimeApiKey.expires_at k with Some _ => _ | None => _ end) eqn:Hx; [done|].
  apply wp_bind, wp_asks. cbn [w_db set_utc_ticks w1]. rewrite Hw.
  destruct (DB.users (w_committed w) !! AgentRuntimeApiKey.user_id k) as [u|] eqn:Hu; [|done]. case_decide as Ha; [done|].
  apply wp_bind, wp_asks. cbn [w_db set_utc_ticks w1]. rewrite Hw.
  destruct (DB.tenants (w_committed w) !! User.tenant_id u) as [t|] eqn:Ht; [|done]. case_decide as Hst; [done|].
  apply wp_ret. split; [done|]. apply Decidable.not_or in Ha as [Ha1%dec_stable Ha2%dec_stable].
  exists token, secret, k, t. split_and!; try done. intros x Ex. rewrite Ex in Hx. by apply Z.leb_gt.
Qed.

Lemma caller_spec e bearer w :
  w_db w = w_committed w →
  wp (caller e bearer) w (λ who w', idle w w' ∧ granted e bearer who w) (λ _, idle w).
Proof.
  intros Hw. unfold caller, granted. destruct (guard_of e) as [| |allowed|] eqn:Hg.
  - by apply wp_ret.
  - apply wp_bind. eapply wp_mono; [by apply admitted_spec| |done]. intros u w' [Hi (Htu & Hd & _)]. apply wp_ret.
    split_and!; [done..|]. intros Hme. apply Hd. clear -Hg Hme. destruct e as [| | | |q|q]; try done; by destruct q.
  - apply wp_bind. eapply wp_mono; [by apply admitted_spec| |done]. intros u w' [Hi (Htu & Hd & Hr)]. apply wp_ret.
    split_and!; [done..|]. apply Hd. clear -Hg. destruct e as [| | | |q|q]; try done; by destruct q.
  - apply wp_bind. eapply wp_mono; [by apply principal_spec| |done]. intros p w' [Hi Hk]. by apply wp_ret.
Qed.

(** Reading and logging in write nothing. *)
Lemma serve_still q u : tracks (same databases) (serve presign settings q u).
Proof.
  destruct q; unfold serve, answering, list_missions, get_mission, list_tasks_for_mission, get_task, mission_timeline,
    list_audit_events, agent_runtime_hook_loss_rate, list_mission_artifacts, get_artifact, download_artifact,
    list_mission_model_invocations, dashboard_summary, get_current_tenant, Agents.list_agents, Agents.get_agent, list_projects,
    list_model_policies, list_external_agent_statuses, artifact_or_404, Agents.agent_or_404, compute_hook_loss_rate, mission_or_404, task_or_404, tenant_scoped_or_404,
    get_tenant_scoped, runtime_missions, project_ids_for_missions, mission_response, is_agent_runtime_mission, count_missions;
    tracks_auto.
Qed.

Lemma login_still username password :
  tracks (same databases) (login hashpw checkpw jwt_encode str_id import_salt settings username password).
Proof. unfold login, create_access_token, scalar_one_or_none. tracks_auto. Qed.

(** A request that writes nothing commits what was committed. *)
Definition pinned (c : DB.t) (w : World) : Prop := w_db w = c ∧ w_committed w = c.

Lemma still_pinned {A} (m : M A) c : tracks (same databases) m → tracks (pres (pinned c)) m.
Proof.
  intros Hm w [H1 H2]. specialize (Hm w). unfold same, databases in Hm. injection Hm as E1 E2 _. split; congruence.
Qed.

Lemma commit_pinned c : tracks (pres (pinned c)) commit.
Proof. intros w [H1 H2]. unfold exec, commit. by destruct (commit_ok _). Qed.

Lemma handle_still e who : (∀ q, e ≠ Write q) → tracks (same databases) (handle e who).
Proof.
  intros He. unfold handle. destruct e, who as [[u key]|]; try apply tracks_ret, _; try apply tracks_raise, _;
    try (apply tracks_bind; [apply _|apply login_still|intros; apply tracks_ret, _]);
    try (apply tracks_bind; [apply _|apply serve_still|intros; apply tracks_ret, _]); by destruct (He q).
Qed.

(** The rest of a request, from the handler to the end of its session. *)
Definition rest (e : endpoint) (who : option (User.t * option EntityId)) : M reply :=
  r ← handle e who; _ ← commit; mret r.

Lemma rest_idle e who c w : (∀ q, e ≠ Write q) → pinned c w → pinned c (exec (rest e who) w).
Proof.
  intros He. assert (tracks (pres (pinned c)) (rest e who)) as Ht; [|apply Ht].
  apply tracks_bind; [apply _|by apply still_pinned, handle_still|]. intros r.
  apply tracks_bind; [apply _|apply commit_pinned|]. intros; apply tracks_ret, _.
Qed.

(** Whatever the endpoint, the rest of its request keeps the invariant for the caller's tenant. *)
Lemma rest_sound d0 e who tn w :
  (∀ u key, who = Some (u, key) → User.tenant_id u = tn) →
  sound (Some tn) d0 w → sound (Some tn) d0 (exec (rest e who) w).
Proof.
  intros Htn. apply (yields_exec _ _ _ any). eapply yields_bind; [|intros r _; eapply yields_bind; [apply yields_commit|intros; by apply yields_ret]].
  assert (yields (Some tn) d0 (handle e who) any ∨ ∃ q, e = Write q) as [Hy|[q ->]]; [|done|].
  - destruct e; [left; apply yields_still, handle_still; done..|right; by eexists].
  - destruct who as [[u key]|]; [|apply yields_raise]. simpl. rewrite <- (Htn u key eq_refl).
    eapply yields_bind; [apply perform_yields|]. intros; by apply yields_ret.
Qed.

(** A request that opened its session and got past its dependencies, or did not. *)
Lemma request_cases e bearer w :
  let r := request (who ← caller e bearer; handle e who) w in
  (∃ err, r.1 = Raise err) ∧ idle (set_db (w_committed w) w) r.2 ∨
  ∃ who w1, granted e bearer who w ∧ idle (set_db (w_committed w) w) w1 ∧
    (r.2 = exec (rest e who) w1 ∨ r.2 = set_db (w_committed (exec (rest e who) w1)) (exec (rest e who) w1)).
Proof.
  set (w0 := set_db (w_committed w) w). assert (w_db w0 = w_committed w0) as Hw0 by done.
  pose proof (caller_spec e bearer w0 Hw0) as Hc. unfold wp in Hc. unfold request. fold w0.
  assert ((r ← (who ← caller e bearer; handle e who); _ ← commit; mret r) w0 =
          (who ← caller e bearer; rest e who) w0) as ->.
  { unfold rest, mbind, ST_bind. by destruct (caller e bearer w0) as [[]]. }
  unfold mbind at 1, ST_bind at 1. unfold mbind, ST_bind. destruct (caller e bearer w0) as [[who|err] w1].
  - right. exists who, w1. destruct Hc as [Hi Hg]. split; [exact Hg|]. split; [done|]. unfold exec.
    destruct (rest e who w1) as [[r|err] w2]; [by left|by right].
  - left. split; [by exists err|]. simpl. unfold idle, databases in *. injection Hc as E1 E2 E3. simpl in *. by rewrite E2, E3.
Qed.

(** The invariant of a request that has not written anything yet. *)
Lemma idle_sound scope w w1 :
  platform_ok w → idle (set_db (w_committed w) w) w1 → sound scope (w_committed w) w1.
Proof.
  intros [Hok Hlog] Hi. unfold idle, databases in Hi. injection Hi as E1 E2 E3. simpl in *.
  assert (inv scope (w_committed w) (w_committed w)) as Hinv.
  { split; [done|]. destruct scope as [tn|]; [|done]. split; [done|apply confined_refl]. }
  constructor; rewrite ?E1, ?E2, ?E3; done.
Qed.

Lemma closing_sound scope d0 w : sound scope d0 w → sound scope d0 (set_db (w_committed w) w).
Proof. intros [H1 H2 H3]. by constructor. Qed.

(** A request that has been let in, with its caller's tenant as the scope. *)
Lemma let_in_sound e who w w1 r :
  platform_ok w → idle (set_db (w_committed w) w) w1 →
  (r = exec (rest e who) w1 ∨ r = set_db (w_committed (exec (rest e who) w1)) (exec (rest e who) w1)) →
  sound (Some match who with Some (u, _) => User.tenant_id u | None => 1%positive end) (w_committed w) r.
Proof.
  intros Hw Hi Hend. set (tn := match who with Some (u, _) => User.tenant_id u | None => 1%positive end).
  assert (sound (Some tn) (w_committed w) (exec (rest e who) w1)) as Hs.
  { apply rest_sound; [|by apply idle_sound]. by intros u key ->. }
  destruct Hend as [->| ->]; [done|by apply closing_sound].
Qed.

(** Every request keeps the schema. *)
Lemma answer_request_sound e bearer w :
  sound None DB.empty w → sound None DB.empty (exec (answer_request e bearer) w).
Proof.
  intros Hs. pose proof (sound_platform_ok _ _ _ Hs) as Hw.
  assert (exec (answer_request e bearer) w = w ∨
          exec (answer_request e bearer) w = (request (who ← caller e bearer; handle e who) w).2) as [->| ->] by (destruct e; auto).
  { done. }
  destruct (request_cases e bearer w) as [[_ Hi]|(who & w1 & _ & Hi & Hend)].
  - eapply sound_unscoped, (idle_sound None w); done.
  - by eapply sound_unscoped, let_in_sound.
Qed.

(** What one request may do to the database. *)
Definition lawful (e : endpoint) (bearer : option string) (w : World) (out : outcome exn reply) (w' : World) : Prop :=
  (∃ err, out = Raise err) ∧ w_committed w' = w_committed w ∨
  ∃ who, granted e bearer who w ∧
    match e, who with
    | Write _, Some (u, _) => confined (User.tenant_id u) (w_committed w) (w_committed w')
    | _, _ => w_committed w' = w_committed w
    end.

(** C2: every request is authorised, end to end. Whatever the endpoint and whatever the bearer
    token, a request either fails and changes nothing, or it comes from a caller whom the
    endpoint admits: nobody in particular for the probes and the login; for a hook endpoint the
    active service user of an active tenant, with a key that matches, is not revoked and has
    not expired; for any other endpoint the active user a valid token names, with one of the
    roles the endpoint requires, and never with the role of the hook's credential, except to ask
    who they are.
    What an admitted request then writes stays within that caller's tenant, and reading writes
    nothing. The schema holds afterwards. *)
Theorem every_request_is_authorized e bearer w :
  platform_ok w →
  let r := answer_request e bearer w in lawful e bearer w r.1 r.2 ∧ platform_ok r.2.
Proof.
  intros Hw. assert ((∃ b c, e = Ready b c) ∨ e = Live ∨ answer_request e bearer = request (who ← caller e bearer; handle e who))
    as [(b & c & ->)|[-> | ->]] by (destruct e; eauto).
  { split; [right; by exists None|done]. }
  { split; [right; by exists None|done]. }
  destruct (request_cases e bearer w) as [[Herr Hi]|(who & w1 & Hg & Hi & Hend)]; cbn zeta.
  - pose proof (idle_sound None w _ Hw Hi) as [_ [Hok _] Hlog]. split; [left; split; [done|]|by constructor].
    unfold idle, databases in Hi. by injection Hi as _ ->.
  - assert (w_committed (request (who ← caller e bearer; handle e who) w).2 = w_committed (exec (rest e who) w1)) as Ec
      by (by destruct Hend as [->| ->]).
    destruct (let_in_sound e who w w1 _ Hw Hi Hend) as [_ [Hok [_ Hc]] Hlog].
    split; [right; exists who; split; [done|]|by constructor].
    assert ((∃ q, e = Write q) ∨ ∀ q, e ≠ Write q) as [[q ->]|He] by (destruct e; eauto).
    + destruct who as [[u key]|]; [done|]. unfold granted in Hg. by destruct q.
    + assert (pinned (w_committed w) (exec (rest e who) w1)) as [_ Ep].
      { apply rest_idle; [done|]. unfold idle, databases in Hi. injection Hi as E1 E2 _. by split. }
      rewrite <- Ec in Ep. destruct e; try done. by destruct (He q).
Qed.
End app.

(** ** An instance *)

(** The operator of the sample tenant, with a token for their own id, cancels the mission. *)
Lemma every_request_is_authorized_witness :
  let r := answer_request (H := sample_env) Settings_default (λ p _, p) toy_checkpw toy_encode toy_decode toy_str_id toy_parse_id
             (λ _, None) "salt" id (λ _, "{}") (λ _, "{}") (Ret ()) ∅ (Write (WCancelMission 6)) (Some ".11") sample_world in
  match r.1 with Ret (Body (BMission m)) => mb_status m = "cancelled" | _ => False end ∧
  lawful (H := sample_env) Settings_default toy_decode toy_parse_id (λ _, None) (Write (WCancelMission 6)) (Some ".11") sample_world r.1 r.2 ∧
  platform_ok r.2.
Proof.
  split; [vm_compute; reflexivity|].
  exact (every_request_is_authorized (H := sample_env) Settings_default (λ p _, p) toy_checkpw toy_encode toy_decode toy_str_id
    toy_parse_id (λ _, None) "salt" id (λ _, "{}") (λ _, "{}") (Ret ()) ∅ (Write (WCancelMission 6)) (Some ".11") sample_world sample_platform_ok).
Defined.
