(* ===== verification/System.v ===== *)
(** * The whole platform keeps its schema

    The operations the platform runs on its own account (the worker with its sweeps, an
    execution cut off half way, the operator scripts, the demo) keep the invariant of
    [Integrity] with no tenant as their scope. Together with the API's requests they make up
    a transition system, in which an operation may also be killed after any of its durable
    effects: every state that a fresh installation can reach satisfies the schema. *)

From S2P Require Import Prelude Enums Contracts Breaker Telemetry Budgets Database Scenario Transitions Missions Api.
From S2P Require Import Gateway Config Auth Ledger Checkpoints Adapter Artifacts Executor Recovery.
From S2P Require Import Rooms Routes Projects RoomsView Closure Worker Personas AgentRuntime Scripts Demo Schema Integrity Isolation App.
From S2P Require Agents.
Local Open Scope Z_scope.

(** ** An execution of the engine *)

Section engine.
Context `{Env}.

Abbreviation sound := (sound None DB.empty).
Abbreviation yields := (yields None DB.empty).
Abbreviation keeps m := (yields m any).

Lemma ours_none t : ours None t.
Proof. by intros tn. Qed.
Lemma mine_none t k : mine None DB.empty t k.
Proof. by intros tn. Qed.
Hint Resolve ours_none mine_none : sound.

(** Without a condition on its result the judgement is a relation between worlds. *)
Lemma keeps_tracks {A} (m : M A) : keeps m ↔ tracks (pres sound) m.
Proof.
  split.
  - intros Hm w Hw. by eapply yields_exec.
  - intros Hm w Hw. eapply wp_mono; [by apply tracks_wp| |]; intros a w' Hw'; [split; [|done]|]; by apply Hw'.
Qed.

Lemma keeps_publish ev : keeps (publish ev).
Proof. apply yields_publish, ours_none. Qed.
Hint Resolve keeps_publish : sound.

Lemma keeps_asks {A} (f : World → A) : keeps (asks f).
Proof. by apply yields_still. Qed.
Hint Resolve keeps_asks : sound.

Lemma keeps_integrity b c : keeps (integrity b c).
Proof. destruct b; [by apply yields_ret|apply yields_raise]. Qed.
Hint Resolve keeps_integrity : sound.

Lemma sql_begin_keeps p tel : keeps (sql_begin_attempt p tel).
Proof. unfold sql_begin_attempt. yields_auto. Qed.

Lemma finish_invocation_keeps k tel :
  keeps (modify_db (DB.upd_model_invocations (alter (λ r,
    row_values (ModelInvocation.id r) (ModelInvocation.tenant_id r) (ModelInvocation.mission_id r)
      (ModelInvocation.task_id r) (ModelInvocation.agent_id r) (ModelInvocation.created_at r) tel) k))).
Proof. apply (yields_alter None DB.empty ModelInvocations); [|apply mine_none]. intros d _. by constructor. Qed.
Hint Resolve finish_invocation_keeps : sound.

Lemma sql_finish_keeps p i tel : keeps (sql_finish_attempt p i tel).
Proof. unfold sql_finish_attempt. yields_auto. Qed.

(** A request on its way is a durable point, at which the committed database is sound. *)
Lemma send_keeps r : keeps (send r).
Proof.
  intros w [H1 H2 H3]. split; [|done]. constructor; simpl; [done..|].
  apply Forall_app_2; [done|]. apply Forall_singleton, H2.
Qed.

Lemma generate_keeps p gw request policy usage r : keeps (generate gw request policy usage r (Some (sql_ledger p))).
Proof.
  apply keeps_tracks, (generate_tracks (sql_ledger p)); [apply _|intros; apply keeps_tracks; simpl..].
  - apply yields_monotonic.
  - apply send_keeps.
  - by apply yields_still.
  - apply sql_begin_keeps.
  - apply sql_finish_keeps.
Qed.

Lemma save_keeps c : engine_stage (cp_state c) → keeps (save c).
Proof. intros Hst. unfold save. yields_auto. Qed.
Hint Resolve save_keeps generate_keeps : sound.

Lemma call_model_keeps gw p i c : keeps (call_model_and_checkpoint (sql_adapter gw p) i c).
Proof.
  unfold call_model_and_checkpoint, sql_adapter, sql_usage_port, sql_checkpoint_store, usage_for_task. simpl. yields_auto.
Qed.
Hint Resolve call_model_keeps : sound.

Lemma execute_keeps gw p h : keeps (execute (sql_adapter gw p) h).
Proof.
  unfold execute. change (checkpoint_store (sql_adapter gw p)) with sql_checkpoint_store.
  cbn [cs_latest_for_task cs_save sql_checkpoint_store]. unfold latest_for_task. yields_auto.
Qed.

Lemma resume_keeps gw p c : keeps (resume (sql_adapter gw p) c).
Proof. unfold resume. yields_auto. Qed.
Hint Resolve execute_keeps resume_keeps : sound.

Lemma publish_event_keeps l ty data : keeps (publish_event l ty data).
Proof. unfold publish_event. yields_auto. Qed.
Hint Resolve publish_event_keeps : sound.

Lemma fail_keeps l reason : keeps (fail l reason).
Proof. unfold fail. yields_auto. Qed.

Lemma mark_running_keeps l c : keeps (mark_running l c).
Proof. unfold mark_running. yields_auto. Qed.
Hint Resolve fail_keeps mark_running_keeps : sound.

Lemma first_run_keeps gw l t0 context c : keeps (first_run l (task_adapter gw l t0) context c).
Proof.
  unfold first_run, task_adapter, initialize_run. apply yields_try; [yields_auto|].
  intros e k Hk. destruct e; simplify_eq/=; yields_auto.
Qed.

Lemma commit_task_artifact_keeps l ty title content mime : keeps (commit_task_artifact l ty title content mime).
Proof. apply commit_artifact_yields, ours_none. Qed.
Hint Resolve first_run_keeps commit_task_artifact_keeps : sound.

Lemma repair_keeps gw l t0 context error : keeps (repair l (task_adapter gw l t0) context error).
Proof.
  unfold repair, initialize_run, task_adapter, validate_output. yields_auto.
  apply yields_try; [yields_auto|]. intros e k Hk. case_match; simplify_eq. yields_auto.
Qed.

Lemma complete_keeps l text parsed : keeps (complete l text parsed).
Proof. unfold complete. yields_auto. Qed.
Hint Resolve repair_keeps complete_keeps : sound.

Lemma execute_task_keeps gw tid : keeps (execute_task gw tid).
Proof. unfold execute_task, load_task, latest_for_task, finish_task, report_run, validate_output. yields_auto. Qed.
(** ** The worker *)

Lemma register_recovery_keeps has_publisher tid n : keeps (register_recovery has_publisher tid n).
Proof.
  unfold register_recovery, fail_after_max_requeues, publish_max_requeues. yields_auto.
  apply yields_for_each. intros ty _. yields_auto.
Qed.
Hint Resolve register_recovery_keeps : sound.

Lemma recover_one_keeps has_publisher leased tid : keeps (recover_one has_publisher leased tid).
Proof. unfold recover_one. yields_auto. apply (yields_with_session _ _ _ any). yields_auto. Qed.

Lemma recover_all_keeps has_publisher leased ids n : keeps (recover_all has_publisher leased ids n).
Proof.
  revert n. induction ids as [|i ids IH]; intros n; simpl; [by apply yields_ret|].
  eapply yields_bind; [apply recover_one_keeps|]. intros b _. apply IH.
Qed.

Lemma orphan_sweep_keeps has_publisher leased : keeps (requeue_orphaned_running_tasks has_publisher leased).
Proof.
  unfold requeue_orphaned_running_tasks. eapply yields_bind; [apply (yields_with_session _ _ _ any); yields_auto|].
  intros ids _. apply recover_all_keeps.
Qed.

Lemma reap_subagents_keeps rows n : keeps (reap_subagents rows n).
Proof.
  revert n. induction rows as [|[sid tn] rows IH]; intros n; simpl; [by apply yields_ret|].
  eapply yields_bind; [apply close_task_yields, ours_none|]. intros r _. apply IH.
Qed.
Hint Resolve reap_subagents_keeps : sound.

Lemma reap_sweep_keeps locked minutes : keeps (run_agent_runtime_reap_sweep locked minutes).
Proof.
  unfold run_agent_runtime_reap_sweep, reap_stale_runtime_sessions, reap_batch.
  apply (yields_with_session _ _ _ any). yields_auto. apply yields_for_each. intros [sid tn] _. yields_auto.
Qed.
Hint Resolve orphan_sweep_keeps reap_sweep_keeps execute_task_keeps : sound.

(** What is left of a run that was killed: a committed database of its past. *)
Lemma cut_off_sound w0 w1 n : sound w1 → sound (cut_off w0 w1 n).
Proof.
  intros [H1 H2 H3]. unfold cut_off. destruct (_ !! n) as [[c sent]|] eqn:Hn; [|by constructor].
  rewrite lookup_drop in Hn. apply list_elem_of_lookup_2 in Hn.
  pose proof (proj1 (Forall_forall _ _) H3 _ Hn) as Hc. simpl in Hc.
  constructor; simpl; [by split..|by apply Forall_take].
Qed.

Lemma run_leased_keeps gw tid lost_at : keeps (run_leased gw tid lost_at).
Proof.
  destruct lost_at as [n|]; [|assert (keeps (_ ← execute_task gw tid; commit)) as Hc by yields_auto; exact Hc].
  intros w Hw. apply cut_off_sound. apply (yields_exec _ _ _ any); [apply execute_task_keeps|done].
Qed.

Lemma process_task_keeps gw tid acquired lost_at : keeps (process_task gw tid acquired lost_at).
Proof.
  unfold process_task. yields_auto. apply yields_with_session. yields_auto.
  apply yields_try; [apply run_leased_keeps|]. intros e k [= <-]. apply yields_rollback.
Qed.
Hint Resolve process_task_keeps : sound.

Lemma logged_keeps m : keeps m → keeps (logged m).
Proof. intros Hm. apply yields_try; [done|]. intros e k [= <-]. by apply yields_ret. Qed.

Lemma sweep_if_due_keeps interval l (sweep : M Z) : keeps sweep → keeps (sweep_if_due interval l sweep).
Proof.
  intros Hs. unfold sweep_if_due. eapply yields_bind; [eauto with sound|]. intros now _. destruct (Py.ge _ _); [|by apply yields_ret].
  eapply yields_bind; [eauto with sound|]. intros l' _. eapply yields_bind; [|intros; by apply yields_ret].
  apply logged_keeps. eapply yields_bind; [done|]. intros; by apply yields_ret.
Qed.

Lemma dequeue_keeps : keeps dequeue_task.
Proof. apply yields_still. intros w. unfold same, exec, dequeue_task. destruct (redis_ok _); [|done]. by destruct (last _). Qed.
Hint Resolve dequeue_keeps : sound.

Lemma process_or_put_back_keeps gw tid p : keeps (process_or_put_back gw tid p).
Proof.
  unfold process_or_put_back, process_dequeued. apply yields_try; [yields_auto|]. intros e k [= <-]. apply logged_keeps. eauto with sound.
Qed.
Hint Resolve process_or_put_back_keeps sweep_if_due_keeps : sound.

Lemma poll_loop_keeps settings gw t polls : keeps (poll_loop settings gw t polls).
Proof.
  revert t. induction polls as [|p polls IH]; intros t; simpl; [by apply yields_ret|].
  unfold poll_once, others_push, poll_queue. yields_auto.
  - by apply yields_still.
  - apply yields_try; [eauto with sound|]. intros e k [= <-]. by apply yields_ret.
Qed.

Lemma run_forever_keeps settings leased locked polls : keeps (run_forever settings leased locked polls).
Proof. unfold run_forever. yields_auto. apply poll_loop_keeps. Qed.
(** ** The operator scripts *)

Lemma find_one_keeps {V} (table : DB.t → gmap EntityId V) p : keeps (find_one table p).
Proof. unfold find_one. yields_auto. Qed.
Hint Resolve find_one_keeps : sound.

Lemma get_tenant_keeps code : keeps (get_tenant code).
Proof. unfold get_tenant. yields_auto. Qed.
Hint Resolve get_tenant_keeps : sound.

Section scripts.
Context (hashpw : string → string → string) (hex : EntityId → string) (parse_uuid : string → option EntityId).
Context (str_payload : string → string → EntityId → AutonomyLevel.t → ToolPolicy → string).

Lemma ensure_service_user_keeps salt pw t : keeps (ensure_service_user hashpw salt pw t).
Proof. unfold ensure_service_user. yields_auto. Qed.
Hint Resolve ensure_service_user_keeps : sound.

Lemma issue_main_keeps settings salt pw secret args : keeps (issue_main hashpw hex parse_uuid settings salt pw secret args).
Proof.
  unfold issue_main, issue, issue_key, revoke. yields_auto; apply (yields_with_session _ _ _ any); yields_auto.
  apply (yields_alter None DB.empty ApiKeys); [|apply mine_none]. intros d _. by constructor.
Qed.

Lemma seed_tenant_keeps settings : keeps (seed_tenant settings).
Proof. unfold seed_tenant. yields_auto. Qed.

Lemma seed_admin_keeps settings salt tn : keeps (seed_admin hashpw settings salt tn).
Proof. unfold seed_admin. yields_auto. Qed.

(** A policy of the tenant [tn], as the session sees it. *)
Definition policy_of (tn policy : EntityId) (w : World) : Prop :=
  ref (DB.model_policies (w_db w)) policy (λ p, ModelPolicy.tenant_id p = tn).

(** A step that keeps the invariant and of which more is known. *)
Lemma sound_bind {A B} (m : M A) (f : A → M B) w P Q :
  keeps m → wp m w P (λ _ _, True) → sound w →
  (∀ a w', sound w' → P a w' → wp (f a) w' Q (λ _, sound)) → wp (m ≫= f) w Q (λ _, sound).
Proof.
  intros Hk HP Hw Hf. apply wp_bind. eapply wp_mono; [apply wp_conj; [by apply Hk|exact HP]| |].
  - intros a w' [[Hw' _] Ha]. by apply Hf.
  - by intros e w' [Hw' _].
Qed.

(** The same for a step of which nothing more is needed. *)
Lemma sound_then {A B} (m : M A) (f : A → M B) w Q :
  keeps m → sound w → (∀ a w', sound w' → wp (f a) w' Q (λ _, sound)) → wp (m ≫= f) w Q (λ _, sound).
Proof. intros Hk Hw Hf. apply wp_bind. eapply wp_mono; [by apply Hk| |done]. intros a w' [Hw' _]. auto. Qed.

Lemma seed_policy_sound tn name provider model w :
  sound w →
  wp (seed_policy tn name provider model) w (λ p w', sound w' ∧ policy_of tn (ModelPolicy.id p) w') (λ _, sound).
Proof.
  intros Hw. unfold seed_policy. apply wp_bind, find_one_spec; [..|done].
  - intros p Hp. assert (p ∈ select (policy_named tn name) (DB.model_policies (w_db w))) as Hin by (rewrite Hp; by left).
    apply elem_of_select in Hin as [[Ht _]%andb_true_iff [k Hk]]. apply bool_decide_eq_true in Ht.
    apply wp_ret. split; [done|]. exists p. split; [|done].
    destruct (ok_row _ (proj1 (sound_view _ _ _ Hw)) ModelPolicies k p Hk) as [-> _]. done.
  - intros _. apply sound_then; [apply yields_new_id|done|]. intros i w1 H1. apply sound_then; [apply yields_utc|done|].
    intros now w2 H2. eapply sound_bind; [eauto with sound|eapply wp_mono; [apply insert_policy_spec|done|done]|done|].
    intros [] w3 H3 [_ ->]. apply wp_ret. split; [done|]. eexists. split; [apply lookup_insert_eq|done].
Qed.

Lemma seed_agent_sound tn admin policy code name descr dept role prompt adapter autonomy w :
  sound w → policy_of tn policy w →
  wp (seed_agent str_payload tn admin policy code name descr dept role prompt adapter autonomy) w (λ _, sound) (λ _, sound).
Proof.
  intros Hw Hp. unfold seed_agent. apply wp_bind, find_one_spec; [..|done]; [intros a _; by apply wp_ret|intros _].
  eapply (sound_bind _ _ _ (λ _ w', w_db w' = w_db w)); [apply yields_new_id|done|done|]. intros i w0 H0 E0.
  eapply (sound_bind _ _ _ (λ _ w', w_db w' = w_db w)); [apply yields_utc|done|done|]. intros now w1 H1 E1.
  eapply sound_bind; [eapply yields_any, insert_agent_yields; [apply ours_none|done]
                     |eapply wp_mono; [apply insert_agent_spec|done|done]|done|].
  intros [] w2 H2 [_ E2]. eapply (sound_bind _ _ _ (λ _ w', w_db w' = w_db w2)); [apply yields_new_id|done|done|].
  intros v w3 H3 E3. apply wp_bind. eapply wp_mono; [apply insert_agent_version_sound; [apply mine_none| |done]| |done].
  - simpl. rewrite E3, E2. simpl. intros a p Ha Hp'. rewrite lookup_insert_eq in Ha. injection Ha as <-.
    destruct Hp as (p' & Hp & Ht). rewrite E1, Hp in Hp'. injection Hp' as ->. done.
  - intros [] w4 [H4 Hv]. apply wp_modify. eapply activate_sound; [done|apply mine_none|exact Hv|done|done].
Qed.

Lemma seed_keeps settings salt : keeps (seed hashpw str_payload settings salt).
Proof.
  apply yields_with_session. intros w Hw.
  eapply wp_mono with (Q := λ _, sound) (R := λ _, sound); [|done|done].
  apply sound_then; [apply seed_tenant_keeps|done|]. intros t w1 H1.
  apply sound_then; [apply seed_admin_keeps|done|]. intros u w2 H2.
  apply wp_bind. eapply wp_mono; [by apply seed_policy_sound| |done]. intros p w3 [H3 Hp].
  apply wp_bind. eapply wp_mono; [by apply seed_agent_sound| |done]. intros [] w4 H4.
  apply wp_bind. eapply wp_mono; [by apply seed_policy_sound| |done]. intros p' w5 [H5 Hp'].
  apply wp_bind. eapply wp_mono; [by apply seed_agent_sound| |done]. intros [] w6 H6.
  eapply wp_mono; [by apply (yields_commit None DB.empty)| |done]. by intros [] w7 [H7 _].
Qed.
End scripts.
(** ** The demo *)

Section demo.
Context (others : nat → DB.t → DB.t) (Hothers : ∀ n d, db_ok d → db_ok (others n d)).

Lemma reload_mission_keeps attr k : keeps (reload_mission attr k).
Proof. unfold reload_mission. yields_auto. Qed.

Lemma find_exactly_one_keeps {V} (table : DB.t → gmap EntityId V) p : keeps (find_exactly_one table p).
Proof. unfold find_exactly_one. yields_auto. Qed.
Hint Resolve reload_mission_keeps find_exactly_one_keeps : sound.

Lemma start_demo_keeps settings : keeps (start_demo settings).
Proof.
  unfold start_demo. apply (yields_with_session _ _ _ any). yields_auto.
  - eapply yields_any, create_mission_yields, ours_none.
  - eapply yields_any, start_mission_yields, mine_none.
Qed.

Lemma wait_for_mission_keeps polls k : keeps (wait_for_mission others polls k).
Proof.
  induction polls as [|polls IH]; simpl; [by apply yields_ret|].
  eapply yields_bind; [apply (yields_with_session _ _ _ any); eauto with sound|]. intros m _.
  destruct (mission_over m); [by apply yields_ret|]. eapply yields_bind; [|intros; exact IH].
  apply yields_interfere. intros d [Hd _]. split; [by apply Hothers|done].
Qed.

Lemma read_bodies_keeps settings artifacts : keeps (read_bodies settings artifacts).
Proof.
  induction artifacts as [|a artifacts IH]; simpl; [by apply yields_ret|]. unfold read_body. yields_auto.
  apply yields_still. intros w. unfold same, exec, get_object. by destruct (w_objects w !! _).
Qed.
Hint Resolve read_bodies_keeps start_demo_keeps wait_for_mission_keeps : sound.

Lemma run_demo_keeps settings : keeps (run_demo settings others).
Proof.
  unfold run_demo, run_inline, report_demo. yields_auto; apply (yields_with_session _ _ _ any); yields_auto.
Qed.
End demo.
End engine.

(** ** The transition system *)

(** What happens on an installation: a request, a worker's life, a script, the demo. While
    the demo waits, [meanwhile] are the requests other users make. *)
Inductive operation :=
| Request (limit : outcome exn unit) (e : endpoint) (bearer : option string)
| RunWorker (settings : Settings) (leased locked : EntityId → bool) (polls : list Poll)
| Seed (settings : Settings) (salt : string)
| IssueKey (settings : Settings) (salt unusable_password secret : string) (args : IssueArgs)
| RunDemo (settings : Settings) (meanwhile : nat → outcome exn unit * endpoint * option string).

Section system.
Context `{Env} (api_settings : Settings).
Context (checkpw : string → string → outcome exn bool).
Context (jwt_encode : Payload → string → string → string) (jwt_decode : Z → string → string → string → option Payload).
Context (str_id : EntityId → string) (parse_id : string → option EntityId) (import_salt : string) (presign : string → string).
Context (dump_version : Agents.AgentVersionCreateRequest → string) (str_persona : PersonaDefinition → string).
Context (providers : gset string).
Context (hashpw : string → string → string) (hex : EntityId → string) (parse_uuid : string → option EntityId).
Context (str_payload : string → string → EntityId → AutonomyLevel.t → ToolPolicy → string).

Definition run_request (limit : outcome exn unit) (e : endpoint) (bearer : option string) : M unit :=
  _ ← answer_request api_settings hashpw checkpw jwt_encode jwt_decode str_id parse_id parse_uuid import_salt presign
        dump_version str_persona limit providers e bearer;
  mret tt.

Definition run (op : operation) : M unit :=
  match op with
  | Request limit e bearer => run_request limit e bearer
  | RunWorker settings leased locked polls => _ ← run_forever settings leased locked polls; mret tt
  | Seed settings salt => seed hashpw str_payload settings salt
  | IssueKey settings salt pw secret args => _ ← issue_main hashpw hex parse_uuid settings salt pw secret args; mret tt
  | RunDemo settings meanwhile =>
      _ ← run_demo settings (λ n d, let '(limit, e, bearer) := meanwhile n in
                                    w_committed (exec (run_request limit e bearer) (world_of d)));
      mret tt
  end.

(** An operation runs to its end, or the process dies after the [n]-th durable effect of it. *)
Inductive step (w : World) : World → Prop :=
| step_done op : step w (exec (run op) w)
| step_killed op n : step w (cut_off w (exec (run op) w) n).

Abbreviation sound := (Integrity.sound None DB.empty).

Lemma run_request_sound limit e bearer w : sound w → sound (exec (run_request limit e bearer) w).
Proof.
  intros Hw. unfold run_request. assert (∀ m : M reply, exec (_ ← m; mret tt) w = exec m w) as ->; [|by apply answer_request_sound].
  intros m. unfold exec, mbind, ST_bind. by destruct (m w) as [[]].
Qed.

Lemma world_of_sound d : db_ok d → sound (world_of d).
Proof. intros Hd. by constructor. Qed.

Lemma run_sound op w : sound w → sound (exec (run op) w).
Proof.
  intros Hw. destruct op as [limit e bearer|settings leased locked polls|settings salt|settings salt pw secret args|settings meanwhile].
  { by apply run_request_sound. }
  all: refine (yields_exec None DB.empty _ any w _ Hw); simpl.
  - eapply yields_bind; [apply run_forever_keeps|]. intros; by apply yields_ret.
  - apply seed_keeps.
  - eapply yields_bind; [apply issue_main_keeps|]. intros; by apply yields_ret.
  - eapply yields_bind; [apply run_demo_keeps|intros; by apply yields_ret].
    intros n d Hd. destruct (meanwhile n) as [[limit e] bearer].
    by eapply sound_platform_ok, run_request_sound, world_of_sound.
Qed.

Lemma step_sound w w' : sound w → step w w' → sound w'.
Proof. intros Hw [op|op n]; [|apply cut_off_sound]; by apply run_sound. Qed.

Lemma empty_sound : sound (world_of DB.empty).
Proof.
  assert (db_ok DB.empty) by (split; intros t; destruct t; done). by constructor.
Qed.

End system.

