(* ===== verification/Billing.v ===== *)
(** * Nothing is sent that is not charged for

    The write-ahead invariant of [Gateway] over the whole platform. Requests and scripts leave
    the ledger alone: the relation [off_ledger] says that nothing has been charged and nothing
    sent, and every step of theirs keeps it. The worker and the demo keep the invariant
    themselves. *)

From S2P Require Import Prelude Enums Contracts Breaker Telemetry Budgets Database Scenario Transitions Missions Api.
From S2P Require Import Gateway Config Auth Ledger Checkpoints Adapter Artifacts Executor Recovery RateLimit.
From S2P Require Import Rooms Routes Projects RoomsView Closure Worker Personas AgentRuntime Reads Scripts Demo Schema Integrity Isolation App System.
From S2P Require Agents.
Local Open Scope Z_scope.

Section off_ledger.
Context `{Env} (charged : gmap EntityId ModelInvocation.t) (sent : list ModelRequest) (first : EntityId) (past : list (DB.t * nat)).

Abbreviation ledger := DB.model_invocations.

(** Nothing has been charged or sent. *)
Record off_ledger (w : World) : Prop := {
  ol_view : ledger (w_db w) = charged;
  ol_committed : ledger (w_committed w) = charged;
  ol_sends : w_sends w = sent;
  ol_next : (first ≤ w_next_id w)%positive;
  ol_log : ∃ l, w_durable_log w = past ++ l ∧ Forall (λ e, ledger e.1 = charged ∧ e.2 = length sent) l;
}.

Abbreviation spares := (tracks (pres off_ledger)).

Lemma spares_same {A} (m : M A) :
  tracks (same (λ w, (ledger (w_db w), w_committed w, w_sends w, w_next_id w, w_durable_log w))) m → spares m.
Proof. intros Hm w [H1 H2 H3 H4 H5]. specialize (Hm w). unfold same in Hm. injection Hm as E1 E2 E3 E4 E5. by constructor; rewrite <- ?E1, <- ?E2, <- ?E3, <- ?E4, <- ?E5. Qed.

Lemma spares_modify_db f : (∀ d, ledger (f d) = ledger d) → spares (modify_db f).
Proof. intros Hf w [H1 H2 H3 H4 H5]. constructor; simpl; try done. by rewrite Hf. Qed.

Lemma spares_new_id : spares new_id.
Proof. intros w [H1 H2 H3 H4 H5]. constructor; simpl; try done. lia. Qed.
Lemma spares_utc : spares utc.
Proof. by apply spares_same. Qed.
Lemma spares_monotonic : spares monotonic.
Proof. by apply spares_same. Qed.
Lemma spares_lift {A} (o : outcome exn A) : spares (lift o).
Proof. by apply spares_same. Qed.
Lemma spares_put_object k c : spares (put_object k c).
Proof. apply spares_same. intros w. unfold same, exec, put_object. by destruct (object_put_ok _). Qed.
Lemma spares_enqueue i : spares (enqueue_task i).
Proof. apply spares_same. intros w. unfold same, exec, enqueue_task. by destruct (redis_ok _). Qed.
Lemma spares_publish ev : spares (publish ev).
Proof. apply spares_same. intros w. unfold same, exec, publish. simpl. by destruct (redis_ok _). Qed.

Lemma spares_commit : spares commit.
Proof.
  intros w [H1 H2 H3 H4 (l & H5 & H6)]. unfold exec, commit. cbn [w_commits set_commits pred].
  destruct (commit_ok _); constructor; simpl; try done; [|by exists l].
  exists (l ++ [(w_db w, length (w_sends w))]). rewrite H5, app_assoc. split; [done|]. apply Forall_app_2; [done|].
  apply Forall_singleton. simpl. by rewrite H3.
Qed.

Lemma spares_rollback : spares rollback.
Proof. intros w [H1 H2 H3 H4 H5]. by constructor. Qed.

Lemma spares_begin_nested {A} (m : M A) : spares m → spares (begin_nested m).
Proof.
  intros Hm w Hw. specialize (Hm w Hw). unfold exec, begin_nested in *. destruct (m w) as [[] w']; [done|].
  destruct Hm as [G1 G2 G3 G4 G5]. constructor; simpl; try done. apply Hw.
Qed.

Lemma spares_with_session {A} (m : M A) : spares m → spares (with_session m).
Proof.
  intros Hm w [H1 H2 H3 H4 H5]. assert (off_ledger (set_db (w_committed w) w)) as Hw by (by constructor).
  specialize (Hm _ Hw). unfold exec, with_session in *. destruct (m _) as [r w']. destruct Hm as [G1 G2 G3 G4 G5]. by constructor.
Qed.

Lemma spares_request {A} (m : M A) : spares m → spares (request m).
Proof.
  intros Hm w [H1 H2 H3 H4 H5]. assert (off_ledger (set_db (w_committed w) w)) as Hw by (by constructor).
  assert (spares (r ← m; _ ← commit; mret r)) as Hr.
  { apply tracks_bind; [apply _|done|]. intros r. apply tracks_bind; [apply _|apply spares_commit|]. intros; apply tracks_ret, _. }
  specialize (Hr _ Hw). unfold exec, request in *. destruct ((r ← m; _ ← commit; mret r) _) as [[] w']; [done|].
  destruct Hr as [G1 G2 G3 G4 G5]. by constructor.
Qed.

Lemma spares_interfere f : (∀ d, ledger (f d) = ledger d) → spares (interfere f).
Proof. intros Hf w [H1 H2 H3 H4 H5]. constructor; simpl; try done; by rewrite Hf. Qed.

Lemma spares_asks_db {A} (f : DB.t → A) : spares (asks_db f).
Proof. by apply spares_same. Qed.
Lemma spares_scalar {V} (l : list V) : spares (scalar_one_or_none l).
Proof. destruct l as [|? []]; by apply spares_same. Qed.
End off_ledger.

Create HintDb spares.
Create HintDb routes.

#[export] Hint Resolve spares_new_id spares_utc spares_monotonic spares_lift spares_put_object spares_enqueue spares_publish
  spares_commit spares_rollback spares_begin_nested spares_with_session spares_asks_db spares_scalar : spares.
#[export] Hint Extern 1 (tracks _ (modify_db _)) => (apply spares_modify_db; intros ?; reflexivity) : spares.
#[export] Hint Extern 1 (tracks _ (interfere _)) => (apply spares_interfere; intros ?; reflexivity) : spares.

Ltac spares_step :=
  match goal with
  | |- tracks _ (try_except _ _) => apply tracks_try; [apply _| |let Hk := fresh "Hk" in intros ? ? Hk; repeat case_match; simplify_eq]
  | |- tracks _ (begin_nested _) => apply spares_begin_nested
  | |- tracks _ (with_session _) => apply spares_with_session
  | |- tracks _ ((match ?x with _ => _ end) _) => destruct x eqn:?
  | _ => tracks_step
  end.
Ltac spares_auto := repeat (first [solve [eauto 2 with spares] | spares_step | progress (autounfold with routes)]).

#[export] Hint Unfold insert_mission insert_task insert_artifact insert_mission_project Agents.insert_agent Agents.insert_agent_version
  insert_project insert_model_policy insert_external_status insert_room_assignment insert_persona_slot insert_closure
  insert_runtime_session insert_tenant insert_user insert_api_key update_task update_mission integrity get_row find_one : routes.
#[export] Hint Unfold refreshed_task create_mission_route update_mission_route start_mission_route cancel_mission retry_task complete_task_external
  fail_task_external Agents.create_agent Agents.create_agent_version Agents.activate_agent Agents.suspend_agent create_project
  archive_project create_model_policy set_external_agent_status list_agent_rooms register_session update_session close_subagent_by : routes.
#[export] Hint Unfold publish_api resolve_project_link tenant_scoped_or_404 get_tenant_scoped mission_or_404 task_or_404 mission_response
  is_agent_runtime_mission refuse_agent_runtime active_version announce_and_enqueue mark_mission_status create_mission start_mission
  existing_first_task insert_first_task after_integrity_error load_external_task commit_artifact find_committed insert_or_existing
  get_assignment ensure_assignment try_allocate list_assignments release_assignment Agents.try_room_assignment Agents.agent_or_404
  Agents.require_tenant_model_policy Agents.publish_agent publish_project create_session_rows register_session_row get_agent_by_code
  claim_slot occupied_persona_slots resolve_claude_code_external_policy ensure_persona create_subagent_rows register_subagent_row
  close_subagent resolve_subagent_for_close close_task end_session lock_runtime_session task_of_session get_existing_closure
  publish_closure advance_task enter_running close_again finish_close complete_mission_of ended existing_or_raise get_runtime_session
  latest_task_by_agent project_id_by_mission projects_summary transition_409 runtime_session_or_404 : routes.

Section routes.
Context `{Env} (charged : gmap EntityId ModelInvocation.t) (sent : list ModelRequest) (first : EntityId) (past : list (DB.t * nat)).
Abbreviation spares := (tracks (pres (off_ledger charged sent first past))).
Context (dump_version : Agents.AgentVersionCreateRequest → string) (str_persona : PersonaDefinition → string).
Context (limit : outcome exn unit) (providers : gset string).

Lemma allocate_loop_spares n tn ag : spares (allocate_loop (λ _ d, d) n tn ag).
Proof. induction n; simpl; spares_auto. Qed.
Hint Resolve allocate_loop_spares : spares.

Lemma backfill_spares tn l m : spares (backfill (λ _ _ d, d) tn l m).
Proof. revert m. induction l as [|a l IH]; intros m; simpl; spares_auto. Qed.

Lemma claim_loop_spares n tn code occupied : spares (claim_loop (λ _ d, d) n tn code occupied).
Proof. revert occupied. induction n as [|n IH]; intros occupied; simpl; spares_auto. Qed.
Hint Resolve backfill_spares claim_loop_spares : spares.

Lemma perform_spares q user : spares (perform dump_version str_persona limit providers q user).
Proof. destruct q; simpl; spares_auto. Qed.
End routes.

(** ** From the sessions to the invariant *)

(** A session in which nothing was charged or sent keeps the invariant, wherever it commits. *)
Lemma off_ledger_wal w w' :
  wal w → off_ledger (DB.model_invocations (w_committed w)) (w_sends w) (w_next_id w) (w_durable_log w) w' → wal w'.
Proof.
  intros [H1 H2 H3 H4 H5 H6] [G1 G2 G3 G4 (l & G5 & G6)].
  assert (∀ m : gmap EntityId ModelInvocation.t, fresh_above (w_next_id w) m → fresh_above (w_next_id w') m) as Hmono.
  { intros m Hm k Hk. specialize (Hm k Hk). lia. }
  constructor; unfold charges in *; rewrite ?G1, ?G2, ?G3, ?G5; try done; auto.
  - apply Forall_app_2; [done|]. eapply Forall_impl; [exact G6|]. intros e [-> ->]. done.
  - apply Forall_app_2; [eapply Forall_impl; [exact H6|]; auto|]. eapply Forall_impl; [exact G6|]. intros e [-> _]. auto.
Qed.

Lemma off_ledger_start w :
  off_ledger (DB.model_invocations (w_committed w)) (w_sends w) (w_next_id w) (w_durable_log w) (set_db (w_committed w) w).
Proof. constructor; simpl; [done..|]. exists []. by rewrite app_nil_r. Qed.

(** A request or a script: whatever it does happens in a session of its own. *)
Lemma session_wal {A} (m : M A) w :
  (∀ c s n p, tracks (pres (off_ledger c s n p)) m) →
  exec m w = exec m (set_db (w_committed w) w) → wal w → wal (exec m w).
Proof. intros Hm E Hw. eapply off_ledger_wal; [done|]. rewrite E. apply Hm, off_ledger_start. Qed.

Section system.
Context `{Env} (api_settings : Settings).
Context (checkpw : string → string → outcome exn bool).
Context (jwt_encode : Payload → string → string → string) (jwt_decode : Z → string → string → string → option Payload).
Context (str_id : EntityId → string) (parse_id : string → option EntityId) (import_salt : string) (presign : string → string).
Context (dump_version : Agents.AgentVersionCreateRequest → string) (str_persona : PersonaDefinition → string).
Context (providers : gset string).
Context (hashpw : string → string → string) (hex : EntityId → string) (parse_uuid : string → option EntityId).
Context (str_payload : string → string → EntityId → AutonomyLevel.t → ToolPolicy → string).

#[local] Hint Unfold caller admitted subject token_subject get_current_user require_role forbid_agent_runtime
  get_agent_runtime_principal handle login create_access_token serve answering list_missions get_mission list_tasks_for_mission
  get_task mission_timeline list_audit_events agent_runtime_hook_loss_rate list_mission_artifacts get_artifact download_artifact
  list_mission_model_invocations dashboard_summary get_current_tenant Agents.list_agents Agents.get_agent list_projects
  list_model_policies list_external_agent_statuses artifact_or_404 compute_hook_loss_rate runtime_missions
  project_ids_for_missions count_missions : routes.
#[local] Hint Resolve perform_spares : spares.

Section spared.
Context (c : gmap EntityId ModelInvocation.t) (s : list ModelRequest) (n : EntityId) (p : list (DB.t * nat)).
Abbreviation spares := (tracks (pres (off_ledger c s n p))).

Lemma answer_request_spares limit e bearer :
  spares (answer_request api_settings hashpw checkpw jwt_encode jwt_decode str_id parse_id parse_uuid import_salt presign
            dump_version str_persona limit providers e bearer).
Proof.
  unfold answer_request. destruct e; [apply tracks_ret, _|apply tracks_ret, _|..]; apply spares_request; spares_auto.
Qed.

#[local] Hint Unfold get_tenant ensure_service_user issue issue_key revoke seed_tenant seed_admin seed_policy seed_agent : routes.

Lemma seed_spares settings salt : spares (seed hashpw str_payload settings salt).
Proof. unfold seed. spares_auto. Qed.

Lemma issue_main_spares settings salt pw secret args : spares (issue_main hashpw hex parse_uuid settings salt pw secret args).
Proof. unfold issue_main. spares_auto. Qed.
End spared.
Lemma exec_unit {A} (m : M A) w : exec (_ ← m; mret tt) w = exec m w.
Proof. unfold exec, mbind, ST_bind. by destruct (m w) as [[]]. Qed.

Abbreviation run_request := (run_request api_settings checkpw jwt_encode jwt_decode str_id parse_id import_salt presign
  dump_version str_persona providers hashpw parse_uuid).
Abbreviation run := (run api_settings checkpw jwt_encode jwt_decode str_id parse_id import_salt presign
  dump_version str_persona providers hashpw hex parse_uuid str_payload).
Abbreviation step := (step api_settings checkpw jwt_encode jwt_decode str_id parse_id import_salt presign
  dump_version str_persona providers hashpw hex parse_uuid str_payload).

Lemma run_request_wal limit e bearer w : wal w → wal (exec (run_request limit e bearer) w).
Proof.
  intros Hw. unfold System.run_request. rewrite exec_unit.
  assert ((e = Live ∨ ∃ b c, e = Ready b c) ∨ ∀ b c, e ≠ Live ∧ e ≠ Ready b c) as [[->|(b & c & ->)]|He]; [|done|done|].
  { destruct e; [left; by left|left; right; by do 2 eexists|right; by intros..]. }
  apply session_wal; [intros; apply answer_request_spares| |done]. destruct e; [by destruct (He true true)|by destruct (He database_ok redis_ok)|done..].
Qed.

(** What other users do while the demo waits leaves the charges as they are. *)
Lemma meanwhile_ledger limit e bearer d :
  DB.model_invocations (w_committed (exec (run_request limit e bearer) (world_of d))) = DB.model_invocations d.
Proof.
  unfold System.run_request. rewrite exec_unit.
  refine (ol_committed (DB.model_invocations d) [] 100%positive [] _ _). apply answer_request_spares. constructor; [done..|].
  by exists [].
Qed.

Lemma interfere_wal f : (∀ d, DB.model_invocations (f d) = DB.model_invocations d) → tracks (pres wal) (interfere f).
Proof.
  intros Hf w [H1 H2 H3 H4 H5 H6]. constructor; unfold charges in *; simpl; rewrite ?Hf; done.
Qed.

(** A script that is refused its arguments does nothing; otherwise it opens a session. *)
Lemma issue_main_session settings salt pw secret args w :
  let m := issue_main hashpw hex parse_uuid settings salt pw secret args in
  exec m w = w ∨ exec m w = exec m (set_db (w_committed w) w).
Proof.
  cbn zeta. unfold issue_main. destruct (match arg_expires_in_days args with Some _ => _ | None => _ end); [by left|].
  destruct (negb _ && _); [by left|]. right. by destruct (arg_revoke args).
Qed.

Lemma run_wal op w : wal w → wal (exec (run op) w).
Proof.
  intros Hw. destruct op as [limit e bearer|settings leased locked polls|settings salt|settings salt pw secret args|settings meanwhile]; cbn [System.run].
  - by apply run_request_wal.
  - rewrite exec_unit. by apply run_forever_wal.
  - apply session_wal; [intros; apply seed_spares|done|done].
  - rewrite exec_unit. destruct (issue_main_session settings salt pw secret args w) as [->|E]; [done|].
    apply session_wal; [intros; apply issue_main_spares|done|done].
  - rewrite exec_unit. apply demo_write_ahead; [|done]. intros n. apply interfere_wal. intros d.
    destruct (meanwhile n) as [[limit e] bearer]. apply meanwhile_ledger.
Qed.

Lemma empty_wal : wal (world_of DB.empty).
Proof. constructor; simpl; try done; intros i [v Hi]; by rewrite lookup_empty in Hi. Qed.

(** C1: no money is spent that is not on the books. From a fresh installation, through any
    sequence of requests, worker runs, scripts and demo runs, with any of them killed after any
    of its durable effects, there is a committed charge for every request that has been sent to
    a model provider, now and at every durable point before. *)
Theorem platform_never_sends_uncharged w :
  rtc step (world_of DB.empty) w →
  (length (w_sends w) ≤ size (DB.model_invocations (w_committed w)))%nat ∧
  Forall (λ e, (e.2 ≤ size (DB.model_invocations e.1))%nat) (w_durable_log w).
Proof.
  intros Hr. assert (wal w) as [H1 H2 _ _ _ _]; [|done]. revert Hr. apply (rtc_ind_r wal); [apply empty_wal|].
  intros x y _ [op|op n] Hx; [by apply run_wal|]. by apply cut_off_wal, run_wal.
Qed.
End system.

(** The demo on a seeded installation: one request to the provider, and its charge. *)
Lemma platform_never_sends_uncharged_witness :
  let run := run (H := demo_env) Settings_default toy_checkpw toy_encode toy_decode toy_str_id toy_parse_id "salt" id
               (λ _, "{}") (λ _, "{}") ∅ (λ p _, p) (λ _, "00") (λ _, None) (λ p _ _ _ _, p) in
  let w := exec (run (RunDemo Settings_default (λ _, (Ret tt, Live, None))))
             (exec (run (Seed Settings_default "salt")) (world_of DB.empty)) in
  length (w_sends w) = 1%nat ∧ (length (w_sends w) ≤ size (DB.model_invocations (w_committed w)))%nat.
Proof.
  intros run w. split; [vm_compute; reflexivity|].
  apply (platform_never_sends_uncharged (H := demo_env) Settings_default toy_checkpw toy_encode toy_decode toy_str_id
    toy_parse_id "salt" id (λ _, "{}") (λ _, "{}") ∅ (λ p _, p) (λ _, "00") (λ _, None) (λ p _ _ _ _, p)).
  eapply rtc_l; [apply (step_done _ _ _ _ _ _ _ _ _ _ _ _ _ _ _ _ (Seed Settings_default "salt"))|].
  apply rtc_once. unfold w. apply step_done.
Defined.
