(* ===== verification/Migrations.v ===== *)
(** * Migrations
    (infrastructure/migrations/versions, infrastructure/migrations/env.py, and the tables of
    packages/common/db/models.py as [Base.metadata] holds them)

    A schema maps the name of every table to the tables its foreign keys refer to and the
    indexes it has; columns and row constraints are [Schema]'s. The statements SQLAlchemy
    emits ([CREATE TABLE] in dependency order, foreign keys with [use_alter] afterwards, one
    [CREATE INDEX] per index, [DROP TABLE] and [DROP INDEX] behind their [checkfirst]) fail as
    PostgreSQL makes them fail: a table or an index on something missing, a drop of a table
    that a foreign key of another table still refers to. All steps of one alembic command run
    in one transaction. *)

From S2P Require Import Prelude.

Inductive ddl_error :=
| UndefinedTable (table : string)
| UndefinedObject (constraint : string)
| DependentObjectsStillExist (table dependent : string).

(** A table of the database. *)
Record TableState := mkTableState { ts_refs : gset string; ts_indexes : gset string }.

Abbreviation schema := (gmap string TableState).
Abbreviation DDL := (ST schema ddl_error).

(** ** [Base.metadata] *)

(** A table of models.py: its name, the tables of its foreign keys, those of them that are
    declared with [use_alter], and the names of its [Index] entries. *)
Record TableDef := mkTableDef {
  td_name : string;
  td_refs : list string;
  td_late_refs : list string;
  td_indexes : list string;
}.

Definition Tenant_table := mkTableDef "tenants" [] [] [].
Definition User_table := mkTableDef "users" ["tenants"] [] [].
Definition ModelPolicy_table := mkTableDef "model_policies" ["tenants"] [] [].
Definition Agent_table := mkTableDef "agents" ["tenants"] ["agent_versions"] [].
Definition AgentVersion_table := mkTableDef "agent_versions" ["agents"; "model_policies"] [] [].
Definition Mission_table := mkTableDef "missions" ["tenants"; "agents"] [] [].
Definition Project_table := mkTableDef "projects" ["tenants"] [] [].
Definition MissionProject_table := mkTableDef "mission_projects" ["projects"; "missions"; "tenants"] [] [].
Definition Task_table := mkTableDef "tasks" ["missions"; "agents"] [] [].
Definition RuntimeCheckpoint_table := mkTableDef "runtime_checkpoints" ["missions"; "tasks"; "agents"] [] [].
Definition Artifact_table :=
  mkTableDef "artifacts" ["tenants"; "missions"; "tasks"; "agents"; "agent_versions"] [] [].
Definition AuditEvent_table := mkTableDef "audit_events" ["tenants"; "missions"; "tasks"; "agents"] [] [].
Definition ModelInvocation_table :=
  mkTableDef "model_invocations" ["tenants"; "missions"; "tasks"; "agents"] []
    ["ix_model_invocations_task_id"; "ix_model_invocations_tenant_agent_created"].
Definition ExternalAgentStatus_table := mkTableDef "external_agent_statuses" ["tenants"] [] [].
Definition AgentRoomAssignment_table :=
  mkTableDef "agent_room_assignments" ["tenants"; "agents"] []
    ["uq_agent_room_assignments_active_room"; "uq_agent_room_assignments_active_agent"].
Definition AgentRuntimeSession_table :=
  mkTableDef "agent_runtime_sessions" ["tenants"; "agents"; "missions"; "tasks"; "agent_runtime_sessions"] []
    ["uq_agent_runtime_sessions_session_ref"; "uq_agent_runtime_sessions_instance_ref";
     "ix_agent_runtime_sessions_mission_id"; "ix_agent_runtime_sessions_open"].
Definition AgentRuntimePersonaSlot_table := mkTableDef "agent_runtime_persona_slots" ["tenants"] [] [].
Definition AgentRuntimeApiKey_table :=
  mkTableDef "agent_runtime_api_keys" ["users"] [] ["ix_agent_runtime_api_keys_user_id"].
Definition AgentRuntimeClosure_table :=
  mkTableDef "agent_runtime_closures" ["tenants"; "agent_runtime_sessions"; "tasks"; "artifacts"] []
    ["ix_agent_runtime_closures_tenant_id"; "ix_agent_runtime_closures_task_id"].

#[global] Instance TableDef_eq_dec : EqDecision TableDef.
Proof. solve_decision. Defined.

(** [Base.metadata.sorted_tables]: an order in which every table follows the ones it refers
    to; the order of declaration is one. *)
Definition metadata : list TableDef :=
  [Tenant_table; User_table; ModelPolicy_table; Agent_table; AgentVersion_table; Mission_table;
   Project_table; MissionProject_table; Task_table; RuntimeCheckpoint_table; Artifact_table;
   AuditEvent_table; ModelInvocation_table; ExternalAgentStatus_table; AgentRoomAssignment_table;
   AgentRuntimeSession_table; AgentRuntimePersonaSlot_table; AgentRuntimeApiKey_table;
   AgentRuntimeClosure_table].

(** ** Statements *)

Definition has_table (name : string) (s : schema) : bool := bool_decide (is_Some (s !! name)).

Definition has_index (table index : string) (s : schema) : bool :=
  match s !! table with Some st => bool_decide (index ∈ ts_indexes st) | None => false end.

(** A statement that needs the table [name]. *)
Definition need_table (name : string) : DDL unit :=
  s ← get_world;
  if has_table name s then mret tt else raise (UndefinedTable name).

(** [CREATE INDEX index ON table] *)
Definition add_index (table index : string) : DDL unit :=
  _ ← need_table table;
  modify (alter (λ st, mkTableState (ts_refs st) ({[ index ]} ∪ ts_indexes st)) table).

(** [CREATE TABLE], and the indexes of the table behind it; a reference to itself needs
    nothing. *)
Definition create_table (t : TableDef) : DDL unit :=
  _ ← for_each (filter (λ r, r ≠ td_name t) (td_refs t)) need_table;
  _ ← modify (<[td_name t := mkTableState (list_to_set (td_refs t)) ∅]>);
  for_each (td_indexes t) (add_index (td_name t)).

(** [ALTER TABLE table ADD CONSTRAINT ... FOREIGN KEY ... REFERENCES ref] *)
Definition add_foreign_key (table ref : string) : DDL unit :=
  _ ← need_table ref;
  modify (alter (λ st, mkTableState ({[ ref ]} ∪ ts_refs st) (ts_indexes st)) table).

(** [ALTER TABLE table DROP CONSTRAINT ...] *)
Definition drop_foreign_key (table ref : string) : DDL unit :=
  s ← get_world;
  match s !! table with
  | Some st =>
      if bool_decide (ref ∈ ts_refs st)
      then modify (alter (λ st, mkTableState (ts_refs st ∖ {[ ref ]}) (ts_indexes st)) table)
      else raise (UndefinedObject ref)
  | None => raise (UndefinedTable table)
  end.

(** The other tables with a foreign key to [name]. *)
Definition dependents (name : string) (s : schema) : list string :=
  fst <$> filter (λ '(k, st), k ≠ name ∧ name ∈ ts_refs st) (map_to_list s).

(** [table.drop(bind, checkfirst=True)] *)
Definition drop_table (name : string) : DDL unit :=
  s ← get_world;
  if negb (has_table name s) then mret tt
  else match dependents name s with
       | d :: _ => raise (DependentObjectsStillExist name d)
       | [] => modify (delete name)
       end.

(** [index.create(bind, checkfirst=True)] *)
Definition create_index (table index : string) : DDL unit :=
  s ← get_world;
  if has_index table index s then mret tt else add_index table index.

(** [index.drop(bind, checkfirst=True)] *)
Definition drop_index (table index : string) : DDL unit :=
  s ← get_world;
  when (has_index table index s)
    (modify (alter (λ st, mkTableState (ts_refs st) (ts_indexes st ∖ {[ index ]})) table)).

(** [for index in table.indexes: index.create(bind=bind, checkfirst=True)] *)
Definition sweep_indexes (t : TableDef) : DDL unit := for_each (td_indexes t) (create_index (td_name t)).

(** [Base.metadata.create_all(bind, checkfirst=True, tables=ts)] *)
Definition create_all (ts : list TableDef) : DDL unit :=
  s ← get_world;
  let missing := filter (λ t, has_table (td_name t) s = false) ts in
  _ ← for_each missing create_table;
  for_each missing (λ t, for_each (td_late_refs t) (add_foreign_key (td_name t))).

(** [Base.metadata.drop_all(bind)] *)
Definition drop_all : DDL unit :=
  s ← get_world;
  let present := filter (λ t, has_table (td_name t) s = true) metadata in
  _ ← for_each present (λ t, for_each (td_late_refs t) (drop_foreign_key (td_name t)));
  for_each (reverse present) (λ t, drop_table (td_name t)).

(** ** The revisions *)

Inductive revision := r0001 | r0002 | r0003 | r0003b | r0003c | r0004 | r0004b.

#[global] Instance revision_eq_dec : EqDecision revision.
Proof. solve_decision. Defined.

(** [down_revision] of every file *)
Definition down_revision (r : revision) : option revision :=
  match r with
  | r0001 => None
  | r0002 => Some r0001
  | r0003 => Some r0002
  | r0003b => Some r0003
  | r0003c => Some r0003b
  | r0004 => Some r0003c
  | r0004b => Some r0004
  end.

(** [_NEW_TABLES] of 0004 and of 0004b *)
Definition new_tables_0004 : list TableDef :=
  [AgentRuntimeSession_table; AgentRuntimePersonaSlot_table; AgentRuntimeApiKey_table].
Definition new_tables_0004b : list TableDef := [AgentRuntimeClosure_table].

Definition NEW_SESSIONS_INDEX_NAME : string := "ix_agent_runtime_sessions_open".

(** [upgrade()] and [downgrade()] of 0001_initial_schema.py *)
Definition upgrade_0001 : DDL unit := create_all metadata.
Definition downgrade_0001 : DDL unit := drop_all.

(** 0002_external_agent_statuses.py *)
Definition upgrade_0002 : DDL unit := create_all metadata.
Definition downgrade_0002 : DDL unit := drop_table (td_name ExternalAgentStatus_table).

(** 0003_agent_room_assignments.py *)
Definition upgrade_0003 : DDL unit :=
  _ ← create_all metadata;
  sweep_indexes AgentRoomAssignment_table.
Definition downgrade_0003 : DDL unit := drop_table (td_name AgentRoomAssignment_table).

(** 0003b_model_invocations_index.py *)
Definition upgrade_0003b : DDL unit :=
  _ ← create_all metadata;
  sweep_indexes ModelInvocation_table.
Definition downgrade_0003b : DDL unit :=
  for_each (td_indexes ModelInvocation_table) (drop_index (td_name ModelInvocation_table)).

(** 0003c_projects.py *)
Definition upgrade_0003c : DDL unit :=
  _ ← create_all metadata;
  _ ← sweep_indexes Project_table;
  sweep_indexes MissionProject_table.
Definition downgrade_0003c : DDL unit :=
  _ ← drop_table (td_name MissionProject_table);
  drop_table (td_name Project_table).

(** 0004_agent_runtime_sessions.py *)
Definition upgrade_0004 : DDL unit :=
  _ ← create_all new_tables_0004;
  for_each new_tables_0004 sweep_indexes.
Definition downgrade_0004 : DDL unit := for_each new_tables_0004 (λ t, drop_table (td_name t)).

(** 0004b_agent_runtime_closures.py *)
Definition upgrade_0004b : DDL unit :=
  _ ← create_all new_tables_0004b;
  _ ← for_each new_tables_0004b sweep_indexes;
  sweep_indexes AgentRuntimeSession_table.
Definition downgrade_0004b : DDL unit :=
  _ ← drop_index (td_name AgentRuntimeSession_table) NEW_SESSIONS_INDEX_NAME;
  for_each new_tables_0004b (λ t, drop_table (td_name t)).

Definition upgrade (r : revision) : DDL unit :=
  match r with
  | r0001 => upgrade_0001
  | r0002 => upgrade_0002
  | r0003 => upgrade_0003
  | r0003b => upgrade_0003b
  | r0003c => upgrade_0003c
  | r0004 => upgrade_0004
  | r0004b => upgrade_0004b
  end.

Definition downgrade (r : revision) : DDL unit :=
  match r with
  | r0001 => downgrade_0001
  | r0002 => downgrade_0002
  | r0003 => downgrade_0003
  | r0003b => downgrade_0003b
  | r0003c => downgrade_0003c
  | r0004 => downgrade_0004
  | r0004b => downgrade_0004b
  end.

(** ** Alembic commands *)

(** The revisions on top of [below], up to [r], newest first; [None] when [below] is not
    under [r]. *)
Fixpoint down_path (fuel : nat) (below : option revision) (r : option revision) : option (list revision) :=
  if decide (r = below) then Some []
  else match fuel, r with
       | S fuel, Some r' => cons r' <$> down_path fuel below (down_revision r')
       | _, _ => None
       end.

(** The database: its tables and the row of [alembic_version]. *)
Record Database := mkDatabase { db_schema : schema; db_version : option revision }.

(** [do_run_migrations]: all steps in one transaction. *)
Definition run_migrations (steps : DDL unit) (target : option revision) (d : Database) :
    outcome ddl_error unit * Database :=
  match steps (db_schema d) with
  | (Ret _, s) => (Ret tt, mkDatabase s target)
  | (Raise e, _) => (Raise e, d)
  end.

(** [alembic upgrade target] and [alembic downgrade target], for a target on the way up or
    down from the current revision. There are seven revisions. *)
Definition alembic_upgrade (target : revision) (d : Database) : option (outcome ddl_error unit * Database) :=
  path ← down_path 7 (db_version d) (Some target);
  Some (run_migrations (for_each (rev path) upgrade) (Some target) d).

Definition alembic_downgrade (target : option revision) (d : Database) : option (outcome ddl_error unit * Database) :=
  path ← down_path 7 target (db_version d);
  Some (run_migrations (for_each path downgrade) target d).

Definition head_revision : revision := r0004b.
Definition empty_database : Database := mkDatabase ∅ None.

(** ** What [create_all] does *)

Definition find_def (n : string) (ts : list TableDef) : option TableDef :=
  List.find (λ t, bool_decide (td_name t = n)) ts.

(** A table as [CREATE TABLE] leaves it, its [use_alter] keys, and both. *)
Definition created (t : TableDef) : TableState := mkTableState (list_to_set (td_refs t)) (list_to_set (td_indexes t)).
Definition add_late (t : TableDef) (st : TableState) : TableState :=
  mkTableState (list_to_set (td_late_refs t) ∪ ts_refs st) (ts_indexes st).
Definition full (t : TableDef) : TableState := add_late t (created t).

Abbreviation names ts := (td_name <$> ts).
Abbreviation never := (λ _ _, False).

Lemma find_def_Some n ts t : find_def n ts = Some t → t ∈ ts ∧ td_name t = n.
Proof. intros [Ht%list_elem_of_In Hn%bool_decide_eq_true]%List.find_some. done. Qed.

Lemma find_def_None n ts : find_def n ts = None ↔ n ∉ names ts.
Proof.
  unfold find_def. induction ts as [|t ts IH]; simpl; [split; [intros _; apply not_elem_of_nil|done]|].
  rewrite not_elem_of_cons, <- IH. case_bool_decide; naive_solver.
Qed.

Lemma find_def_elem t ts : NoDup (names ts) → t ∈ ts → find_def (td_name t) ts = Some t.
Proof.
  unfold find_def. induction ts as [|u ts IH]; simpl; [by intros _ ?%not_elem_of_nil|].
  intros [Hu Hnd]%NoDup_cons [->|Ht]%elem_of_cons; [by rewrite bool_decide_true|].
  rewrite bool_decide_false; [by apply IH|]. intros E. apply Hu. rewrite E. by apply list_elem_of_fmap_2.
Qed.

Lemma has_table_true n s : has_table n s = true ↔ is_Some (s !! n).
Proof. apply bool_decide_eq_true. Qed.
Lemma has_table_false n s : has_table n s = false ↔ s !! n = None.
Proof. unfold has_table. rewrite bool_decide_eq_false. symmetry. apply eq_None_not_Some. Qed.

Lemma need_table_spec n s Q : is_Some (s !! n) → Q tt s → wp (need_table n) s Q never.
Proof. intros Hn HQ. apply wp_bind, wp_get. rewrite (proj2 (has_table_true n s) Hn). by apply wp_ret. Qed.

Lemma need_tables_spec l s Q : (∀ n, n ∈ l → is_Some (s !! n)) → Q tt s → wp (for_each l need_table) s Q never.
Proof.
  intros Hl HQ. induction l as [|n l IH]; simpl; [by apply wp_ret|].
  apply wp_bind, need_table_spec; [apply Hl; by left|]. apply IH. intros m Hm. apply Hl. by right.
Qed.

(** Indexes that are made one by one, whatever the statement. *)
Lemma indexes_spec (step : string → DDL unit) n l st s :
  (∀ i st s, s !! n = Some st →
     wp (step i) s (λ _ s', s' = <[n := mkTableState (ts_refs st) ({[ i ]} ∪ ts_indexes st)]> s) never) →
  s !! n = Some st →
  wp (for_each l step) s
    (λ _ s', s' = <[n := mkTableState (ts_refs st) (list_to_set l ∪ ts_indexes st)]> s) never.
Proof.
  intros Hstep. revert st s. induction l as [|i l IH]; intros st s Hn; simpl.
  - apply wp_ret. rewrite insert_id; [done|]. rewrite Hn. f_equal. destruct st. f_equal. simpl. set_solver.
  - apply wp_bind. eapply wp_mono; [by apply Hstep| |done]. intros [] s1 ->.
    eapply wp_mono; [apply IH, lookup_insert_eq| |done].
    intros [] s' ->. rewrite insert_insert_eq. simpl. do 2 f_equal. set_solver.
Qed.

Lemma add_index_spec n i st s :
  s !! n = Some st →
  wp (add_index n i) s (λ _ s', s' = <[n := mkTableState (ts_refs st) ({[ i ]} ∪ ts_indexes st)]> s) never.
Proof.
  intros Hn. apply wp_bind, need_table_spec; [done|]. apply wp_modify. by rewrite (alter_insert_eq _ _ _ _ Hn).
Qed.

Lemma create_index_spec n i st s :
  s !! n = Some st →
  wp (create_index n i) s (λ _ s', s' = <[n := mkTableState (ts_refs st) ({[ i ]} ∪ ts_indexes st)]> s) never.
Proof.
  intros Hn. apply wp_bind, wp_get. unfold has_index. rewrite Hn. case_bool_decide as Hi; [|by apply add_index_spec].
  apply wp_ret. rewrite insert_id; [done|]. rewrite Hn. destruct st. simpl in *. do 2 f_equal. set_solver.
Qed.

Lemma create_table_spec t s Q :
  (∀ r, r ∈ td_refs t → r ≠ td_name t → is_Some (s !! r)) → Q tt (<[td_name t := created t]> s) →
  wp (create_table t) s Q never.
Proof.
  intros Hr HQ. unfold create_table. apply wp_bind, need_tables_spec.
  { intros n [Hn Hin]%list_elem_of_filter. by apply Hr. }
  apply wp_bind, wp_modify. eapply wp_mono; [apply indexes_spec, lookup_insert_eq; intros; by apply add_index_spec| |done].
  intros [] s' ->. rewrite insert_insert_eq. simpl. by rewrite union_empty_r_L.
Qed.

(** Every table's references lead to [known] tables or to earlier ones. *)
Fixpoint closed (known : gset string) (ts : list TableDef) : bool :=
  match ts with
  | [] => true
  | t :: ts =>
      bool_decide (list_to_set (td_refs t) ⊆ {[ td_name t ]} ∪ known) && closed ({[ td_name t ]} ∪ known) ts
  end.

(** A schema after a pass over some tables: [f] for them, [s] elsewhere. *)
Definition overlaid (ts : list TableDef) (f : TableDef → option TableState) (s s' : schema) : Prop :=
  ∀ n, s' !! n = match find_def n ts with Some t => f t | None => s !! n end.

Lemma create_tables_spec l s known :
  NoDup (names l) → (∀ n, n ∈ known → is_Some (s !! n)) → closed known l = true →
  wp (for_each l create_table) s (λ _, overlaid l (Some ∘ created) s) never.
Proof.
  revert s known. induction l as [|t l IH]; intros s known Hnd Hk Hc; simpl; [by apply wp_ret|].
  apply NoDup_cons in Hnd as [Ht Hnd]. simpl in Hc. apply andb_true_iff in Hc as [Hr%bool_decide_eq_true Hc].
  apply wp_bind, create_table_spec.
  { intros r Hin Hne. apply Hk. set_solver. }
  eapply wp_mono; [apply (IH _ ({[ td_name t ]} ∪ known)); [done| |done]| |done].
  - intros n [->%elem_of_singleton|Hn]%elem_of_union; [by rewrite lookup_insert_eq|].
    rewrite lookup_insert_is_Some'. auto.
  - intros [] s' Hs' n. rewrite Hs'. unfold find_def. simpl. case_bool_decide as E.
    + subst n. apply find_def_None in Ht. unfold find_def in Ht. by rewrite Ht, lookup_insert_eq.
    + case_match; [done|]. by rewrite lookup_insert_ne.
Qed.

Lemma add_foreign_keys_spec n l st s :
  s !! n = Some st → (∀ r, r ∈ l → is_Some (s !! r)) →
  wp (for_each l (add_foreign_key n)) s
    (λ _ s', s' = <[n := mkTableState (list_to_set l ∪ ts_refs st) (ts_indexes st)]> s) never.
Proof.
  revert st s. induction l as [|r l IH]; intros st s Hn Hl; simpl.
  - apply wp_ret. rewrite insert_id; [done|]. rewrite Hn. f_equal. destruct st. f_equal. simpl. set_solver.
  - apply wp_bind. apply wp_bind, need_table_spec; [apply Hl; by left|]. apply wp_modify.
    eapply wp_mono; [apply (IH (mkTableState ({[ r ]} ∪ ts_refs st) (ts_indexes st)))| |done].
    + by rewrite lookup_alter_eq, Hn.
    + intros m Hm. apply lookup_alter_is_Some, Hl. by right.
    + intros [] s' ->. rewrite (alter_insert_eq _ _ _ _ Hn), insert_insert_eq. simpl. do 2 f_equal. set_solver.
Qed.

(** A pass over tables that exist, each step of which rewrites the entry of its own table. *)
Lemma pass_spec (step : TableDef → DDL unit) (f : TableDef → TableState → TableState)
    (pre : TableDef → TableState → Prop) (ok : schema → Prop) l s :
  (∀ t st s, t ∈ l → s !! td_name t = Some st → pre t st → ok s →
     wp (step t) s (λ _ s', s' = <[td_name t := f t st]> s) never) →
  (∀ n st s, ok s → ok (<[n := st]> s)) →
  NoDup (names l) → (∀ t, t ∈ l → ∃ st, s !! td_name t = Some st ∧ pre t st) → ok s →
  wp (for_each l step) s (λ _, overlaid l (λ t, f t <$> s !! td_name t) s) never.
Proof.
  intros Hstep Hok. revert s. induction l as [|t l IH]; intros s Hnd Hl Hs; simpl; [by apply wp_ret|].
  apply NoDup_cons in Hnd as [Ht Hnd]. destruct (Hl t ltac:(by left)) as (st & Hst & Hp).
  apply wp_bind. eapply wp_mono; [apply (Hstep t st); [by left|done..]| |done]. intros [] s1 ->.
  assert (∀ u, u ∈ l → td_name t ≠ td_name u) as Hne.
  { intros u Hu E. apply Ht. rewrite E. by apply list_elem_of_fmap_2. }
  eapply wp_mono; [apply IH; [intros; apply Hstep; [by right|done..]|done| |by apply Hok]| |done].
  - intros u Hu. rewrite lookup_insert_ne by auto. apply Hl. by right.
  - intros [] s' Hs' n. rewrite Hs'. unfold find_def. simpl. case_bool_decide as E.
    + subst n. apply find_def_None in Ht. unfold find_def in Ht. by rewrite Ht, lookup_insert_eq, Hst.
    + destruct (List.find _ l) as [u|] eqn:Hu; [|by rewrite lookup_insert_ne].
      apply find_def_Some in Hu as [Hu Hn]. subst n. by rewrite lookup_insert_ne by auto.
Qed.

Lemma late_refs_spec l s :
  NoDup (names l) → (∀ t, t ∈ l → is_Some (s !! td_name t)) → (∀ t r, t ∈ l → r ∈ td_late_refs t → is_Some (s !! r)) →
  wp (for_each l (λ t, for_each (td_late_refs t) (add_foreign_key (td_name t)))) s
    (λ _, overlaid l (λ t, add_late t <$> s !! td_name t) s) never.
Proof.
  intros Hnd Hl Hr.
  apply (pass_spec _ _ (λ _ _, True) (λ s, ∀ t r, t ∈ l → r ∈ td_late_refs t → is_Some (s !! r))); [..|done| |done].
  - intros t st s' Ht Hn _ Hs'. apply add_foreign_keys_spec; [done|]. intros r. by apply Hs'.
  - intros n st s' Hs' t r Ht Hin. rewrite lookup_insert_is_Some'. right. by apply (Hs' t).
  - intros t Ht. destruct (Hl t Ht) as [st Hn]. by exists st.
Qed.

Definition late_closed (known : gset string) (ts : list TableDef) : bool :=
  forallb (λ t, bool_decide (list_to_set (td_late_refs t) ⊆ known ∪ list_to_set (names ts))) ts.

Lemma names_filter_sublist (P : TableDef → Prop) `{!∀ t, Decision (P t)} ts : names (filter P ts) `sublist_of` names ts.
Proof. apply fmap_sublist, sublist_filter. Qed.

Lemma closed_mono k1 k2 ts : k1 ⊆ k2 → closed k1 ts = true → closed k2 ts = true.
Proof.
  revert k1 k2. induction ts as [|t ts IH]; intros k1 k2 Hk; simpl; [done|].
  rewrite !andb_true_iff, !bool_decide_eq_true. intros [Hr Hc]. split; [set_solver|]. eapply IH, Hc. set_solver.
Qed.

(** Leaving out tables that exist keeps the order of the others closed. *)
Lemma closed_filter known s ts :
  (∀ n, is_Some (s !! n) → n ∈ known) → closed known ts = true →
  closed known (filter (λ t, has_table (td_name t) s = false) ts) = true.
Proof.
  revert known. induction ts as [|t ts IH]; intros known Hs Hc; [done|]. simpl in Hc.
  apply andb_true_iff in Hc as [Hr%bool_decide_eq_true Hc]. rewrite filter_cons. case_decide as Ht; simpl.
  - apply andb_true_iff. split; [by apply bool_decide_eq_true|]. apply IH; [|done]. intros n Hn. specialize (Hs n Hn). set_solver.
  - apply not_false_iff_true, has_table_true, Hs in Ht. apply IH; [done|]. eapply closed_mono, Hc. set_solver.
Qed.

(** [create_all] makes the tables that are missing, complete with their keys and indexes,
    and leaves the others as they are. *)
Lemma create_all_spec ts s :
  NoDup (names ts) → closed (dom s) ts = true → late_closed (dom s) ts = true →
  wp (create_all ts) s
    (λ _ s', ∀ n, s' !! n = match s !! n with Some st => Some st | None => full <$> find_def n ts end) never.
Proof.
  intros Hnd Hc Hlc. unfold create_all. apply wp_bind, wp_get. set (missing := filter _ ts).
  assert (NoDup (names missing)) as Hnd' by (by eapply sublist_NoDup, names_filter_sublist).
  assert (∀ n, find_def n missing = match s !! n with Some _ => None | None => find_def n ts end) as Hfind.
  { intros n. destruct (s !! n) as [st|] eqn:Hn.
    - apply find_def_None. intros (t & -> & Ht)%list_elem_of_fmap. apply list_elem_of_filter in Ht as [Ht _].
      apply has_table_false in Ht. congruence.
    - destruct (find_def n ts) as [t|] eqn:Ht.
      + apply find_def_Some in Ht as [Ht <-]. apply find_def_elem; [done|]. apply list_elem_of_filter.
        by rewrite has_table_false.
      + apply find_def_None. apply find_def_None in Ht. intros Hin. apply Ht.
        revert Hin. apply (sublist_subseteq _ _ (names_filter_sublist _ _)). }
  assert (∀ t, t ∈ missing → s !! td_name t = None) as Hmiss.
  { intros t [Ht _]%list_elem_of_filter. by apply has_table_false. }
  apply wp_bind. eapply wp_mono; [apply (create_tables_spec _ _ (dom s)); [done| |]| |done].
  { intros n. by rewrite elem_of_dom. }
  { apply closed_filter; [|done]. intros n. by rewrite elem_of_dom. }
  intros [] s1 H1. eapply wp_mono; [apply late_refs_spec; [done|..]| |done].
  - intros t Ht. rewrite H1, (find_def_elem t missing) by done. by eexists.
  - intros t r Ht Hr. rewrite H1. apply list_elem_of_filter in Ht as [_ Ht].
    assert (r ∈ dom s ∪ list_to_set (names ts)) as Hin.
    { unfold late_closed in Hlc. rewrite forallb_forall in Hlc. apply list_elem_of_In, Hlc, bool_decide_eq_true in Ht.
      apply Ht. by apply elem_of_list_to_set. }
    rewrite Hfind. destruct (s !! r) as [st|] eqn:Hn; [done|].
    apply elem_of_union in Hin as [Hin%elem_of_dom|Hin%elem_of_list_to_set]; [rewrite Hn in Hin; by destruct Hin|].
    destruct (find_def r ts) eqn:Hd; [by eexists|]. by apply find_def_None in Hd.
  - intros [] s2 H2 n. rewrite H2, Hfind. destruct (s !! n) as [st|] eqn:Hn.
    + rewrite H1, Hfind, Hn. done.
    + destruct (find_def n ts) as [t|] eqn:Ht; simpl.
      * destruct (find_def_Some _ _ _ Ht) as [_ <-]. rewrite H1, Hfind, Hn, Ht. done.
      * by rewrite H1, Hfind, Hn, Ht.
Qed.

(** ** Upgrades *)

(** The table with its indexes is there. *)
Definition has (s : schema) (t : TableDef) : Prop :=
  ∃ st, s !! td_name t = Some st ∧ list_to_set (td_indexes t) ⊆ ts_indexes st.

(** The indexes models.py declares on the table [n]. *)
Definition def_indexes (n : string) : gset string :=
  match find_def n metadata with Some t => list_to_set (td_indexes t) | None => ∅ end.

(** How an upgrade may change the entry of [n]: a table that exists keeps its keys and may get
    indexes that models.py declares; a table that is missing may be created in full. *)
Definition grow (n : string) (o o' : option TableState) : Prop :=
  match o, o' with
  | Some st, Some st' => ts_refs st' = ts_refs st ∧ ts_indexes st ⊆ ts_indexes st' ⊆ ts_indexes st ∪ def_indexes n
  | None, Some st' => ∃ t, find_def n metadata = Some t ∧ st' = full t
  | None, None => True
  | Some _, None => False
  end.

Definition grown (s s' : schema) : Prop := ∀ n, grow n (s !! n) (s' !! n).

#[global] Instance grown_preorder : PreOrder grown.
Proof.
  split.
  - intros s n. unfold grow. destruct (s !! n); [split; [done|set_solver]|done].
  - intros s1 s2 s3 H12 H23 n. specialize (H12 n). specialize (H23 n). unfold grow in *.
    destruct (s1 !! n) as [a|], (s2 !! n) as [b|], (s3 !! n) as [c|]; try done.
    + destruct H12 as (E1 & L1 & U1), H23 as (E2 & L2 & U2). split; [congruence|]. clear -L1 U1 L2 U2. set_solver.
    + destruct H12 as (t & Ht & ->), H23 as (E & L & U). exists t. split; [done|].
      unfold def_indexes in U. rewrite Ht in U. destruct c as [r i]. unfold full, add_late in *. simpl in *. f_equal; [done|]. clear -L U. set_solver.
Qed.

Lemma has_grown s s' t : grown s s' → has s t → has s' t.
Proof.
  intros Hg (st & Hn & Hi). specialize (Hg (td_name t)). unfold grow in Hg. rewrite Hn in Hg.
  destruct (s' !! td_name t) as [st'|] eqn:Hn'; [|done]. exists st'. split; [done|]. set_solver.
Qed.

Lemma all_has_grown s s' ts : grown s s' → Forall (has s) ts → Forall (has s') ts.
Proof. intros Hg Hs. eapply Forall_impl; [exact Hs|]. intros t. by apply has_grown. Qed.

Lemma has_known s ts : Forall (has s) ts → list_to_set (names ts) ⊆ dom s.
Proof.
  intros Hs n. rewrite elem_of_list_to_set. intros (t & -> & Ht)%list_elem_of_fmap.
  destruct (proj1 (Forall_forall _ _) Hs t Ht) as (st & Hn & _). by apply elem_of_dom.
Qed.

(** Tables of models.py, whose references lead to the tables of [known] or to one another. *)
Definition addable (known ts : list TableDef) : bool :=
  bool_decide (NoDup (names ts)) && closed (list_to_set (names known)) ts &&
  late_closed (list_to_set (names known)) ts && forallb (λ t, bool_decide (find_def (td_name t) metadata = Some t)) ts.

Lemma create_all_grown known ts s :
  addable known ts = true → Forall (has s) known →
  wp (create_all ts) s (λ _ s', grown s s' ∧ ∀ t, t ∈ ts → is_Some (s' !! td_name t)) never.
Proof.
  intros Ha Hk. unfold addable in Ha. rewrite !andb_true_iff, bool_decide_eq_true, forallb_forall in Ha.
  destruct Ha as [[[Hnd Hc] Hl] Hd]. apply has_known in Hk.
  assert (∀ t, t ∈ ts → find_def (td_name t) metadata = Some t) as Hdef.
  { intros t Ht%list_elem_of_In. apply Hd in Ht. by apply bool_decide_eq_true in Ht. }
  eapply wp_mono; [apply create_all_spec; [done|by eapply closed_mono|]| |done].
  - unfold late_closed in *. rewrite forallb_forall in *. intros t Ht. specialize (Hl t Ht).
    rewrite bool_decide_eq_true in *. set_solver.
  - intros [] s' Hs'. split.
    + intros n. rewrite Hs'. unfold grow. destruct (s !! n) as [st|]; [split; [done|set_solver]|].
      destruct (find_def n ts) as [t|] eqn:Ht; [|done]. simpl. exists t. split; [|done].
      destruct (find_def_Some _ _ _ Ht) as [Hin <-]. by apply Hdef.
    + intros t Ht. rewrite Hs'. destruct (s !! td_name t); [by eexists|]. rewrite (find_def_elem t ts) by done. by eexists.
Qed.

Lemma sweep_indexes_grown t s :
  find_def (td_name t) metadata = Some t → is_Some (s !! td_name t) →
  wp (sweep_indexes t) s (λ _ s', grown s s' ∧ has s' t) never.
Proof.
  intros Ht [st Hn]. eapply wp_mono; [by apply indexes_spec; [intros; by apply create_index_spec|]| |done].
  intros [] s' ->. split.
  - intros n. destruct (decide (n = td_name t)) as [->|Hne]; unfold grow.
    + rewrite Hn, lookup_insert_eq. unfold def_indexes. rewrite Ht. simpl. split; [done|set_solver].
    + rewrite lookup_insert_ne by done. destruct (s !! n); [split; [done|set_solver]|done].
  - exists (mkTableState (ts_refs st) (list_to_set (td_indexes t) ∪ ts_indexes st)). split; [apply lookup_insert_eq|set_solver].
Qed.

(** A table with no index in particular. *)
Definition bare (t : TableDef) : TableDef := mkTableDef (td_name t) (td_refs t) (td_late_refs t) [].

Lemma has_bare s t : is_Some (s !! td_name t) → has s (bare t).
Proof. intros [st Hn]. exists st. split; [done|]. simpl. set_solver. Qed.

(** What a revision is there for, by its own account: the tables and indexes that a database
    at that revision has on top of the ones below. *)
Definition provides (r : revision) : list TableDef :=
  match r with
  | r0001 => bare <$> [Tenant_table; User_table; ModelPolicy_table; Agent_table; AgentVersion_table; Mission_table;
                       Task_table; RuntimeCheckpoint_table; Artifact_table; AuditEvent_table; ModelInvocation_table]
  | r0002 => [ExternalAgentStatus_table]
  | r0003 => [AgentRoomAssignment_table]
  | r0003b => [ModelInvocation_table]
  | r0003c => [Project_table; MissionProject_table]
  | r0004 => [mkTableDef "agent_runtime_sessions" [] []
                ["uq_agent_runtime_sessions_session_ref"; "uq_agent_runtime_sessions_instance_ref";
                 "ix_agent_runtime_sessions_mission_id"];
              AgentRuntimePersonaSlot_table; AgentRuntimeApiKey_table]
  | r0004b => [AgentRuntimeClosure_table; AgentRuntimeSession_table]
  end.

(** Everything up to the revision [v], and a database that has it; it may have more. *)
Definition provided (v : option revision) : list TableDef := concat (provides <$> default [] (down_path 7 None v)).
Definition at_revision (v : option revision) (s : schema) : Prop := Forall (has s) (provided v).

Lemma provided_cons r : provided (Some r) = provides r ++ provided (down_revision r).
Proof. by destruct r. Qed.

(** An unrestricted [create_all] needs nothing. *)
Lemma create_metadata_grown s :
  wp (create_all metadata) s (λ _ s', grown s s' ∧ ∀ t, t ∈ metadata → is_Some (s' !! td_name t)) never.
Proof. apply (create_all_grown []); [vm_compute; reflexivity|by apply Forall_nil]. Qed.

Lemma metadata_def t : t ∈ metadata → find_def (td_name t) metadata = Some t.
Proof.
  apply find_def_elem. refine (bool_decide_eq_true_1 _ _). vm_compute. reflexivity.
Qed.

(** A decidable fact about the tables of models.py, by computation. *)
Ltac in_metadata := refine (bool_decide_eq_true_1 _ _); vm_compute; reflexivity.

Lemma sweep_list_grown ts s :
  (∀ t, t ∈ ts → t ∈ metadata ∧ is_Some (s !! td_name t)) →
  wp (for_each ts sweep_indexes) s (λ _ s', grown s s' ∧ Forall (has s') ts) never.
Proof.
  revert s. induction ts as [|t ts IH]; intros s Hts; simpl; [apply wp_ret; split; [done|by apply Forall_nil]|].
  destruct (Hts t ltac:(by left)) as [Hm Hs]. apply wp_bind.
  eapply wp_mono; [by apply sweep_indexes_grown; [apply metadata_def|]| |done]. intros [] s1 [G1 Ht].
  eapply wp_mono; [apply IH| |done].
  - intros u Hu. destruct (Hts u ltac:(by right)) as [Hum [st Hn]]. split; [done|].
    specialize (G1 (td_name u)). unfold grow in G1. rewrite Hn in G1. destruct (s1 !! td_name u); [by eexists|done].
  - intros [] s2 [G2 Hts2]. split; [by etrans|]. constructor; [by eapply has_grown|done].
Qed.

(** [create_all(tables)] and then a sweep over some of the tables. *)
Lemma create_and_sweep known ts swept s :
  addable known ts = true → Forall (has s) known → (∀ t, t ∈ swept → t ∈ metadata ∧ t ∈ ts) →
  wp (_ ← create_all ts; for_each swept sweep_indexes) s
    (λ _ s', grown s s' ∧ Forall (has s') swept ∧ ∀ t, t ∈ ts → is_Some (s' !! td_name t)) never.
Proof.
  intros Ha Hk Hsw. apply wp_bind. eapply wp_mono; [by apply (create_all_grown known)| |done]. intros [] s1 [G1 Hts].
  eapply wp_mono; [apply sweep_list_grown| |done].
  - intros t Ht. destruct (Hsw t Ht). auto.
  - intros [] s2 [G2 Hs2]. split; [by etrans|]. split; [done|]. intros t Ht. destruct (Hts t Ht) as [st Hn].
    specialize (G2 (td_name t)). unfold grow in G2. rewrite Hn in G2. destruct (s2 !! td_name t); [by eexists|done].
Qed.

(** A table that is there stays there. *)
Lemma grown_Some s s' n : grown s s' → is_Some (s !! n) → is_Some (s' !! n).
Proof. intros Hg [st Hn]. specialize (Hg n). unfold grow in Hg. rewrite Hn in Hg. destruct (s' !! n); [by eexists|done]. Qed.

(** Tables without an index in particular, after a [create_all] of everything. *)
Lemma bare_present l s :
  bool_decide (Forall (λ t, t ∈ metadata) l) = true → (∀ t, t ∈ metadata → is_Some (s !! td_name t)) →
  Forall (has s) (bare <$> l).
Proof.
  intros Hl%bool_decide_eq_true Hs. apply Forall_fmap. eapply Forall_impl; [exact Hl|]. intros t Ht. by apply has_bare, Hs.
Qed.

Lemma upgrade_spec r s :
  at_revision (down_revision r) s → wp (upgrade r) s (λ _ s', grown s s' ∧ Forall (has s') (provides r)) never.
Proof.
  intros Hat.
  assert (∀ l, provides r = bare <$> l → bool_decide (Forall (λ t, t ∈ metadata) l) = true →
    wp (create_all metadata) s (λ _ s', grown s s' ∧ Forall (has s') (provides r)) never) as Hbare.
  { intros l E Hl. eapply wp_mono; [apply create_metadata_grown| |done]. intros [] s1 [G1 H1]. rewrite E.
    split; [done|]. by apply bare_present. }
  assert (∀ t, t ∈ metadata →
    wp (_ ← create_all metadata; sweep_indexes t) s (λ _ s', grown s s' ∧ Forall (has s') [t]) never) as Hsweep.
  { intros t Ht. apply wp_bind. eapply wp_mono; [apply create_metadata_grown| |done]. intros [] s1 [G1 H1].
    eapply wp_mono; [apply sweep_indexes_grown; [by apply metadata_def|by apply H1]| |done].
    intros [] s2 [G2 H2]. split; [by etrans|]. by apply Forall_singleton. }
  destruct r; cbn [upgrade upgrade_0001 upgrade_0002 upgrade_0003 upgrade_0003b upgrade_0003c upgrade_0004 upgrade_0004b].
  - by apply (Hbare _ eq_refl).
  - by apply (Hbare [ExternalAgentStatus_table]).
  - apply Hsweep. in_metadata.
  - apply Hsweep. in_metadata.
  - apply wp_bind. eapply wp_mono; [apply (Hbare [Project_table; MissionProject_table]); done| |done]. by intros [] s1.
  - eapply wp_mono; [apply (create_and_sweep (provided (Some r0003c)) _ new_tables_0004)| |done].
    + vm_compute. reflexivity.
    + exact Hat.
    + intros t Ht. split; [|done]. revert t Ht. apply Forall_forall. in_metadata.
    + intros [] s1 (G1 & H1 & _). split; [done|]. inversion_clear H1 as [|? ? (st & Hn & Hi) H1']. constructor; [|done].
      exists st. split; [done|]. simpl in *. set_solver.
  - change (provides r0004b) with (new_tables_0004b ++ [AgentRuntimeSession_table]).
    apply wp_bind. eapply wp_mono; [apply (create_all_grown (provided (Some r0004))); [vm_compute; reflexivity|exact Hat]| |done].
    intros [] s1 [G1 H1]. apply wp_bind. eapply wp_mono; [apply sweep_list_grown| |done].
    + intros t Ht. split; [|by apply H1]. revert t Ht. apply Forall_forall. in_metadata.
    + intros [] s2 [G2 H2]. eapply wp_mono; [apply sweep_indexes_grown; [apply metadata_def; in_metadata|]| |done].
      * apply (grown_Some s); [by etrans|]. inversion_clear Hat as [|? ? (st & Hn & _) _]. by eexists.
      * intros [] s3 [G3 H3]. split; [etrans; [exact G1|]; by etrans|]. apply Forall_app_2; [by eapply all_has_grown|by apply Forall_singleton].
Qed.

(** A sequence of revisions, each on top of the one before. *)
Fixpoint chained (v : option revision) (rs : list revision) : Prop :=
  match rs with [] => True | r :: rs => down_revision r = v ∧ chained (Some r) rs end.

(** Where they lead. *)
Fixpoint top (v : option revision) (rs : list revision) : option revision :=
  match rs with [] => v | r :: rs => top (Some r) rs end.

Lemma upgrades_spec rs v s :
  chained v rs → at_revision v s →
  wp (for_each rs upgrade) s (λ _ s', grown s s' ∧ at_revision (top v rs) s') never.
Proof.
  revert v s. induction rs as [|r rs IH]; intros v s; simpl; [by intros _ Hs; apply wp_ret|]. intros [<- Hc] Hs.
  apply wp_bind. eapply wp_mono; [by apply upgrade_spec| |done]. intros [] s1 [G1 H1].
  eapply wp_mono; [apply (IH _ _ Hc)| |done].
  - unfold at_revision. rewrite provided_cons. apply Forall_app_2; [done|]. by eapply all_has_grown.
  - intros [] s2 [G2 H2]. split; [by etrans|done].
Qed.

(** Every table of models.py with all its indexes. *)
Definition complete (s : schema) : Prop := Forall (has s) metadata.

Lemma head_complete s : at_revision (Some head_revision) s → complete s.
Proof.
  intros Hs. assert (Forall (λ t, Exists (λ u, td_name u = td_name t ∧ td_indexes u = td_indexes t)
    (provided (Some head_revision))) metadata) as Hm by in_metadata.
  eapply Forall_impl; [exact Hm|]. intros t (u & Hu & En & Ei)%Exists_exists.
  destruct (proj1 (Forall_forall _ _) Hs u Hu) as (st & Hn & Hi). exists st. by rewrite <- En, <- Ei.
Qed.

(** [alembic upgrade head] from any revision. *)
Lemma upgrade_to_head d :
  at_revision (db_version d) (db_schema d) →
  ∃ s', alembic_upgrade head_revision d = Some (Ret tt, mkDatabase s' (Some head_revision)) ∧
        complete s' ∧ grown (db_schema d) s'.
Proof.
  intros Hd. destruct d as [s v]. simpl in Hd.
  assert (∃ path, down_path 7 v (Some head_revision) = Some path ∧ chained v (rev path) ∧
    top v (rev path) = Some head_revision) as (path & Hp & Hc & Hl).
  { destruct v as [[]|]; eexists; split_and!; reflexivity || (simpl; tauto). }
  unfold alembic_upgrade. cbn [db_version]. rewrite Hp.
  pose proof (upgrades_spec (rev path) v s Hc Hd) as Hw. rewrite Hl in Hw.
  unfold run_migrations. cbn. unfold wp in Hw. destruct (for_each (rev path) upgrade s) as [[[]|e] s']; [|done].
  exists s'. destruct Hw as [Hg Ha]. split_and!; [done| |done]. by apply head_complete.
Qed.

(** ** Downgrades *)

(** A database in which the tables of models.py are complete and nothing else refers to them. *)
Record exact (s : schema) : Prop := {
  exact_full : ∀ t, t ∈ metadata → s !! td_name t = Some (full t);
  exact_apart : ∀ n st, s !! n = Some st → find_def n metadata = None → ts_refs st ## list_to_set (names metadata);
}.

(** What is left of [s] when tables and indexes of models.py have been taken away: the other
    tables as they were, and of those of models.py some, with the keys [R] and some of their
    indexes. *)
Definition reduct (R : TableDef → gset string) (s s' : schema) : Prop :=
  ∀ n, match find_def n metadata with
       | None => s' !! n = s !! n
       | Some t => ∀ st, s' !! n = Some st → ts_refs st = R t ∧ ts_indexes st ⊆ list_to_set (td_indexes t)
       end.

Definition all_refs (t : TableDef) : gset string := ts_refs (full t).

Definition absent (D : list string) (s : schema) : Prop := ∀ n, n ∈ D → s !! n = None.

Lemma exact_reduct s : exact s → reduct all_refs s s.
Proof.
  intros [Hf _] n. destruct (find_def n metadata) as [t|] eqn:Ht; [|done]. intros st Hst.
  destruct (find_def_Some _ _ _ Ht) as [Hin <-]. rewrite (Hf t Hin) in Hst. by injection Hst as <-.
Qed.

(** Upgrading a reduct to a complete schema restores the original. *)
Lemma regrown s s1 s2 : exact s → reduct all_refs s s1 → grown s1 s2 → complete s2 → s2 = s.
Proof.
  intros [Hf _] Hr Hg Hc. apply map_eq. intros n. specialize (Hr n). specialize (Hg n). unfold grow, def_indexes in Hg.
  destruct (find_def n metadata) as [t|] eqn:Ht.
  - destruct (find_def_Some _ _ _ Ht) as [Hin <-]. rewrite (Hf t Hin).
    destruct (proj1 (Forall_forall _ _) Hc t Hin) as (st2 & H2 & Hi). rewrite H2 in Hg |- *. f_equal.
    destruct (s1 !! td_name t) as [st1|]; [|destruct Hg as (u & [= <-] & ->); done].
    destruct Hg as (Er & _ & Hu), (Hr st1 eq_refl) as [E1 I1]. destruct st2 as [r2 i2]. unfold full, add_late. simpl in *.
    f_equal; [by rewrite Er, E1|]. clear -Hi Hu I1. set_solver.
  - rewrite <- Hr. destruct (s1 !! n) as [st1|], (s2 !! n) as [st2|]; try done; [|by destruct Hg as (t & ? & _)].
    destruct Hg as (Er & Hl & Hu), st1, st2. simpl in *. do 2 f_equal; [done|]. clear -Hl Hu. set_solver.
Qed.

(** No table that is left, other than [n] itself, has a key to [n]: those of models.py that
    have one are in [D]. *)
Definition droppable (R : TableDef → gset string) (D : list string) (n : string) : bool :=
  bool_decide (n ∈ names metadata) &&
  forallb (λ t, bool_decide (td_name t = n ∨ n ∉ R t ∨ td_name t ∈ D)) metadata.

Lemma no_dependents R s s1 D n :
  exact s → reduct R s s1 → absent D s1 → droppable R D n = true → dependents n s1 = [].
Proof.
  intros [_ Ha] Hr Hd Hn. unfold droppable in Hn. rewrite andb_true_iff, bool_decide_eq_true, forallb_forall in Hn.
  destruct Hn as [Hm Hn]. apply elem_of_nil_inv. intros k (p & -> & Hp)%list_elem_of_fmap.
  apply list_elem_of_filter in Hp as [Hp Hin]. destruct p as [k st]. destruct Hp as [Hk Href]. simpl in Hk.
  apply elem_of_map_to_list in Hin. specialize (Hr k). destruct (find_def k metadata) as [t|] eqn:Ht.
  - destruct (find_def_Some _ _ _ Ht) as [Htm%list_elem_of_In <-]. apply Hn, bool_decide_eq_true in Htm.
    destruct (Hr st Hin) as [E _], Htm as [?|[?|Hx]]; [done|congruence|]. rewrite (Hd _ Hx) in Hin. done.
  - rewrite Hr in Hin. apply (Ha k st Hin Ht n); [done|]. by apply elem_of_list_to_set.
Qed.

Lemma reduct_delete R s s1 n : n ∈ names metadata → reduct R s s1 → reduct R s (delete n s1).
Proof.
  intros Hn Hr k. specialize (Hr k). destruct (find_def k metadata) as [t|] eqn:Ht.
  - intros st Hst. apply Hr. by apply lookup_delete_Some in Hst as [_ ?].
  - rewrite lookup_delete_ne; [done|]. intros ->. by apply find_def_None in Ht.
Qed.

Lemma drop_table_reduct R s s1 D n :
  exact s → reduct R s s1 → absent D s1 → droppable R D n = true →
  wp (drop_table n) s1 (λ _ s2, reduct R s s2 ∧ absent (n :: D) s2) never.
Proof.
  intros He Hr Hd Hn. apply wp_bind, wp_get. rewrite (no_dependents R s s1 D n) by done.
  destruct (has_table n s1) eqn:Hp; simpl.
  - apply wp_modify. split.
    + apply reduct_delete; [|done]. apply andb_true_iff in Hn as [Hn%bool_decide_eq_true _]. done.
    + intros k [->|Hk]%elem_of_cons; [apply lookup_delete_eq|]. apply lookup_delete_None. right. by apply Hd.
  - apply wp_ret. split; [done|]. intros k [->|Hk]%elem_of_cons; [by apply has_table_false|by apply Hd].
Qed.

(** Tables in an order in which they can be dropped. *)
Fixpoint droppables (R : TableDef → gset string) (D : list string) (l : list string) : bool :=
  match l with [] => true | n :: l => droppable R D n && droppables R (n :: D) l end.

Lemma drop_tables_reduct R s s1 D l :
  exact s → reduct R s s1 → absent D s1 → droppables R D (names l) = true →
  wp (for_each l (λ t, drop_table (td_name t))) s1 (λ _ s2, reduct R s s2 ∧ absent (names l ++ D) s2) never.
Proof.
  intros He. revert s1 D. induction l as [|t l IH]; intros s1 D Hr Hd; simpl; [by intros _; apply wp_ret|].
  intros [Hn Hl]%andb_true_iff. apply wp_bind. eapply wp_mono; [by apply (drop_table_reduct R s)| |done].
  intros [] s2 [Hr2 Hd2]. eapply wp_mono; [by apply IH| |done]. intros [] s3 [Hr3 Hd3]. split; [done|].
  intros k Hk. apply Hd3. set_solver.
Qed.

Lemma drop_index_reduct R s s1 D n i :
  n ∈ names metadata → reduct R s s1 → absent D s1 →
  wp (drop_index n i) s1 (λ _ s2, reduct R s s2 ∧ absent D s2) never.
Proof.
  intros Hn Hr Hd. apply wp_bind, wp_get, wp_when. destruct (has_index n i s1); [|done]. apply wp_modify. split.
  - intros k. specialize (Hr k). destruct (find_def k metadata) as [t|] eqn:Ht.
    + intros st [(-> & st' & Hst & ->)|[Hk Hst]]%lookup_alter_Some; [|by apply Hr].
      destruct (Hr st' Hst) as [E Hi]. simpl. split; [done|]. clear -Hi. set_solver.
    + rewrite lookup_alter_ne; [done|]. intros ->. by apply find_def_None in Ht.
  - intros k Hk. apply lookup_alter_None. by apply Hd.
Qed.

(** [drop_all]: the [use_alter] keys of the tables that exist, then the tables. *)

Definition inline_refs (t : TableDef) : gset string := all_refs t ∖ list_to_set (td_late_refs t).

Lemma droppables_filter R (P : TableDef → Prop) `{!∀ t, Decision (P t)} D D' l :
  D ⊆ D' → (∀ t, t ∈ l → ¬ P t → td_name t ∈ D') →
  droppables R D (names l) = true → droppables R D' (names (filter P l)) = true.
Proof.
  revert D D'. induction l as [|t l IH]; intros D D' HD HP; [done|]. intros [Hn Hl]%andb_true_iff.
  rewrite filter_cons. case_decide as Ht.
  - apply andb_true_iff. split.
    + unfold droppable in *. rewrite andb_true_iff, forallb_forall in *. destruct Hn as [Hm Hn]. split; [done|].
      intros u Hu. specialize (Hn u Hu). rewrite bool_decide_eq_true in *.
      destruct Hn as [?|[?|?]]; [by left|by right; left|right; right; by apply HD].
    + eapply (IH (td_name t :: D)); [set_solver| |done]. intros u Hu Hp. right. apply HP; [by right|done].
  - eapply (IH (td_name t :: D)); [|intros u Hu; apply HP; by right|done].
    specialize (HP t ltac:(by left) Ht). set_solver.
Qed.

Lemma drop_foreign_keys_spec n l st s :
  s !! n = Some st → NoDup l → list_to_set l ⊆ ts_refs st →
  wp (for_each l (drop_foreign_key n)) s
    (λ _ s', s' = <[n := mkTableState (ts_refs st ∖ list_to_set l) (ts_indexes st)]> s) never.
Proof.
  revert st s. induction l as [|r l IH]; intros st s Hn Hnd Hl; simpl.
  - apply wp_ret. rewrite insert_id; [done|]. rewrite Hn. f_equal. destruct st. f_equal. simpl. set_solver.
  - apply NoDup_cons in Hnd as [Hr Hnd]. simpl in Hl. apply wp_bind. unfold drop_foreign_key. apply wp_bind, wp_get. rewrite Hn.
    rewrite bool_decide_true by set_solver. apply wp_modify.
    eapply wp_mono; [apply (IH (mkTableState (ts_refs st ∖ {[ r ]}) (ts_indexes st))); [by rewrite lookup_alter_eq, Hn|done|]| |done].
    + simpl. assert (r ∉ (list_to_set l : gset string)) by (by rewrite elem_of_list_to_set). set_solver.
    + intros [] s' ->. rewrite (alter_insert_eq _ _ _ _ Hn), insert_insert_eq. simpl. do 2 f_equal. set_solver.
Qed.

(** The tables of models.py that exist. *)
Definition existing (s : schema) : list TableDef := filter (λ t, has_table (td_name t) s = true) metadata.

Lemma metadata_NoDup : NoDup (names metadata).
Proof. in_metadata. Qed.

Lemma existing_spec R s s1 t :
  reduct R s s1 → t ∈ existing s1 → t ∈ metadata ∧ ∃ st, s1 !! td_name t = Some st ∧ ts_refs st = R t.
Proof.
  intros Hr [[st Hn]%has_table_true Ht]%list_elem_of_filter. split; [done|]. exists st. split; [done|].
  specialize (Hr (td_name t)). rewrite (metadata_def t Ht) in Hr. by apply Hr.
Qed.

Lemma find_existing n s :
  find_def n (existing s) = match s !! n with Some _ => find_def n metadata | None => None end.
Proof.
  assert (NoDup (names (existing s))) as Hnd by (eapply sublist_NoDup, names_filter_sublist; apply metadata_NoDup).
  destruct (find_def n (existing s)) as [t|] eqn:Ht.
  - destruct (find_def_Some _ _ _ Ht) as [[[st Hn]%has_table_true Hin]%list_elem_of_filter <-].
    by rewrite Hn, metadata_def.
  - destruct (s !! n) as [st|] eqn:Hn; [|done]. symmetry. apply find_def_None. apply find_def_None in Ht. intros Hin. apply Ht.
    apply list_elem_of_fmap in Hin as (t & -> & Hin). apply list_elem_of_fmap_2, list_elem_of_filter.
    split; [|done]. apply has_table_true. by eexists.
Qed.

Lemma drop_late_reduct s s1 :
  reduct all_refs s s1 →
  wp (for_each (existing s1) (λ t, for_each (td_late_refs t) (drop_foreign_key (td_name t)))) s1
    (λ _ s2, reduct inline_refs s s2 ∧ ∀ n, s1 !! n = None → s2 !! n = None) never.
Proof.
  intros Hr. assert (∀ t, t ∈ metadata → NoDup (td_late_refs t)) as Hlate by (apply Forall_forall; in_metadata).
  eapply wp_mono; [apply (pass_spec _ (λ t st, mkTableState (ts_refs st ∖ list_to_set (td_late_refs t)) (ts_indexes st))
    (λ t st, ts_refs st = all_refs t) (λ _, True)); [|done|..]| |done].
  - intros t st s' Ht Hn E _. apply drop_foreign_keys_spec; [done|by eapply Hlate, existing_spec|].
    rewrite E. unfold all_refs. simpl. set_solver.
  - eapply sublist_NoDup, names_filter_sublist. apply metadata_NoDup.
  - intros t Ht. by eapply existing_spec.
  - done.
  - intros [] s2 H2. split; [intros n; specialize (Hr n)|intros n Hn]; rewrite H2, find_existing; [|by rewrite Hn].
    destruct (s1 !! n) as [st1|] eqn:Hn, (find_def n metadata) as [t|] eqn:Ht; rewrite ?Hn; try done.
    destruct (find_def_Some _ _ _ Ht) as [_ <-]. rewrite Hn. intros st [= <-]. destruct (Hr st1 eq_refl) as [E Hi].
    simpl. by rewrite E.
Qed.

Lemma drop_all_reduct s s1 :
  exact s → reduct all_refs s s1 → wp drop_all s1 (λ _ s2, reduct all_refs s s2 ∧ absent (names metadata) s2) never.
Proof.
  intros He Hr. unfold drop_all. apply wp_bind, wp_get. change (filter _ metadata) with (existing s1).
  apply wp_bind. eapply wp_mono; [by apply drop_late_reduct| |done]. intros [] s2 [Hr2 Hd2].
  set (gone := filter (λ n, has_table n s1 = false) (names metadata)).
  eapply wp_mono; [apply (drop_tables_reduct inline_refs s _ gone); [done|done|..]| |done].
  - intros n [Hn _]%list_elem_of_filter. by apply Hd2, has_table_false.
  - unfold existing. rewrite <- filter_reverse. apply (droppables_filter _ _ []); [set_solver| |vm_compute; reflexivity].
    intros t Ht%elem_of_reverse Hn%not_true_iff_false. apply list_elem_of_filter. split; [done|by apply list_elem_of_fmap_2].
  - intros [] s3 [Hr3 Hd3]. assert (absent (names metadata) s3) as Ha.
    { intros n Hn. apply Hd3, elem_of_app. destruct (has_table n s1) eqn:Ht; [left|right; by apply list_elem_of_filter].
      apply list_elem_of_fmap in Hn as (t & -> & Hin). apply list_elem_of_fmap_2, elem_of_reverse. by apply list_elem_of_filter. }
    split; [|done]. intros n. specialize (Hr3 n). destruct (find_def n metadata) as [t|] eqn:Ht; [|done].
    intros st Hst. destruct (find_def_Some _ _ _ Ht) as [Hin <-]. rewrite Ha in Hst; [done|by apply list_elem_of_fmap_2].
Qed.

(** What a downgrade takes away. *)
Definition drops (r : revision) : list string :=
  match r with
  | r0001 => names metadata
  | r0002 => [td_name ExternalAgentStatus_table]
  | r0003 => [td_name AgentRoomAssignment_table]
  | r0003b => []
  | r0003c => [td_name Project_table; td_name MissionProject_table]
  | r0004 => names new_tables_0004
  | r0004b => names new_tables_0004b
  end.

(** The tables that a downgrade from the head to [v] drops. *)
Definition dropped_above (v : option revision) : list string :=
  concat (drops <$> default [] (down_path 7 v (Some head_revision))).

Lemma absent_sub D D' s : D' ⊆ D → absent D s → absent D' s.
Proof. intros HD Hs n Hn. by apply Hs, HD. Qed.

Lemma downgrade_reduct r s s1 :
  exact s → reduct all_refs s s1 → absent (dropped_above (Some r)) s1 →
  wp (downgrade r) s1 (λ _ s2, reduct all_refs s s2 ∧ absent (drops r ++ dropped_above (Some r)) s2) never.
Proof.
  intros He Hr Hd. destruct r; cbn [downgrade downgrade_0001 downgrade_0002 downgrade_0003 downgrade_0003b downgrade_0003c downgrade_0004 downgrade_0004b].
  - eapply wp_mono; [by apply (drop_all_reduct s)| |done]. intros [] s2 [Hr2 Hd2]. split; [done|].
    eapply absent_sub, Hd2. in_metadata.
  - apply (drop_table_reduct all_refs s _ _ _ He Hr Hd). vm_compute. reflexivity.
  - apply (drop_table_reduct all_refs s _ _ _ He Hr Hd). vm_compute. reflexivity.
  - assert (td_name ModelInvocation_table ∈ names metadata) as Hn by in_metadata.
    apply wp_bind. eapply wp_mono; [apply (drop_index_reduct all_refs s _ _ _ _ Hn Hr Hd)| |done]. intros [] s2 [Hr2 Hd2].
    apply wp_bind. eapply wp_mono; [apply (drop_index_reduct all_refs s _ _ _ _ Hn Hr2 Hd2)| |done]. by intros [] s3.
  - apply wp_bind. eapply wp_mono; [apply (drop_table_reduct all_refs s _ _ _ He Hr Hd); vm_compute; reflexivity| |done].
    intros [] s2 [Hr2 Hd2]. apply (drop_table_reduct all_refs s _ _ _ He Hr2 Hd2). vm_compute. reflexivity.
  - apply (drop_tables_reduct all_refs s _ _ _ He Hr Hd). vm_compute. reflexivity.
  - assert (td_name AgentRuntimeSession_table ∈ names metadata) as Hn by in_metadata.
    apply wp_bind. eapply wp_mono; [apply (drop_index_reduct all_refs s _ _ _ _ Hn Hr Hd)| |done].
    intros [] s2 [Hr2 Hd2]. apply (drop_tables_reduct all_refs s _ _ _ He Hr2 Hd2). vm_compute. reflexivity.
Qed.

(** A downgrade leaves what the revisions below it are there for. *)
Lemma drop_table_spares t n : td_name t ≠ n → tracks (pres (λ s, has s t)) (drop_table n).
Proof.
  intros Hn s (st & Hs & Hi). unfold exec, drop_table, mbind, ST_bind, get_world.
  destruct (has_table n s); simpl; [|by exists st]. destruct (dependents n s); [|by exists st].
  exists st. simpl. by rewrite lookup_delete_ne.
Qed.

Lemma drop_index_spares t n i : td_name t ≠ n ∨ i ∉ td_indexes t → tracks (pres (λ s, has s t)) (drop_index n i).
Proof.
  intros Hn s (st & Hs & Hi). unfold exec, drop_index, mbind, ST_bind, get_world. destruct (has_index n i s); [|by exists st].
  unfold has. simpl. destruct (decide (td_name t = n)) as [<-|Hne].
  - rewrite lookup_alter_eq, Hs. eexists. split; [done|]. simpl. destruct Hn as [?|Hn]; [done|].
    rewrite <- (elem_of_list_to_set (C := gset string)) in Hn. set_solver.
  - exists st. by rewrite lookup_alter_ne.
Qed.

(** The tables and indexes that the downgrade of a revision does not touch. *)
Definition spared (r : revision) (t : TableDef) : bool :=
  match r with
  | r0003b => bool_decide (td_name t ≠ td_name ModelInvocation_table) || bool_decide (td_indexes t = [])
  | r0004b => bool_decide (td_name t ∉ drops r0004b) &&
              (bool_decide (td_name t ≠ td_name AgentRuntimeSession_table) || bool_decide (NEW_SESSIONS_INDEX_NAME ∉ td_indexes t))
  | r => bool_decide (td_name t ∉ drops r)
  end.

Lemma downgrade_spares r t : r ≠ r0001 → spared r t = true → tracks (pres (λ s, has s t)) (downgrade r).
Proof.
  intros Hr. assert (∀ l, td_name t ∉ names l → tracks (pres (λ s, has s t)) (for_each l (λ u, drop_table (td_name u)))) as Hl.
  { induction l as [|u l IH]; simpl; [intros _; apply tracks_ret, _|]. rewrite not_elem_of_cons. intros [Hu Hin].
    apply tracks_bind; [apply _|by apply drop_table_spares|]. auto. }
  destruct r; [done|cbn [spared downgrade downgrade_0001 downgrade_0002 downgrade_0003 downgrade_0003b downgrade_0003c downgrade_0004 downgrade_0004b]..].
  - intros Ht%bool_decide_eq_true. apply drop_table_spares. intros E. apply Ht. rewrite E. by left.
  - intros Ht%bool_decide_eq_true. apply drop_table_spares. intros E. apply Ht. rewrite E. by left.
  - intros Ht. apply tracks_for_each; [apply _|]. intros i. apply drop_index_spares.
    apply orb_true_iff in Ht as [Ht|Ht]; apply bool_decide_eq_true in Ht; [by left|right]. rewrite Ht. apply not_elem_of_nil.
  - intros Ht%bool_decide_eq_true. apply tracks_bind; [apply _| |intros _]; apply drop_table_spares; intros E; apply Ht; rewrite E.
    + right. by left.
    + by left.
  - intros Ht%bool_decide_eq_true. by apply Hl.
  - intros [Ht%bool_decide_eq_true Hi]%andb_true_iff. apply tracks_bind; [apply _| |intros _; by apply Hl].
    apply drop_index_spares. apply orb_true_iff in Hi as [Hi|Hi]; apply bool_decide_eq_true in Hi; auto.
Qed.

(** What the revisions below [r] are there for is spared. *)
Lemma below_spared r : r ≠ r0001 → Forall (λ t, spared r t = true) (provided (down_revision r)).
Proof. intros Hr. destruct r; [done|..]; in_metadata. Qed.

Lemma provided_below r t : t ∈ provided (down_revision r) → t ∈ provided (Some r).
Proof. rewrite provided_cons. set_solver. Qed.

Lemma downgrade_spec r s s1 :
  exact s → reduct all_refs s s1 → absent (dropped_above (Some r)) s1 → at_revision (Some r) s1 →
  wp (downgrade r) s1
    (λ _ s2, reduct all_refs s s2 ∧ absent (dropped_above (down_revision r)) s2 ∧ at_revision (down_revision r) s2) never.
Proof.
  intros He Hr Hd Ha. assert (wp (downgrade r) s1 (λ _ s2, at_revision (down_revision r) s2) (λ _ _, True)) as Hat.
  { destruct (decide (r = r0001)) as [->|Hne]; [unfold wp; destruct (downgrade _ _) as [[] ?]; [by apply Forall_nil|done]|].
    assert (∀ t, t ∈ provided (down_revision r) → has (exec (downgrade r) s1) t) as Ht.
    { intros t Ht. apply downgrade_spares; [done|..].
      - exact (proj1 (Forall_forall _ _) (below_spared r Hne) t Ht).
      - apply (proj1 (Forall_forall _ _) Ha). by apply provided_below. }
    unfold wp, exec in *. destruct (downgrade r s1) as [[] s2]; [|done]. by apply Forall_forall. }
  eapply wp_mono; [apply wp_conj; [by apply (downgrade_reduct r s)|exact Hat]| |by intros e w [[] _]].
  intros [] s2 [[Hr2 Hd2] Ha2]. split_and!; [done| |done]. eapply absent_sub, Hd2. destruct r; in_metadata.
Qed.

Lemma downgrades_spec path target v s s1 :
  exact s → down_path 7 target v = Some path →
  reduct all_refs s s1 → absent (dropped_above v) s1 → at_revision v s1 →
  wp (for_each path downgrade) s1
    (λ _ s2, reduct all_refs s s2 ∧ absent (dropped_above target) s2 ∧ at_revision target s2) never.
Proof.
  intros He. generalize 7%nat. revert v s1. induction path as [|r path IH]; intros v s1 fuel Hp Hr Hd Ha.
  - assert (v = target) as ->; [|by apply wp_ret]. destruct fuel; simpl in Hp; case_decide; try done.
    destruct v; [|done]. by destruct (down_path _ _ _).
  - destruct fuel; simpl in Hp; case_decide; try done. destruct v as [r'|]; [|done].
    destruct (down_path fuel target (down_revision r')) as [path'|] eqn:Hp'; simplify_eq/=.
    apply wp_bind. eapply wp_mono; [by apply (downgrade_spec r s)| |done]. intros [] s2 (Hr2 & Hd2 & Ha2). by eapply IH.
Qed.
(** C34: downgrades are undone by upgrades. From a complete database at the head, [alembic
    downgrade] to any revision, or to nothing at all, succeeds: no drop is refused because of a
    foreign key; the tables of the revisions above are gone, and tables that are not of
    models.py are untouched. [alembic upgrade head] then succeeds and restores the schema to
    what it was. *)
Theorem downgrade_upgrade_roundtrip s target :
  exact s →
  ∃ s1, alembic_downgrade target (mkDatabase s (Some head_revision)) = Some (Ret tt, mkDatabase s1 target) ∧
        absent (dropped_above target) s1 ∧ (∀ n, n ∉ names metadata → s1 !! n = s !! n) ∧
        alembic_upgrade head_revision (mkDatabase s1 target) = Some (Ret tt, mkDatabase s (Some head_revision)).
Proof.
  intros He. assert (∃ path, down_path 7 target (Some head_revision) = Some path) as [path Hp].
  { destruct target as [[]|]; by eexists. }
  assert (at_revision (Some head_revision) s) as Hat.
  { apply Forall_forall. intros t Ht. assert (∃ u, u ∈ metadata ∧ td_name u = td_name t ∧ td_indexes t ⊆ td_indexes u)
      as (u & Hu & En & Ei).
    { apply Exists_exists. revert t Ht. apply Forall_forall. in_metadata. }
    exists (full u). rewrite <- En. split; [by apply He|]. clear -Ei. simpl. set_solver. }
  pose proof (downgrades_spec path target (Some head_revision) s s He Hp (exact_reduct s He)) as Hw.
  unfold wp in Hw. unfold alembic_downgrade. cbn [db_version]. rewrite Hp. unfold run_migrations. cbn.
  destruct (for_each path downgrade s) as [[[]|e] s1].
  - exists s1. destruct Hw as (Hr & Hd & Ha); [by intros n ?%elem_of_nil|done|]. split_and!; [done..| |].
    + intros n Hn. specialize (Hr n). by rewrite (proj2 (find_def_None n metadata) Hn) in Hr.
    + destruct (upgrade_to_head (mkDatabase s1 target) Ha) as (s2 & E & Hc & Hg).
      rewrite (regrown s s1 s2) in E by done. exact E.
  - destruct Hw; [by intros n ?%elem_of_nil|done].
Qed.

(** The schema that an upgrade of an empty database makes. *)
Definition fresh_schema : schema := list_to_map ((λ t, (td_name t, full t)) <$> metadata).

Lemma fresh_exact : exact fresh_schema.
Proof.
  split.
  - intros t Ht. apply elem_of_list_to_map_1; [|by apply (list_elem_of_fmap_2 (λ t, (td_name t, full t)))].
    rewrite <- list_fmap_compose. apply metadata_NoDup.
  - intros n st Hn Hd. apply elem_of_list_to_map_2, list_elem_of_fmap in Hn as (t & [= -> ->] & Ht).
    apply find_def_None in Hd. destruct Hd. by apply list_elem_of_fmap_2.
Qed.

Lemma downgrade_upgrade_roundtrip_witness :
  ∃ s1, alembic_downgrade (Some r0003b) (mkDatabase fresh_schema (Some head_revision)) = Some (Ret tt, mkDatabase s1 (Some r0003b)) ∧
        absent (dropped_above (Some r0003b)) s1 ∧ (∀ n, n ∉ names metadata → s1 !! n = fresh_schema !! n) ∧
        alembic_upgrade head_revision (mkDatabase s1 (Some r0003b)) = Some (Ret tt, mkDatabase fresh_schema (Some head_revision)).
Proof. apply (downgrade_upgrade_roundtrip fresh_schema (Some r0003b)), fresh_exact. Defined.

(** A revision by itself is not always undone: [create_all] of 0001 makes all of today's
    tables, so that a database which was upgraded from nothing to 0004 has the table of 0004b
    already, and the downgrade of 0004 is refused because of its foreign key. *)
Lemma downgrade_0004_refused :
  (r ← alembic_upgrade r0004 empty_database; fst <$> alembic_downgrade (Some r0003c) r.2) =
  Some (Raise (DependentObjectsStillExist "agent_runtime_sessions" "agent_runtime_closures")).
Proof. vm_compute. reflexivity. Qed.



